(* ===== verification/_CoqProject ===== *)
-Q . S2P
Prelude.v
Utf8.v
PyFormat.v
JLinkApi.v
RttSim.v
SharedRing.v
ControlBlock.v
Dongle.v
Scenarios.v
LibInvariant.v
Threads.v
ConcurrentProbe.v
MemProbe.v
Refinement.v
