(* ===== verification/Prelude.v ===== *)
(** * Verification of rtt-console's J-Link dongle wrapper

    The repository (src/src/rtt_console/jlink_dongle.py, 72 lines) is a thin
    Python wrapper around pylink's [JLink] object.  Its parts:

    - [JLinkDongle], a dataclass with fields [interface], [speed],
      [chip_name] and the late-initialised handle [jlink];
    - the decorator [check_exception], which catches pylink's
      [JLinkException] and re-raises a [JLinkDongleException] whose message
      depends on the decorated method's [__name__];
    - the decorated methods [connect], [read_rtt], [write_rtt] and
      [reconnect], and the undecorated string helpers [read_rtt_string]
      and [write_rtt_sring] (sic), which call the decorated ones and apply
      Python's UTF-8 codec.

    Control flow: a caller invokes a dongle method; the method issues a
    sequence of calls on the pylink handle stored in [self.jlink] (the
    vendor library, which is not part of this repository); a
    [JLinkException] raised by any of those calls unwinds to the innermost
    [check_exception] wrapper, which relabels it.

    ** Files
    - [Prelude] (this file): the [PyM] state-and-exception monad that models
      Python statement sequencing (an exception keeps the state reached at
      the raise point, it does not roll back), its notation scope
      [pym_scope], the rewrite database [zbits] and the tactics
      [zbits_arith], [zcase], [zlia], [ncase], and the generic lemmas on
      sums, lists ([mapM] over an interval), strings and [Z] bit operations
      shared by the components.
    - [Utf8]: CPython's strict UTF-8 codec as used by [str.encode(.., 'utf-8')]
      (line 67) and [bytes(..).decode('utf-8')] (line 63): encoder with the
      surrogate error, decoder with CPython's three error reasons and
      positions.  Theorems: the two round trips, validity of decoded
      strings, byte ranges and length bounds, error positions, and the
      decoding of a stream read in two chunks (a cut inside a character
      raises "unexpected end of data").
    - [PyFormat]: the conversions of the lines [connect] prints (lines
      44-50): [int.from_bytes], the endianness lookup, and
      [f"{hz / 1e6:.3f}"] in binary64 through Corelib's SpecFloat.
    - [JLinkApi]: the interface of the vendor library as a type class
      [JLinkLib] (one operation per pylink method the source calls, each a
      state transformer that may raise), the Python exception type
      [pyexc], the enum [JLinkInterfaces], [MAX_BUF_SIZE], the library
      contract [JLinkLaws], and a scripted mock library [Mock] (a
      fault-injection test double) used to instantiate the theorems.
    - [RttSim]: what pylink and the J-Link hide, modelled from the spec
      (sections 3, 4.1, 4.3 and 8) since it is not code of the repository:
      an RTT channel as a ring buffer with a read and a write offset and a
      blocking or overwrite policy ([Ring]), refined by a bounded FIFO
      queue, with an observational equivalence of channels that every
      operation respects ([RingEquiv]); and a simulated probe ([Probe])
      that instantiates [JLinkLib] and [JLinkLaws] with an exclusive open,
      pylink's [@open_required] guard and up/down channels.
    - [SharedRing]: one up channel as the memory shared by the target
      firmware and the host (spec section 5), at the level of single
      memory accesses: the firmware writes a byte then publishes it by
      advancing [WrOff]; the host reads [WrOff], copies, then writes
      [RdOff] ([host_step]), or copies before reading [WrOff]
      ([torn_step]).  Interleavings are schedules ([interleave]); the
      invariant [shm_ok]/[host_ok] shows that the barrier-safe read never
      faults, ends within [n + 2] host steps and returns an untorn chunk of
      the byte stream ([shm_read_spec]).
    - [Dongle]: the dataclass as a record, every method as a [PyM]
      computation composed as the source composes them, with a ghost trace
      of the library calls issued and the list of printed lines.  The
      theorems are proved in Sections over an arbitrary [JLinkLib]:
      exact call sequences, exception relabelling, absence of library
      calls when [self.jlink] is unset, bounds of [read_rtt], round trip of
      the string helpers, and the handle invariant of every reachable
      world (rule induction over [reachable]).
    - [Scenarios]: the methods run end to end on the simulated probe: a
      loopback through the string helpers, a short write, data pending
      across [reconnect], a polling loop draining a channel (termination
      in [ceil(n / 336)] polls), an overwrite channel keeping the latest
      [size - 1] bytes (the spec's example is an instance), the five lines [connect] prints, and the
      happy-path invariant (rule induction over [happy]): once connected,
      valid calls keep the dongle connected and raise only codec errors.
      Interleavings of target writes and caller polls are explicit
      schedules ([Harness.run_sched]): on a blocking channel the caller
      receives every accepted byte once and in order; on either policy
      what it receives is a subsequence of what the target sent.  The
      caller's loop [while data := read_rtt(i)] ([Harness.drain], with
      fuel) terminates with the pending bytes.
    - [LibInvariant]: the dongle reaches the probe only through pylink, so
      every public method keeps any invariant that every library call
      keeps (Section [Keeps], proved once against [JLinkLib]; the class
      [LibKeeps] is the library's side of the contract).  The simulated
      probe keeps its channels well formed ([SimKeeps]); hence in every
      run of the system ([System.sys_reach]: method calls interleaved with
      target prints and echoes) all offsets stay inside their buffers.
      Section [Simulation] does the same for a relation between two
      libraries: if every pylink operation of one ([LibSim]) returns what
      the other returns from related states, every program of public
      methods ([run_methods]) does ([run_methods_sim]).
    - [Threads]: two caller threads sharing one dongle, which takes no
      lock.  Every method body is a program of atomic steps ([prog]: an
      action of [Dongle] — a read or assignment of [self.jlink], a pylink
      call, a [print] — and a continuation on its outcome), proved equal
      to the method when run alone; [threads_run] interleaves two
      threads, each a sequence of calls, under any schedule.  Sequences
      of read and write calls are serializable over any library (every
      interleaving is a serial execution); [reconnect] is not.
    - [ConcurrentProbe]: a simulated J-Link whose [rtt_read] runs the
      reads of [SharedRing] interleaved with the firmware, one schedule per
      read; [read_rtt] over the barrier-safe reader is untorn under every
      interleaving, and a caller's loop of [read_rtt] calls ([cpoll])
      receives the stream without loss, repetition or reordering.
    - [ControlBlock]: the RTT control block in the target's RAM (spec
      sections 3, 4.3 and 6, after SEGGER's published layout): marker,
      channel counts and 24-byte descriptors as little-endian 32-bit words
      ([le_split]/[le_combine] with [Z.land], [Z.shiftr], [Z.lor],
      [Z.shiftl]), the buffers after them ([layout]), the marker scan
      ([find_marker], first occurrence), the decoding and validation of
      the channel table ([decode_cb], [discover]) and the write-back of
      bytes ([poke]).  Theorems: word round trip, a laid-out block is found
      and decodes to its channels, and writing back one channel's offsets
      or buffer gives the layout of the updated channels.
    - [MemProbe]: a J-Link that works on target memory ([mem_lib]):
      [rtt_start] scans for the control block and caches its offset,
      [rtt_read]/[rtt_write] read the channel's descriptor and write the
      offsets and buffer bytes back.  It discharges the simulation
      interface [LibSim] of [LibInvariant] for the relation [mrel] (the
      memory holds a control block describing the probe's channels), so
      any program of the dongle's methods behaves on it exactly as on the
      channel-level probe ([mem_probe_refines]).
    - [Refinement]: the channel manager of the spec (sections 4.3 and 8)
      as an abstract state machine ([ChannelSpec.astep]: disconnected or
      connected with per-channel FIFO queues of bounded capacity,
      [BufferFull] on a blocking write that does not fit, channels
      rediscovered empty by [reconnect]) and the theorem that [read_rtt],
      [write_rtt] and [reconnect] on the simulated probe refine it through
      the abstraction [ByteCalls.abs] on every run that avoids the two
      cases where the code departs from it ([ByteCalls.diverges]: a short
      blocking write, a [reconnect] with data pending), each of which is
      shown observably different; the code's errors are mapped by
      [code_result]: [NotConnected] shows as [AttributeError],
      [InvalidChannel] and [BufferFull] as the generic read/write message,
      and the write count is dropped.

    ** Bounds and recursion
    Every definition is executable.  The codec recurses structurally on
    the input; the decoder's correctness proofs use strong induction on the
    length ([list_length_ind]).  The ring's [ring_read] is structural in
    its byte budget [n] and [ring_write] in the data; offsets wrap by a
    comparison, so all offset arithmetic is linear and [lia] decides it.
    The caller's drain loop is given [fuel] polls; [drain_terminates]
    shows that [fuel] with [length q + 336 <= fuel * 336] (one poll per
    [MAX_BUF_SIZE] bytes plus the final empty poll) always suffices, so the
    fuel never cuts a run short.  The shared-memory read runs its schedule
    and then at most [n + 2] host steps ([mhost] bounds the steps left),
    so its fuel is enough too.  A thread's program is a finite tree of
    actions, so [Threads.prun] runs it to its end by structural recursion
    and needs no fuel; a schedule only chooses which thread steps next.
    Integers are [Z] and bytes are [Z] values in [[0, 256)], the ranges
    being hypotheses ([Utf8.is_byte]) or results ([JLinkLaws]).

    ** Not modelled
    pylink and the J-Link DLL themselves (USB transport, chip handshake)
    are only the interface [JLinkLib], its contract and the simulators;
    the torn view of a buffer (spec section 5) is modelled for reads of up
    channels only, host writes to down channels being atomic in the
    model; the memory-level J-Link runs without the firmware (the
    concurrent probe has the firmware but not the control block), and the
    channel names ([sName]) are written as a null pointer; colorama is
    reduced to its three escape strings; terminal output is the list of
    printed lines.  Threads switch between the dongle's accesses to
    [self.jlink], its pylink calls and its prints; a pylink call itself
    is taken as one step (two threads inside the DLL at once are not
    modelled), and the second
    read of [self.jlink] on line 54, for the class constant
    [MAX_BUF_SIZE], is merged with the first, which it cannot
    contradict.  The finalization of a replaced JLink object is not
    modelled: when line 37 rebinds [self.jlink], CPython drops the last
    reference to the old object and pylink's [__del__] closes it (spec
    section 4.1 also releases the probe on destruction); the simulated
    probe keeps such an object open, so no theorem is stated about a
    second [connect] on a held probe.

    ** Findings (see PROJECT.json)
    A [read_rtt] in another thread during [reconnect] can reach the
    closed JLink object and fail;
    [connect] always selects SWD whatever [interface] holds; a failing
    [connect] leaves the opened handle in [self.jlink]; a multi-byte character split between
    two reads raises [UnicodeDecodeError]; read/write errors drop the
    underlying cause; [write_rtt] hides short writes; [reconnect] returns
    data buffered before it; the methods raise [AttributeError] rather than
    a dongle error before the first [connect]; an error in the [connect]
    called by [reconnect] is labelled "connect"; the spec's overwrite
    example asks for 1024 bytes from a channel that can hold 1023. *)

From stdpp Require Export base list strings.
From Stdlib Require Export ZArith Lia.

(** ** The Python statement monad *)

(** [PyM S E A]: a computation on state [S] that returns an [A] or raises an
    [E].  A raise keeps the state reached so far, as Python does. *)
Definition PyM (S E A : Type) : Type := S -> S * (E + A).

Section PyMonad.
Context {S E : Type}.

Definition pym_ret {A} (a : A) : PyM S E A := fun s => (s, inr a).

Definition pym_bind {A B} (m : PyM S E A) (k : A -> PyM S E B) : PyM S E B :=
  fun s =>
    match m s with
    | (s', inl e) => (s', inl e)
    | (s', inr a) => k a s'
    end.

Definition pym_raise {A} (e : E) : PyM S E A := fun s => (s, inl e).

End PyMonad.

Declare Scope pym_scope.
Delimit Scope pym_scope with pym.
Notation "x <- m ;; k" := (pym_bind m (fun x => k))
  (at level 100, m at next level, right associativity) : pym_scope.
Notation "m ;;; k" := (pym_bind m (fun _ => k))
  (at level 100, right associativity) : pym_scope.
Notation "'ret' a" := (pym_ret a) (at level 10) : pym_scope.

(** ** Sum-type helpers shared by the pure codecs *)

(** Prepend to the success branch of a sum. *)
Definition sum_cons {E A} (x : A) (r : E + list A) : E + list A :=
  match r with
  | inl e => inl e
  | inr l => inr (x :: l)
  end.

(** Append a prefix to the success branch of a sum. *)
Definition sum_app {E A} (p : list A) (r : E + list A) : E + list A :=
  match r with
  | inl e => inl e
  | inr l => inr (p ++ l)
  end.

Lemma sum_cons_inr {E A} (x : A) (r : E + list A) l :
  sum_cons x r = inr l -> exists l', r = inr l' /\ l = x :: l'.
Proof. destruct r; simpl; intros H; simplify_eq; eauto. Qed.

Lemma sum_cons_inl {E A} (x : A) (r : E + list A) e :
  sum_cons x r = inl e -> r = inl e.
Proof. destruct r; simpl; intros H; by simplify_eq. Qed.

Lemma sum_app_inr {E A} (p : list A) (r : E + list A) l :
  sum_app p r = inr l -> exists l', r = inr l' /\ l = p ++ l'.
Proof. destruct r; simpl; intros H; simplify_eq; eauto. Qed.

Lemma sum_app_inl {E A} (p : list A) (r : E + list A) e :
  sum_app p r = inl e -> r = inl e.
Proof. destruct r; simpl; intros H; by simplify_eq. Qed.

(** ** Lists *)

(** Strong induction on the length of a list, for functions that consume a
    variable number of elements per step. *)
Lemma list_length_ind {A} (P : list A -> Prop) :
  (forall l, (forall l', length l' < length l -> P l') -> P l) ->
  forall l, P l.
Proof.
  intros Hind l. remember (length l) as n eqn:Hn.
  revert l Hn. induction n as [n IH] using lt_wf_ind. intros l ->.
  apply Hind. intros l' Hlt. by apply (IH (length l')).
Qed.

(** [mapM] over an interval of indices succeeds exactly when every index
    has a value, and then lists those values. *)
Lemma mapM_seq_Some {A} (f : nat -> option A) s k q :
  mapM f (seq s k) = Some q <->
  length q = k /\ forall j, j < k -> f (s + j) = q !! j.
Proof.
  revert s q. induction k as [|k IH]; intros s q; cbn.
  - split; [intros [= <-]; split; [done | lia] | intros [Hl _]; by destruct q].
  - destruct (f s) as [x|] eqn:Hx; cbn.
    + destruct (mapM f (seq (S s) k)) as [l|] eqn:Hl; cbn.
      * apply IH in Hl as [Hlen Hl]. split.
        -- intros [= <-]. split; [cbn; lia|]. intros [|j] Hj; cbn.
           ++ by rewrite Nat.add_0_r.
           ++ rewrite <- Hl by lia. f_equal. lia.
        -- intros [Hlen' Hq]. destruct q as [|y q]; [done|].
           specialize (Hq 0 ltac:(lia)) as H0. rewrite Nat.add_0_r, Hx in H0.
           cbn in H0. injection H0 as <-. do 2 f_equal. apply list_eq. intros j.
           destruct (decide (j < k)).
           ++ rewrite <- Hl by done. replace (S s + j) with (s + S j) by lia.
              apply (Hq (S j)). lia.
           ++ cbn in Hlen'.
              rewrite (lookup_ge_None_2 l j), (lookup_ge_None_2 q j); [done | lia..].
      * split; [done|]. intros [Hlen Hq]. destruct q as [|y q]; [done|].
        enough (mapM f (seq (S s) k) = Some q) by congruence.
        apply IH. split; [cbn in *; lia|]. intros j Hj.
        replace (S s + j) with (s + S j) by lia. apply (Hq (S j)). lia.
    + split; [done|]. intros [Hlen Hq]. destruct q as [|y q]; [done|].
      specialize (Hq 0 ltac:(lia)). rewrite Nat.add_0_r in Hq. cbn in Hq. congruence.
Qed.

(** ... and it succeeds whenever every index has a value. *)
Lemma mapM_seq_is_Some {A} (f : nat -> option A) s k :
  (forall j, j < k -> is_Some (f (s + j))) ->
  exists q, mapM f (seq s k) = Some q.
Proof.
  revert s. induction k as [|k IH]; intros s Hf; cbn; [by eexists|].
  destruct (Hf 0 ltac:(lia)) as [x Hx]. rewrite Nat.add_0_r in Hx. rewrite Hx.
  destruct (IH (S s)) as [l ->]; [|by eexists].
  intros j Hj. replace (S s + j) with (s + S j) by lia. apply Hf. lia.
Qed.

(** A property of every element survives taking a subsequence. *)
Lemma Forall_sublist_of {A} (P : A -> Prop) l1 l2 :
  l1 `sublist_of` l2 -> Forall P l2 -> Forall P l1.
Proof.
  induction 1 as [|x l1 l2 _ IH|x l1 l2 _ IH]; intros H; [done| |];
    apply Forall_cons in H as [??]; auto.
Qed.

(** Taking as many elements as exist or [n], whichever is fewer. *)
Lemma take_min_length {A} (l : list A) n : take (min (length l) n) l = take n l.
Proof.
  destruct (Nat.le_ge_cases (length l) n).
  - rewrite Nat.min_l by done. by rewrite !take_ge by lia.
  - by rewrite Nat.min_r.
Qed.

(** ** Strings *)

Lemma list_ascii_of_string_app (s t : string) :
  String.list_ascii_of_string (s +:+ t) =
  String.list_ascii_of_string s ++ String.list_ascii_of_string t.
Proof. induction s as [|a s IH]; simpl; [done | by rewrite IH]. Qed.

(** Appending the same suffix is injective. *)
Lemma string_app_inj_r (s1 s2 t : string) : s1 +:+ t = s2 +:+ t -> s1 = s2.
Proof.
  intros H. apply (f_equal String.list_ascii_of_string) in H.
  rewrite !list_ascii_of_string_app in H. apply app_inv_tail in H.
  rewrite <- (String.string_of_list_ascii_of_string s1),
          <- (String.string_of_list_ascii_of_string s2).
  by rewrite H.
Qed.

(** ** Bit operations on [Z] as arithmetic *)

Open Scope Z_scope.

(** Or-ing a value below [2^k] into a value whose low [k] bits are clear is
    an addition. *)
Lemma lor_low_add a b k :
  0 <= k -> a mod 2 ^ k = 0 -> 0 <= b < 2 ^ k -> Z.lor a b = a + b.
Proof.
  intros Hk Ha Hb.
  rewrite Z.add_nocarry_lxor, Z.lxor_lor; [done| |];
    apply Z.bits_inj'; intros n Hn; rewrite Z.land_spec, Z.bits_0;
    (destruct (Z.lt_ge_cases n k) as [Hlt|Hge];
     [ rewrite <- (Z.mod_pow2_bits_low a k n) by lia; rewrite Ha, Z.bits_0; done
     | rewrite <- (Z.mod_small b (2 ^ k)) by lia;
       rewrite Z.mod_pow2_bits_high by lia; apply andb_false_r ]).
Qed.

Lemma land_63 a : Z.land a 63 = a mod 64.
Proof. exact (Z.land_ones a 6 ltac:(lia)). Qed.

Lemma shiftr_div a k : 0 <= k -> Z.shiftr a k = a / 2 ^ k.
Proof. apply Z.shiftr_div_pow2. Qed.

Lemma shiftl_mul a k : 0 <= k -> Z.shiftl a k = a * 2 ^ k.
Proof. apply Z.shiftl_mul_pow2. Qed.

(** Hints of the development: the side conditions on concrete data
    (bytes, code points, well-formed rings) that the witnesses discharge. *)
Create HintDb rtt.
#[export] Hint Constructors Forall : rtt.

Create Rewrite HintDb zbits.
#[export] Hint Rewrite land_63 : zbits.
#[export] Hint Rewrite shiftr_div shiftl_mul using lia : zbits.

(** [lia] with the Euclidean equations of [/] and [mod] by constants. *)
Ltac zlia := Z.div_mod_to_equations; lia.

(** Turn shifts and masks into [/], [*] and [mod], then let
    [lor_low_add] absorb each [Z.lor] of a tag byte with a payload. *)
Ltac zbits_arith :=
  autorewrite with zbits; cbn [Z.pow Z.pow_pos Pos.iter Z.mul];
  repeat match goal with
  | |- context [Z.lor ?c ?x] =>
      first [ rewrite (lor_low_add c x 6) by zlia
            | rewrite (lor_low_add c x 5) by zlia
            | rewrite (lor_low_add c x 4) by zlia
            | rewrite (lor_low_add c x 3) by zlia ]
  end.

(** Split on every boolean comparison of [Z] in the goal, closing the
    branches whose comparison results contradict the hypotheses. *)
Ltac zcase :=
  repeat match goal with
  | |- context [?a <? ?b] => destruct (Z.ltb_spec a b); try (exfalso; zlia)
  | |- context [?a <=? ?b] => destruct (Z.leb_spec a b); try (exfalso; zlia)
  | |- context [?a =? ?b] => destruct (Z.eqb_spec a b); try (exfalso; zlia)
  end; cbn [andb orb negb].

(** The same on a hypothesis. *)
Ltac zcase_in H :=
  repeat match type of H with
  | context [?a <? ?b] => destruct (Z.ltb_spec a b); try (exfalso; zlia)
  | context [?a <=? ?b] => destruct (Z.leb_spec a b); try (exfalso; zlia)
  | context [?a =? ?b] => destruct (Z.eqb_spec a b); try (exfalso; zlia)
  end; cbn [andb orb negb] in H.

Close Scope Z_scope.

(** Split on every boolean comparison of [nat] in the goal, then close
    what [lia] can. *)
Ltac ncase :=
  repeat match goal with
  | |- context [Nat.ltb ?a ?b] => destruct (Nat.ltb_spec a b)
  | |- context [Nat.leb ?a ?b] => destruct (Nat.leb_spec a b)
  | |- context [Nat.eqb ?a ?b] => destruct (Nat.eqb_spec a b)
  end; try lia.
