(* ===== verification/Utf8.v ===== *)
(** * CPython's strict UTF-8 codec

    The dongle's string helpers call [str.encode(data, 'utf-8')]
    (jlink_dongle.py line 67) and [bytes(data).decode('utf-8')] (line 63).
    This file models both as CPython implements them
    (Objects/stringlib/codecs.h: [utf8_encoder], [utf8_decode]; and the
    error reporting of [unicode_decode_utf8]): a Python [str] is a list of
    code points in [0, 0x10FFFF]; [bytes] is a list of [Z] in [0, 256).
    Encoding raises [UnicodeEncodeError] ('surrogates not allowed') on a run
    of surrogates; decoding raises [UnicodeDecodeError] with one of CPython's
    three reasons and its start and end positions. *)

From S2P Require Import Prelude.

Open Scope Z_scope.

Module Utf8.

(** ** Data *)

(** Python's [str] invariant: every code point is in [0, 0x10FFFF]. *)
Definition py_char (c : Z) : Prop := 0 <= c <= 0x10FFFF.

(** [Py_UNICODE_IS_SURROGATE]. *)
Definition is_surrogate (c : Z) : bool := (0xD800 <=? c) && (c <=? 0xDFFF).

(** A Unicode scalar value: what UTF-8 can encode. *)
Definition scalar (c : Z) : Prop := py_char c /\ is_surrogate c = false.

Definition is_byte (b : Z) : Prop := 0 <= b < 256.

(** [IS_CONTINUATION_BYTE]: [0x80 <= b < 0xC0]. *)
Definition is_cont (b : Z) : bool := (0x80 <=? b) && (b <? 0xC0).

(** ** Encoder *)

(** [UnicodeEncodeError('utf-8', s, start, end, 'surrogates not allowed')]. *)
Record encode_error := { enc_start : Z; enc_end : Z }.

(** The encoder's error handler extends the error over the whole run of
    surrogates: [while (endpos < size && IS_SURROGATE(data[endpos])) endpos++]. *)
Fixpoint surrogate_run_end (pos : Z) (s : list Z) : Z :=
  match s with
  | [] => pos
  | c :: r => if is_surrogate c then surrogate_run_end (pos + 1) r else pos
  end.

(** One code point, in the branch order of [utf8_encoder]; [None] is the
    surrogate branch. *)
Definition encode_char (ch : Z) : option (list Z) :=
  if ch <? 0x80 then Some [ch]
  else if ch <? 0x0800 then
    Some [Z.lor 0xC0 (Z.shiftr ch 6); Z.lor 0x80 (Z.land ch 0x3F)]
  else if is_surrogate ch then None
  else if ch <? 0x10000 then
    Some [Z.lor 0xE0 (Z.shiftr ch 12);
          Z.lor 0x80 (Z.land (Z.shiftr ch 6) 0x3F);
          Z.lor 0x80 (Z.land ch 0x3F)]
  else
    Some [Z.lor 0xF0 (Z.shiftr ch 18);
          Z.lor 0x80 (Z.land (Z.shiftr ch 12) 0x3F);
          Z.lor 0x80 (Z.land (Z.shiftr ch 6) 0x3F);
          Z.lor 0x80 (Z.land ch 0x3F)].

Fixpoint encode_from (pos : Z) (s : list Z) : encode_error + list Z :=
  match s with
  | [] => inr []
  | c :: r =>
      match encode_char c with
      | Some bs => sum_app bs (encode_from (pos + 1) r)
      | None => inl {| enc_start := pos; enc_end := surrogate_run_end (pos + 1) r |}
      end
  end.

(** [str.encode(s, 'utf-8')] with the strict error handler. *)
Definition encode (s : list Z) : encode_error + list Z := encode_from 0 s.

(** ** Decoder *)

Inductive decode_reason :=
| InvalidStartByte          (** "invalid start byte" *)
| InvalidContinuationByte   (** "invalid continuation byte" *)
| UnexpectedEndOfData.      (** "unexpected end of data" *)

#[export] Instance decode_reason_eq_dec : EqDecision decode_reason.
Proof. solve_decision. Defined.

(** [UnicodeDecodeError('utf-8', b, start, end, reason)]. *)
Record decode_error := { dec_reason : decode_reason; dec_start : Z; dec_end : Z }.

Definition derr (r : decode_reason) (start len : Z) : decode_error :=
  {| dec_reason := r; dec_start := start; dec_end := start + len |}.

(** [utf8_decode] followed by the strict handler of [unicode_decode_utf8]:
    the first malformed sequence raises.  [pos] is the offset of [bs] in
    the whole input.  An invalid continuation after [k] good bytes ends the
    error at [start + k]; running out of input ends it at the end of the
    input. *)
Fixpoint decode_from (pos : Z) (bs : list Z) : decode_error + list Z :=
  match bs with
  | [] => inr []
  | ch :: r1 =>
    if ch <? 0x80 then sum_cons ch (decode_from (pos + 1) r1)
    else if ch <? 0xE0 then
      (* \xC2\x80-\xDF\xBF -- 0080-07FF *)
      if ch <? 0xC2 then inl (derr InvalidStartByte pos 1)
      else match r1 with
      | [] => inl (derr UnexpectedEndOfData pos 1)
      | ch2 :: r2 =>
        if negb (is_cont ch2) then inl (derr InvalidContinuationByte pos 1)
        else sum_cons (Z.shiftl ch 6 + ch2 - (Z.shiftl 0xC0 6 + 0x80))
                      (decode_from (pos + 2) r2)
      end
    else if ch <? 0xF0 then
      (* \xE0\xA0\x80-\xEF\xBF\xBF -- 0800-FFFF *)
      match r1 with
      | [] => inl (derr UnexpectedEndOfData pos 1)
      | ch2 :: r2 =>
        if negb (is_cont ch2) || (if ch2 <? 0xA0 then ch =? 0xE0 else ch =? 0xED)
        then inl (derr InvalidContinuationByte pos 1)
        else match r2 with
        | [] => inl (derr UnexpectedEndOfData pos 2)
        | ch3 :: r3 =>
          if negb (is_cont ch3) then inl (derr InvalidContinuationByte pos 2)
          else sum_cons (Z.shiftl ch 12 + Z.shiftl ch2 6 + ch3
                           - (Z.shiftl 0xE0 12 + Z.shiftl 0x80 6 + 0x80))
                        (decode_from (pos + 3) r3)
        end
      end
    else if ch <? 0xF5 then
      (* \xF0\x90\x80\x80-\xF4\x8F\xBF\xBF -- 10000-10FFFF *)
      match r1 with
      | [] => inl (derr UnexpectedEndOfData pos 1)
      | ch2 :: r2 =>
        if negb (is_cont ch2) || (if ch2 <? 0x90 then ch =? 0xF0 else ch =? 0xF4)
        then inl (derr InvalidContinuationByte pos 1)
        else match r2 with
        | [] => inl (derr UnexpectedEndOfData pos 2)
        | ch3 :: r3 =>
          if negb (is_cont ch3) then inl (derr InvalidContinuationByte pos 2)
          else match r3 with
          | [] => inl (derr UnexpectedEndOfData pos 3)
          | ch4 :: r4 =>
            if negb (is_cont ch4) then inl (derr InvalidContinuationByte pos 3)
            else sum_cons (Z.shiftl ch 18 + Z.shiftl ch2 12 + Z.shiftl ch3 6 + ch4
                             - (Z.shiftl 0xF0 18 + Z.shiftl 0x80 12
                                + Z.shiftl 0x80 6 + 0x80))
                          (decode_from (pos + 4) r4)
          end
        end
      end
    else inl (derr InvalidStartByte pos 1)
  end.

(** [bytes.decode('utf-8')] with the strict error handler. *)
Definition decode (bs : list Z) : decode_error + list Z := decode_from 0 bs.

(** [bytes(data)] for a list of ints: [ValueError('bytes must be in range(0,
    256)')] when an element is out of range. *)
Definition bytes_of_list (l : list Z) : option (list Z) :=
  if forallb (fun b => (0 <=? b) && (b <? 256)) l then Some l else None.

End Utf8.

#[export] Hint Extern 1 (Utf8.is_byte _) => unfold Utf8.is_byte; lia : rtt.
#[export] Hint Extern 1 (Utf8.py_char _) => unfold Utf8.py_char; lia : rtt.

(** ** Lemmas *)

Module Utf8Facts.
Import Utf8.

Lemma is_surrogate_false c : is_surrogate c = false <-> c < 0xD800 \/ 0xDFFF < c.
Proof. unfold is_surrogate. zcase; split; intros; (done || lia). Qed.

Lemma is_surrogate_true c : is_surrogate c = true <-> 0xD800 <= c <= 0xDFFF.
Proof. unfold is_surrogate. zcase; split; intros; (done || lia). Qed.

(** The encoder's bytes in arithmetic form, one lemma per branch. *)
Lemma encode_char_1 c : 0 <= c < 0x80 -> encode_char c = Some [c].
Proof. intros. unfold encode_char. by zcase. Qed.

Lemma encode_char_2 c :
  0x80 <= c < 0x800 -> encode_char c = Some [0xC0 + c / 64; 0x80 + c mod 64].
Proof. intros. unfold encode_char. zcase. zbits_arith. reflexivity. Qed.

Lemma encode_char_3 c :
  0x800 <= c < 0x10000 -> is_surrogate c = false ->
  encode_char c = Some [0xE0 + c / 4096; 0x80 + (c / 64) mod 64; 0x80 + c mod 64].
Proof. intros ? Hs. unfold encode_char. rewrite Hs. zcase. zbits_arith. reflexivity. Qed.

Lemma encode_char_4 c :
  0x10000 <= c <= 0x10FFFF ->
  encode_char c = Some [0xF0 + c / 262144; 0x80 + (c / 4096) mod 64;
                        0x80 + (c / 64) mod 64; 0x80 + c mod 64].
Proof.
  intros. unfold encode_char.
  replace (is_surrogate c) with false by (unfold is_surrogate; zcase; done).
  zcase. zbits_arith. reflexivity.
Qed.

(** Decode one step of a concrete byte prefix: unfold one [decode_from],
    decide its comparisons, and compare the decoded code point. *)
Local Ltac decode_step :=
  cbn [app decode_from]; unfold is_cont; zcase; zbits_arith;
  try (f_equal; zlia).

(** The decoder reads back one encoded code point and resumes after it. *)
Lemma decode_encode_char c bc rest pos :
  py_char c -> encode_char c = Some bc ->
  decode_from pos (bc ++ rest) =
  sum_cons c (decode_from (pos + Z.of_nat (length bc)) rest).
Proof.
  unfold py_char. intros Hc He.
  destruct (Z.lt_ge_cases c 0x80) as [H1|H1].
  { rewrite encode_char_1 in He by lia. simplify_eq. decode_step. }
  destruct (Z.lt_ge_cases c 0x800) as [H2|H2].
  { rewrite encode_char_2 in He by lia. simplify_eq. decode_step. }
  destruct (is_surrogate c) eqn:Hs.
  { unfold encode_char in He. rewrite Hs in He. zcase_in He. done. }
  destruct (Z.lt_ge_cases c 0x10000) as [H3|H3].
  { rewrite encode_char_3 in He by (done || lia). simplify_eq.
    apply is_surrogate_false in Hs. decode_step. }
  rewrite encode_char_4 in He by lia. simplify_eq. decode_step.
Qed.

(** Each successful step of the decoder consumed the canonical encoding of
    a scalar value. *)
Local Ltac prefix_of l rest :=
  lazymatch l with
  | rest => constr:(@nil Z)
  | ?x :: ?l' => let p := prefix_of l' rest in constr:(x :: p)
  end.

(** Close the success branch of one decoding step: exhibit the consumed
    prefix, its code point, and check the arithmetic. *)
Local Ltac step_ok H :=
  lazymatch type of H with
  | sum_cons ?v (decode_from _ ?rest) = ?r =>
    lazymatch goal with
    | |- (exists c bc rest', ?l = _ /\ _) \/ _ =>
      let bc := prefix_of l rest in
      subst r; left; exists v, bc, rest; split; [reflexivity|];
      zbits_arith;
      split; [ first [ rewrite encode_char_1 by zlia
                     | rewrite encode_char_2 by zlia
                     | rewrite encode_char_3 by (rewrite ?is_surrogate_false; zlia)
                     | rewrite encode_char_4 by zlia ];
               repeat f_equal; zlia |];
      split; [unfold scalar, py_char; rewrite is_surrogate_false; zlia|];
      reflexivity
    end
  end.

(** Close an error branch: the error starts at the current position. *)
Local Ltac step_err H :=
  lazymatch type of H with
  | inl _ = ?r =>
    subst r; right; eexists; split; [reflexivity|]; cbn;
    split; [reflexivity|]; split; [lia|]; split; [lia|];
    first [discriminate | intros; lia]
  end.

(** Destruct the remaining input until the decoder's branch is decided. *)
Local Ltac next_bytes H bs :=
  repeat lazymatch type of H with
  | sum_cons _ _ = _ => fail
  | inl _ = _ => fail
  | _ => destruct bs as [|?b bs]; cbv iota beta in H; zcase_in H
  end.

(** One step of the decoder on a non-empty input: either it decodes the
    canonical encoding of a scalar value and continues after it, or it
    raises at the current position, reporting at most four bytes and, for
    "unexpected end of data", ending at the end of the input. *)
Lemma decode_from_step p b bs :
  Forall is_byte (b :: bs) ->
  (exists c bc rest, b :: bs = bc ++ rest /\ encode_char c = Some bc /\
     scalar c /\
     decode_from p (b :: bs) = sum_cons c (decode_from (p + Z.of_nat (length bc)) rest))
  \/ (exists e, decode_from p (b :: bs) = inl e /\ dec_start e = p /\
     p < dec_end e <= p + Z.of_nat (length (b :: bs)) /\ dec_end e <= p + 4 /\
     (dec_reason e = UnexpectedEndOfData ->
      dec_end e = p + Z.of_nat (length (b :: bs)))).
Proof.
  intros [Hb _]%Forall_cons. unfold is_byte in Hb.
  set (r := decode_from p (b :: bs)).
  assert (Hr : decode_from p (b :: bs) = r) by reflexivity. clearbody r.
  cbn [decode_from] in Hr. unfold is_cont in Hr. zcase_in Hr.
  all: next_bytes Hr bs; first [step_ok Hr | step_err Hr].
Qed.

Lemma decode_from_cons_ok pos b bs s :
  Forall is_byte (b :: bs) -> decode_from pos (b :: bs) = inr s ->
  exists c bc rest s',
    s = c :: s' /\ b :: bs = bc ++ rest /\ encode_char c = Some bc /\
    scalar c /\ decode_from (pos + Z.of_nat (length bc)) rest = inr s'.
Proof.
  intros Hb H. destruct (decode_from_step pos b bs Hb)
    as [(c & bc & rest & Heq & Hc & Hsc & Hd) | (e & He & _)]; [|congruence].
  rewrite Hd in H. apply sum_cons_inr in H as (s' & Hs' & ->). eauto 10.
Qed.

End Utf8Facts.

Module Utf8Thms.
Import Utf8 Utf8Facts.

(** Every branch of [encode_char] emits between one and four bytes. *)
Lemma encode_char_length c bc :
  encode_char c = Some bc -> (1 <= length bc <= 4)%nat.
Proof.
  unfold encode_char. intros H.
  repeat (case_match; simplify_eq; try (simpl; lia)).
Qed.

(** The whole decoding, step by step: a successful decoding yields scalar
    values whose re-encoding is the input. *)
Lemma decode_from_ok bs : forall p q s,
  Forall is_byte bs -> decode_from p bs = inr s ->
  Forall scalar s /\ encode_from q s = inr bs.
Proof.
  induction bs as [bs IH] using list_length_ind.
  intros p q s Hb H. destruct bs as [|b bs'].
  { simpl in H. simplify_eq. split; [constructor | reflexivity]. }
  destruct (decode_from_cons_ok _ _ _ _ Hb H)
    as (c & bc & rest & s' & -> & Heq & Hc & Hsc & Hr).
  pose proof (encode_char_length _ _ Hc) as Hlen.
  rewrite Heq in Hb. apply Forall_app in Hb as [_ Hrest].
  destruct (IH rest) with (p := (p + Z.of_nat (length bc))%Z) (q := (q + 1)%Z) (s := s')
    as [Hs' He]; [rewrite Heq, length_app; lia | done | done |].
  split; [by constructor|]. simpl. by rewrite Hc, He, Heq.
Qed.

Lemma encode_char_None c : encode_char c = None <-> is_surrogate c = true.
Proof.
  unfold encode_char. rewrite is_surrogate_true.
  destruct (is_surrogate c) eqn:Hs;
    [apply is_surrogate_true in Hs | apply is_surrogate_false in Hs];
    zcase; split; intros; (done || lia).
Qed.

Lemma encode_char_bytes c bc :
  py_char c -> encode_char c = Some bc -> Forall is_byte bc.
Proof.
  unfold py_char. intros Hc He.
  destruct (Z.lt_ge_cases c 0x80); [rewrite encode_char_1 in He by lia|].
  2: destruct (Z.lt_ge_cases c 0x800); [rewrite encode_char_2 in He by lia|].
  3: destruct (is_surrogate c) eqn:Hs; [by apply encode_char_None in Hs; congruence|].
  3: destruct (Z.lt_ge_cases c 0x10000); [rewrite encode_char_3 in He by (done || lia)
                                         | rewrite encode_char_4 in He by lia].
  all: simplify_eq; repeat constructor; unfold is_byte; zlia.
Qed.

Lemma encode_from_decode s : forall p q bs,
  Forall py_char s -> encode_from p s = inr bs -> decode_from q bs = inr s.
Proof.
  induction s as [|c s IH]; intros p q bs Hs H; simpl in H.
  { by simplify_eq. }
  apply Forall_cons in Hs as [Hc Hs].
  destruct (encode_char c) as [bc|] eqn:Ec; [|discriminate].
  apply sum_app_inr in H as (bs' & Hbs' & ->).
  rewrite (decode_encode_char c bc bs' q Hc Ec). by rewrite (IH _ _ _ Hs Hbs').
Qed.

(** The run of surrogates reported by the encoder. *)
Lemma surrogate_run_end_spec post : forall p,
  exists run post', post = run ++ post' /\
    Forall (fun c => is_surrogate c = true) run /\
    (forall c r, post' = c :: r -> is_surrogate c = false) /\
    surrogate_run_end p post = p + Z.of_nat (length run).
Proof.
  induction post as [|c post IH]; intros p.
  { exists [], []. repeat split; [constructor | by intros ?? | simpl; lia]. }
  simpl. destruct (is_surrogate c) eqn:Hs.
  - destruct (IH (p + 1)) as (run & post' & -> & Hrun & Hpost & ->).
    exists (c :: run), post'. repeat split; [by constructor | done | simpl; lia].
  - exists [], (c :: post). repeat split; [constructor | by intros ?? [= <- _] | simpl; lia].
Qed.

(** [bytes(l)] accepts a list of bytes unchanged. *)
Lemma bytes_of_list_ok l : Forall is_byte l -> bytes_of_list l = Some l.
Proof.
  intros Hl. unfold bytes_of_list.
  replace (forallb _ l) with true; [done|]. symmetry. apply forallb_forall.
  intros b Hin. eapply List.Forall_forall in Hl; [|exact Hin]. unfold is_byte in Hl.
  apply andb_true_intro; split; [apply Z.leb_le | apply Z.ltb_lt]; lia.
Qed.

(** Decoding is sequential: a prefix that decodes completely is decoded the
    same way whatever follows it. *)
Lemma decode_from_app_ok p : forall pos r s,
  Forall is_byte p -> decode_from pos p = inr s ->
  decode_from pos (p ++ r) = sum_app s (decode_from (pos + Z.of_nat (length p)) r).
Proof.
  induction p as [p IH] using list_length_ind.
  intros pos r s Hb H. destruct p as [|b p'].
  { simpl in H. simplify_eq. simpl. rewrite Z.add_0_r. by destruct (decode_from pos r). }
  destruct (decode_from_cons_ok _ _ _ _ Hb H)
    as (c & bc & rest & s' & -> & Heq & Hc & Hsc & Hr).
  pose proof (encode_char_length _ _ Hc) as Hlen.
  rewrite Heq in Hb |- *. apply Forall_app in Hb as [_ Hrest].
  rewrite <- app_assoc, (decode_encode_char c bc (rest ++ r) pos (proj1 Hsc) Hc).
  rewrite (IH rest) with (s := s'); [| rewrite Heq, length_app; lia | done | done].
  rewrite length_app, Nat2Z.inj_add, Z.add_assoc.
  by destruct (decode_from _ r).
Qed.

(** The first [k] bytes of a multi-byte character, [0 < k < length], end
    the input too early. *)
Lemma decode_truncated_char c bc k pos :
  scalar c -> encode_char c = Some bc -> (0 < k < length bc)%nat ->
  decode_from pos (take k bc) = inl (derr UnexpectedEndOfData pos (Z.of_nat k)).
Proof.
  unfold scalar, py_char. intros [Hc Hs] He Hk.
  destruct (Z.lt_ge_cases c 0x80) as [H1|H1].
  { rewrite encode_char_1 in He by lia. simplify_eq. simpl in Hk. lia. }
  destruct (Z.lt_ge_cases c 0x800) as [H2|H2].
  { rewrite encode_char_2 in He by lia. simplify_eq. simpl in Hk.
    destruct k as [|[|k]]; try lia. cbn [take decode_from]. zcase. done. }
  apply is_surrogate_false in Hs.
  destruct (Z.lt_ge_cases c 0x10000) as [H3|H3].
  { rewrite encode_char_3 in He by (rewrite ?is_surrogate_false; lia). simplify_eq.
    simpl in Hk. destruct k as [|[|[|k]]]; try lia;
      cbn [take decode_from]; unfold is_cont; zcase; done. }
  rewrite encode_char_4 in He by lia. simplify_eq. simpl in Hk.
  destruct k as [|[|[|[|k]]]]; try lia;
    cbn [take decode_from]; unfold is_cont; zcase; done.
Qed.

(** A successful decoding does not depend on the position of the input
    in a larger one. *)
Lemma decode_from_pos bs p q s :
  Forall is_byte bs -> decode_from p bs = inr s -> decode_from q bs = inr s.
Proof.
  intros Hb H. destruct (decode_from_ok bs p 0 s Hb H) as [Hs He].
  apply (encode_from_decode s 0 q bs); [|done].
  eapply Forall_impl; [exact Hs|]. by intros c [? ?].
Qed.

(** Cutting a decodable input in two: either the cut falls between two
    characters and both parts decode, or it falls inside one and the first
    part ends too early, at the cut. *)
Lemma decode_from_split bs1 : forall pos bs2 s,
  Forall is_byte (bs1 ++ bs2) -> decode_from pos (bs1 ++ bs2) = inr s ->
  (exists s1 s2, decode_from pos bs1 = inr s1 /\
     decode_from (pos + Z.of_nat (length bs1)) bs2 = inr s2 /\ s = s1 ++ s2) \/
  (exists e, decode_from pos bs1 = inl e /\ dec_reason e = UnexpectedEndOfData /\
     dec_end e = pos + Z.of_nat (length bs1)).
Proof.
  induction bs1 as [bs1 IH] using list_length_ind. intros pos bs2 s Hb H.
  destruct bs1 as [|b bs1'].
  { left. exists [], s. cbn. rewrite Z.add_0_r. by split_and!. }
  destruct (decode_from_cons_ok pos b (bs1' ++ bs2) s Hb H)
    as (c & bc & rest & s' & -> & Heq & Hc & Hsc & Hr).
  pose proof (encode_char_length _ _ Hc) as Hlen.
  change ((b :: bs1') ++ bs2) with (b :: bs1' ++ bs2) in Heq, Hb.
  set (l1 := b :: bs1') in *. change (b :: bs1' ++ bs2) with (l1 ++ bs2) in Heq, Hb.
  destruct (decide (length bc <= length l1)%nat) as [Hle|Hgt].
  - (* the first character lies within the first part *)
    set (m := drop (length bc) l1).
    assert (E1 : l1 = bc ++ m).
    { subst m. rewrite <- (take_drop (length bc) l1) at 1. f_equal.
      rewrite <- (take_app_le l1 bs2) by lia. rewrite Heq. apply take_app_length. }
    assert (Erest : rest = m ++ bs2).
    { rewrite E1, <- app_assoc in Heq. by apply app_inv_head in Heq. }
    rewrite Heq, Erest in Hb. apply Forall_app in Hb as [_ Hb'].
    rewrite Erest in Hr.
    destruct (IH m) with (pos := (pos + Z.of_nat (length bc))%Z) (bs2 := bs2) (s := s')
      as [(s1 & s2 & H1 & H2 & ->) | (e & H1 & Hr1 & He1)];
      [subst m; rewrite length_drop; lia | done | done | |].
    + left. exists (c :: s1), s2. rewrite E1, (decode_encode_char c bc m pos (proj1 Hsc) Hc), H1.
      rewrite length_app, Nat2Z.inj_add, Z.add_assoc. by split_and!.
    + right. exists e. rewrite E1, (decode_encode_char c bc m pos (proj1 Hsc) Hc), H1.
      rewrite length_app, Nat2Z.inj_add. split_and!; [done | done | lia].
  - (* the cut falls inside the first character *)
    assert (E1 : l1 = take (length l1) bc).
    { transitivity (take (length l1) (l1 ++ bs2)); [by rewrite take_app_length|].
      rewrite Heq. apply take_app_le. lia. }
    right. exists (derr UnexpectedEndOfData pos (Z.of_nat (length l1))).
    split_and!; [| done | cbn; lia].
    rewrite E1 at 1. apply (decode_truncated_char c); [done | done |].
    split; [subst l1; cbn; lia | lia].
Qed.

(** C26: reading a decodable byte stream in two chunks, as two
    [rtt_read] results, and decoding each (line 63): when the cut falls
    between two characters, both chunks decode and their texts make the
    whole text; when it falls inside a character, decoding the first
    chunk raises "unexpected end of data" ending at the cut. *)
Theorem decode_split bs1 bs2 s :
  Forall is_byte (bs1 ++ bs2) -> decode (bs1 ++ bs2) = inr s ->
  (exists s1 s2, decode bs1 = inr s1 /\ decode bs2 = inr s2 /\ s = s1 ++ s2) \/
  (exists e, decode bs1 = inl e /\ dec_reason e = UnexpectedEndOfData /\
     dec_end e = Z.of_nat (length bs1)).
Proof.
  intros Hb H. apply Forall_app in Hb as Hb12. destruct Hb12 as [_ Hb2].
  destruct (decode_from_split bs1 0 bs2 s Hb H) as [(s1 & s2 & H1 & H2 & ->) | (e & H1 & Hr & He)].
  - left. exists s1, s2. split_and!; [done | by apply (decode_from_pos _ (0 + Z.of_nat (length bs1))) | done].
  - right. by exists e.
Qed.

(** ** Round trips *)

(** C14: encoding a Python string and decoding the bytes gives the string
    back. *)
Theorem decode_encode_roundtrip s bs :
  Forall py_char s -> encode s = inr bs -> decode bs = inr s.
Proof. apply encode_from_decode. Qed.

(** C15: the decoder accepts only canonical encodings: whenever it
    succeeds, re-encoding the result gives the input bytes back (overlong
    forms, encoded surrogates and values above U+10FFFF are rejected). *)
Theorem encode_decode_canonical bs s :
  Forall is_byte bs -> decode bs = inr s -> encode s = inr bs.
Proof. intros Hb H. exact (proj2 (decode_from_ok bs 0 0 s Hb H)). Qed.

(** C16: a successful decoding yields a valid Python string of Unicode
    scalar values: no surrogate, nothing above U+10FFFF. *)
Theorem decode_scalars bs s :
  Forall is_byte bs -> decode bs = inr s -> Forall scalar s.
Proof. intros Hb H. exact (proj1 (decode_from_ok bs 0 0 s Hb H)). Qed.

Lemma encode_from_ok_iff s : forall p,
  (exists bs, encode_from p s = inr bs) <-> Forall (fun c => is_surrogate c = false) s.
Proof.
  induction s as [|c s IH]; intros p; simpl.
  { split; [constructor | eauto]. }
  rewrite Forall_cons, <- (IH (p + 1)).
  destruct (encode_char c) as [bc|] eqn:Ec.
  - assert (is_surrogate c = false) as ->.
    { destruct (is_surrogate c) eqn:Hs; [|done]. apply encode_char_None in Hs. congruence. }
    split.
    + intros [bs H]. apply sum_app_inr in H as (bs' & -> & _). eauto.
    + intros [_ [bs' ->]]. by eexists.
  - apply encode_char_None in Ec. rewrite Ec.
    split; [intros [bs H]; discriminate | intros [H _]; discriminate].
Qed.

Lemma encode_from_bounds s : forall p bs,
  Forall py_char s -> encode_from p s = inr bs ->
  Forall is_byte bs /\ (length s <= length bs <= 4 * length s)%nat.
Proof.
  induction s as [|c s IH]; intros p bs Hs H; simpl in H.
  { simplify_eq. simpl. split; [constructor | lia]. }
  apply Forall_cons in Hs as [Hc Hs].
  destruct (encode_char c) as [bc|] eqn:Ec; [|discriminate].
  apply sum_app_inr in H as (bs' & Hbs' & ->).
  destruct (IH _ _ Hs Hbs') as [Hb Hl].
  pose proof (encode_char_length _ _ Ec).
  split; [apply Forall_app; split; [exact (encode_char_bytes c bc Hc Ec) | exact Hb]|].
  rewrite length_app. simpl. lia.
Qed.

Lemma encode_from_error s : forall p e,
  encode_from p s = inl e ->
  exists pre run post, s = pre ++ run ++ post /\
    Forall (fun c => is_surrogate c = false) pre /\ run <> [] /\
    Forall (fun c => is_surrogate c = true) run /\
    (forall c r, post = c :: r -> is_surrogate c = false) /\
    enc_start e = p + Z.of_nat (length pre) /\
    enc_end e = p + Z.of_nat (length pre + length run).
Proof.
  induction s as [|c s IH]; intros p e H; simpl in H; [discriminate|].
  destruct (encode_char c) as [bc|] eqn:Ec.
  - apply sum_app_inl, IH in H as (pre & run & post & -> & Hpre & Hrun & Hs & Hpost & Hst & Hen).
    assert (Hc : is_surrogate c = false).
    { destruct (is_surrogate c) eqn:Hs'; [|done]. apply encode_char_None in Hs'. congruence. }
    exists (c :: pre), run, post.
    split_and!; [done | by constructor | done | done | done | | ];
      rewrite ?Hst, ?Hen; simpl length; lia.
  - apply encode_char_None in Ec. simplify_eq. simpl.
    destruct (surrogate_run_end_spec s (p + 1)) as (run & post & -> & Hrun & Hpost & ->).
    exists [], (c :: run), post.
    split_and!; [done | constructor | done | by constructor | done | | ];
      cbn -[Z.add]; lia.
Qed.

Lemma decode_from_error bs : forall p e,
  Forall is_byte bs -> decode_from p bs = inl e ->
  exists pre rest s, bs = pre ++ rest /\ decode_from p pre = inr s /\
    dec_start e = p + Z.of_nat (length pre) /\
    dec_start e < dec_end e <= p + Z.of_nat (length bs) /\
    dec_end e <= dec_start e + 4 /\
    (dec_reason e = UnexpectedEndOfData -> dec_end e = p + Z.of_nat (length bs)).
Proof.
  induction bs as [bs IH] using list_length_ind.
  intros p e Hb H. destruct bs as [|b bs']; [discriminate|].
  destruct (decode_from_step p b bs' Hb)
    as [(c & bc & rest & Heq & Hc & Hsc & Hd) | (e' & He & Hst & Hen & H4 & Hue)].
  - rewrite Hd in H. apply sum_cons_inl in H.
    pose proof (encode_char_length _ _ Hc) as Hlen.
    rewrite Heq in Hb. apply Forall_app in Hb as [_ Hrest].
    destruct (IH rest) with (p := p + Z.of_nat (length bc)) (e := e)
      as (pre & rest' & s & -> & Hpre & Hst & Hen & H4 & Hue);
      [rewrite Heq, length_app; lia | done | done |].
    exists (bc ++ pre), rest', (c :: s). rewrite Heq, <- app_assoc.
    rewrite (decode_encode_char c bc pre p (proj1 Hsc) Hc), Hpre.
    rewrite !length_app in *. repeat split; try lia. intros Hr. rewrite (Hue Hr). lia.
  - rewrite H in He. simplify_eq. exists [], (b :: bs'), [].
    repeat split; try done; simpl length in *; lia.
Qed.

(** ** Totality, bounds and errors of the encoder *)

(** C17: [str.encode('utf-8')] succeeds exactly on strings without
    surrogates. *)
Theorem encode_ok_iff s :
  (exists bs, encode s = inr bs) <-> Forall (fun c => is_surrogate c = false) s.
Proof. apply encode_from_ok_iff. Qed.

(** C18: the encoded bytes are bytes, and each code point takes one to four
    of them. *)
Theorem encode_bounds s bs :
  Forall py_char s -> encode s = inr bs ->
  Forall is_byte bs /\ (length s <= length bs <= 4 * length s)%nat.
Proof. apply encode_from_bounds. Qed.

(** C19: a [UnicodeEncodeError] reports the first run of surrogates of the
    string, from its first to one past its last code point. *)
Theorem encode_error_first_run s e :
  encode s = inl e ->
  exists pre run post, s = pre ++ run ++ post /\
    Forall (fun c => is_surrogate c = false) pre /\ run <> [] /\
    Forall (fun c => is_surrogate c = true) run /\
    (forall c r, post = c :: r -> is_surrogate c = false) /\
    enc_start e = Z.of_nat (length pre) /\
    enc_end e = Z.of_nat (length pre + length run).
Proof. intros H. apply encode_from_error in H. exact H. Qed.

(** C20: a [UnicodeDecodeError] points at the first malformed sequence:
    the bytes before [start] decode, at most four bytes are reported, the
    range lies within the input, and "unexpected end of data" ends at the
    end of the input. *)
Theorem decode_error_first bs e :
  Forall is_byte bs -> decode bs = inl e ->
  exists pre rest s, bs = pre ++ rest /\ decode pre = inr s /\
    dec_start e = Z.of_nat (length pre) /\
    dec_start e < dec_end e <= Z.of_nat (length bs) /\
    dec_end e <= dec_start e + 4 /\
    (dec_reason e = UnexpectedEndOfData -> dec_end e = Z.of_nat (length bs)).
Proof. apply decode_from_error. Qed.

(** ** Witnesses: the theorems at concrete inputs *)

(** "Aé€😀" and its UTF-8 bytes. *)
Definition sample_str : list Z := [0x41; 0xE9; 0x20AC; 0x1F600].
Definition sample_bytes : list Z := [65; 195; 169; 226; 130; 172; 240; 159; 152; 128].

Lemma decode_encode_roundtrip_witness :
  Forall py_char sample_str /\ decode sample_bytes = inr sample_str.
Proof.
  split; [cbv [sample_str sample_bytes]; auto 20 with rtt|].
  apply (decode_encode_roundtrip sample_str sample_bytes);
    [cbv [sample_str sample_bytes]; auto 20 with rtt | reflexivity].
Defined.

Lemma encode_decode_canonical_witness :
  Forall is_byte sample_bytes /\ encode sample_str = inr sample_bytes.
Proof.
  split; [cbv [sample_str sample_bytes]; auto 20 with rtt|].
  apply (encode_decode_canonical sample_bytes sample_str);
    [cbv [sample_str sample_bytes]; auto 20 with rtt | reflexivity].
Defined.

Lemma decode_scalars_witness : Forall scalar sample_str.
Proof.
  apply (decode_scalars sample_bytes sample_str);
    [cbv [sample_str sample_bytes]; auto 20 with rtt | reflexivity].
Defined.

Lemma encode_ok_iff_witness : exists bs, encode sample_str = inr bs.
Proof.
  apply encode_ok_iff. repeat constructor.
Defined.

Lemma encode_bounds_witness :
  Forall is_byte sample_bytes /\ (4 <= length sample_bytes <= 16)%nat.
Proof.
  apply (encode_bounds sample_str sample_bytes);
    [cbv [sample_str sample_bytes]; auto 20 with rtt | reflexivity].
Defined.

(** "A" followed by two surrogates and "B": the error covers positions 1-3. *)
Lemma encode_error_first_run_witness :
  exists pre run post, [0x41; 0xD800; 0xDC00; 0x42] = pre ++ run ++ post /\
    Forall (fun c => is_surrogate c = false) pre /\ run <> [] /\
    Forall (fun c => is_surrogate c = true) run /\
    (forall c r, post = c :: r -> is_surrogate c = false) /\
    1 = Z.of_nat (length pre) /\ 3 = Z.of_nat (length pre + length run).
Proof.
  apply (encode_error_first_run [0x41; 0xD800; 0xDC00; 0x42]
           {| enc_start := 1; enc_end := 3 |}).
  reflexivity.
Defined.

(** "A" then a sequence starting with 0xF4 0x90 (above U+10FFFF): the error
    is reported at position 1. *)
Lemma decode_error_first_witness :
  exists pre rest s, [0x41; 0xF4; 0x90; 0x80; 0x80] = pre ++ rest /\
    decode pre = inr s /\ 1 = Z.of_nat (length pre) /\ 1 < 2 <= 5 /\ 2 <= 1 + 4 /\
    (InvalidContinuationByte = UnexpectedEndOfData -> 2 = 5).
Proof.
  apply (decode_error_first [0x41; 0xF4; 0x90; 0x80; 0x80]
           (derr InvalidContinuationByte 1 1));
    [cbv [sample_str sample_bytes]; auto 20 with rtt | reflexivity].
Defined.

(** "Aé" cut inside the "é": the first chunk ends too early, at the cut. *)
Lemma decode_split_witness :
  Forall is_byte ([65; 195] ++ [169]) /\ decode ([65; 195] ++ [169]) = inr [65; 0xE9] /\
  ((exists s1 s2, decode [65; 195] = inr s1 /\ decode [169] = inr s2 /\ [65; 0xE9] = s1 ++ s2) \/
   (exists e, decode [65; 195] = inl e /\ dec_reason e = UnexpectedEndOfData /\
      dec_end e = Z.of_nat (length [65; 195]))).
Proof.
  assert (Hb : Forall is_byte ([65; 195] ++ [169])) by (repeat constructor; unfold is_byte; lia).
  assert (Hd : decode ([65; 195] ++ [169]) = inr [65; 0xE9]) by reflexivity.
  pose proof (decode_split [65; 195] [169] [65; 0xE9] Hb Hd) as H.
  split_and!; [exact Hb | exact Hd | exact H].
Defined.

End Utf8Thms.
