(* ===== verification/PyFormat.v ===== *)
(** * The Python conversions in [JLinkDongle.connect]

    Lines 44-50 of jlink_dongle.py turn the probe's answers into the lines
    [connect] prints: [int.from_bytes(EndianMode, 'big')], the dictionary
    lookup [{0: "Little", 1: "Big"}.get(endian, f"Unknown ({endian})")],
    integers in f-strings ([str(int)], here stdpp's [pretty]) and
    [f"{hz / 1e6:.3f}"].  The last one is modelled with binary64 arithmetic
    (Corelib's SpecFloat, round-to-nearest-even): [int / float] converts the
    int to the nearest double, divides with one rounding, and [.3f] prints
    the exact binary value rounded half-to-even to three decimals. *)

From S2P Require Import Prelude Utf8.
From stdpp Require Import pretty.
From Corelib Require Import SpecFloat.

Open Scope Z_scope.

Module PyFormat.

(** [int.from_bytes(bs, 'big')] (unsigned). *)
Definition int_from_bytes_big (bs : list Z) : Z :=
  fold_left (fun acc b => acc * 256 + b) bs 0.

(** [{0: "Little", 1: "Big"}.get(endian, f"Unknown ({endian})")] *)
Definition endian_name (endian : Z) : string :=
  if endian =? 0 then "Little"
  else if endian =? 1 then "Big"
  else "Unknown (" +:+ pretty endian +:+ ")".

(** binary64 *)
Definition prec : Z := 53.
Definition emax : Z := 1024.

(** [float(x)] for an int, and [x / y] on floats. *)
Definition float_of_int (x : Z) : spec_float := binary_normalize prec emax x 0 false.
Definition float_truediv (x y : spec_float) : spec_float := SFdiv prec emax x y.

(** [num / den] rounded to the nearest integer, ties to even ([den > 0]). *)
Definition round_half_even (num den : Z) : Z :=
  let q := num / den in
  let r := num mod den in
  if 2 * r <? den then q
  else if den <? 2 * r then q + 1
  else if Z.even q then q else q + 1.

(** The exact value [m * 2^e] in thousandths, rounded half to even. *)
Definition thousandths (m : positive) (e : Z) : Z :=
  if 0 <=? e then Z.pos m * 2 ^ e * 1000
  else round_half_even (Z.pos m * 1000) (2 ^ (- e)).

(** Three digits with leading zeros. *)
Definition pad3 (n : Z) : string :=
  if n <? 10 then "00" +:+ pretty n
  else if n <? 100 then "0" +:+ pretty n
  else pretty n.

(** [format(f, '.3f')] *)
Definition format_fixed3 (f : spec_float) : string :=
  match f with
  | S754_zero s => (if s then "-" else "") +:+ "0.000"
  | S754_infinity s => if s then "-inf" else "inf"
  | S754_nan => "nan"
  | S754_finite s m e =>
      let t := thousandths m e in
      (if s then "-" else "") +:+ pretty (t / 1000) +:+ "." +:+ pad3 (t mod 1000)
  end.

(** [f"{hz / 1e6:.3f}"] *)
Definition format_mhz (hz : Z) : string :=
  format_fixed3 (float_truediv (float_of_int hz) (float_of_int 1000000)).

End PyFormat.

Module PyFormatThms.
Import PyFormat.

Example format_mhz_168 : format_mhz 168000000 = "168.000".
Proof. vm_compute. reflexivity. Qed.

(** 1.0625 is a double: the tie is broken to even, as CPython prints it. *)
Example format_mhz_tie : format_mhz 1062500 = "1.062".
Proof. vm_compute. reflexivity. Qed.

Example format_mhz_round : format_mhz 16777216 = "16.777".
Proof. vm_compute. reflexivity. Qed.

Example endian_unknown : endian_name 7 = "Unknown (7)".
Proof. reflexivity. Qed.

Lemma int_from_bytes_big_app bs b :
  int_from_bytes_big (bs ++ [b]) = int_from_bytes_big bs * 256 + b.
Proof. unfold int_from_bytes_big. by rewrite fold_left_app. Qed.

(** [int.from_bytes(bs, 'big')] of a byte string of length [n] lies in
    [[0, 256^n)]; for the one-byte [EndianMode] it is the byte itself. *)
Theorem int_from_bytes_big_range bs :
  Forall Utf8.is_byte bs ->
  0 <= int_from_bytes_big bs < 256 ^ Z.of_nat (length bs).
Proof.
  induction bs as [|b bs IH] using rev_ind; [cbn; lia|].
  intros [Hbs [Hb _]%Forall_cons]%Forall_app. unfold Utf8.is_byte in Hb.
  specialize (IH Hbs). rewrite int_from_bytes_big_app, length_app.
  rewrite Nat2Z.inj_add, Z.pow_add_r by lia. cbn [length Z.of_nat]. nia.
Qed.

Lemma int_from_bytes_big_witness :
  0 <= int_from_bytes_big [1] < 256 ^ Z.of_nat (length [1]).
Proof. apply int_from_bytes_big_range. auto 20 with rtt. Defined.

(** [round_half_even] is within half a unit of the exact quotient. *)
Lemma round_half_even_near num den :
  0 < den -> 2 * Z.abs (num - round_half_even num den * den) <= den.
Proof.
  intros Hd. unfold round_half_even.
  pose proof (Z.div_mod num den ltac:(lia)).
  pose proof (Z.mod_pos_bound num den Hd).
  zcase; try destruct (Z.even _); lia.
Qed.

(** The printed endianness determines the value read from
    [EndianMode]: distinct values give distinct texts. *)
Theorem endian_name_inj a b : endian_name a = endian_name b -> a = b.
Proof.
  unfold endian_name.
  destruct (Z.eqb_spec a 0), (Z.eqb_spec a 1), (Z.eqb_spec b 0), (Z.eqb_spec b 1);
    subst; try done; intros H; simplify_eq.
  apply (inj pretty). by apply string_app_inj_r in H.
Qed.

Lemma endian_name_inj_witness :
  endian_name 2 = endian_name 2 /\ (2 : Z) = 2.
Proof. split; [reflexivity | apply endian_name_inj; reflexivity]. Defined.

End PyFormatThms.
