(* ===== verification/JLinkApi.v ===== *)
(** * The vendor library as seen by the dongle

    jlink_dongle.py imports [JLink], [JLinkException] and [JLinkInterfaces]
    from pylink, and colorama's [Fore].  pylink and the J-Link DLL are not
    part of the repository: this file states the interface the dongle
    relies on, as the type class [JLinkLib] (one operation per pylink
    method the source calls, a [PyM] computation on the library's own
    state that may raise), the contract [JLinkLaws] taken from pylink's
    implementation of [rtt_read], and the Python exceptions that cross the
    dongle's methods.  A scripted test double [Mock] instantiates the
    class so that every theorem of [Dongle] can be run on concrete
    inputs. *)

From S2P Require Import Prelude Utf8.

Open Scope Z_scope.

Module JLinkApi.

(** ** Data passed to pylink *)

(** [pylink.enums.JLinkInterfaces]. *)
Inductive JLinkInterfaces := JTAG | SWD | FINE | ICSP | SPI | C2.

#[export] Instance JLinkInterfaces_eq_dec : EqDecision JLinkInterfaces.
Proof. solve_decision. Defined.

(** The field [speed: str|int] of the dataclass. *)
Inductive Speed := SpeedStr (s : string) | SpeedInt (khz : Z).

#[export] Instance Speed_eq_dec : EqDecision Speed.
Proof. solve_decision. Defined.

(** [CHIP_NAME_DEFAULT] (line 7). *)
Definition CHIP_NAME_DEFAULT : string := "STM32F407VE".

(** [JLink.MAX_BUF_SIZE], the class attribute read on line 54. *)
Definition MAX_BUF_SIZE : Z := 336.

(** The identity of a pylink [JLink] object. *)
Definition handle := nat.

(** ** Python exceptions crossing the dongle *)

Inductive pyexc :=
| JLinkException (msg : string)          (** pylink's errors, any subclass *)
| JLinkDongleException (msg : string)    (** line 9 *)
| AttributeError (msg : string)          (** unset slot [self.jlink] *)
| ValueError (msg : string)              (** [bytes(data)] out of range *)
| UnicodeDecodeError (e : Utf8.decode_error)
| UnicodeEncodeError (e : Utf8.encode_error)
| OtherError (msg : string).             (** anything else pylink raises *)

(** ** The methods of a pylink [JLink] object the dongle calls *)

(** The calls, as recorded in the dongle's trace. *)
Inductive call :=
| CDisableDialogBoxes
| COpen
| CRttStop
| CSetTif (i : JLinkInterfaces)
| CConnect (chip : string) (speed : Speed) (verbose : bool)
| CRttStart
| CEndianMode                  (** the attribute [_device.EndianMode] *)
| CSpeed                       (** the property [speed] *)
| CCoreName
| CCpuSpeed
| CRttRead (index num_bytes : Z)
| CRttWrite (index : Z) (data : list Z)
| CClose.

#[export] Instance call_eq_dec : EqDecision call.
Proof. solve_decision. Defined.

Class JLinkLib (W : Type) := {
  jl_new : PyM W pyexc handle;                                  (** [JLink()] *)
  jl_disable_dialog_boxes : handle -> PyM W pyexc unit;
  jl_open : handle -> PyM W pyexc unit;
  jl_rtt_stop : handle -> PyM W pyexc unit;
  jl_set_tif : handle -> JLinkInterfaces -> PyM W pyexc unit;
  jl_connect : handle -> string -> Speed -> bool -> PyM W pyexc unit;
  jl_rtt_start : handle -> PyM W pyexc unit;
  jl_endian_mode : handle -> PyM W pyexc (list Z);               (** bytes *)
  jl_speed : handle -> PyM W pyexc Z;                            (** kHz *)
  jl_core_name : handle -> PyM W pyexc string;
  jl_cpu_speed : handle -> PyM W pyexc Z;                        (** Hz *)
  jl_rtt_read : handle -> Z -> Z -> PyM W pyexc (list Z);
  jl_rtt_write : handle -> Z -> list Z -> PyM W pyexc Z;
  jl_close : handle -> PyM W pyexc unit
}.

(** pylink's [rtt_read(index, num_bytes)] fills a [c_ubyte * num_bytes]
    buffer and returns [list(buf)[:bytes_read]]: at most [num_bytes]
    values, each a byte. *)
Class JLinkLaws (W : Type) `{!JLinkLib W} := {
  rtt_read_bounded : forall h i n w w' l,
    jl_rtt_read h i n w = (w', inr l) ->
    (Z.of_nat (length l) <= Z.max 0 n)%Z /\ Forall Utf8.is_byte l
}.

(** ** A scripted test double *)

Module Mock.

(** The state of a fake probe: which calls fail, the bytes the target has
    pending on the up channel, what the down channel accepted and how much
    room it has left, and the answers of the identification queries. *)
Record mock := {
  m_next : nat;
  m_dll : bool;
  m_fault : call -> option string;
  m_rx : list Z;
  m_tx : list Z;
  m_room : nat;
  m_endian : list Z;
  m_core : string;
  m_khz : Z;
  m_hz : Z
}.

Definition with_next (w : mock) (n : nat) : mock :=
  {| m_next := n; m_dll := m_dll w; m_fault := m_fault w; m_rx := m_rx w;
     m_tx := m_tx w; m_room := m_room w; m_endian := m_endian w;
     m_core := m_core w; m_khz := m_khz w; m_hz := m_hz w |}.

Definition with_rx (w : mock) (rx : list Z) : mock :=
  {| m_next := m_next w; m_dll := m_dll w; m_fault := m_fault w; m_rx := rx;
     m_tx := m_tx w; m_room := m_room w; m_endian := m_endian w;
     m_core := m_core w; m_khz := m_khz w; m_hz := m_hz w |}.

Definition with_tx (w : mock) (tx : list Z) (room : nat) : mock :=
  {| m_next := m_next w; m_dll := m_dll w; m_fault := m_fault w;
     m_rx := m_rx w; m_tx := tx; m_room := room; m_endian := m_endian w;
     m_core := m_core w; m_khz := m_khz w; m_hz := m_hz w |}.

(** Run [k] unless the script makes [c] raise. *)
Definition guarded {A} (c : call) (k : PyM mock pyexc A) : PyM mock pyexc A :=
  fun w => match m_fault w c with
           | Some msg => (w, inl (JLinkException msg))
           | None => k w
           end.

Definition answer {A} (c : call) (f : mock -> A) : PyM mock pyexc A :=
  guarded c (fun w => (w, inr (f w))).

(** [c_ubyte] stores its value modulo 256. *)
Definition mock_rtt_read (i n : Z) : PyM mock pyexc (list Z) :=
  guarded (CRttRead i n) (fun w =>
    let k := Nat.min (Z.to_nat n) (length (m_rx w)) in
    (with_rx w (drop k (m_rx w)), inr (map (fun b => b mod 256) (take k (m_rx w))))).

Definition mock_rtt_write (i : Z) (data : list Z) : PyM mock pyexc Z :=
  guarded (CRttWrite i data) (fun w =>
    let k := Nat.min (length data) (m_room w) in
    (with_tx w (m_tx w ++ take k data) (m_room w - k), inr (Z.of_nat k))).

#[export] Instance mock_lib : JLinkLib mock := {
  jl_new := fun w =>
    if m_dll w then (with_next w (S (m_next w)), inr (m_next w))
    else (w, inl (OtherError "Expected to be given a valid DLL."));
  jl_disable_dialog_boxes := fun _ => answer CDisableDialogBoxes (fun _ => tt);
  jl_open := fun _ => answer COpen (fun _ => tt);
  jl_rtt_stop := fun _ => answer CRttStop (fun _ => tt);
  jl_set_tif := fun _ i => answer (CSetTif i) (fun _ => tt);
  jl_connect := fun _ c s v => answer (CConnect c s v) (fun _ => tt);
  jl_rtt_start := fun _ => answer CRttStart (fun _ => tt);
  jl_endian_mode := fun _ => answer CEndianMode m_endian;
  jl_speed := fun _ => answer CSpeed m_khz;
  jl_core_name := fun _ => answer CCoreName m_core;
  jl_cpu_speed := fun _ => answer CCpuSpeed m_hz;
  jl_rtt_read := fun _ => mock_rtt_read;
  jl_rtt_write := fun _ => mock_rtt_write;
  jl_close := fun _ => answer CClose (fun _ => tt)
}.

#[export] Instance mock_laws : JLinkLaws mock.
Proof.
  constructor. intros h i n w w' l. cbn. unfold mock_rtt_read, guarded.
  destruct (m_fault w (CRttRead i n)); intros; simplify_eq.
  rewrite length_map, length_take. split; [lia|].
  apply Forall_map, Forall_forall. intros b _. unfold Utf8.is_byte. zlia.
Qed.

(** A probe on which every call succeeds. *)
Definition healthy (rx : list Z) (room : nat) : mock :=
  {| m_next := 7; m_dll := true; m_fault := fun _ => None; m_rx := rx;
     m_tx := []; m_room := room; m_endian := [0]; m_core := "Cortex-M4";
     m_khz := 4000; m_hz := 168000000 |}.

(** The same probe with one kind of call failing. *)
Definition failing (fail : call -> bool) (msg : string) (w : mock) : mock :=
  {| m_next := m_next w; m_dll := m_dll w;
     m_fault := fun c => if fail c then Some msg else m_fault w c;
     m_rx := m_rx w; m_tx := m_tx w; m_room := m_room w;
     m_endian := m_endian w; m_core := m_core w; m_khz := m_khz w;
     m_hz := m_hz w |}.

End Mock.

End JLinkApi.
