(* ===== verification/RttSim.v ===== *)
(** * A simulated RTT target

    The repository delegates RTT entirely to pylink and the J-Link DLL.  To
    run the dongle's methods end to end, as the testable properties of the
    spec (section 8) do on "a loopback/simulated target", this file models
    an RTT channel from the spec (sections 3 and 4.3): a circular buffer of
    [size] bytes described by a read offset and a write offset, both in
    [[0, size)], with a per-channel policy, [Blocking] (a write never
    overwrites unread data) or [Overwrite] (a write may discard the oldest
    unread bytes).  Offsets wrap by comparison with the size, as SEGGER's
    RTT code does.  Buffer accesses go through [!!], so an access outside
    [[base, base + size)] is the value [None]; the theorems show it never
    happens.

    The abstract view of a channel is the FIFO queue of its unread bytes,
    [contents]; the theorems refine [ring_read] and [ring_write] by [take]
    and [drop], append, and "keep the last [size - 1] bytes" ([RingFacts]),
    and any sequence of operations by a bounded FIFO machine ([RingThms]).
    [RingEquiv] relates channels with the same unread bytes wherever their
    offsets are, and shows every operation respects it ([Proper]
    instances).  [Probe] is a simulated J-Link over such channels that
    instantiates [JLinkLib]; its firmware steps [target_echo] and
    [target_send] play the target's part. *)

From S2P Require Import Prelude Utf8 JLinkApi.

Import JLinkApi.

Open Scope nat_scope.

Module Ring.

(** The per-channel write policy of the spec (section 3). *)
Inductive policy := Blocking | Overwrite.

#[export] Instance policy_eq_dec : EqDecision policy.
Proof. solve_decision. Defined.

(** A channel descriptor together with the buffer it describes. *)
Record ring := mkRing {
  r_size : nat;
  r_buf : list Z;
  r_rd : nat;
  r_wr : nat;
  r_policy : policy
}.

(** The offset after [i]: [i + 1], or [0] at the end of the buffer. *)
Definition next (size i : nat) : nat := if S i =? size then 0 else S i.

(** Offset [x] reduced into [[0, size)] for [x < 2 * size]. *)
Definition wrap (size x : nat) : nat := if x <? size then x else x - size.

(** Number of unread bytes: the distance from the read offset to the write
    offset around the buffer. *)
Definition pending (r : ring) : nat :=
  if r_rd r <=? r_wr r then r_wr r - r_rd r else r_size r - r_rd r + r_wr r.

Definition with_rd (r : ring) (rd : nat) : ring :=
  mkRing (r_size r) (r_buf r) rd (r_wr r) (r_policy r).

(** Store one byte at the write offset and advance it; [None] when the
    offset lies outside the buffer. *)
Definition store (r : ring) (b : Z) : option ring :=
  if r_wr r <? length (r_buf r)
  then Some (mkRing (r_size r) (<[r_wr r := b]> (r_buf r)) (r_rd r)
                    (next (r_size r) (r_wr r)) (r_policy r))
  else None.

(** [read(channel, max_bytes)]: at most [n] pending bytes, oldest first,
    advancing the read offset; non-blocking, so an empty channel gives [[]]. *)
Fixpoint ring_read (n : nat) (r : ring) : option (list Z * ring) :=
  match n with
  | 0 => Some ([], r)
  | S n =>
      if r_rd r =? r_wr r then Some ([], r)
      else
        b ← r_buf r !! r_rd r;
        '(bs, r') ← ring_read n (with_rd r (next (r_size r) (r_rd r)));
        Some (b :: bs, r')
  end.

(** [write(channel, data) -> bytes_written].  The buffer is full when the
    write offset is just behind the read offset.  A blocking channel stops
    there; an overwrite channel stores the byte and pushes the read offset
    forward, discarding the oldest unread byte. *)
Fixpoint ring_write (data : list Z) (r : ring) : option (nat * ring) :=
  match data with
  | [] => Some (0, r)
  | b :: data =>
      if next (r_size r) (r_wr r) =? r_rd r then
        match r_policy r with
        | Blocking => Some (0, r)
        | Overwrite =>
            r1 ← store r b;
            '(k, r') ← ring_write data (with_rd r1 (next (r_size r) (r_rd r)));
            Some (S k, r')
        end
      else
        r1 ← store r b;
        '(k, r') ← ring_write data r1;
        Some (S k, r')
  end.

(** Well-formed descriptor (spec section 3): a non-empty buffer of the
    declared size and both offsets in [[0, size)]. *)
Definition ring_wf (r : ring) : Prop :=
  0 < r_size r /\ length (r_buf r) = r_size r /\ r_rd r < r_size r /\ r_wr r < r_size r.

#[export] Instance ring_wf_dec r : Decision (ring_wf r).
Proof. unfold ring_wf. apply _. Defined.

(** The [j]-th unread byte. *)
Definition ring_at (r : ring) (j : nat) : option Z :=
  r_buf r !! wrap (r_size r) (r_rd r + j).

(** The abstract channel: its unread bytes in order. *)
Definition contents (r : ring) : option (list Z) :=
  mapM (ring_at r) (seq 0 (pending r)).

(** The last [m] elements of a list. *)
Definition lastn {A} (m : nat) (l : list A) : list A := drop (length l - m) l.

(** A freshly set up channel. *)
Definition empty_ring (size : nat) (p : policy) : ring :=
  mkRing size (replicate size 0%Z) 0 0 p.

(** ** The abstract channel: a bounded FIFO queue *)

(** The operations of the channel manager on one channel. *)
Inductive ring_op := ORead (n : nat) | OWrite (data : list Z).

(** Their results: the bytes read, or the count written. *)
Definition ring_out : Type := list Z + nat.

(** One operation on a queue of capacity [cap]. *)
Definition fifo_step (cap : nat) (pol : policy) (q : list Z) (o : ring_op) : list Z * ring_out :=
  match o with
  | ORead n => (drop n q, inl (take n q))
  | OWrite d =>
      match pol with
      | Blocking => (q ++ take (cap - length q) d, inr (min (length d) (cap - length q)))
      | Overwrite => (lastn cap (q ++ d), inr (length d))
      end
  end.

Fixpoint fifo_run (cap : nat) (pol : policy) (q : list Z) (ops : list ring_op)
    : list Z * list ring_out :=
  match ops with
  | [] => (q, [])
  | o :: ops =>
      let '(q1, out) := fifo_step cap pol q o in
      let '(q2, outs) := fifo_run cap pol q1 ops in
      (q2, out :: outs)
  end.

(** The same operations on the ring buffer. *)
Definition ring_step (r : ring) (o : ring_op) : option (ring * ring_out) :=
  match o with
  | ORead n => '(bs, r') ← ring_read n r; Some (r', inl bs)
  | OWrite d => '(k, r') ← ring_write d r; Some (r', inr k)
  end.

Fixpoint ring_run (r : ring) (ops : list ring_op) : option (ring * list ring_out) :=
  match ops with
  | [] => Some (r, [])
  | o :: ops =>
      '(r1, out) ← ring_step r o;
      '(r2, outs) ← ring_run r1 ops;
      Some (r2, out :: outs)
  end.

End Ring.

(** ** The probe seen through pylink

    A simulated J-Link with a target whose RTT control block exposes the
    up channels [p_up] (target to host) and the down channels [p_down]
    (host to target).  As in pylink, every method but [JLink()],
    [disable_dialog_boxes], [open] and [close] is [@open_required]: it raises
    [JLinkException] unless the calling object has the probe open; and, as
    the spec's transport (section 4.1) requires, the probe is held
    exclusively by one object at a time.  [rtt_read]/[rtt_write] need RTT
    started and an existing channel index (spec section 4.3), and go through
    [ctypes.c_ubyte] buffers, hence the [mod 256]. *)
Module Probe.
Import Ring.

Record probe := mkProbe {
  p_next : nat;
  p_owner : option handle;
  p_rtt : bool;
  p_up : list ring;
  p_down : list ring;
  p_endian : list Z;
  p_core : string;
  p_khz : Z;
  p_hz : Z
}.

Definition with_owner (p : probe) (o : option handle) (rtt : bool) : probe :=
  mkProbe (p_next p) o rtt (p_up p) (p_down p) (p_endian p) (p_core p) (p_khz p) (p_hz p).

Definition with_next (p : probe) (n : nat) : probe :=
  mkProbe n (p_owner p) (p_rtt p) (p_up p) (p_down p) (p_endian p) (p_core p) (p_khz p) (p_hz p).

Definition with_rings (p : probe) (up down : list ring) : probe :=
  mkProbe (p_next p) (p_owner p) (p_rtt p) up down (p_endian p) (p_core p) (p_khz p) (p_hz p).

Definition not_open : pyexc := JLinkException "JLink connection is not open.".
Definition in_use : pyexc := JLinkException "Probe in use by another connection.".
Definition rtt_stopped : pyexc := JLinkException "RTT is not running.".
Definition invalid_channel : pyexc := JLinkException "Invalid RTT channel.".
Definition memory_fault : pyexc := JLinkException "RTT buffer access out of range.".

Definition owns (h : handle) (p : probe) : bool :=
  match p_owner p with Some h' => h' =? h | None => false end.

(** pylink's [@open_required]. *)
Definition open_required {A} (h : handle) (k : PyM probe pyexc A) : PyM probe pyexc A :=
  fun p => if owns h p then k p else (p, inl not_open).

Definition query {A} (h : handle) (f : probe -> A) : PyM probe pyexc A :=
  open_required h (fun p => (p, inr (f p))).

Definition sim_open (h : handle) : PyM probe pyexc unit :=
  fun p => match p_owner p with
           | None => (with_owner p (Some h) false, inr tt)
           | Some h' => if h' =? h then (p, inr tt) else (p, inl in_use)
           end.

(** [close] releases the probe if this object holds it; otherwise it does
    nothing. *)
Definition sim_close (h : handle) : PyM probe pyexc unit :=
  fun p => if owns h p then (with_owner p None false, inr tt) else (p, inr tt).

Definition set_rtt (h : handle) (on : bool) : PyM probe pyexc unit :=
  open_required h (fun p => (with_owner p (p_owner p) on, inr tt)).

(** The channel [i] of a list of channels, for a Python int index. *)
Definition channel (rs : list ring) (i : Z) : option ring :=
  if (0 <=? i)%Z then rs !! Z.to_nat i else None.

Definition sim_rtt_read (h : handle) (i n : Z) : PyM probe pyexc (list Z) :=
  open_required h (fun p =>
    if negb (p_rtt p) then (p, inl rtt_stopped) else
    match channel (p_up p) i with
    | None => (p, inl invalid_channel)
    | Some r =>
        match ring_read (Z.to_nat n) r with
        | None => (p, inl memory_fault)
        | Some (bs, r') =>
            (with_rings p (<[Z.to_nat i := r']> (p_up p)) (p_down p),
             inr (map (fun b => b mod 256)%Z bs))
        end
    end).

Definition sim_rtt_write (h : handle) (i : Z) (data : list Z) : PyM probe pyexc Z :=
  open_required h (fun p =>
    if negb (p_rtt p) then (p, inl rtt_stopped) else
    match channel (p_down p) i with
    | None => (p, inl invalid_channel)
    | Some r =>
        match ring_write (map (fun b => b mod 256)%Z data) r with
        | None => (p, inl memory_fault)
        | Some (k, r') =>
            (with_rings p (p_up p) (<[Z.to_nat i := r']> (p_down p)), inr (Z.of_nat k))
        end
    end).

#[export] Instance sim_lib : JLinkLib probe := {
  jl_new := fun p => (with_next p (S (p_next p)), inr (p_next p));
  jl_disable_dialog_boxes := fun _ p => (p, inr tt);
  jl_open := sim_open;
  jl_rtt_stop := fun h => set_rtt h false;
  jl_set_tif := fun h _ => query h (fun _ => tt);
  jl_connect := fun h _ _ _ => query h (fun _ => tt);
  jl_rtt_start := fun h => set_rtt h true;
  jl_endian_mode := fun h => query h p_endian;
  jl_speed := fun h => query h p_khz;
  jl_core_name := fun h => query h p_core;
  jl_cpu_speed := fun h => query h p_hz;
  jl_rtt_read := sim_rtt_read;
  jl_rtt_write := sim_rtt_write;
  jl_close := sim_close
}.

(** The target firmware of a loopback test: it moves everything pending on
    down channel [i] to up channel [i]. *)
Definition target_echo (i : nat) (p : probe) : option probe :=
  d ← p_down p !! i;
  u ← p_up p !! i;
  '(bs, d') ← ring_read (r_size d) d;
  '(_, u') ← ring_write bs u;
  Some (with_rings p (<[i := u']> (p_up p)) (<[i := d']> (p_down p))).

(** The target firmware printing [data] on up channel [i]. *)
Definition target_send (i : nat) (data : list Z) (p : probe) : option probe :=
  u ← p_up p !! i;
  '(_, u') ← ring_write data u;
  Some (with_rings p (<[i := u']> (p_up p)) (p_down p)).

End Probe.

Module RingFacts.
Import Ring.

(** Reduce the projections of a ring built by [with_rd] or [mkRing],
    leaving the comparisons for [ncase]. *)
Ltac ring_proj := unfold with_rd in *; cbn [r_size r_buf r_rd r_wr r_policy] in *.

(** ** Offset arithmetic *)

Lemma next_lt n i : i < n -> next n i < n.
Proof. unfold next. ncase. Qed.

Lemma wrap_lt n x : x < 2 * n -> wrap n x < n.
Proof. unfold wrap. ncase. Qed.

Lemma wrap_inj n a i j :
  a < n -> i < n -> j < n -> wrap n (a + i) = wrap n (a + j) -> i = j.
Proof. unfold wrap. ncase. Qed.

Lemma wrap_next n a j : a < n -> S j < n -> wrap n (next n a + j) = wrap n (a + S j).
Proof. unfold wrap, next. ncase. Qed.

Lemma pending_lt r : ring_wf r -> pending r < r_size r.
Proof. unfold ring_wf, pending. intros (?&?&?&?). ncase. Qed.

(** The write offset sits [pending r] bytes after the read offset. *)
Lemma wrap_pending r : ring_wf r -> wrap (r_size r) (r_rd r + pending r) = r_wr r.
Proof. unfold ring_wf, wrap, pending. intros (?&?&?&?). ncase. Qed.

(** Full means [size - 1] unread bytes. *)
Lemma full_iff r :
  ring_wf r -> (next (r_size r) (r_wr r) = r_rd r <-> S (pending r) = r_size r).
Proof. unfold ring_wf, next, pending. intros (?&?&?&?). ncase; split; lia. Qed.

(** ** The abstract queue *)

Lemma contents_length r q : contents r = Some q -> length q = pending r.
Proof. unfold contents. by intros [? _]%mapM_seq_Some. Qed.

(** In a well-formed ring every unread byte lies inside the buffer. *)
Lemma contents_total r : ring_wf r -> exists q, contents r = Some q.
Proof.
  intros Hwf. pose proof (pending_lt r Hwf). destruct Hwf as (?&Hlen&?&?).
  apply mapM_seq_is_Some. intros j Hj. apply lookup_lt_is_Some_2.
  rewrite Hlen. apply wrap_lt. lia.
Qed.

(** Reading one byte pops the head of the queue. *)
Lemma read_step r q :
  ring_wf r -> r_rd r <> r_wr r -> contents r = Some q ->
  exists b q', q = b :: q' /\ r_buf r !! r_rd r = Some b /\
    ring_wf (with_rd r (next (r_size r) (r_rd r))) /\
    contents (with_rd r (next (r_size r) (r_rd r))) = Some q'.
Proof.
  intros Hwf Hne Hq. pose proof (pending_lt r Hwf). pose proof Hwf as (?&?&?&?).
  assert (Hp : pending r = S (pending (with_rd r (next (r_size r) (r_rd r))))).
  { revert Hne. unfold pending, next; ring_proj. ncase. }
  unfold contents in Hq. apply mapM_seq_Some in Hq as [Hlen Hq].
  rewrite Hp in Hlen, Hq. destruct q as [|b q']; [done|].
  exists b, q'. split_and!; [done | | | ].
  - transitivity (ring_at r 0); [|exact (Hq 0 ltac:(lia))].
    unfold ring_at. f_equal. unfold wrap. ncase.
  - unfold ring_wf; ring_proj. split_and!; try done. by apply next_lt.
  - unfold contents. apply mapM_seq_Some. cbn in Hlen. split; [lia|].
    intros j Hj. unfold ring_at; ring_proj. rewrite wrap_next by lia.
    apply (Hq (S j)). lia.
Qed.

(** Storing a byte into a ring that is not full appends it to the queue. *)
Lemma store_step r q b :
  ring_wf r -> S (pending r) < r_size r -> contents r = Some q ->
  exists r1, store r b = Some r1 /\ ring_wf r1 /\ contents r1 = Some (q ++ [b]) /\
    r_size r1 = r_size r /\ r_policy r1 = r_policy r.
Proof.
  intros Hwf Hfree Hq. pose proof (contents_length r q Hq) as Hlq.
  pose proof Hwf as (?&Hlen&?&?). unfold store. rewrite Hlen.
  destruct (Nat.ltb_spec (r_wr r) (r_size r)); [|lia].
  eexists; split; [reflexivity|]. split_and!; [| | done | done].
  - unfold ring_wf; ring_proj. rewrite length_insert. split_and!; try done. by apply next_lt.
  - unfold contents in *. apply mapM_seq_Some in Hq as [_ Hq].
    match goal with |- mapM _ (seq 0 (pending ?r1)) = _ =>
      assert (Hp : pending r1 = S (pending r)) end.
    { revert Hfree. unfold pending, next; ring_proj. ncase. }
    rewrite Hp. apply mapM_seq_Some. rewrite length_app. split; [cbn; lia|].
    intros j Hj. unfold ring_at; ring_proj. destruct (decide (j = pending r)) as [->|Hj'].
    + rewrite wrap_pending by done. rewrite list_lookup_insert_eq by lia.
      rewrite lookup_app_r, Hlq, Nat.sub_diag by lia. done.
    + rewrite list_lookup_insert_ne.
      * rewrite lookup_app_l by lia. apply Hq. lia.
      * rewrite <- (wrap_pending r Hwf). intros Heq.
        apply wrap_inj in Heq; lia.
Qed.

(** Storing into a full ring and pushing the read offset drops the oldest
    byte: the queue keeps the last [size - 1] bytes. *)
Lemma overwrite_step r q b :
  ring_wf r -> S (pending r) = r_size r -> contents r = Some q ->
  exists r1, store r b = Some r1 /\
    ring_wf (with_rd r1 (next (r_size r) (r_rd r))) /\
    contents (with_rd r1 (next (r_size r) (r_rd r))) =
      Some (lastn (r_size r - 1) (q ++ [b])) /\
    r_size r1 = r_size r /\ r_policy r1 = r_policy r.
Proof.
  intros Hwf Hfull Hq. pose proof (contents_length r q Hq) as Hlq.
  pose proof Hwf as (?&Hlen&?&?). unfold store. rewrite Hlen.
  destruct (Nat.ltb_spec (r_wr r) (r_size r)); [|lia].
  eexists; split; [reflexivity|]. split_and!; [| | done | done].
  - unfold ring_wf; ring_proj. rewrite length_insert. split_and!; try done; by apply next_lt.
  - unfold contents in *. apply mapM_seq_Some in Hq as [_ Hq].
    match goal with |- mapM _ (seq 0 (pending ?r1)) = _ =>
      assert (Hp : pending r1 = pending r) end.
    { revert Hfull. unfold pending, next; ring_proj. ncase. }
    rewrite Hp. apply mapM_seq_Some. unfold lastn.
    rewrite length_drop, length_app. cbn [length]. split; [lia|].
    intros j Hj. rewrite lookup_drop, Nat.add_0_l.
    replace (length q + 1 - (r_size r - 1) + j) with (S j) by lia.
    unfold ring_at; ring_proj. rewrite wrap_next by lia.
    destruct (decide (S j = pending r)) as [Hsj|Hsj].
    + rewrite Hsj, (wrap_pending r Hwf), list_lookup_insert_eq by lia.
      rewrite lookup_app_r, Hlq, Nat.sub_diag by lia. done.
    + rewrite list_lookup_insert_ne.
      * rewrite lookup_app_l by lia. apply (Hq (S j)). lia.
      * rewrite <- (wrap_pending r Hwf). intros Heq.
        apply wrap_inj in Heq; lia.
Qed.

Lemma lastn_short {A} m (l : list A) : length l <= m -> lastn m l = l.
Proof. unfold lastn. intros. by replace (length l - m) with 0 by lia. Qed.

Lemma lastn_app_lastn {A} m (l d : list A) : lastn m (lastn m l ++ d) = lastn m (l ++ d).
Proof.
  destruct (decide (length l <= m)); [by rewrite (lastn_short m l)|].
  unfold lastn. rewrite !length_app, length_drop.
  rewrite <- drop_app_le by lia. rewrite drop_drop. f_equal. lia.
Qed.

Lemma ring_read_length n r bs r' : ring_read n r = Some (bs, r') -> length bs <= n.
Proof.
  revert r bs r'. induction n as [|n IH]; intros r bs r'; cbn [ring_read].
  - intros [= <- _]. done.
  - case_match; [intros [= <- _]; cbn; lia|].
    destruct (r_buf r !! r_rd r); cbn; [|done].
    destruct (ring_read n _) as [[bs' r'']|] eqn:E; cbn; [|done].
    intros [= <- _]. apply IH in E. cbn. lia.
Qed.

(** An empty channel. *)
Lemma contents_empty r : r_rd r = r_wr r -> contents r = Some [].
Proof. intros Heq. unfold contents, pending. rewrite Heq, Nat.leb_refl, Nat.sub_diag. done. Qed.

(** [read] pops a prefix of the queue; no access leaves the buffer. *)
Lemma ring_read_spec n r q :
  ring_wf r -> contents r = Some q ->
  exists r', ring_read n r = Some (take n q, r') /\ ring_wf r' /\
    contents r' = Some (drop n q) /\ r_size r' = r_size r /\ r_policy r' = r_policy r.
Proof.
  revert r q. induction n as [|n IH]; intros r q Hwf Hq; cbn [ring_read].
  - exists r. by rewrite take_0, drop_0.
  - destruct (Nat.eqb_spec (r_rd r) (r_wr r)) as [Heq|Hne].
    + pose proof (contents_empty r Heq) as He. rewrite He in Hq. injection Hq as <-.
      by exists r.
    + destruct (read_step r q Hwf Hne Hq) as (b & q' & -> & Hb & Hwf' & Hq').
      destruct (IH _ _ Hwf' Hq') as (r' & Hr & ?&?&?&?).
      rewrite Hb. cbn [mbind option_bind]. rewrite Hr. by exists r'.
Qed.

(** A blocking [write] appends what fits in the free space, [size - 1]
    minus the pending bytes, and reports its length. *)
Lemma ring_write_blocking_spec d r q :
  ring_wf r -> r_policy r = Blocking -> contents r = Some q ->
  exists r', ring_write d r = Some (min (length d) (r_size r - 1 - length q), r') /\
    ring_wf r' /\ contents r' = Some (q ++ take (r_size r - 1 - length q) d) /\
    r_size r' = r_size r /\ r_policy r' = Blocking.
Proof.
  revert r q. induction d as [|b d IH]; intros r q Hwf Hpol Hq; cbn [ring_write].
  - exists r. by rewrite take_nil, app_nil_r, Nat.min_0_l.
  - pose proof (contents_length r q Hq). pose proof (pending_lt r Hwf).
    destruct (Nat.eqb_spec (next (r_size r) (r_wr r)) (r_rd r)) as [Hf|Hnf].
    + apply (full_iff r Hwf) in Hf. rewrite Hpol. exists r.
      replace (r_size r - 1 - length q) with 0 by lia.
      by rewrite take_0, app_nil_r, Nat.min_0_r.
    + assert (S (pending r) < r_size r).
      { rewrite (full_iff r Hwf) in Hnf. lia. }
      destruct (store_step r q b Hwf ltac:(done) Hq) as (r1 & Hs & Hwf1 & Hq1 & Hsz & Hp1).
      destruct (IH r1 _ Hwf1 ltac:(congruence) Hq1) as (r' & Hr & ?&Hq'&?&?).
      rewrite Hs. cbn [mbind option_bind]. rewrite Hr. exists r'.
      rewrite Hsz, length_app in *. cbn [length] in *.
      replace (r_size r - 1 - length q) with (S (r_size r - 1 - (length q + 1))) by lia.
      rewrite firstn_cons, <- app_assoc in *. split_and!; try done; lia.
Qed.

(** An overwrite [write] reports the full length and keeps the last
    [size - 1] bytes. *)
Lemma ring_write_overwrite_spec d r q :
  ring_wf r -> r_policy r = Overwrite -> contents r = Some q ->
  exists r', ring_write d r = Some (length d, r') /\ ring_wf r' /\
    contents r' = Some (lastn (r_size r - 1) (q ++ d)) /\
    r_size r' = r_size r /\ r_policy r' = Overwrite.
Proof.
  revert r q. induction d as [|b d IH]; intros r q Hwf Hpol Hq; cbn [ring_write].
  - pose proof (contents_length r q Hq). pose proof (pending_lt r Hwf).
    exists r. rewrite app_nil_r, lastn_short by lia. done.
  - pose proof (contents_length r q Hq). pose proof (pending_lt r Hwf).
    destruct (Nat.eqb_spec (next (r_size r) (r_wr r)) (r_rd r)) as [Hf|Hnf].
    + apply (full_iff r Hwf) in Hf. rewrite Hpol.
      destruct (overwrite_step r q b Hwf Hf Hq) as (r1 & Hs & Hwf2 & Hq2 & Hsz & Hp1).
      destruct (IH _ _ Hwf2 ltac:(unfold with_rd; cbn; congruence) Hq2) as (r' & Hr & ?&Hq'&?&?).
      rewrite Hs. cbn [mbind option_bind]. rewrite Hr. exists r'.
      cbn [r_size with_rd] in *. rewrite Hsz, lastn_app_lastn, <- app_assoc in *.
      done.
    + assert (S (pending r) < r_size r).
      { rewrite (full_iff r Hwf) in Hnf. lia. }
      destruct (store_step r q b Hwf ltac:(done) Hq) as (r1 & Hs & Hwf1 & Hq1 & Hsz & Hp1).
      destruct (IH r1 _ Hwf1 ltac:(congruence) Hq1) as (r' & Hr & ?&Hq'&?&?).
      rewrite Hs. cbn [mbind option_bind]. rewrite Hr. exists r'.
      rewrite Hsz, <- app_assoc in *. done.
Qed.

(** Whatever the policy, a write leaves pending a subsequence of the bytes
    that were pending followed by the data: bytes may be refused or
    overwritten, never invented, repeated or reordered. *)
Lemma ring_write_sublist d r q :
  ring_wf r -> contents r = Some q ->
  exists k r' q', ring_write d r = Some (k, r') /\ ring_wf r' /\ contents r' = Some q' /\
    q' `sublist_of` q ++ d /\ r_policy r' = r_policy r.
Proof.
  intros Hwf Hq. destruct (r_policy r) eqn:Hp.
  - destruct (ring_write_blocking_spec d r q Hwf Hp Hq) as (r' & Hw & ? & Hq' & _ & ?).
    eexists _, r', _. split_and!; [exact Hw | done | exact Hq' | | done].
    apply sublist_app; [done | apply sublist_take].
  - destruct (ring_write_overwrite_spec d r q Hwf Hp Hq) as (r' & Hw & ? & Hq' & _ & ?).
    eexists _, r', _. split_and!; [exact Hw | done | exact Hq' | apply sublist_drop | done].
Qed.

(** A write on a well-formed ring never faults. *)
Lemma ring_write_total d r :
  ring_wf r -> exists k r', ring_write d r = Some (k, r') /\ ring_wf r'.
Proof.
  intros Hwf. destruct (contents_total r Hwf) as [q Hq]. destruct (r_policy r) eqn:Hp.
  - destruct (ring_write_blocking_spec d r q Hwf Hp Hq) as (r' & -> & ? & _). by eauto.
  - destruct (ring_write_overwrite_spec d r q Hwf Hp Hq) as (r' & -> & ? & _). by eauto.
Qed.

(** Reads and writes keep a ring well formed: its offsets stay in
    [[0, size)] and its buffer keeps its size. *)
Lemma ring_read_wf n r bs r' : ring_wf r -> ring_read n r = Some (bs, r') -> ring_wf r'.
Proof.
  intros Hwf Hrd. destruct (contents_total r Hwf) as [q Hq].
  destruct (ring_read_spec n r q Hwf Hq) as (r1 & Hrd1 & ? & _).
  rewrite Hrd1 in Hrd. by injection Hrd as _ <-.
Qed.

Lemma ring_write_wf d r k r' : ring_wf r -> ring_write d r = Some (k, r') -> ring_wf r'.
Proof.
  intros Hwf Hw. destruct (ring_write_total d r Hwf) as (k1 & r1 & Hw1 & ?).
  rewrite Hw1 in Hw. by injection Hw as _ <-.
Qed.

(** What the buffer holds, the queue holds: the unread bytes are read from
    the buffer. *)
Lemma contents_forall (P : Z -> Prop) r q :
  Forall P (r_buf r) -> contents r = Some q -> Forall P q.
Proof.
  intros Hb Hq. unfold contents in Hq. apply mapM_seq_Some in Hq as [Hlen Hq].
  apply Forall_lookup_2. intros j x Hx. pose proof (lookup_lt_Some _ _ _ Hx).
  rewrite <- Hq in Hx by lia. exact (Forall_lookup_1 _ _ _ _ Hb Hx).
Qed.

(** Reading only moves the read offset. *)
Lemma ring_read_buf n r bs r' : ring_read n r = Some (bs, r') -> r_buf r' = r_buf r.
Proof.
  revert r bs. induction n as [|n IH]; intros r bs; cbn [ring_read].
  - by intros [= _ <-].
  - case_match; [by intros [= _ <-]|].
    destruct (r_buf r !! r_rd r); cbn; [|done].
    destruct (ring_read n _) as [[bs' r'']|] eqn:E; cbn; [|done].
    intros [= _ <-]. by apply IH in E.
Qed.

Lemma store_buf (P : Z -> Prop) r b r1 :
  Forall P (r_buf r) -> P b -> store r b = Some r1 -> Forall P (r_buf r1).
Proof.
  unfold store. intros Hb HP. case_match; [|done]. intros [= <-]. by apply Forall_insert.
Qed.

(** Writing stores only bytes of the data. *)
Lemma ring_write_buf (P : Z -> Prop) d r k r' :
  Forall P (r_buf r) -> Forall P d -> ring_write d r = Some (k, r') -> Forall P (r_buf r').
Proof.
  revert r k. induction d as [|b d IH]; intros r k Hb Hd; cbn [ring_write].
  - by intros [= _ <-].
  - apply Forall_cons in Hd as [HPb Hd]. case_match.
    + destruct (r_policy r); [by intros [= _ <-]|].
      destruct (store r b) as [r1|] eqn:Hs; cbn; [|done].
      destruct (ring_write d _) as [[k' r'']|] eqn:E; cbn; [|done].
      intros [= _ <-]. eapply IH; [| exact Hd | exact E].
      unfold with_rd; cbn [r_buf]. by eapply store_buf.
    + destruct (store r b) as [r1|] eqn:Hs; cbn; [|done].
      destruct (ring_write d r1) as [[k' r'']|] eqn:E; cbn; [|done].
      intros [= _ <-]. eapply IH; [by eapply store_buf | exact Hd | exact E].
Qed.

(** A write that fits in the free space is accepted whole, whatever the
    policy. *)
Lemma ring_write_fits d r q :
  ring_wf r -> contents r = Some q -> length q + length d < r_size r ->
  exists r', ring_write d r = Some (length d, r') /\ ring_wf r' /\
    contents r' = Some (q ++ d) /\ r_size r' = r_size r.
Proof.
  intros Hwf Hq Hlen. destruct (r_policy r) eqn:Hp.
  - destruct (ring_write_blocking_spec d r q Hwf Hp Hq) as (r' & Hw & ?&Hq'&?&_).
    rewrite take_ge in Hq' by lia. replace (min _ _) with (length d) in Hw by lia. by exists r'.
  - destruct (ring_write_overwrite_spec d r q Hwf Hp Hq) as (r' & Hw & ?&Hq'&?&_).
    rewrite lastn_short in Hq' by (rewrite length_app; lia). by exists r'.
Qed.

(** One operation of the ring implements the queue operation. *)
Lemma ring_step_spec r q o :
  ring_wf r -> contents r = Some q ->
  exists r1, ring_step r o = Some (r1, snd (fifo_step (r_size r - 1) (r_policy r) q o)) /\
    ring_wf r1 /\ contents r1 = Some (fst (fifo_step (r_size r - 1) (r_policy r) q o)) /\
    r_size r1 = r_size r /\ r_policy r1 = r_policy r.
Proof.
  intros Hwf Hq. destruct o as [n|d]; cbn [ring_step fifo_step fst snd].
  - destruct (ring_read_spec n r q Hwf Hq) as (r1 & -> & ?). by exists r1.
  - destruct (r_policy r) eqn:Hp.
    + destruct (ring_write_blocking_spec d r q Hwf Hp Hq) as (r1 & -> & ?&?&?&?).
      exists r1. cbn. by split_and!.
    + destruct (ring_write_overwrite_spec d r q Hwf Hp Hq) as (r1 & -> & ?&?&?&?).
      exists r1. cbn. by split_and!.
Qed.

Lemma ring_run_app r ops1 ops2 :
  ring_run r (ops1 ++ ops2) =
    '(r1, o1) ← ring_run r ops1; '(r2, o2) ← ring_run r1 ops2; Some (r2, o1 ++ o2).
Proof.
  revert r. induction ops1 as [|o ops1 IH]; intros r; cbn [ring_run app].
  - cbn. by destruct (ring_run r ops2) as [[]|].
  - destruct (ring_step r o) as [[r1 out]|]; cbn; [|done]. rewrite IH.
    destruct (ring_run r1 ops1) as [[r2 o1]|]; cbn; [|done].
    by destruct (ring_run r2 ops2) as [[]|].
Qed.

(** Blocking writes that fit are accepted whole and appended in order. *)
Lemma ring_writes_fit ds r q :
  ring_wf r -> r_policy r = Blocking -> contents r = Some q ->
  length q + length (concat ds) < r_size r ->
  exists r1, ring_run r (map OWrite ds) = Some (r1, map (fun d => inr (length d)) ds) /\
    ring_wf r1 /\ contents r1 = Some (q ++ concat ds) /\
    r_size r1 = r_size r /\ r_policy r1 = Blocking.
Proof.
  revert r q. induction ds as [|d ds IH]; intros r q Hwf Hp Hq Hlen; cbn [ring_run map concat].
  - exists r. by rewrite app_nil_r.
  - cbn [concat] in Hlen. rewrite length_app in Hlen.
    destruct (ring_write_blocking_spec d r q Hwf Hp Hq) as (r1 & Hw & Hwf1 & Hq1 & Hs1 & Hp1).
    rewrite take_ge in Hq1 by lia. replace (min _ _) with (length d) in Hw by lia.
    destruct (IH r1 (q ++ d) Hwf1 Hp1 Hq1 ltac:(rewrite length_app; lia))
      as (r2 & Hr & ?&Hq2&?&?).
    cbn [ring_step]. rewrite Hw. cbn. rewrite Hr. cbn. exists r2.
    rewrite <- app_assoc in Hq2. split_and!; (done || congruence).
Qed.

End RingFacts.

#[export] Hint Extern 1 (Ring.ring_wf _) => unfold Ring.ring_wf; cbn; lia : rtt.

(** ** Observational equivalence of channels

    Two well-formed channels with the same size, policy and unread bytes
    behave alike, wherever their offsets point: the host cannot observe the
    offsets.  [ring_equiv] is a partial equivalence (it only relates
    well-formed rings) and the channel operations respect it. *)
Module RingEquiv.
Import Ring RingFacts.

Definition ring_equiv (r1 r2 : ring) : Prop :=
  ring_wf r1 /\ ring_wf r2 /\ r_size r1 = r_size r2 /\ r_policy r1 = r_policy r2 /\
  contents r1 = contents r2.

#[export] Instance ring_equiv_sym : Symmetric ring_equiv.
Proof. intros r1 r2 (?&?&?&?&?). by split_and!. Qed.

#[export] Instance ring_equiv_trans : Transitive ring_equiv.
Proof. intros r1 r2 r3 (?&?&?&?&?) (?&?&?&?&?). split_and!; congruence. Qed.

(** The relation on the results of an operation: same output, equivalent
    channels. *)
Definition res_equiv {A} : relation (option (A * ring)) :=
  option_Forall2 (prod_relation eq ring_equiv).

#[export] Instance ring_read_proper : Proper (eq ==> ring_equiv ==> res_equiv) ring_read.
Proof.
  intros n ? <- r1 r2 (Hw1 & Hw2 & Hs & Hp & Hc).
  destruct (contents_total r1 Hw1) as [q Hq]. rewrite Hq in Hc.
  destruct (ring_read_spec n r1 q Hw1 Hq) as (r1' & -> & ? & ? & ? & ?).
  destruct (ring_read_spec n r2 q Hw2 (eq_sym Hc)) as (r2' & -> & ? & ? & ? & ?).
  constructor. split; [done|]. unfold ring_equiv; cbn. split_and!; (done || congruence).
Qed.

#[export] Instance ring_write_proper : Proper (eq ==> ring_equiv ==> res_equiv) ring_write.
Proof.
  intros d ? <- r1 r2 (Hw1 & Hw2 & Hs & Hp & Hc).
  destruct (contents_total r1 Hw1) as [q Hq]. rewrite Hq in Hc. symmetry in Hc.
  destruct (r_policy r1) eqn:Hp1.
  - destruct (ring_write_blocking_spec d r1 q Hw1 Hp1 Hq) as (r1' & -> & ? & ? & ? & ?).
    destruct (ring_write_blocking_spec d r2 q Hw2 (eq_sym Hp) Hc) as (r2' & -> & ? & ? & ? & ?).
    rewrite Hs. constructor. split; [done|]. unfold ring_equiv; cbn. split_and!; (done || congruence).
  - destruct (ring_write_overwrite_spec d r1 q Hw1 Hp1 Hq) as (r1' & -> & ? & ? & ? & ?).
    destruct (ring_write_overwrite_spec d r2 q Hw2 (eq_sym Hp) Hc) as (r2' & -> & ? & ? & ? & ?).
    constructor. split; [done|]. unfold ring_equiv; cbn. split_and!; (done || congruence).
Qed.

#[export] Instance ring_step_proper :
  Proper (ring_equiv ==> eq ==> option_Forall2 (prod_relation ring_equiv eq)) ring_step.
Proof.
  intros r1 r2 Hr o ? <-. destruct o as [n|d]; cbn [ring_step].
  - generalize (ring_read_proper n n eq_refl r1 r2 Hr).
    destruct (ring_read n r1) as [[bs1 r1']|], (ring_read n r2) as [[bs2 r2']|];
      inversion_clear 1 as [? ? [Hb Hr']|]; cbn in *; subst; constructor; by split.
  - generalize (ring_write_proper d d eq_refl r1 r2 Hr).
    destruct (ring_write d r1) as [[k1 r1']|], (ring_write d r2) as [[k2 r2']|];
      inversion_clear 1 as [? ? [Hk Hr']|]; cbn in *; subst; constructor; by split.
Qed.

(** Any sequence of operations gives the same outputs on equivalent
    channels: the host's view of a channel is its queue. *)
#[export] Instance ring_run_proper :
  Proper (ring_equiv ==> eq ==> option_Forall2 (prod_relation ring_equiv eq)) ring_run.
Proof.
  intros r1 r2 Hr ops ? <-. revert r1 r2 Hr.
  induction ops as [|o ops IH]; intros r1 r2 Hr; cbn [ring_run].
  - constructor; by split.
  - generalize (ring_step_proper r1 r2 Hr o o eq_refl).
    destruct (ring_step r1 o) as [[r1' out1]|], (ring_step r2 o) as [[r2' out2]|];
      inversion_clear 1 as [? ? [Hr' Ho]|]; cbn in *; subst; [|constructor].
    generalize (IH r1' r2' Hr').
    destruct (ring_run r1' ops) as [[r1'' o1]|], (ring_run r2' ops) as [[r2'' o2]|];
      inversion_clear 1 as [? ? [Hr'' Hos]|]; cbn in *; subst; constructor; by split.
Qed.

End RingEquiv.

Module RingThms.
Import Ring RingFacts.


(** The ring buffer refines the bounded FIFO queue of capacity
    [size - 1]: from a well-formed ring holding [q], any sequence of reads
    and writes succeeds (no access falls outside [[base, base + size)],
    whatever the offsets and the wrap-arounds), returns what the queue
    returns, and ends in a well-formed ring holding the queue's final
    contents. *)
Theorem ring_refines_fifo ops r q :
  ring_wf r -> contents r = Some q ->
  exists r', ring_run r ops = Some (r', snd (fifo_run (r_size r - 1) (r_policy r) q ops)) /\
    ring_wf r' /\ contents r' = Some (fst (fifo_run (r_size r - 1) (r_policy r) q ops)).
Proof.
  revert r q. induction ops as [|o ops IH]; intros r q Hwf Hq; cbn [ring_run fifo_run].
  - by exists r.
  - destruct (ring_step_spec r q o Hwf Hq) as (r1 & -> & Hwf1 & Hq1 & Hs & Hp). cbn.
    destruct (fifo_step _ _ q o) as [q1 out]. cbn in Hq1 |- *.
    destruct (IH r1 q1 Hwf1 Hq1) as (r2 & -> & ?&?). rewrite Hs, Hp in *.
    destruct (fifo_run _ _ q1 ops). by exists r2.
Qed.

(** Loopback on a blocking channel (spec section 8): on an empty
    channel, writes whose total length stays below the buffer size are each
    accepted in full, and a read of at least that many bytes returns
    exactly the bytes written, in order. *)
Theorem ring_loopback ds n r :
  ring_wf r -> r_policy r = Blocking -> contents r = Some [] ->
  length (concat ds) < r_size r -> length (concat ds) <= n ->
  exists r', ring_run r (map OWrite ds ++ [ORead n]) =
    Some (r', map (fun d => inr (length d)) ds ++ [inl (concat ds)]).
Proof.
  intros Hwf Hp Hq Hlt Hn.
  destruct (ring_writes_fit ds r [] Hwf Hp Hq ltac:(cbn; lia)) as (r1 & Hr & Hwf1 & Hq1 & _).
  destruct (ring_read_spec n r1 _ Hwf1 Hq1) as (r2 & Hrd & _).
  rewrite ring_run_app, Hr. cbn. rewrite Hrd. cbn. rewrite take_ge by done. by exists r2.
Qed.

(** The example of spec section 8 on a 1024-byte overwrite channel:
    writing 1100 bytes reports 1100, and the next read returns the last
    1023 of them, not 1024: a channel described only by two offsets in
    [[0, size)] holds at most [size - 1] bytes, so the earliest 77 bytes
    are discarded. *)
Theorem spec_example_overwrite :
  let d := map (fun i => Z.of_nat i mod 256)%Z (seq 0 1100) in
  (fst <$> ring_write d (empty_ring 1024 Overwrite)) = Some 1100 /\
  (ring_write d (empty_ring 1024 Overwrite) ≫= fun '(_, r1) => fst <$> ring_read 1024 r1)
    = Some (drop 77 d).
Proof. split; vm_compute; reflexivity. Qed.

(** A four-byte blocking channel whose unread bytes [13; 10] wrap around
    the end of the buffer. *)
Definition sample_ring (p : policy) : ring := mkRing 4 [10; 11; 12; 13]%Z 3 1 p.

Lemma sample_ring_wf p : ring_wf (sample_ring p).
Proof. auto with rtt. Qed.

Lemma ring_refines_fifo_witness :
  exists r', ring_run (sample_ring Blocking) [OWrite [1; 2; 3]%Z; ORead 2] =
    Some (r', snd (fifo_run (r_size (sample_ring Blocking) - 1) (r_policy (sample_ring Blocking))
                            [13; 10]%Z [OWrite [1; 2; 3]%Z; ORead 2])) /\
    ring_wf r' /\
    contents r' = Some (fst (fifo_run (r_size (sample_ring Blocking) - 1)
                                      (r_policy (sample_ring Blocking))
                                      [13; 10]%Z [OWrite [1; 2; 3]%Z; ORead 2])).
Proof. apply ring_refines_fifo; [apply sample_ring_wf | reflexivity]. Defined.

Lemma ring_loopback_witness :
  exists r', ring_run (empty_ring 4 Blocking) (map OWrite [[1; 2]; [3]]%Z ++ [ORead 3]) =
    Some (r', map (fun d => inr (length d)) [[1; 2]; [3]]%Z ++ [inl (concat [[1; 2]; [3]]%Z)]).
Proof.
  apply ring_loopback; [auto with rtt | reflexivity | reflexivity | cbn; lia | cbn; lia].
Defined.

End RingThms.

Module ProbeFacts.
Import Ring RingFacts Probe.

(** The simulated probe honours pylink's [rtt_read] contract. *)
#[export] Instance sim_laws : JLinkLaws probe.
Proof.
  constructor. intros h i n p p' l. cbn. unfold sim_rtt_read, open_required.
  destruct (owns h p); [|intros; discriminate].
  destruct (p_rtt p); cbn; [|intros; discriminate].
  destruct (channel (p_up p) i); [|intros; discriminate].
  destruct (ring_read (Z.to_nat n) r) as [[bs r']|] eqn:E; [|intros; discriminate].
  intros [= _ <-]. apply ring_read_length in E. split.
  - rewrite length_map. lia.
  - apply Forall_map, Forall_forall. intros b _. unfold Utf8.is_byte. zlia.
Qed.

End ProbeFacts.
