(* ===== verification/SharedRing.v ===== *)
(** * The RTT buffer shared by the target and the host

    The spec (section 5) names the central hazard of RTT: the control block
    of an up channel lives in target memory and is mutated by the firmware
    (which writes data and advances [WrOff]) while the host reads it (which
    copies data and advances [RdOff]).  This file models one up channel at
    the granularity of single memory accesses, modelled from the spec and
    from SEGGER's published RTT code since neither side is code of the
    repository:

    - the firmware ([fw_step]) writes a byte at [WrOff] and, in a separate
      step, publishes it by advancing [WrOff]; in blocking mode it waits
      while the buffer is full;
    - the host read with the barrier-safe pattern of the spec ([host_step])
      first reads [WrOff] (and [RdOff]), then copies the bytes one by one,
      then writes [RdOff];
    - the host read that copies the buffer before reading [WrOff]
      ([torn_step]) is the pattern the spec warns against.

    An interleaving is a schedule, a list of booleans saying which side
    takes the next step ([interleave]); after the schedule the host runs
    alone to the end of its read ([finish], with fuel [n + 2], enough for
    any read of at most [n] bytes).  [shm_read] and [shm_read_torn] are the
    two host reads under a schedule.  The theorems show that under every
    schedule the barrier-safe read terminates and returns a chunk of the
    byte stream, in order and untorn; the torn read is refuted on a
    concrete schedule in ConcurrentProbe.v. *)

From S2P Require Import Prelude JLinkApi RttSim.

Import Ring RingFacts.

Open Scope nat_scope.

Module Shm.

(** The firmware's side of one up channel: the bytes it still has to
    write, and whether the first of them is already in the buffer but not
    yet published by advancing [WrOff]. *)
Record fwst := FwSt {
  f_todo : list Z;
  f_put : bool
}.

(** [pBuffer[WrOff] = b]: the data write, [WrOff] unchanged. *)
Definition fw_put (r : ring) (b : Z) : ring :=
  mkRing (r_size r) (<[r_wr r := b]> (r_buf r)) (r_rd r) (r_wr r) (r_policy r).

(** [WrOff = next(WrOff)]: the byte becomes visible to the host. *)
Definition fw_publish (r : ring) : ring :=
  mkRing (r_size r) (r_buf r) (r_rd r) (next (r_size r) (r_wr r)) (r_policy r).

(** One step of the firmware writing in blocking mode: publish the byte
    already written, or write the next byte if there is room, or wait. *)
Definition fw_step (r : ring) (f : fwst) : ring * fwst :=
  match f_todo f with
  | [] => (r, f)
  | b :: rest =>
      if f_put f then (fw_publish r, FwSt rest false)
      else if next (r_size r) (r_wr r) =? r_rd r then (r, f)
      else (fw_put r b, FwSt (b :: rest) true)
  end.

(** The barrier-safe host read of at most [n] bytes: [HIdle] before it
    starts, [HCopy k j acc] after reading the offsets ([k] bytes to copy,
    [j] copied into [acc]), [HDone acc] after writing [RdOff]. *)
Inductive hst :=
| HIdle
| HCopy (k j : nat) (acc : list Z)
| HDone (acc : list Z).

Definition host_step (n : nat) (r : ring) (h : hst) : option (ring * hst) :=
  match h with
  | HIdle => Some (r, HCopy (min n (pending r)) 0 [])
  | HCopy k j acc =>
      if j <? k then b ← ring_at r j; Some (r, HCopy k (S j) (acc ++ [b]))
      else Some (with_rd r (wrap (r_size r) (r_rd r + k)), HDone acc)
  | HDone acc => Some (r, HDone acc)
  end.

(** The host read that copies the buffer first and reads [WrOff] after:
    [TCopied snap] holds the copy. *)
Inductive tst :=
| TIdle
| TCopied (snap : list Z)
| TDone (acc : list Z).

Definition torn_step (n : nat) (r : ring) (h : tst) : option (ring * tst) :=
  match h with
  | TIdle => Some (r, TCopied (r_buf r))
  | TCopied snap =>
      let k := min n (pending r) in
      acc ← mapM (ring_at (mkRing (r_size r) snap (r_rd r) (r_wr r) (r_policy r))) (seq 0 k);
      Some (with_rd r (wrap (r_size r) (r_rd r + k)), TDone acc)
  | TDone acc => Some (r, TDone acc)
  end.

Section Run.
Context {H : Type} (hstep : ring -> H -> option (ring * H)).

(** Run a schedule: [true] lets the firmware step, [false] the host. *)
Fixpoint interleave (s : list bool) (r : ring) (f : fwst) (h : H) : option (ring * fwst * H) :=
  match s with
  | [] => Some (r, f, h)
  | true :: s => let '(r1, f1) := fw_step r f in interleave s r1 f1 h
  | false :: s => '(r1, h1) ← hstep r h; interleave s r1 f h1
  end.

(** The host alone for [fuel] more steps. *)
Fixpoint finish (fuel : nat) (r : ring) (h : H) : option (ring * H) :=
  match fuel with
  | 0 => Some (r, h)
  | S fuel => '(r1, h1) ← hstep r h; finish fuel r1 h1
  end.

End Run.

(** One host read of at most [n] bytes under the schedule [s]. *)
Definition shm_read (n : nat) (s : list bool) (r : ring) (f : fwst)
    : option (list Z * ring * fwst) :=
  '(r1, f1, h1) ← interleave (host_step n) s r f HIdle;
  '(r2, h2) ← finish (host_step n) (n + 2) r1 h1;
  match h2 with HDone acc => Some (acc, r2, f1) | _ => None end.

Definition shm_read_torn (n : nat) (s : list bool) (r : ring) (f : fwst)
    : option (list Z * ring * fwst) :=
  '(r1, f1, h1) ← interleave (torn_step n) s r f TIdle;
  '(r2, h2) ← finish (torn_step n) 2 r1 h1;
  match h2 with TDone acc => Some (acc, r2, f1) | _ => None end.

(** The shared channel is consistent with the queue [P] of published
    bytes: a well-formed blocking ring holding [P], and a byte written but
    not yet published sits at [WrOff] in a slot that is free. *)
Definition shm_ok (r : ring) (f : fwst) (P : list Z) : Prop :=
  ring_wf r /\ r_policy r = Blocking /\ contents r = Some P /\
  (f_put f = true -> exists b rest, f_todo f = b :: rest /\
     r_buf r !! r_wr r = Some b /\ S (pending r) < r_size r).

End Shm.

Module ShmFacts.
Import Shm.

(** ** The ring under the single accesses *)

Lemma wrap_wrap n a k j :
  a < n -> k + j < n -> wrap n (wrap n (a + k) + j) = wrap n (a + (k + j)).
Proof. unfold wrap. ncase. Qed.

(** The [j]-th unread byte is the [j]-th element of the queue. *)
Lemma contents_at r P j : contents r = Some P -> j < length P -> ring_at r j = P !! j.
Proof.
  unfold contents. intros [Hlen Hq]%mapM_seq_Some Hj. apply (Hq j). lia.
Qed.

(** Advancing [RdOff] by [k] unread bytes drops them from the queue. *)
Lemma contents_commit r P k :
  ring_wf r -> contents r = Some P -> k <= pending r ->
  let r' := with_rd r (wrap (r_size r) (r_rd r + k)) in
  ring_wf r' /\ contents r' = Some (drop k P) /\ pending r' = pending r - k.
Proof.
  intros Hwf Hq Hk r'. pose proof (pending_lt r Hwf). pose proof (wrap_pending r Hwf).
  pose proof Hwf as (?&?&?&?).
  assert (Hp : pending r' = pending r - k).
  { subst r'. revert H0. unfold pending, wrap in *; ring_proj. ncase. }
  split_and!; [| | exact Hp].
  - unfold ring_wf; subst r'; ring_proj. split_and!; try done. apply wrap_lt. lia.
  - unfold contents in *. apply mapM_seq_Some in Hq as [Hlen Hq].
    apply mapM_seq_Some. rewrite length_drop, Hp. split; [lia|].
    intros j Hj. rewrite lookup_drop, <- Hq by lia.
    unfold ring_at; subst r'; ring_proj. rewrite wrap_wrap by lia. done.
Qed.

(** The data write goes to a free slot: the queue is unchanged. *)
Lemma contents_put r P b :
  ring_wf r -> S (pending r) < r_size r -> contents r = Some P ->
  ring_wf (fw_put r b) /\ contents (fw_put r b) = Some P /\
  pending (fw_put r b) = pending r /\ r_buf (fw_put r b) !! r_wr r = Some b.
Proof.
  intros Hwf Hfree Hq. pose proof (pending_lt r Hwf). pose proof Hwf as (?&Hlen&?&?).
  split_and!.
  - unfold ring_wf, fw_put; ring_proj. by rewrite length_insert.
  - unfold contents in *. apply mapM_seq_Some in Hq as [HlP Hq].
    change (pending (fw_put r b)) with (pending r). apply mapM_seq_Some. split; [done|]. intros j Hj.
    unfold ring_at, fw_put; ring_proj. rewrite list_lookup_insert_ne; [by apply Hq|].
    rewrite <- (wrap_pending r Hwf). intros Heq. apply wrap_inj in Heq; lia.
  - done.
  - unfold fw_put; ring_proj. apply list_lookup_insert_eq. lia.
Qed.

(** Publishing a byte already at [WrOff] appends it to the queue. *)
Lemma contents_publish r P b :
  ring_wf r -> S (pending r) < r_size r -> r_buf r !! r_wr r = Some b -> contents r = Some P ->
  ring_wf (fw_publish r) /\ contents (fw_publish r) = Some (P ++ [b]) /\
  pending (fw_publish r) = S (pending r).
Proof.
  intros Hwf Hfree Hb Hq.
  destruct (store_step r P b Hwf Hfree Hq) as (r1 & Hs & Hwf1 & Hq1 & _).
  assert (r1 = fw_publish r) as ->.
  { unfold store in Hs. destruct (Nat.ltb_spec (r_wr r) (length (r_buf r))); [|done].
    injection Hs as <-. unfold fw_publish. by rewrite list_insert_id. }
  pose proof (contents_length _ _ Hq1) as Hl. pose proof (contents_length _ _ Hq).
  rewrite length_app in Hl. cbn in Hl. split_and!; [done | done | lia].
Qed.

(** A prefix of the bytes pending at the start survives into a longer
    prefix of the queue. *)
Lemma prefix_take_le (q P : list Z) n k :
  q `prefix_of` P -> min n (length q) <= k -> k <= length P -> take n q `prefix_of` take k P.
Proof.
  intros [t ->] Hm Hk. destruct (Nat.le_ge_cases n (length q)).
  - rewrite Nat.min_l in Hm by lia.
    rewrite <- (take_drop n (take k (q ++ t))), take_take, Nat.min_l, take_app_le by lia.
    by apply prefix_app_r.
  - rewrite Nat.min_r in Hm by lia. rewrite (take_ge q) by lia.
    rewrite take_app_ge by lia. by apply prefix_app_r.
Qed.

(** ** The invariant of a read in progress

    [all] is the whole byte stream: the bytes pending when the read was
    called followed by those the firmware still had to write; [q] are the
    bytes pending when the read was called. *)
Section Read.
Context (n : nat) (q all : list Z).

(** The host's progress against the published queue [P] and the
    firmware's remaining bytes [todo]. *)
Definition host_ok (P todo : list Z) (h : hst) : Prop :=
  match h with
  | HIdle => q `prefix_of` P /\ P ++ todo = all
  | HCopy k j acc =>
      j <= k /\ k <= length P /\ k <= n /\ min n (length q) <= k /\ q `prefix_of` P /\
      acc = take j P /\ P ++ todo = all
  | HDone acc => length acc <= n /\ take n q `prefix_of` acc /\ acc ++ P ++ todo = all
  end.

(** Steps left to the host: a bound that every host step decreases. *)
Definition mhost (h : hst) : nat :=
  match h with HIdle => n + 2 | HCopy k j _ => S (k - j) | HDone _ => 0 end.

Lemma host_ok_grow P b rest h :
  host_ok P (b :: rest) h -> host_ok (P ++ [b]) rest h.
Proof.
  destruct h; cbn; rewrite <- ?app_assoc; intros; destruct_and!; split_and!;
    try done; try by apply prefix_app_r.
  - rewrite length_app. lia.
  - subst. by rewrite take_app_le by lia.
Qed.

(** A firmware step keeps the channel consistent and the read's progress
    valid: the published queue only grows at its end. *)
Lemma fw_step_ok r f P h :
  shm_ok r f P -> host_ok P (f_todo f) h ->
  exists P', shm_ok (fst (fw_step r f)) (snd (fw_step r f)) P' /\
    host_ok P' (f_todo (snd (fw_step r f))) h.
Proof.
  intros (Hwf & Hpol & Hq & Hput) Hh. destruct f as [[|b rest] put]; cbn in *.
  { exists P. by split_and!. }
  destruct put.
  - destruct (Hput eq_refl) as (b' & rest' & [= <- <-] & Hb & Hfree).
    destruct (contents_publish r P b Hwf Hfree Hb Hq) as (? & ? & _).
    exists (P ++ [b]). split; [by split_and! | by apply host_ok_grow].
  - destruct (Nat.eqb_spec (next (r_size r) (r_wr r)) (r_rd r)) as [Hf|Hf];
      [exists P; by split_and!|].
    pose proof (pending_lt r Hwf).
    assert (Hfree : S (pending r) < r_size r) by (rewrite (full_iff r Hwf) in Hf; lia).
    destruct (contents_put r P b Hwf Hfree Hq) as (? & ? & Hp & Hb).
    exists P. split; [|done]. unfold shm_ok; cbn. split_and!; try done. intros _. exists b, rest. by rewrite Hp.
Qed.

(** A host step never faults, keeps the invariant and brings the read
    closer to its end. *)
Lemma host_step_ok r f P h :
  shm_ok r f P -> host_ok P (f_todo f) h ->
  exists r' h' P', host_step n r h = Some (r', h') /\ shm_ok r' f P' /\
    host_ok P' (f_todo f) h' /\ mhost h' <= pred (mhost h).
Proof.
  intros Hok Hh. pose proof Hok as (Hwf & Hpol & Hq & Hput).
  pose proof (contents_length r P Hq) as HlP.
  destruct h as [|k j acc|acc]; cbn [host_step].
  - destruct Hh as [Hpre Hall]. pose proof (prefix_length _ _ Hpre).
    eexists _, _, P. split_and!; [reflexivity | done | | cbn; lia].
    cbn. split_and!; try done; lia.
  - destruct Hh as (Hjk & HkP & Hkn & Hqk & Hpre & -> & Hall).
    destruct (Nat.ltb_spec j k).
    + rewrite (contents_at r P j Hq) by lia.
      destruct (lookup_lt_is_Some_2 P j ltac:(lia)) as [b Hb]. rewrite Hb.
      eexists _, _, P. split_and!; [reflexivity | done | | cbn; lia].
      cbn. split_and!; try done; try lia. by rewrite (take_S_r _ _ b).
    + destruct (contents_commit r P k Hwf Hq ltac:(lia)) as (Hwf' & Hq' & Hp').
      eexists _, _, (drop k P). split_and!; [reflexivity | | | cbn; lia].
      * split_and!; try done. intros Hf. destruct (Hput Hf) as (b & rest & ? & ? & ?).
        exists b, rest. cbn. split_and!; try done. lia.
      * cbn. replace j with k by lia. rewrite length_take. split_and!; [lia | |].
        -- by apply prefix_take_le.
        -- by rewrite app_assoc, take_drop.
  - eexists _, _, P. by split_and!.
Qed.

(** The host alone reaches the end of its read within [mhost h] steps. *)
Lemma finish_ok fuel r f P h :
  mhost h <= fuel -> shm_ok r f P -> host_ok P (f_todo f) h ->
  exists r' acc P', finish (host_step n) fuel r h = Some (r', HDone acc) /\
    shm_ok r' f P' /\ host_ok P' (f_todo f) (HDone acc).
Proof.
  revert r P h. induction fuel as [|fuel IH]; intros r P h Hm Hok Hh.
  - destruct h; cbn in Hm; try lia. by exists r, acc, P.
  - destruct (host_step_ok r f P h Hok Hh) as (r1 & h1 & P1 & Hs & Hok1 & Hh1 & Hm1).
    cbn [finish]. rewrite Hs. cbn. apply (IH r1 P1 h1); [lia | done | done].
Qed.

(** Under any schedule both sides keep the invariant, and the host never
    faults. *)
Lemma interleave_ok s r f P h :
  shm_ok r f P -> host_ok P (f_todo f) h ->
  exists r' f' h' P', interleave (host_step n) s r f h = Some (r', f', h') /\
    shm_ok r' f' P' /\ host_ok P' (f_todo f') h' /\ mhost h' <= mhost h.
Proof.
  revert r f P h. induction s as [|[] s IH]; intros r f P h Hok Hh; cbn [interleave].
  - by exists r, f, h, P.
  - destruct (fw_step_ok r f P h Hok Hh) as (P1 & Hok1 & Hh1).
    destruct (fw_step r f) as [r1 f1]. cbn in Hok1, Hh1.
    exact (IH r1 f1 P1 h Hok1 Hh1).
  - destruct (host_step_ok r f P h Hok Hh) as (r1 & h1 & P1 & Hs & Hok1 & Hh1 & Hm1).
    rewrite Hs. cbn.
    destruct (IH r1 f P1 h1 Hok1 Hh1) as (r' & f' & h' & P' & ? & ? & ? & ?).
    exists r', f', h', P'. split_and!; try done. lia.
Qed.

End Read.

(** A barrier-safe read of at most [n] bytes under any schedule returns
    [acc], after which the channel holds [P'] and the firmware still has
    [f_todo f'] to write, such that [acc ++ P' ++ f_todo f'] is the stream
    [q ++ f_todo f] it started from; [acc] holds at least the first [n]
    bytes pending when the read began. *)
Lemma shm_read_spec n s r f q :
  shm_ok r f q ->
  exists acc r' f' P', shm_read n s r f = Some (acc, r', f') /\ shm_ok r' f' P' /\
    acc ++ P' ++ f_todo f' = q ++ f_todo f /\ take n q `prefix_of` acc /\ length acc <= n.
Proof.
  intros Hok.
  destruct (interleave_ok n q (q ++ f_todo f) s r f q HIdle Hok (conj (reflexivity q) eq_refl))
    as (r1 & f1 & h1 & P1 & Hi & Hok1 & Hh1 & Hm1).
  destruct (finish_ok n q (q ++ f_todo f) (n + 2) r1 f1 P1 h1 Hm1 Hok1 Hh1)
    as (r2 & acc & P2 & Hf & Hok2 & (Hlen & Hpre & Hall)).
  unfold shm_read. rewrite Hi. cbn. rewrite Hf. cbn.
  by exists acc, r2, f1, P2.
Qed.

End ShmFacts.
