(* ===== verification/ControlBlock.v ===== *)
(** * The RTT control block in target memory

    The J-Link finds RTT by scanning the target's RAM for the control
    block's marker and reading its channel table (spec sections 4.3 and 6).
    This file models, from the spec and SEGGER's published layout since it
    is not code of the repository, a 32-bit little-endian target:

    - the control block: the 16-byte identifier ["SEGGER RTT"] padded with
      zeros, the number of up and of down channels, then one 24-byte
      descriptor per channel ([sName], [pBuffer], [SizeOfBuffer], [WrOff],
      [RdOff], [Flags], each a 32-bit word);
    - [layout]: a control block followed by the channel buffers, as a
      target lays it out at address [base];
    - [find_marker]: the scan for the first occurrence of the marker;
    - [decode_cb] and [discover]: the reading of the channel table back
      into rings, validating every descriptor (buffer inside the scanned
      region, offsets inside the buffer);
    - [poke]: the J-Link's write of bytes back into target memory.

    [CBFacts] proves that a laid-out control block is found by the scan
    and decodes to its channels, and that writing back a channel's read
    offset, or a down channel's buffer and offsets, gives the layout of
    the updated channels.

    The mode bits of [Flags] give the policy: [2]
    ([SEGGER_RTT_MODE_BLOCK_IF_FIFO_FULL]) is the spec's blocking policy,
    any other mode its overwrite policy. *)

From S2P Require Import Prelude Utf8 JLinkApi RttSim.

Import Ring RingFacts.

Module CB.

(** ** Words *)

(** The [n] bytes of [x], least significant first. *)
Fixpoint le_split (n : nat) (x : Z) : list Z :=
  match n with
  | 0 => []
  | S n => Z.land x 255 :: le_split n (Z.shiftr x 8)
  end.

(** The value of bytes stored least significant first. *)
Fixpoint le_combine (bs : list Z) : Z :=
  match bs with
  | [] => 0
  | b :: bs => Z.lor b (Z.shiftl (le_combine bs) 8)
  end.

Definition word (x : Z) : list Z := le_split 4 x.

(** A 32-bit read at offset [off] of the scanned region. *)
Definition read_word (mem : list Z) (off : nat) : option Z :=
  if off + 4 <=? length mem then Some (le_combine (take 4 (drop off mem))) else None.

(** ** The layout *)

(** [acID]: "SEGGER RTT" and six zero bytes. *)
Definition marker : list Z := [83; 69; 71; 71; 69; 82; 32; 82; 84; 84; 0; 0; 0; 0; 0; 0]%Z.

Definition hdr_size : nat := 24.
Definition desc_size : nat := 24.

Definition mode_flags (p : policy) : Z :=
  match p with Blocking => 2%Z | Overwrite => 0%Z end.

Definition flags_policy (f : Z) : policy :=
  if (Z.land f 3 =? 2)%Z then Blocking else Overwrite.

(** The descriptor of a channel whose buffer is at address [addr]; no
    name ([sName = NULL]). *)
Definition desc (addr : Z) (r : ring) : list Z :=
  word 0 ++ word addr ++ word (Z.of_nat (r_size r)) ++ word (Z.of_nat (r_wr r)) ++
  word (Z.of_nat (r_rd r)) ++ word (mode_flags (r_policy r)).

(** The descriptors of channels whose buffers follow each other from
    address [addr]. *)
Fixpoint descs (addr : Z) (rs : list ring) : list Z :=
  match rs with
  | [] => []
  | r :: rs => desc addr r ++ descs (addr + Z.of_nat (r_size r)) rs
  end.

(** A control block at address [base], its buffers right after it. *)
Definition layout (base : Z) (up down : list ring) : list Z :=
  marker ++ word (Z.of_nat (length up)) ++ word (Z.of_nat (length down)) ++
  descs (base + Z.of_nat (hdr_size + desc_size * (length up + length down))) (up ++ down) ++
  concat (r_buf <$> up ++ down).

(** The bytes the buffers of [rs] take. *)
Definition total (rs : list ring) : nat := sum_list_with r_size rs.

(** ** Discovery *)

(** A descriptor read back at offset [off] of the region starting at
    address [base]. *)
Definition decode_desc (base : Z) (mem : list Z) (off : nat) : option ring :=
  addr ← read_word mem (off + 4);
  size ← read_word mem (off + 8);
  wr ← read_word mem (off + 12);
  rd ← read_word mem (off + 16);
  flags ← read_word mem (off + 20);
  let a := (addr - base)%Z in
  if (0 <=? a)%Z && (0 <? size)%Z && (wr <? size)%Z && (rd <? size)%Z &&
     (a + size <=? Z.of_nat (length mem))%Z
  then Some (mkRing (Z.to_nat size) (take (Z.to_nat size) (drop (Z.to_nat a) mem))
                    (Z.to_nat rd) (Z.to_nat wr) (flags_policy flags))
  else None.

(** [n] descriptors one after the other from offset [off]. *)
Fixpoint decode_descs (base : Z) (mem : list Z) (off n : nat) : option (list ring) :=
  match n with
  | 0 => Some []
  | S n =>
      r ← decode_desc base mem off;
      rs ← decode_descs base mem (off + desc_size) n;
      Some (r :: rs)
  end.

(** The channel table of the control block at offset [k]. *)
Definition decode_cb (base : Z) (mem : list Z) (k : nat) : option (list ring * list ring) :=
  nup ← read_word mem (k + 16);
  ndown ← read_word mem (k + 20);
  up ← decode_descs base mem (k + hdr_size) (Z.to_nat nup);
  down ← decode_descs base mem (k + hdr_size + desc_size * Z.to_nat nup) (Z.to_nat ndown);
  Some (up, down).

(** The first offset from [k] on, within [fuel] offsets, where the marker
    starts. *)
Fixpoint find_from (mem : list Z) (k fuel : nat) : option nat :=
  match fuel with
  | 0 => None
  | S fuel => if decide (take 16 (drop k mem) = marker) then Some k else find_from mem (S k) fuel
  end.

Definition find_marker (mem : list Z) : option nat := find_from mem 0 (length mem).

(** The J-Link's write of the bytes [bs] at offset [off] of the region. *)
Definition poke (mem : list Z) (off : nat) (bs : list Z) : list Z :=
  take off mem ++ bs ++ drop (off + length bs) mem.

(** Scan the region at address [base] and read the channel table of the
    first control block found. *)
Definition discover (base : Z) (mem : list Z) : option (list ring * list ring) :=
  k ← find_marker mem; decode_cb base mem k.

End CB.

Module CBFacts.
Import CB.

(** ** Words *)

Lemma land_255 x : (Z.land x 255 = x mod 256)%Z.
Proof. exact (Z.land_ones x 8 ltac:(lia)). Qed.

Lemma length_le_split n x : length (le_split n x) = n.
Proof. revert x. induction n; intros; cbn; auto. Qed.

Lemma le_split_bytes n x : Forall Utf8.is_byte (le_split n x).
Proof.
  revert x. induction n as [|n IH]; intros x; constructor; [|apply IH].
  unfold Utf8.is_byte. rewrite land_255. zlia.
Qed.

(** Splitting a value that fits in [n] bytes and combining the bytes
    gives the value back. *)
Lemma le_combine_split n x :
  (0 <= x < 2 ^ (8 * Z.of_nat n))%Z -> le_combine (le_split n x) = x.
Proof.
  revert x. induction n as [|n IH]; intros x Hx; cbn [le_split le_combine].
  - cbn in Hx. lia.
  - rewrite IH.
    + rewrite land_255, Z.lor_comm, shiftr_div, shiftl_mul by lia.
      rewrite (lor_low_add _ _ 8) by (cbn; zlia). cbn. zlia.
    + rewrite shiftr_div by lia. rewrite Nat2Z.inj_succ, Z.mul_succ_r, Z.pow_add_r in Hx by lia.
      cbn [Z.pow Z.pow_pos Pos.iter Z.mul] in *. split; [zlia|].
      apply Z.div_lt_upper_bound; lia.
Qed.

Lemma take_word x l : take 4 (word x ++ l) = word x.
Proof. by apply take_app_length'. Qed.

Lemma drop_word x l : drop 4 (word x ++ l) = l.
Proof. by apply drop_app_length'. Qed.

(** A word stored at [off] is read back. *)
Lemma read_word_at mem off x l :
  (0 <= x < 2 ^ 32)%Z -> drop off mem = word x ++ l -> read_word mem off = Some x.
Proof.
  intros Hx Hd. unfold read_word.
  assert (Hl : length (drop off mem) = 4 + length l)
    by (rewrite Hd, length_app; unfold word; by rewrite length_le_split).
  rewrite length_drop in Hl. destruct (Nat.leb_spec (off + 4) (length mem)); [|lia].
  rewrite Hd, take_word. f_equal. by apply le_combine_split.
Qed.

Lemma flags_policy_mode p : flags_policy (mode_flags p) = p.
Proof. by destruct p. Qed.

Lemma length_word x : length (word x) = 4.
Proof. apply length_le_split. Qed.

Lemma length_desc a r : length (desc a r) = desc_size.
Proof. unfold desc. rewrite !length_app, !length_word. done. Qed.

(** The six words of a descriptor stored at [off] are read back. *)
Lemma read_words mem off a0 a1 a2 a3 a4 a5 l :
  Forall (fun x => 0 <= x < 2 ^ 32)%Z [a1; a2; a3; a4; a5] ->
  drop off mem = word a0 ++ word a1 ++ word a2 ++ word a3 ++ word a4 ++ word a5 ++ l ->
  read_word mem (off + 4) = Some a1 /\ read_word mem (off + 8) = Some a2 /\
  read_word mem (off + 12) = Some a3 /\ read_word mem (off + 16) = Some a4 /\
  read_word mem (off + 20) = Some a5.
Proof.
  intros Hx Hd. repeat (apply Forall_cons in Hx as [? Hx]).
  replace (off + 8) with (off + 4 + 4) by lia. replace (off + 12) with (off + 4 + 4 + 4) by lia.
  replace (off + 16) with (off + 4 + 4 + 4 + 4) by lia.
  replace (off + 20) with (off + 4 + 4 + 4 + 4 + 4) by lia.
  split_and!; (eapply read_word_at; [done|]); rewrite <- ?drop_drop, Hd, ?drop_word; reflexivity.
Qed.

(** A descriptor of a well-formed ring whose buffer lies at [addr] inside
    the region is read back as that ring. *)
Lemma decode_desc_at base mem off addr r l :
  ring_wf r -> (0 <= base <= addr)%Z -> (addr + Z.of_nat (r_size r) < 2 ^ 32)%Z ->
  drop off mem = desc addr r ++ l ->
  take (r_size r) (drop (Z.to_nat (addr - base)) mem) = r_buf r ->
  (addr - base + Z.of_nat (r_size r) <= Z.of_nat (length mem))%Z ->
  decode_desc base mem off = Some r.
Proof.
  intros Hwf Hb Ha Hd Hbuf Hin. destruct r as [size buf rd wr pol].
  destruct Hwf as (Hs & Hlen & Hrd & Hwr); cbn [r_size r_buf r_rd r_wr r_policy] in *.
  unfold desc in Hd; cbn [r_size r_buf r_rd r_wr r_policy] in Hd. rewrite <- !app_assoc in Hd.
  unfold decode_desc.
  destruct (read_words mem off 0 addr (Z.of_nat size) (Z.of_nat wr) (Z.of_nat rd)
              (mode_flags pol) l ltac:(repeat constructor; destruct pol; cbn; lia) Hd)
    as (-> & -> & -> & -> & ->).
  cbn [mbind option_bind].
  zcase; cbn; try lia. rewrite !Nat2Z.id, Hbuf, flags_policy_mode. done.
Qed.

(** ** The channel table *)

Lemma length_descs a rs : length (descs a rs) = desc_size * length rs.
Proof.
  revert a. induction rs as [|r rs IH]; intros a; cbn [descs length]; [lia|].
  rewrite length_app, length_desc, IH. unfold desc_size. lia.
Qed.

Lemma descs_app a rs1 rs2 :
  descs a (rs1 ++ rs2) = descs a rs1 ++ descs (a + Z.of_nat (total rs1)) rs2.
Proof.
  revert a. induction rs1 as [|r rs IH]; intros a; cbn [descs app total sum_list_with].
  - by rewrite Z.add_0_r.
  - rewrite IH, app_assoc. f_equal. f_equal. unfold total. lia.
Qed.

(** The buffers of [rs] lie one after the other from address [addr] in
    the region at [base]. *)
Fixpoint buffers_at (mem : list Z) (base addr : Z) (rs : list ring) : Prop :=
  match rs with
  | [] => True
  | r :: rs =>
      take (r_size r) (drop (Z.to_nat (addr - base)) mem) = r_buf r /\
      (addr - base + Z.of_nat (r_size r) <= Z.of_nat (length mem))%Z /\
      buffers_at mem base (addr + Z.of_nat (r_size r)) rs
  end.

Lemma buffers_at_concat mem base L rs R :
  mem = L ++ concat (r_buf <$> rs) ++ R -> Forall ring_wf rs ->
  buffers_at mem base (base + Z.of_nat (length L)) rs.
Proof.
  revert L. induction rs as [|r rs IH]; intros L Hm Hwf; [done|].
  apply Forall_cons in Hwf as [(_ & Hlen & _) Hwf].
  cbn [fmap list_fmap concat] in Hm. rewrite <- app_assoc in Hm.
  cbn [buffers_at]. replace (Z.to_nat (base + Z.of_nat (length L) - base)) with (length L) by lia.
  split_and!.
  - by rewrite Hm, drop_app_length, take_app_length'.
  - rewrite Hm, !length_app. lia.
  - replace (base + Z.of_nat (length L) + Z.of_nat (r_size r))%Z
      with (base + Z.of_nat (length (L ++ r_buf r)))%Z by (rewrite length_app; lia).
    apply IH; [by rewrite Hm, <- !app_assoc | done].
Qed.

Lemma total_le rs : Forall ring_wf rs -> length rs <= total rs.
Proof.
  unfold total. induction 1 as [|r rs (Hs & _) _ IH]; cbn [length sum_list_with]; lia.
Qed.

(** The descriptors of well-formed rings whose buffers are in place are
    read back as the rings. *)
Lemma decode_descs_at base mem off addr rs l :
  Forall ring_wf rs -> (0 <= base <= addr)%Z -> (addr + Z.of_nat (total rs) < 2 ^ 32)%Z ->
  drop off mem = descs addr rs ++ l -> buffers_at mem base addr rs ->
  decode_descs base mem off (length rs) = Some rs.
Proof.
  revert off addr. induction rs as [|r rs IH]; intros off addr Hwf Hb Ha Hd Hbuf; [done|].
  apply Forall_cons in Hwf as [Hr Hwf]. destruct Hbuf as (Hb1 & Hin & Hbuf).
  unfold total in *. cbn [sum_list_with] in Ha. cbn [descs] in Hd. rewrite <- app_assoc in Hd.
  cbn [decode_descs length]. rewrite (decode_desc_at base mem off addr r _ Hr Hb ltac:(lia) Hd Hb1 Hin).
  cbn [mbind option_bind]. rewrite (IH (off + desc_size) (addr + Z.of_nat (r_size r))%Z); try done.
  - lia.
  - lia.
  - by rewrite <- drop_drop, Hd, drop_app_length' by (by rewrite length_desc).
Qed.

Lemma total_app rs1 rs2 : total (rs1 ++ rs2) = total rs1 + total rs2.
Proof. apply sum_list_with_app. Qed.

Lemma length_bufs rs : Forall ring_wf rs -> length (concat (r_buf <$> rs)) = total rs.
Proof.
  unfold total. induction 1 as [|r rs (_ & Hlen & _) _ IH]; [done|].
  cbn [fmap list_fmap concat sum_list_with]. rewrite length_app. lia.
Qed.

Lemma length_layout base up down :
  Forall ring_wf (up ++ down) ->
  length (layout base up down) = hdr_size + desc_size * (length up + length down) + total (up ++ down).
Proof.
  intros Hwf. unfold layout. rewrite !length_app, !length_word, length_descs, length_bufs by done.
  rewrite length_app. unfold hdr_size. cbn. lia.
Qed.

(** Reading [n1 + n2] descriptors is reading [n1], then [n2] after them. *)
Lemma decode_descs_add base mem off n1 n2 :
  decode_descs base mem off (n1 + n2) =
    l1 ← decode_descs base mem off n1;
    l2 ← decode_descs base mem (off + desc_size * n1) n2;
    Some (l1 ++ l2).
Proof.
  revert off. induction n1 as [|n1 IH]; intros off; cbn [decode_descs Nat.add].
  - rewrite Nat.mul_0_r, Nat.add_0_r. by destruct (decode_descs _ _ _ n2).
  - destruct (decode_desc base mem off); [|done]. cbn [mbind option_bind].
    rewrite IH. replace (off + desc_size + desc_size * n1) with (off + desc_size * S n1) by lia.
    destruct (decode_descs base mem (off + desc_size) n1); [|done]. cbn [mbind option_bind].
    by destruct (decode_descs base mem (off + desc_size * S n1) n2).
Qed.

Lemma decode_descs_length base mem off n l :
  decode_descs base mem off n = Some l -> length l = n.
Proof.
  revert off l. induction n as [|n IH]; intros off l H; cbn in H; [by injection H as <-|].
  destruct (decode_desc base mem off); [|done]. cbn in H.
  destruct (decode_descs base mem (off + desc_size) n) eqn:E; [|done].
  injection H as <-. cbn. by rewrite (IH _ _ E).
Qed.

(** The [j]-th descriptor read is the [j]-th channel. *)
Lemma decode_descs_nth base mem off n rs j :
  decode_descs base mem off n = Some rs -> j < n -> decode_desc base mem (off + desc_size * j) = rs !! j.
Proof.
  revert off rs j. induction n as [|n IH]; intros off rs j Hd Hj; [lia|]. cbn in Hd.
  destruct (decode_desc base mem off) as [r|] eqn:Hr; [|done]. cbn in Hd.
  destruct (decode_descs base mem (off + desc_size) n) as [rs'|] eqn:Hrs; [|done].
  injection Hd as <-. destruct j as [|j]; [by rewrite Nat.mul_0_r, Nat.add_0_r|].
  change ((r :: rs') !! S j) with (rs' !! j). rewrite <- (IH _ _ _ Hrs) by lia. f_equal. unfold desc_size. lia.
Qed.

(** The channel table of a control block laid out after [pre]: the two
    counts, and the descriptors of the up then the down channels. *)
Lemma layout_table base pre up down post :
  Forall ring_wf (up ++ down) -> (0 <= base)%Z ->
  (base + Z.of_nat (length pre + length (layout 0 up down)) < 2 ^ 32)%Z ->
  let mem := pre ++ layout (base + Z.of_nat (length pre)) up down ++ post in
  read_word mem (length pre + 16) = Some (Z.of_nat (length up)) /\
  read_word mem (length pre + 20) = Some (Z.of_nat (length down)) /\
  decode_descs base mem (length pre + hdr_size) (length (up ++ down)) = Some (up ++ down).
Proof.
  intros Hwf Hb Hfit mem.
  rewrite length_layout, total_app in Hfit by done. unfold hdr_size, desc_size in Hfit.
  set (A := (base + Z.of_nat (length pre) +
             Z.of_nat (hdr_size + desc_size * (length up + length down)))%Z).
  set (L := pre ++ marker ++ word (Z.of_nat (length up)) ++ word (Z.of_nat (length down)) ++
            descs A (up ++ down)).
  assert (HL : length L = length pre + hdr_size + desc_size * (length up + length down)).
  { subst L. rewrite !length_app, !length_word, length_descs, length_app.
    unfold hdr_size, desc_size. cbn. lia. }
  assert (Hm : mem = L ++ concat (r_buf <$> up ++ down) ++ post).
  { subst mem L. unfold layout.
    replace (base + Z.of_nat (length pre) + _)%Z with A by (subst A; lia).
    by rewrite <- !app_assoc. }
  set (T := descs A (up ++ down) ++ concat (r_buf <$> up ++ down) ++ post).
  assert (Hd0 : drop (length pre) mem =
    marker ++ word (Z.of_nat (length up)) ++ word (Z.of_nat (length down)) ++ T).
  { rewrite Hm. subst L T. by rewrite <- !app_assoc, drop_app_length. }
  split_and!.
  - apply (read_word_at _ _ _ (word (Z.of_nat (length down)) ++ T)); [lia|].
    by rewrite <- drop_drop, Hd0, drop_app_length' by reflexivity.
  - apply (read_word_at _ _ _ T); [lia|].
    replace (length pre + 20) with (length pre + 16 + 4) by lia.
    by rewrite <- !drop_drop, Hd0, drop_app_length', drop_word by reflexivity.
  - apply (decode_descs_at base mem _ A _ (concat (r_buf <$> up ++ down) ++ post)); try done.
    + subst A; unfold hdr_size, desc_size in *; lia.
    + rewrite total_app. subst A; unfold hdr_size, desc_size in *; lia.
    + rewrite <- drop_drop, Hd0. unfold hdr_size.
      replace 24 with (16 + 4 + 4) by reflexivity. rewrite <- !drop_drop.
      by rewrite drop_app_length', !drop_word by reflexivity.
    + replace A with (base + Z.of_nat (length L))%Z by (rewrite HL; subst A; lia).
      exact (buffers_at_concat _ _ _ _ post Hm Hwf).
Qed.

(** The control block of a layout placed at offset [length pre] of the
    region is read back: its channel table gives the rings laid out. *)
Lemma decode_cb_layout base pre up down post :
  Forall ring_wf (up ++ down) -> (0 <= base)%Z ->
  (base + Z.of_nat (length pre + length (layout 0 up down)) < 2 ^ 32)%Z ->
  decode_cb base (pre ++ layout (base + Z.of_nat (length pre)) up down ++ post) (length pre) =
    Some (up, down).
Proof.
  intros Hwf Hb Hfit. destruct (layout_table base pre up down post Hwf Hb Hfit) as (Hu & Hd & Ht).
  unfold decode_cb. rewrite Hu, Hd. cbn [mbind option_bind]. rewrite !Nat2Z.id.
  rewrite length_app, decode_descs_add in Ht.
  destruct (decode_descs _ _ _ (length up)) as [l1|] eqn:H1; [|done]. cbn [mbind option_bind] in Ht.
  destruct (decode_descs _ _ _ (length down)) as [l2|] eqn:H2; [|done]. cbn [mbind option_bind] in Ht.
  injection Ht as Ht.
  apply app_inj_1 in Ht as [-> ->]; [done|]. exact (decode_descs_length _ _ _ _ _ H1).
Qed.

(** ** The scan *)

(** The scan stops at the first occurrence of the marker. *)
Lemma find_from_first mem k fuel j :
  k <= j < k + fuel -> take 16 (drop j mem) = marker ->
  (forall j', k <= j' < j -> take 16 (drop j' mem) <> marker) ->
  find_from mem k fuel = Some j.
Proof.
  revert k. induction fuel as [|fuel IH]; intros k Hj Hm Hno; [lia|]. cbn [find_from].
  case_decide as Hk.
  - destruct (Nat.lt_ge_cases k j); [by destruct (Hno k ltac:(lia))|]. f_equal. lia.
  - apply IH; [| done |].
    + destruct (decide (k = j)); [subst; done | lia].
    + intros j' ?. apply Hno. lia.
Qed.

(** What the scan finds is a marker, and there is none before it. *)
Lemma find_from_sound mem k fuel j :
  find_from mem k fuel = Some j ->
  take 16 (drop j mem) = marker /\ k <= j /\
  forall j', k <= j' < j -> take 16 (drop j' mem) <> marker.
Proof.
  revert k. induction fuel as [|fuel IH]; intros k; cbn [find_from]; [done|].
  case_decide as Hk.
  - intros [= <-]. split_and!; [done | lia | intros; lia].
  - intros (Hm & Hle & Hno)%IH. split_and!; [done | lia |].
    intros j' ?. destruct (decide (j' = k)) as [->|]; [done|]. apply Hno. lia.
Qed.

(** Discovery finds a laid-out control block when the memory before it
    holds no marker. *)
Lemma discover_layout base pre up down post :
  Forall ring_wf (up ++ down) -> (0 <= base)%Z ->
  (base + Z.of_nat (length pre + length (layout 0 up down)) < 2 ^ 32)%Z ->
  (forall j, j < length pre ->
     take 16 (drop j (pre ++ layout (base + Z.of_nat (length pre)) up down ++ post)) <> marker) ->
  discover base (pre ++ layout (base + Z.of_nat (length pre)) up down ++ post) = Some (up, down).
Proof.
  intros Hwf Hb Hfit Hno. unfold discover, find_marker.
  rewrite (find_from_first _ 0 _ (length pre)).
  - cbn [mbind option_bind]. by apply decode_cb_layout.
  - rewrite !length_app. unfold layout. rewrite length_app. cbn. lia.
  - rewrite drop_app_length. unfold layout. rewrite <- app_assoc.
    by apply take_app_length'.
  - intros j' ?. apply Hno. lia.
Qed.

(** ** Writing back one channel *)

Lemma poke_app X Y Y' R :
  length Y' = length Y -> poke (X ++ Y ++ R) (length X) Y' = X ++ Y' ++ R.
Proof.
  intros Hl. unfold poke. rewrite take_app_length, <- drop_drop, drop_app_length, Hl.
  by rewrite drop_app_length.
Qed.

(** In the descriptors and buffers of channels [rs], the descriptor and the
    buffer of channel [j] sit between fixed surroundings, which replacing
    channel [j] by a channel of the same size keeps. *)
Lemma body_insert A rs j r r' :
  rs !! j = Some r -> r_size r' = r_size r ->
  let a := (A + Z.of_nat (total (take j rs)))%Z in
  let Y1 := descs (a + Z.of_nat (r_size r)) (drop (S j) rs) ++ concat (r_buf <$> take j rs) in
  let Y2 := concat (r_buf <$> drop (S j) rs) in
  descs A rs ++ concat (r_buf <$> rs) = descs A (take j rs) ++ desc a r ++ Y1 ++ r_buf r ++ Y2 /\
  descs A (<[j := r']> rs) ++ concat (r_buf <$> <[j := r']> rs) =
    descs A (take j rs) ++ desc a r' ++ Y1 ++ r_buf r' ++ Y2.
Proof.
  intros Hj Hs a Y1 Y2. pose proof (lookup_lt_Some _ _ _ Hj).
  assert (Hsplit : forall x, r_size x = r_size r ->
    descs A (take j rs ++ x :: drop (S j) rs) ++ concat (r_buf <$> take j rs ++ x :: drop (S j) rs) =
    descs A (take j rs) ++ desc a x ++ Y1 ++ r_buf x ++ Y2).
  { intros x Hx. rewrite descs_app, fmap_app, concat_app. cbn [descs fmap list_fmap concat].
    subst Y1 Y2 a. rewrite Hx, <- !app_assoc. done. }
  split.
  - rewrite <- (Hsplit r eq_refl). by rewrite take_drop_middle.
  - rewrite insert_take_drop by done. by apply Hsplit.
Qed.

(** A write at offset [length X] of [X ++ Y ++ R], of as many bytes as [Y]. *)
Lemma poke_at L L' X Y Y' R off :
  L = X ++ Y ++ R -> L' = X ++ Y' ++ R -> off = length X -> length Y' = length Y ->
  poke L off Y' = L'.
Proof. intros -> -> ->. apply poke_app. Qed.

Lemma total_insert rs j r r' :
  rs !! j = Some r -> r_size r' = r_size r -> total (<[j := r']> rs) = total rs.
Proof.
  intros Hj Hs. pose proof (lookup_lt_Some _ _ _ Hj).
  rewrite insert_take_drop by done. rewrite <- (take_drop_middle rs j r Hj) at 3.
  rewrite !total_app. cbn [total sum_list_with]. unfold total. cbn. lia.
Qed.

(** Writing back the read offset of up channel [j] gives the layout of the
    channels where [j] has that read offset. *)
Lemma layout_set_rd B pre up down post j r x :
  up !! j = Some r ->
  poke (pre ++ layout B up down ++ post) (length pre + hdr_size + desc_size * j + 16)
       (word (Z.of_nat x)) =
  pre ++ layout B (<[j := with_rd r x]> up) down ++ post.
Proof.
  intros Hj. pose proof (lookup_lt_Some _ _ _ Hj).
  unfold layout. rewrite length_insert, <- insert_app_l by done.
  set (A := (B + Z.of_nat (hdr_size + desc_size * (length up + length down)))%Z).
  destruct (body_insert A (up ++ down) j r (with_rd r x) ltac:(by rewrite lookup_app_l) eq_refl)
    as [E1 E2].
  rewrite E1, E2. unfold desc, with_rd. cbn [r_size r_buf r_rd r_wr r_policy].
  set (a := (A + Z.of_nat (total (take j (up ++ down))))%Z).
  apply (poke_at _ _ (pre ++ marker ++ word (Z.of_nat (length up)) ++ word (Z.of_nat (length down)) ++
    descs A (take j (up ++ down)) ++ word 0 ++ word a ++ word (Z.of_nat (r_size r)) ++
    word (Z.of_nat (r_wr r))) (word (Z.of_nat (r_rd r))) _
    (word (mode_flags (r_policy r)) ++
     (descs (a + Z.of_nat (r_size r)) (drop (S j) (up ++ down)) ++
      concat (r_buf <$> take j (up ++ down))) ++
     r_buf r ++ concat (r_buf <$> drop (S j) (up ++ down)) ++ post)).
  - by rewrite <- !app_assoc.
  - by rewrite <- !app_assoc.
  - rewrite !length_app, !length_word, length_descs, length_take, length_app.
    unfold hdr_size, desc_size. cbn. lia.
  - by rewrite !length_word.
Qed.

(** Writing back the buffer and the offsets of down channel [j] gives the
    layout of the channels where [j] is the written ring. *)
Lemma layout_set_write B pre up down post j r r' :
  Forall ring_wf (up ++ down) -> down !! j = Some r ->
  r_size r' = r_size r -> r_policy r' = r_policy r -> length (r_buf r') = r_size r ->
  poke (poke (pre ++ layout B up down ++ post)
             (length pre + hdr_size + desc_size * (length up + length down) +
              total (take (length up + j) (up ++ down))) (r_buf r'))
       (length pre + hdr_size + desc_size * (length up + j) + 12)
       (word (Z.of_nat (r_wr r')) ++ word (Z.of_nat (r_rd r'))) =
  pre ++ layout B up (<[j := r']> down) ++ post.
Proof.
  intros Hwf Hj Hs Hp Hl. pose proof (lookup_lt_Some _ _ _ Hj).
  set (jj := length up + j).
  assert (Hjj : (up ++ down) !! jj = Some r) by (subst jj; by rewrite lookup_app_r, Nat.add_sub' by lia).
  unfold layout. rewrite length_insert. rewrite <- insert_app_r. fold jj.
  set (A := (B + Z.of_nat (hdr_size + desc_size * (length up + length down)))%Z).
  destruct (body_insert A (up ++ down) jj r r' Hjj Hs) as [E1 E2]. rewrite E1, E2.
  set (a := (A + Z.of_nat (total (take jj (up ++ down))))%Z).
  set (Y1 := descs (a + Z.of_nat (r_size r)) (drop (S jj) (up ++ down)) ++
             concat (r_buf <$> take jj (up ++ down))).
  set (R1 := concat (r_buf <$> drop (S jj) (up ++ down)) ++ post).
  set (H0 := pre ++ marker ++ word (Z.of_nat (length up)) ++ word (Z.of_nat (length down)) ++
             descs A (take jj (up ++ down))).
  assert (HlY1 : length Y1 = desc_size * (length up + length down - S jj) + total (take jj (up ++ down))).
  { subst Y1. rewrite length_app, length_descs, length_drop, length_bufs, length_app; [lia|].
    by apply Forall_take. }
  assert (HlH0 : length H0 = length pre + hdr_size + desc_size * jj).
  { subst H0. rewrite !length_app, !length_word, length_descs, length_take, length_app.
    unfold hdr_size. cbn. lia. }
  match goal with |- poke (poke ?L ?o _) _ _ = _ =>
    rewrite (poke_at L (H0 ++ desc a r ++ Y1 ++ r_buf r' ++ R1) (H0 ++ desc a r ++ Y1) (r_buf r) _ R1 o)
  end.
  2: subst H0 R1; by rewrite <- !app_assoc.
  2: subst H0 R1; by rewrite <- !app_assoc.
  2:{ rewrite !length_app, length_desc, HlY1, HlH0. unfold desc_size. lia. }
  2:{ rewrite Hl. by destruct (Forall_lookup_1 _ _ _ _ Hwf Hjj) as (_ & -> & _). }
  unfold desc. rewrite Hs, Hp.
  apply (poke_at _ _ (H0 ++ word 0 ++ word a ++ word (Z.of_nat (r_size r)))
                 (word (Z.of_nat (r_wr r)) ++ word (Z.of_nat (r_rd r))) _
                 (word (mode_flags (r_policy r)) ++ Y1 ++ r_buf r' ++ R1)).
  - by rewrite <- !app_assoc.
  - subst H0 R1. by rewrite <- !app_assoc.
  - rewrite !length_app, !length_word, HlH0. subst jj. unfold desc_size. lia.
  - by rewrite !length_app, !length_word.
Qed.

(** The [pBuffer] word of channel [jj] in a layout: its buffer's address. *)
Lemma layout_buffer_addr B pre up down post jj r :
  Forall ring_wf (up ++ down) -> (0 <= B)%Z -> (B + Z.of_nat (length (layout 0 up down)) < 2 ^ 32)%Z ->
  (up ++ down) !! jj = Some r ->
  read_word (pre ++ layout B up down ++ post) (length pre + hdr_size + desc_size * jj + 4) =
    Some (B + Z.of_nat (hdr_size + desc_size * (length up + length down)) +
          Z.of_nat (total (take jj (up ++ down))))%Z.
Proof.
  intros Hwf HB Hfit Hj. pose proof (lookup_lt_Some _ _ _ Hj).
  destruct (Forall_lookup_1 _ _ _ _ Hwf Hj) as (Hs & _ & Hrd & Hwr).
  rewrite length_layout in Hfit by done.
  assert (total (take jj (up ++ down)) + r_size r <= total (up ++ down)).
  { rewrite <- (take_drop_middle _ _ _ Hj) at 2. rewrite total_app. cbn [total sum_list_with].
    unfold total. lia. }
  unfold layout.
  set (A := (B + Z.of_nat (hdr_size + desc_size * (length up + length down)))%Z).
  destruct (body_insert A (up ++ down) jj r r Hj eq_refl) as [E1 _].
  set (a := (A + Z.of_nat (total (take jj (up ++ down))))%Z) in *.
  eapply proj1, (read_words _ _ 0 a (Z.of_nat (r_size r)) (Z.of_nat (r_wr r)) (Z.of_nat (r_rd r))
                 (mode_flags (r_policy r))).
  { repeat constructor; destruct (r_policy r); subst a A; unfold hdr_size, desc_size in *; cbn; lia. }
  set (Y1 := descs (a + Z.of_nat (r_size r)) (drop (S jj) (up ++ down)) ++
             concat (r_buf <$> take jj (up ++ down))) in E1.
  set (Y2 := concat (r_buf <$> drop (S jj) (up ++ down))) in E1.
  set (X := pre ++ marker ++ word (Z.of_nat (length up)) ++ word (Z.of_nat (length down)) ++
            descs A (take jj (up ++ down))).
  rewrite E1. unfold desc.
  match goal with |- drop _ ?L = _ =>
    replace L with (X ++ (word 0 ++ word a ++ word (Z.of_nat (r_size r)) ++ word (Z.of_nat (r_wr r)) ++
                          word (Z.of_nat (r_rd r)) ++ word (mode_flags (r_policy r)) ++
                          (Y1 ++ r_buf r ++ Y2 ++ post)))
      by (subst X; rewrite <- !app_assoc; reflexivity)
  end.
  replace (length pre + hdr_size + desc_size * jj) with (length X).
  - rewrite drop_app_length. reflexivity.
  - subst X. rewrite !length_app, !length_word, length_descs, length_take. unfold hdr_size. cbn. lia.
Qed.

End CBFacts.
