(* ===== verification/Dongle.v ===== *)
(** * [JLinkDongle]: the dataclass, its decorator and its methods

    jlink_dongle.py lines 9-73.  The dataclass becomes the record
    [JLinkDongle]; [self.jlink], declared [field(init=False)] in a
    [slots=True] dataclass, is [None] until [connect] assigns it, and
    reading it then raises [AttributeError].  A method is a [PyM]
    computation on a [world]: the library's state, the dongle object, a
    ghost trace of the pylink calls issued (the call-count of the spec's
    mock transport) and the lines printed.  Each [self.jlink.m(...)] is
    [jcall]: read the attribute, log the call, run the library operation.
    The decorator [check_exception] is a higher-order function on
    methods, applied to [connect], [read_rtt], [write_rtt] and
    [reconnect] as the source applies it. *)

From S2P Require Import Prelude Utf8 PyFormat JLinkApi.
From stdpp Require Import pretty.

Open Scope Z_scope.

Module Dongle.
Import JLinkApi PyFormat.

(** ** State *)

(** [@dataclass(slots=True) class JLinkDongle]. *)
Record JLinkDongle := mkDongle {
  interface : JLinkInterfaces;
  speed : Speed;
  chip_name : string;
  jlink : option handle
}.

(** [JLinkDongle()] with the defaults of lines 17-20. *)
Definition JLinkDongle_init : JLinkDongle :=
  {| interface := SWD; speed := SpeedStr "auto"; chip_name := CHIP_NAME_DEFAULT;
     jlink := None |}.

(** The trace: [JLink()] with its outcome, and each call on a handle. *)
Inductive event :=
| EvNew (r : option handle)
| EvCall (h : handle) (c : call).

#[export] Instance event_eq_dec : EqDecision event.
Proof. solve_decision. Defined.

Record world (W : Type) := mkWorld {
  w_lib : W;
  w_self : JLinkDongle;
  w_trace : list event;
  w_out : list string
}.
Arguments mkWorld {W}.
Arguments w_lib {W}.
Arguments w_self {W}.
Arguments w_trace {W}.
Arguments w_out {W}.

Definition set_self {W} (st : world W) (d : JLinkDongle) : world W :=
  mkWorld (w_lib st) d (w_trace st) (w_out st).

Definition set_jlink_field (d : JLinkDongle) (h : handle) : JLinkDongle :=
  {| interface := interface d; speed := speed d; chip_name := chip_name d;
     jlink := Some h |}.

(** colorama's [Fore.RED], [Fore.RESET] and [Fore.YELLOW]. *)
Definition ESC : string := String (Ascii.ascii_of_nat 27) "".
Definition Clr_RED : string := ESC +:+ "[31m".
Definition Clr_RESET : string := ESC +:+ "[39m".
Definition Clr_YELLOW : string := ESC +:+ "[33m".

(** The message of line 32. *)
Definition error_message (fname e : string) : string :=
  Clr_RED +:+ "ERROR:" +:+ Clr_RESET +:+ " method name: " +:+ Clr_YELLOW +:+ fname
  +:+ Clr_RESET +:+ " : " +:+ e.

(** The message of line 30. *)
Definition rw_message : string := "Do not read/write from RTT Terminal".

(** [{self.read_rtt.__name__, self.write_rtt.__name__}]: [functools.wraps]
    keeps the names of the wrapped functions. *)
Definition rw_names : list string := ["read_rtt"; "write_rtt"].

Definition attr_error : pyexc :=
  AttributeError "'JLinkDongle' object has no attribute 'jlink'".

Section Methods.
Context {W : Type} `{!JLinkLib W}.

Abbreviation M := (PyM (world W) pyexc).
Local Open Scope pym_scope.

(** ** Primitive steps *)

(** Read [self.jlink]. *)
Definition get_jlink : M handle :=
  fun st => match jlink (w_self st) with
            | Some h => (st, inr h)
            | None => (st, inl attr_error)
            end.

(** [self.jlink = h]. *)
Definition set_jlink (h : handle) : M unit :=
  fun st => (set_self st (set_jlink_field (w_self st) h), inr tt).

Definition get_self : M JLinkDongle := fun st => (st, inr (w_self st)).

(** [print(line)]. *)
Definition print (line : string) : M unit :=
  fun st => (mkWorld (w_lib st) (w_self st) (w_trace st) (w_out st ++ [line]), inr tt).

(** Run a library operation, logging [ev]. *)
Definition lib_call {A} (ev : event) (op : PyM W pyexc A) : M A :=
  fun st => let '(w', r) := op (w_lib st) in
            (mkWorld w' (w_self st) (w_trace st ++ [ev]) (w_out st), r).

(** [JLink()], logged with its outcome. *)
Definition lib_new : M handle :=
  fun st => let '(w', r) := jl_new (w_lib st) in
            let ev := EvNew (match r with inr h => Some h | inl _ => None end) in
            (mkWorld w' (w_self st) (w_trace st ++ [ev]) (w_out st), r).

(** [self.jlink.m(...)]. *)
Definition jcall {A} (c : call) (op : handle -> PyM W pyexc A) : M A :=
  h <- get_jlink;; lib_call (EvCall h c) (op h).

(** ** The decorator, lines 22-33 *)

Definition check_exception {A} (fname : string) (func : M A) : M A :=
  fun st =>
    match func st with
    | (st', inl (JLinkException e)) =>
        if bool_decide (fname ∈ rw_names)
        then (st', inl (JLinkDongleException rw_message))
        else (st', inl (JLinkDongleException (error_message fname e)))
    | res => res
    end.

(** ** [connect], lines 35-50 *)

Definition connect_body : M unit :=
  h <- lib_new;; set_jlink h;;;
  jcall CDisableDialogBoxes jl_disable_dialog_boxes;;;
  jcall COpen jl_open;;;
  jcall CRttStop jl_rtt_stop;;;
  jcall (CSetTif SWD) (fun h => jl_set_tif h SWD);;;
  self <- get_self;;
  jcall (CConnect (chip_name self) (speed self) true)
        (fun h => jl_connect h (chip_name self) (speed self) true);;;
  jcall CRttStart jl_rtt_start;;;
  mode <- jcall CEndianMode jl_endian_mode;;
  let endian := endian_name (int_from_bytes_big mode) in
  print "";;;
  self <- get_self;;
  print ("Connected to: " +:+ chip_name self);;;
  khz <- jcall CSpeed jl_speed;;
  print ("RTT RX buffers at " +:+ pretty khz +:+ " kHz");;;
  core <- jcall CCoreName jl_core_name;;
  print ("connected to " +:+ endian +:+ "-Endian " +:+ core);;;
  hz <- jcall CCpuSpeed jl_cpu_speed;;
  print ("running at " +:+ format_mhz hz +:+ " MHz").

Definition connect : M unit := check_exception "connect" connect_body.

(** ** [read_rtt] and [write_rtt], lines 52-58 *)

Definition read_rtt (terminal_number : Z) : M (list Z) :=
  check_exception "read_rtt"
    (jcall (CRttRead terminal_number MAX_BUF_SIZE)
           (fun h => jl_rtt_read h terminal_number MAX_BUF_SIZE)).

Definition write_rtt (data : list Z) (terminal_number : Z) : M unit :=
  check_exception "write_rtt"
    (_ <- jcall (CRttWrite terminal_number data)
                (fun h => jl_rtt_write h terminal_number data);;
     ret tt).

(** ** The string helpers, lines 60-67 (not decorated) *)

Definition read_rtt_string (terminal_number : Z) : M (list Z) :=
  data <- read_rtt terminal_number;;
  match data with
  | [] => ret []
  | _ :: _ =>
      match Utf8.bytes_of_list data with
      | None => pym_raise (ValueError "bytes must be in range(0, 256)")
      | Some bs =>
          match Utf8.decode bs with
          | inl e => pym_raise (UnicodeDecodeError e)
          | inr s => ret s
          end
      end
  end.

Definition write_rtt_sring (data : list Z) (terminal_number : Z) : M unit :=
  match Utf8.encode data with
  | inl e => pym_raise (UnicodeEncodeError e)
  | inr bs => write_rtt bs terminal_number
  end.

(** ** [reconnect], lines 69-73 *)

Definition reconnect : M unit :=
  check_exception "reconnect" (jcall CClose jl_close;;; connect).

(** ** The object seen from its callers *)

(** A call of one of the dongle's public methods, with its arguments. *)
Inductive method :=
| MConnect
| MReadRtt (terminal_number : Z)
| MWriteRtt (data : list Z) (terminal_number : Z)
| MReadRttString (terminal_number : Z)
| MWriteRttSring (data : list Z) (terminal_number : Z)
| MReconnect.

(** Forget the returned value, keep the exception. *)
Definition outcome {A} (x : world W * (pyexc + A)) : world W * option pyexc :=
  (fst x, match snd x with inl e => Some e | inr _ => None end).

Definition call_method (m : method) (st : world W) : world W * option pyexc :=
  match m with
  | MConnect => outcome (connect st)
  | MReadRtt n => outcome (read_rtt n st)
  | MWriteRtt d n => outcome (write_rtt d n st)
  | MReadRttString n => outcome (read_rtt_string n st)
  | MWriteRttSring d n => outcome (write_rtt_sring d n st)
  | MReconnect => outcome (reconnect st)
  end.

(** The worlds a program can reach: a fresh [JLinkDongle(...)] (any
    interface, speed and chip name; [jlink] unset) on any library state,
    then any sequence of method calls, whether they return or raise. *)
Inductive reachable : world W -> Prop :=
| reach_init w i spd chip :
    reachable (mkWorld w (mkDongle i spd chip None) [] [])
| reach_call m st : reachable st -> reachable (fst (call_method m st)).

End Methods.

(** ** Handle discipline *)

(** Replay a trace from the handle [cur]: [JLink()] makes its result
    current, a call must go to the current handle.  [None] when a call
    goes elsewhere; otherwise the handle current at the end. *)
Fixpoint handle_discipline (cur : option handle) (tr : list event) : option (option handle) :=
  match tr with
  | [] => Some cur
  | EvNew (Some h) :: tr' => handle_discipline (Some h) tr'
  | EvNew None :: tr' => handle_discipline cur tr'
  | EvCall h _ :: tr' =>
      if decide (cur = Some h) then handle_discipline cur tr' else None
  end.

(** Every call of the trace went to the newest [JLink] object, and that
    object is the one stored in [self.jlink]. *)
Definition handles_consistent {W} (st : world W) : Prop :=
  handle_discipline None (w_trace st) = Some (jlink (w_self st)).

(** The dongle with another value in its [interface] field. *)
Definition with_interface (d : JLinkDongle) (i : JLinkInterfaces) : JLinkDongle :=
  {| interface := i; speed := speed d; chip_name := chip_name d; jlink := jlink d |}.

(** The calls [connect] issues, in order, when [JLink()] returns [h]. *)
Definition connect_events (h : handle) (chip : string) (spd : Speed) : list event :=
  [EvNew (Some h); EvCall h CDisableDialogBoxes; EvCall h COpen; EvCall h CRttStop;
   EvCall h (CSetTif SWD); EvCall h (CConnect chip spd true); EvCall h CRttStart;
   EvCall h CEndianMode; EvCall h CSpeed; EvCall h CCoreName; EvCall h CCpuSpeed].

End Dongle.

Module DongleFacts.
Import JLinkApi Dongle.

Section Facts.
Context {W : Type} `{!JLinkLib W}.

Lemma get_jlink_some (st : world W) h :
  jlink (w_self st) = Some h -> get_jlink st = (st, inr h).
Proof. unfold get_jlink. by intros ->. Qed.

Lemma get_jlink_none (st : world W) :
  jlink (w_self st) = None -> get_jlink st = (st, inl attr_error).
Proof. unfold get_jlink. by intros ->. Qed.

Lemma jcall_none {A} c (op : handle -> PyM W pyexc A) (st : world W) :
  jlink (w_self st) = None -> jcall c op st = (st, inl attr_error).
Proof. intros H. unfold jcall, pym_bind. by rewrite get_jlink_none. Qed.

Lemma jcall_some {A} c (op : handle -> PyM W pyexc A) (st : world W) h :
  jlink (w_self st) = Some h ->
  jcall c op st =
  let '(w', r) := op h (w_lib st) in
  (mkWorld w' (w_self st) (w_trace st ++ [EvCall h c]) (w_out st), r).
Proof. intros H. unfold jcall, pym_bind. by rewrite get_jlink_some with (h := h). Qed.

(** A raw [JLinkException] never leaves [check_exception]. *)
Lemma check_exception_no_raw {A} f (func : PyM (world W) pyexc A) st st' m :
  check_exception f func st <> (st', inl (JLinkException m)).
Proof.
  unfold check_exception.
  destruct (func st) as [s [[]|]]; try case_bool_decide; congruence.
Qed.

(** [check_exception] is the identity on a function that never raises a
    raw [JLinkException]. *)
Lemma check_exception_id {A} f (func : PyM (world W) pyexc A) st :
  (forall st' m, func st <> (st', inl (JLinkException m))) ->
  check_exception f func st = func st.
Proof.
  intros H. unfold check_exception.
  destruct (func st) as [s [e|]] eqn:E; [|done].
  destruct e; try done. exfalso. by eapply H.
Qed.

(** *** Preservation of the handle discipline, one lemma per construct *)

Lemma handle_discipline_app cur tr1 tr2 :
  handle_discipline cur (tr1 ++ tr2) =
  match handle_discipline cur tr1 with
  | Some c => handle_discipline c tr2
  | None => None
  end.
Proof.
  revert cur. induction tr1 as [|[[h|]|h c] tr1 IH]; intros cur; simpl; auto.
  case_decide; auto.
Qed.

Definition preserves {A} (m : PyM (world W) pyexc A) : Prop :=
  forall st, handles_consistent st -> handles_consistent (fst (m st)).

Lemma preserves_bind {A B} (m : PyM (world W) pyexc A) (k : A -> PyM (world W) pyexc B) :
  preserves m -> (forall a, preserves (k a)) -> preserves (pym_bind m k).
Proof.
  intros Hm Hk st Hst. unfold pym_bind. specialize (Hm st Hst).
  destruct (m st) as [s [e|a]]; [exact Hm | exact (Hk a s Hm)].
Qed.

Lemma preserves_ret {A} (a : A) : preserves (pym_ret a).
Proof. by intros st. Qed.

Lemma preserves_raise {A} e : preserves (pym_raise (A := A) e).
Proof. by intros st. Qed.

Lemma preserves_get_self : preserves get_self.
Proof. by intros st. Qed.

Lemma preserves_print line : preserves (print line).
Proof. by intros st. Qed.

Lemma preserves_check_exception {A} f (m : PyM (world W) pyexc A) :
  preserves m -> preserves (check_exception f m).
Proof.
  intros Hm st Hst. specialize (Hm st Hst). unfold check_exception.
  destruct (m st) as [s [[]|]]; try case_bool_decide; exact Hm.
Qed.

Lemma preserves_jcall {A} c (op : handle -> PyM W pyexc A) : preserves (jcall c op).
Proof.
  intros st Hst. destruct (jlink (w_self st)) as [h|] eqn:Hh.
  - rewrite (jcall_some _ _ _ h Hh). destruct (op h (w_lib st)).
    unfold handles_consistent in *. cbn.
    rewrite handle_discipline_app, Hst, Hh. cbn. by rewrite decide_True.
  - by rewrite jcall_none.
Qed.

(** [JLink()] followed by [self.jlink = ...]: the new object becomes
    current and is stored. *)
Lemma preserves_new_set {A} (k : PyM (world W) pyexc A) :
  preserves k -> preserves (h <- lib_new;; set_jlink h;;; k)%pym.
Proof.
  intros Hk st Hst. unfold pym_bind, lib_new.
  destruct (jl_new (w_lib st)) as [w' [e|h]].
  - unfold handles_consistent in *. cbn. by rewrite handle_discipline_app, Hst.
  - apply Hk. unfold handles_consistent in *. cbn.
    by rewrite handle_discipline_app, Hst.
Qed.

End Facts.

(** Decompose a method into the constructs above. *)
Ltac preserve :=
  repeat first
    [ progress cbv zeta
    | apply preserves_new_set
    | apply preserves_check_exception
    | apply preserves_jcall
    | apply preserves_print
    | apply preserves_get_self
    | apply preserves_ret
    | apply preserves_raise
    | apply preserves_bind; [|intros ?]
    | progress case_match ].

(** Unfold the monad and the primitive steps of the methods. *)
Ltac unfold_monad :=
  cbv beta iota zeta delta [pym_bind pym_ret pym_raise get_jlink set_jlink get_self
    print lib_call lib_new jcall w_lib w_self w_trace w_out set_self
    set_jlink_field with_interface jlink chip_name speed interface].

(** Step through a straight-line method: decide the outcome of each library
    call in turn. *)
Ltac lib_step :=
  match goal with
  | |- context [jl_new ?w] => destruct (jl_new w) as [?w [?e|?h]] eqn:?
  | |- context [jl_disable_dialog_boxes ?h ?w] =>
      destruct (jl_disable_dialog_boxes h w) as [?w [?e|[]]] eqn:?
  | |- context [jl_open ?h ?w] => destruct (jl_open h w) as [?w [?e|[]]] eqn:?
  | |- context [jl_rtt_stop ?h ?w] => destruct (jl_rtt_stop h w) as [?w [?e|[]]] eqn:?
  | |- context [jl_set_tif ?h ?i ?w] => destruct (jl_set_tif h i w) as [?w [?e|[]]] eqn:?
  | |- context [jl_connect ?h ?c ?s ?v ?w] =>
      destruct (jl_connect h c s v w) as [?w [?e|[]]] eqn:?
  | |- context [jl_rtt_start ?h ?w] => destruct (jl_rtt_start h w) as [?w [?e|[]]] eqn:?
  | |- context [jl_endian_mode ?h ?w] => destruct (jl_endian_mode h w) as [?w [?e|?v]] eqn:?
  | |- context [jl_speed ?h ?w] => destruct (jl_speed h w) as [?w [?e|?v]] eqn:?
  | |- context [jl_core_name ?h ?w] => destruct (jl_core_name h w) as [?w [?e|?v]] eqn:?
  | |- context [jl_cpu_speed ?h ?w] => destruct (jl_cpu_speed h w) as [?w [?e|?v]] eqn:?
  | |- context [jl_rtt_read ?h ?i ?n ?w] => destruct (jl_rtt_read h i n w) as [?w [?e|?v]] eqn:?
  | |- context [jl_rtt_write ?h ?i ?d ?w] => destruct (jl_rtt_write h i d w) as [?w [?e|?v]] eqn:?
  | |- context [jl_close ?h ?w] => destruct (jl_close h w) as [?w [?e|[]]] eqn:?
  end; unfold_monad.

Ltac run_method := unfold_monad; repeat lib_step.

(** Case on the exception raised and on the decorator's name test. *)
Ltac destruct_exc :=
  repeat match goal with
  | e : pyexc |- _ => destruct e
  end; try case_bool_decide.

End DongleFacts.

Module DongleThms.
Import JLinkApi Dongle DongleFacts.

Section Generic.
Context {W : Type} `{!JLinkLib W}.

(** C1: the call protocol of [connect].  Either [JLink()] itself fails and
    nothing else happens, or [connect] issues a non-empty prefix of the
    fixed sequence [connect_events] on the new handle [h] -- always with
    interface SWD and the dongle's chip name and speed -- stores [h] in
    [self.jlink] even when a later call raises, and returns only after the
    whole sequence. *)
Theorem connect_trace (st : world W) :
  let '(st', r) := connect st in
  (w_trace st' = w_trace st ++ [EvNew None] /\ w_self st' = w_self st /\
   exists e, r = inl e)
  \/ (exists h sfx, w_trace st' = w_trace st ++ sfx /\ sfx <> [] /\
       sfx `prefix_of` connect_events h (chip_name (w_self st)) (speed (w_self st)) /\
       w_self st' = set_jlink_field (w_self st) h /\
       (r = inr tt -> sfx = connect_events h (chip_name (w_self st)) (speed (w_self st)))).
Proof.
  destruct st as [w d tr out].
  unfold connect, check_exception, connect_body. run_method.
  all: destruct_exc; cbn.
  all: first [ left; split_and!; [reflexivity | reflexivity | eexists; reflexivity]
             | right; eexists _, _; split_and!;
               [ rewrite <- !app_assoc; reflexivity | cbn; discriminate
               | eexists; reflexivity | reflexivity
               | intros; (discriminate || reflexivity) ] ].
Qed.

(** C8: [self.interface] is never read: running [connect] with any other
    value in that field gives the same library calls, outputs and result
    (line 41 passes the constant [JLinkInterfaces.SWD]). *)
Theorem connect_ignores_interface (st : world W) i :
  connect (set_self st (with_interface (w_self st) i)) =
  let '(st', r) := connect st in (set_self st' (with_interface (w_self st') i), r).
Proof.
  destruct st as [w d tr out].
  unfold connect, check_exception, connect_body. run_method.
  all: destruct_exc; reflexivity.
Qed.

(** C2: [reconnect] closes the current handle and then runs [connect]
    (RTT is not stopped first: line 72 is commented out).  A
    [JLinkException] from [close] is labelled "reconnect"; any error of the
    inner [connect] passes through with its own label "connect", because
    [connect] never lets a raw [JLinkException] escape. *)
Theorem reconnect_close_then_connect (st : world W) h :
  jlink (w_self st) = Some h ->
  reconnect st =
  let '(w', r) := jl_close h (w_lib st) in
  let st1 := mkWorld w' (w_self st) (w_trace st ++ [EvCall h CClose]) (w_out st) in
  match r with
  | inr _ => connect st1
  | inl (JLinkException m) => (st1, inl (JLinkDongleException (error_message "reconnect" m)))
  | inl e => (st1, inl e)
  end.
Proof.
  intros Hh. unfold reconnect, check_exception, pym_bind.
  rewrite (jcall_some _ _ _ h Hh).
  destruct (jl_close h (w_lib st)) as [w' [e|u]].
  - by destruct e.
  - destruct (connect _) as [s [e|x]] eqn:E; [|reflexivity].
    destruct e; try reflexivity. exfalso. by eapply check_exception_no_raw.
Qed.

(** The state after one logged library call on the dongle's handle. *)
Definition after_call (st : world W) (w' : W) (ev : event) : world W :=
  mkWorld w' (w_self st) (w_trace st ++ [ev]) (w_out st).

(** C4: a pylink error inside [read_rtt] or [write_rtt] becomes a
    [JLinkDongleException] with the fixed text "Do not read/write from RTT
    Terminal", whatever the cause: the underlying message [m] is dropped. *)
Theorem rw_error_drops_cause (st : world W) h n data w' m :
  jlink (w_self st) = Some h ->
  (jl_rtt_read h n MAX_BUF_SIZE (w_lib st) = (w', inl (JLinkException m)) ->
   read_rtt n st = (after_call st w' (EvCall h (CRttRead n MAX_BUF_SIZE)),
                    inl (JLinkDongleException rw_message))) /\
  (jl_rtt_write h n data (w_lib st) = (w', inl (JLinkException m)) ->
   write_rtt data n st = (after_call st w' (EvCall h (CRttWrite n data)),
                          inl (JLinkDongleException rw_message))).
Proof.
  intros Hh. split; intros Hop;
    unfold read_rtt, write_rtt, check_exception, pym_bind;
    rewrite (jcall_some _ _ _ h Hh), Hop; reflexivity.
Qed.

(** C5: before the first [connect], [self.jlink] is unset: [read_rtt],
    [write_rtt], [reconnect] and the string helpers raise
    [AttributeError] (not a [JLinkDongleException]) and make no library
    call: the world is unchanged. *)
Theorem unset_handle_no_call (st : world W) n data s bs :
  jlink (w_self st) = None ->
  read_rtt n st = (st, inl attr_error) /\
  write_rtt data n st = (st, inl attr_error) /\
  reconnect st = (st, inl attr_error) /\
  read_rtt_string n st = (st, inl attr_error) /\
  (Utf8.encode s = inr bs -> write_rtt_sring s n st = (st, inl attr_error)).
Proof.
  intros Hn.
  assert (Hr : read_rtt n st = (st, inl attr_error)).
  { unfold read_rtt, check_exception. by rewrite jcall_none. }
  assert (Hw : forall d, write_rtt d n st = (st, inl attr_error)).
  { intros d. unfold write_rtt, check_exception, pym_bind. by rewrite jcall_none. }
  split_and!; [done | done | | | ].
  - unfold reconnect, check_exception, pym_bind. by rewrite jcall_none.
  - unfold read_rtt_string, pym_bind. by rewrite Hr.
  - intros He. unfold write_rtt_sring. by rewrite He.
Qed.

(** C6: [write_rtt] discards the count returned by pylink's [rtt_write]:
    whatever number [k] of bytes the probe accepted -- fewer than
    [length data] included -- the call returns normally, so a short write
    cannot be observed by the caller. *)
Theorem write_rtt_discards_count (st : world W) h n data w' k :
  jlink (w_self st) = Some h ->
  jl_rtt_write h n data (w_lib st) = (w', inr k) ->
  write_rtt data n st = (after_call st w' (EvCall h (CRttWrite n data)), inr tt).
Proof.
  intros Hh Hop. unfold write_rtt, check_exception, pym_bind.
  by rewrite (jcall_some _ _ _ h Hh), Hop.
Qed.

(** C9: when [connect] raises after opening the new handle [h], nothing
    closes it: [self.jlink] keeps [h] and [close] is not called, so the
    object is left open (the spec asks that a failed connect retain no
    partial state). *)
Theorem connect_error_leaves_handle_open (st : world W) :
  let '(st', r) := connect st in
  forall e sfx h, r = inl e -> w_trace st' = w_trace st ++ sfx ->
  In (EvCall h COpen) sfx ->
  jlink (w_self st') = Some h /\ ~ In (EvCall h CClose) sfx.
Proof.
  destruct st as [w d tr out].
  unfold connect, check_exception, connect_body. run_method.
  all: destruct_exc; cbn; intros e' sfx h' Hr Htr Hin; try discriminate;
    rewrite <- ?app_assoc in Htr; apply app_inv_head in Htr; subst sfx;
    cbn in Hin |- *; intuition congruence.
Qed.

(** C12: [write_rtt_sring] sends the UTF-8 encoding of the string to the
    current handle's [rtt_write], and those bytes decode back to the
    string. *)
Theorem write_rtt_sring_sends_utf8 (st : world W) h n s bs :
  jlink (w_self st) = Some h -> Forall Utf8.py_char s -> Utf8.encode s = inr bs ->
  Utf8.decode bs = inr s /\
  w_trace (fst (write_rtt_sring s n st)) = w_trace st ++ [EvCall h (CRttWrite n bs)].
Proof.
  intros Hh Hs He. split; [exact (Utf8Thms.encode_from_decode s 0 0 bs Hs He)|].
  unfold write_rtt_sring, write_rtt, check_exception, pym_bind.
  rewrite He, (jcall_some _ _ _ h Hh).
  destruct (jl_rtt_write h n bs (w_lib st)) as [w' [e|k]]; [destruct_exc|]; reflexivity.
Qed.

(** C30: [write_rtt_sring] encodes before it touches [self.jlink]: a string
    with a lone surrogate raises [UnicodeEncodeError] at the first
    surrogate run, with no library call and no change of state, even
    before the first [connect] (where [AttributeError] would otherwise
    come first). *)
Theorem write_rtt_sring_encode_error_first (st : world W) n s e :
  Utf8.encode s = inl e -> write_rtt_sring s n st = (st, inl (UnicodeEncodeError e)).
Proof. intros He. unfold write_rtt_sring. by rewrite He. Qed.

(** C31: the decorator catches only pylink's [JLinkException]: when
    [JLink()] itself fails with another exception (pylink raises
    [TypeError] when no DLL is found), [connect] lets it through without
    the dongle's label, after logging the failed construction and without
    assigning [self.jlink]. *)
Theorem connect_other_error_unlabelled (st : world W) w' m :
  jl_new (w_lib st) = (w', inl (OtherError m)) ->
  connect st = (mkWorld w' (w_self st) (w_trace st ++ [EvNew None]) (w_out st),
                inl (OtherError m)).
Proof. intros Hn. unfold connect, check_exception, connect_body, pym_bind, lib_new. by rewrite Hn. Qed.

End Generic.

Section WithLaws.
Context {W : Type} `{!JLinkLib W} `{!JLinkLaws W}.

(** C11: [read_rtt] asks pylink for [MAX_BUF_SIZE] bytes on the current
    handle and returns what it got: at most 336 values, each a byte. *)
Theorem read_rtt_bounded (st st' : world W) n l :
  read_rtt n st = (st', inr l) ->
  (length l <= 336)%nat /\ Forall Utf8.is_byte l /\
  exists h, jlink (w_self st) = Some h /\
    w_trace st' = w_trace st ++ [EvCall h (CRttRead n MAX_BUF_SIZE)].
Proof.
  unfold read_rtt, check_exception.
  destruct (jlink (w_self st)) as [h|] eqn:Hh; [|rewrite jcall_none by done; intros H; inversion H].
  rewrite (jcall_some _ _ _ h Hh).
  destruct (jl_rtt_read h n MAX_BUF_SIZE (w_lib st)) as [w' [e|l']] eqn:Hop.
  { destruct e; try case_bool_decide; congruence. }
  intros [= <- <-]. apply rtt_read_bounded in Hop as [Hlen Hb].
  unfold MAX_BUF_SIZE in Hlen. split_and!; [lia | done | eauto].
Qed.

(** C13: [read_rtt_string] returns [""] when the probe has nothing, the
    decoded text otherwise; malformed UTF-8 raises [UnicodeDecodeError]
    (it is neither swallowed nor relabelled), and [bytes(data)] never
    raises [ValueError] on what pylink returns. *)
Theorem read_rtt_string_decodes (st : world W) h n w' l :
  jlink (w_self st) = Some h ->
  jl_rtt_read h n MAX_BUF_SIZE (w_lib st) = (w', inr l) ->
  read_rtt_string n st =
  (after_call st w' (EvCall h (CRttRead n MAX_BUF_SIZE)),
   match l with
   | [] => inr []
   | _ :: _ => match Utf8.decode l with
               | inl e => inl (UnicodeDecodeError e)
               | inr s => inr s
               end
   end).
Proof.
  intros Hh Hop. pose proof (rtt_read_bounded _ _ _ _ _ _ Hop) as [_ Hb].
  unfold read_rtt_string, read_rtt, check_exception, pym_bind.
  rewrite (jcall_some _ _ _ h Hh), Hop.
  destruct l as [|b l]; [reflexivity|].
  rewrite (Utf8Thms.bytes_of_list_ok _ Hb).
  by destruct (Utf8.decode (b :: l)).
Qed.

(** C7: [read_rtt_string] decodes each chunk returned by one [rtt_read]
    on its own.  When a chunk ends inside a multi-byte character -- the
    first [k] bytes of its encoding, after text that decodes -- the call
    raises [UnicodeDecodeError] ("unexpected end of data") instead of
    returning the text and keeping the partial character for the next
    read. *)
Theorem read_rtt_string_split_char (st : world W) h n w' p s c bc k :
  jlink (w_self st) = Some h ->
  Utf8.decode p = inr s -> Utf8.scalar c -> Utf8.encode_char c = Some bc ->
  (0 < k < length bc)%nat ->
  jl_rtt_read h n MAX_BUF_SIZE (w_lib st) = (w', inr (p ++ take k bc)) ->
  snd (read_rtt_string n st) =
  inl (UnicodeDecodeError
         (Utf8.derr Utf8.UnexpectedEndOfData (Z.of_nat (length p)) (Z.of_nat k))).
Proof.
  intros Hh Hp Hc He Hk Hop.
  pose proof (rtt_read_bounded _ _ _ _ _ _ Hop) as [_ Hb].
  apply Forall_app in Hb as [Hbp _].
  unfold read_rtt_string, read_rtt, check_exception, pym_bind.
  rewrite (jcall_some _ _ _ h Hh), Hop.
  destruct (p ++ take k bc) as [|b l] eqn:Hl.
  { apply (f_equal length) in Hl. rewrite length_app, length_take in Hl. simpl in Hl. lia. }
  rewrite Utf8Thms.bytes_of_list_ok by exact (proj2 (rtt_read_bounded _ _ _ _ _ _ Hop)).
  unfold Utf8.decode. rewrite <- Hl, (Utf8Thms.decode_from_app_ok p 0 _ s Hbp Hp).
  by rewrite (Utf8Thms.decode_truncated_char c bc k _ Hc He Hk).
Qed.

End WithLaws.

Section Invariant.
Context {W : Type} `{!JLinkLib W}.

Lemma call_method_preserves m (st : world W) :
  handles_consistent st -> handles_consistent (fst (call_method m st)).
Proof.
  destruct m; cbn [call_method outcome fst]; revert st.
  - unfold connect, connect_body. preserve.
  - unfold read_rtt. preserve.
  - unfold write_rtt. preserve.
  - unfold read_rtt_string, read_rtt. preserve.
  - unfold write_rtt_sring, write_rtt. preserve.
  - unfold reconnect, connect, connect_body. preserve.
Qed.

Lemma outcome_no_raw {A} (x : world W * (pyexc + A)) msg :
  (forall st' m, x <> (st', inl (JLinkException m))) ->
  snd (outcome x) <> Some (JLinkException msg).
Proof. destruct x as [s [e|]]; cbn; [|done]. intros H [= ->]. by eapply H. Qed.

(** C3: no public method lets a raw pylink [JLinkException] escape: the
    decorated methods relabel it, and the string helpers only add
    [ValueError], [UnicodeDecodeError] and [UnicodeEncodeError]. *)
Theorem no_raw_jlink_exception m (st : world W) msg :
  snd (call_method m st) <> Some (JLinkException msg).
Proof.
  destruct m; cbn [call_method]; apply outcome_no_raw; intros st' m;
    try apply check_exception_no_raw.
  - unfold read_rtt_string, pym_bind.
    destruct (read_rtt _ st) as [s [e|data]] eqn:E.
    + intros [= -> ->]. by eapply check_exception_no_raw.
    + repeat case_match; cbv [pym_raise pym_ret]; congruence.
  - unfold write_rtt_sring. case_match; [cbv [pym_raise]; congruence|].
    apply check_exception_no_raw.
Qed.

(** C10: in every reachable world, each library call the dongle ever made
    went to the newest [JLink] object created so far, and [self.jlink]
    holds that object (or is unset when none was created). *)
Theorem reachable_handles_consistent (st : world W) :
  reachable st -> handles_consistent st.
Proof.
  induction 1 as [w i spd chip | m st _ IH]; [reflexivity|].
  by apply call_method_preserves.
Qed.

End Invariant.
End DongleThms.

(** ** Witnesses: the theorems on the scripted probe *)

Module DongleWitness.
Import JLinkApi JLinkApi.Mock Dongle DongleThms.

(** A fresh dongle, and one whose [self.jlink] holds object 7. *)
Definition st_fresh (w : mock) : world mock := mkWorld w JLinkDongle_init [] [].
Definition st_open (w : mock) : world mock :=
  mkWorld w (set_jlink_field JLinkDongle_init 7%nat) [] [].

Definition is_connect (c : call) : bool :=
  match c with CConnect _ _ _ => true | _ => false end.
Definition is_read (c : call) : bool :=
  match c with CRttRead _ _ => true | _ => false end.

Lemma connect_trace_witness :
  let '(st', r) := connect (st_fresh (healthy [] 0)) in
  (w_trace st' = w_trace (st_fresh (healthy [] 0)) ++ [EvNew None] /\
   w_self st' = w_self (st_fresh (healthy [] 0)) /\ exists e, r = inl e)
  \/ (exists h sfx, w_trace st' = w_trace (st_fresh (healthy [] 0)) ++ sfx /\ sfx <> [] /\
       sfx `prefix_of` connect_events h (chip_name (w_self (st_fresh (healthy [] 0))))
                                        (speed (w_self (st_fresh (healthy [] 0)))) /\
       w_self st' = set_jlink_field (w_self (st_fresh (healthy [] 0))) h /\
       (r = inr tt -> sfx = connect_events h (chip_name (w_self (st_fresh (healthy [] 0))))
                                             (speed (w_self (st_fresh (healthy [] 0)))))).
Proof. pose proof (connect_trace (st_fresh (healthy [] 0))) as H. exact H. Defined.

Lemma connect_ignores_interface_witness :
  connect (set_self (st_fresh (healthy [] 0))
                    (with_interface (w_self (st_fresh (healthy [] 0))) JTAG)) =
  let '(st', r) := connect (st_fresh (healthy [] 0)) in
  (set_self st' (with_interface (w_self st') JTAG), r).
Proof.
  pose proof (connect_ignores_interface (st_fresh (healthy [] 0)) JTAG) as H. exact H.
Defined.

Lemma reconnect_close_then_connect_witness :
  jlink (w_self (st_open (healthy [] 0))) = Some 7%nat /\
  reconnect (st_open (healthy [] 0)) =
  connect (mkWorld (healthy [] 0) (set_jlink_field JLinkDongle_init 7%nat)
                   [EvCall 7%nat CClose] []).
Proof.
  split; [reflexivity|].
  rewrite (reconnect_close_then_connect (st_open (healthy [] 0)) 7%nat); reflexivity.
Defined.

Lemma no_raw_jlink_exception_witness :
  snd (call_method MConnect (st_fresh (failing is_connect "boom" (healthy [] 0))))
  <> Some (JLinkException "boom").
Proof. apply no_raw_jlink_exception. Defined.

Lemma rw_error_drops_cause_witness :
  let st := st_open (failing is_read "USB" (healthy [] 0)) in
  read_rtt 0 st = (after_call st (w_lib st) (EvCall 7%nat (CRttRead 0 MAX_BUF_SIZE)),
                   inl (JLinkDongleException rw_message)).
Proof.
  cbv zeta.
  apply (proj1 (rw_error_drops_cause (st_open (failing is_read "USB" (healthy [] 0)))
                  7%nat 0 [] (failing is_read "USB" (healthy [] 0)) "USB" eq_refl)).
  reflexivity.
Defined.

Lemma unset_handle_no_call_witness :
  let st := st_fresh (healthy [65] 10) in
  read_rtt 0 st = (st, inl attr_error) /\
  write_rtt [65] 0 st = (st, inl attr_error) /\
  reconnect st = (st, inl attr_error) /\
  read_rtt_string 0 st = (st, inl attr_error) /\
  (Utf8.encode [65] = inr [65] -> write_rtt_sring [65] 0 st = (st, inl attr_error)).
Proof. apply unset_handle_no_call. reflexivity. Defined.

(** Three bytes offered, two accepted: [write_rtt] still returns normally. *)
Lemma write_rtt_discards_count_witness :
  let st := st_open (healthy [] 2) in
  write_rtt [1; 2; 3] 0 st =
  (after_call st (with_tx (healthy [] 2) [1; 2] 0) (EvCall 7%nat (CRttWrite 0 [1; 2; 3])),
   inr tt).
Proof.
  apply (write_rtt_discards_count (st_open (healthy [] 2)) 7%nat 0 [1; 2; 3] _ 2);
    reflexivity.
Defined.

Lemma connect_error_leaves_handle_open_witness :
  let '(st', r) := connect (st_fresh (failing is_connect "boom" (healthy [] 0))) in
  forall e sfx h, r = inl e ->
  w_trace st' = w_trace (st_fresh (failing is_connect "boom" (healthy [] 0))) ++ sfx ->
  In (EvCall h COpen) sfx ->
  jlink (w_self st') = Some h /\ ~ In (EvCall h CClose) sfx.
Proof.
  pose proof (connect_error_leaves_handle_open
                (st_fresh (failing is_connect "boom" (healthy [] 0)))) as H.
  exact H.
Defined.

Lemma reachable_handles_consistent_witness :
  handles_consistent
    (fst (call_method MReconnect (fst (call_method MConnect (st_fresh (healthy [] 0)))))).
Proof.
  apply reachable_handles_consistent.
  apply reach_call, reach_call, reach_init.
Defined.

Lemma read_rtt_bounded_witness :
  (length [72; 105] <= 336)%nat /\ Forall Utf8.is_byte [72; 105] /\
  exists h, jlink (w_self (st_open (healthy [72; 105] 0))) = Some h /\
    w_trace (fst (read_rtt 0 (st_open (healthy [72; 105] 0)))) =
    [] ++ [EvCall h (CRttRead 0 MAX_BUF_SIZE)].
Proof.
  apply (read_rtt_bounded (st_open (healthy [72; 105] 0))
           (fst (read_rtt 0 (st_open (healthy [72; 105] 0)))) 0 [72; 105]).
  reflexivity.
Defined.

Lemma write_rtt_sring_sends_utf8_witness :
  Utf8.decode [65; 195; 169] = inr [65; 233] /\
  w_trace (fst (write_rtt_sring [65; 233] 0 (st_open (healthy [] 10)))) =
  [] ++ [EvCall 7%nat (CRttWrite 0 [65; 195; 169])].
Proof.
  apply write_rtt_sring_sends_utf8;
    [reflexivity | auto 20 with rtt | reflexivity].
Defined.

Lemma read_rtt_string_decodes_witness :
  let st := st_open (healthy [72; 195; 169] 0) in
  read_rtt_string 0 st =
  (after_call st (with_rx (healthy [72; 195; 169] 0) []) (EvCall 7%nat (CRttRead 0 MAX_BUF_SIZE)),
   inr [72; 233]).
Proof.
  apply (read_rtt_string_decodes (st_open (healthy [72; 195; 169] 0)) 7%nat 0
           (with_rx (healthy [72; 195; 169] 0) []) [72; 195; 169]);
    reflexivity.
Defined.

(** "H" then the first byte of "é": the chunk ends inside a character. *)
Lemma read_rtt_string_split_char_witness :
  snd (read_rtt_string 0 (st_open (healthy [72; 195] 0))) =
  inl (UnicodeDecodeError (Utf8.derr Utf8.UnexpectedEndOfData 1 1)).
Proof.
  apply (read_rtt_string_split_char (st_open (healthy [72; 195] 0)) 7%nat 0
           (with_rx (healthy [72; 195] 0) []) [72] [72] 233 [195; 169] 1);
    try reflexivity; [unfold Utf8.scalar, Utf8.py_char; split; [lia | reflexivity] | simpl; lia].
Defined.

(** A mock whose DLL cannot be loaded. *)
Definition without_dll (w : mock) : mock :=
  {| m_next := m_next w; m_dll := false; m_fault := m_fault w; m_rx := m_rx w;
     m_tx := m_tx w; m_room := m_room w; m_endian := m_endian w;
     m_core := m_core w; m_khz := m_khz w; m_hz := m_hz w |}.

Lemma write_rtt_sring_encode_error_first_witness :
  write_rtt_sring [0x41; 0xD800] 0 (st_fresh (healthy [] 0)) =
  (st_fresh (healthy [] 0), inl (UnicodeEncodeError {| Utf8.enc_start := 1; Utf8.enc_end := 2 |})).
Proof. apply write_rtt_sring_encode_error_first. reflexivity. Defined.

Lemma connect_other_error_unlabelled_witness :
  connect (st_fresh (without_dll (healthy [] 0))) =
  (mkWorld (without_dll (healthy [] 0)) JLinkDongle_init ([] ++ [EvNew None]) [],
   inl (OtherError "Expected to be given a valid DLL.")).
Proof. apply connect_other_error_unlabelled. reflexivity. Defined.

End DongleWitness.
