(* ===== verification/Scenarios.v ===== *)
(** * The dongle on the simulated probe

    End-to-end runs of [JLinkDongle]'s methods (Dongle.v) against the
    simulated J-Link of RttSim.v, for the testable properties of the spec
    (section 8): a loopback through the string helpers, a write larger than
    the free space of a blocking channel, the data pending in a channel
    across [reconnect], a second [connect] on a probe that only one object
    may hold, a caller's polling loop draining a channel, the spec's
    overwrite example read through the dongle, the console lines [connect]
    prints, the happy path on which the dongle stays connected, the
    caller's read loop run to completion, and interleavings of target
    writes and caller polls.  [Harness] holds the caller-side definitions (the
    polling loops, schedules of target and caller steps, sample probes), which model no code of the repository. *)

From S2P Require Import Prelude Utf8 PyFormat JLinkApi RttSim Dongle.
From stdpp Require Import pretty.

Import JLinkApi Dongle DongleFacts Ring RingFacts Probe ProbeFacts.

Open Scope nat_scope.

Module Harness.

(** The world after the target firmware ran on the probe. *)
Definition with_lib (st : world probe) (p : probe) : world probe :=
  mkWorld p (w_self st) (w_trace st) (w_out st).

(** A connected dongle: [self.jlink] holds [h], [h] holds the probe and RTT
    is running. *)
Definition session (st : world probe) (h : handle) : Prop :=
  jlink (w_self st) = Some h /\ p_owner (w_lib st) = Some h /\ p_rtt (w_lib st) = true.

(** A probe held by object [7] with RTT running, and a free one. *)
Definition held_probe (up down : list ring) : probe :=
  mkProbe 8 (Some 7) true up down [0%Z] "Cortex-M4" 4000 168000000.

Definition free_probe : probe :=
  mkProbe 7 None false [empty_ring 16 Blocking] [empty_ring 16 Blocking] [0%Z]
          "Cortex-M4" 4000 168000000.

Definition session_world (up down : list ring) : world probe :=
  mkWorld (held_probe up down) (set_jlink_field JLinkDongle_init 7) [] [].

(** A caller's terminal loop: [k] polls of [read_rtt(i)], collecting the
    chunks. *)
Fixpoint poll (k : nat) (i : Z) : PyM (world probe) pyexc (list (list Z)) :=
  match k with
  | 0 => pym_ret []
  | S k => pym_bind (read_rtt i) (fun c => pym_bind (poll k i) (fun cs => pym_ret (c :: cs)))
  end.

(** A caller's loop [while data := dongle.read_rtt(i): out += data],
    with fuel; [None] when the fuel runs out first. *)
Fixpoint drain (fuel : nat) (i : Z) : PyM (world probe) pyexc (option (list Z)) :=
  match fuel with
  | 0 => pym_ret None
  | S f =>
      pym_bind (read_rtt i) (fun c =>
        match c with
        | [] => pym_ret (Some [])
        | _ :: _ => pym_bind (drain f i) (fun r => pym_ret (app c <$> r))
        end)
  end.

(** An interleaving of the target firmware and the caller on up channel
    [i]: the target writes bytes, or the caller polls [read_rtt(i)]. *)
Inductive sched_ev :=
| TSend (data : list Z)
| HPoll.

(** Run a schedule; collect what the caller read and what the channel
    accepted from the target; [None] when a step fails. *)
Fixpoint run_sched (i : nat) (evs : list sched_ev) (st : world probe)
    : option (world probe * list (list Z) * list (list Z)) :=
  match evs with
  | [] => Some (st, [], [])
  | TSend d :: evs =>
      u ← p_up (w_lib st) !! i;
      '(k, u') ← ring_write d u;
      '(st', got, acc) ← run_sched i evs
         (with_lib st (with_rings (w_lib st) (<[i := u']> (p_up (w_lib st))) (p_down (w_lib st))));
      Some (st', got, take k d :: acc)
  | HPoll :: evs =>
      match read_rtt (Z.of_nat i) st with
      | (st1, inr c) => '(st', got, acc) ← run_sched i evs st1; Some (st', c :: got, acc)
      | (_, inl _) => None
      end
  end.

(** The data the target sends in a schedule. *)
Fixpoint sent (evs : list sched_ev) : list (list Z) :=
  match evs with
  | [] => []
  | TSend d :: evs => d :: sent evs
  | HPoll :: evs => sent evs
  end.

(** Every channel of the probe is well formed. *)
Definition probe_wf (p : probe) : Prop := Forall ring_wf (p_up p) /\ Forall ring_wf (p_down p).

(** A call of a method other than [connect] that names an existing
    channel. *)
Definition valid_call (m : method) (p : probe) : Prop :=
  match m with
  | MConnect => False
  | MReadRtt n | MReadRttString n => exists i, n = Z.of_nat i /\ i < length (p_up p)
  | MWriteRtt _ n | MWriteRttSring _ n => exists i, n = Z.of_nat i /\ i < length (p_down p)
  | MReconnect => True
  end.

(** The happy path of a caller: one [connect] on a free probe whose
    channels are well formed, then any valid calls. *)
Inductive happy : world probe -> Prop :=
| happy_connect st :
    p_owner (w_lib st) = None -> probe_wf (w_lib st) -> happy (fst (connect st))
| happy_call m st : happy st -> valid_call m (w_lib st) -> happy (fst (call_method m st)).

(** The errors of the codec, which depend on the data only. *)
Definition codec_error (e : pyexc) : Prop :=
  match e with UnicodeDecodeError _ | UnicodeEncodeError _ => True | _ => False end.

End Harness.

Module ScenarioFacts.
Import Harness.

Lemma map_mod_bytes l : Forall Utf8.is_byte l -> map (fun b => b mod 256)%Z l = l.
Proof.
  induction 1 as [|b l Hb _ IH]; [done|]. cbn. rewrite IH. f_equal.
  unfold Utf8.is_byte in Hb. apply Z.mod_small. lia.
Qed.

Lemma owns_self h p : p_owner p = Some h -> owns h p = true.
Proof. unfold owns. intros ->. apply Nat.eqb_refl. Qed.

Lemma channel_nat rs i : channel rs (Z.of_nat i) = rs !! i.
Proof. unfold channel. rewrite Nat2Z.id. by destruct (Z.leb_spec 0 (Z.of_nat i)); [|lia]. Qed.

Lemma sim_rtt_read_ok p h i n r bs r' :
  p_owner p = Some h -> p_rtt p = true -> p_up p !! i = Some r ->
  ring_read (Z.to_nat n) r = Some (bs, r') ->
  sim_rtt_read h (Z.of_nat i) n p =
    (with_rings p (<[i := r']> (p_up p)) (p_down p), inr (map (fun b => b mod 256)%Z bs)).
Proof.
  intros Ho Hrtt Hr Hrd. unfold sim_rtt_read, open_required.
  rewrite owns_self, Hrtt, channel_nat, Hr by done. cbn. by rewrite Hrd, Nat2Z.id.
Qed.

Lemma sim_rtt_write_ok p h i data r k r' :
  p_owner p = Some h -> p_rtt p = true -> p_down p !! i = Some r ->
  ring_write (map (fun b => b mod 256)%Z data) r = Some (k, r') ->
  sim_rtt_write h (Z.of_nat i) data p =
    (with_rings p (p_up p) (<[i := r']> (p_down p)), inr (Z.of_nat k)).
Proof.
  intros Ho Hrtt Hr Hw. unfold sim_rtt_write, open_required.
  rewrite owns_self, Hrtt, channel_nat, Hr by done. cbn. by rewrite Hw, Nat2Z.id.
Qed.

(** [write_rtt] on a running session stores the bytes into the down
    channel and returns [None], whatever count the probe reports. *)
Lemma write_rtt_sim st h i data r k r' :
  session st h -> p_down (w_lib st) !! i = Some r ->
  ring_write (map (fun b => b mod 256)%Z data) r = Some (k, r') ->
  write_rtt data (Z.of_nat i) st =
    (mkWorld (with_rings (w_lib st) (p_up (w_lib st)) (<[i := r']> (p_down (w_lib st))))
             (w_self st) (w_trace st ++ [EvCall h (CRttWrite (Z.of_nat i) data)]) (w_out st),
     inr tt).
Proof.
  intros (Hh & Ho & Hrtt) Hr Hw. unfold write_rtt, check_exception, pym_bind.
  rewrite (jcall_some _ _ _ h Hh). cbn [jl_rtt_write sim_lib].
  by rewrite (sim_rtt_write_ok _ h i data r k r').
Qed.

(** [read_rtt] on a running session pops at most [MAX_BUF_SIZE] bytes of
    the up channel. *)
Lemma read_rtt_sim st h i r bs r' :
  session st h -> p_up (w_lib st) !! i = Some r ->
  ring_read (Z.to_nat MAX_BUF_SIZE) r = Some (bs, r') ->
  read_rtt (Z.of_nat i) st =
    (mkWorld (with_rings (w_lib st) (<[i := r']> (p_up (w_lib st))) (p_down (w_lib st)))
             (w_self st) (w_trace st ++ [EvCall h (CRttRead (Z.of_nat i) MAX_BUF_SIZE)])
             (w_out st),
     inr (map (fun b => b mod 256)%Z bs)).
Proof.
  intros (Hh & Ho & Hrtt) Hr Hrd. unfold read_rtt, check_exception.
  rewrite (jcall_some _ _ _ h Hh). cbn [jl_rtt_read sim_lib].
  by rewrite (sim_rtt_read_ok _ h i MAX_BUF_SIZE r bs r').
Qed.

(** Step a method on the simulated probe: unfold the monad, the methods
    and the probe's operations, resolving ownership tests with the
    hypotheses. *)
Ltac sim_cbv :=
  cbv beta iota zeta delta [pym_bind pym_ret pym_raise get_jlink set_jlink get_self print
    lib_call lib_new jcall w_lib w_self w_trace w_out set_self set_jlink_field jlink
    chip_name speed interface check_exception connect connect_body reconnect
    jl_new jl_disable_dialog_boxes jl_open jl_rtt_stop jl_set_tif jl_connect jl_rtt_start
    jl_endian_mode jl_speed jl_core_name jl_cpu_speed jl_rtt_read jl_rtt_write jl_close
    sim_lib sim_open sim_close set_rtt query open_required owns with_owner with_next
    with_rings p_next p_owner p_rtt p_up p_down p_endian p_core p_khz p_hz].

Ltac sim_run := repeat (progress sim_cbv || rewrite Nat.eqb_refl).

(** [connect] on a free probe succeeds: the new object [JLink()] returned,
    numbered [p_next], holds the probe with RTT running, and the channels
    are those of the target, untouched. *)
Lemma connect_sim (st : world probe) :
  p_owner (w_lib st) = None ->
  exists p' tr' out', connect st =
    (mkWorld p' (set_jlink_field (w_self st) (p_next (w_lib st))) tr' out', inr tt) /\
    p_owner p' = Some (p_next (w_lib st)) /\ p_rtt p' = true /\
    p_up p' = p_up (w_lib st) /\ p_down p' = p_down (w_lib st) /\
    p_next p' = S (p_next (w_lib st)).
Proof.
  destruct st as [[n o rtt up down en core khz hz] self tr out].
  cbn [w_lib w_self p_owner]. intros ->.
  unfold connect. sim_run. by do 3 eexists.
Qed.

(** [reconnect] on a session closes the held object and runs [connect],
    which succeeds on the freed probe. *)
Lemma reconnect_sim (st : world probe) h :
  jlink (w_self st) = Some h -> p_owner (w_lib st) = Some h ->
  exists p' tr' out', reconnect st =
    (mkWorld p' (set_jlink_field (w_self st) (p_next (w_lib st))) tr' out', inr tt) /\
    p_owner p' = Some (p_next (w_lib st)) /\ p_rtt p' = true /\
    p_up p' = p_up (w_lib st) /\ p_down p' = p_down (w_lib st).
Proof.
  intros Hh Ho. unfold reconnect, check_exception, pym_bind.
  rewrite (jcall_some _ _ _ h Hh). cbn [jl_close sim_lib]. unfold sim_close.
  rewrite owns_self by done.
  match goal with |- context [connect ?st1] =>
    destruct (connect_sim st1 eq_refl) as (p' & tr' & out' & -> & ?&?&?&?&_) end.
  by exists p', tr', out'.
Qed.

(** Replacing the channels of the probe, or extending the trace, keeps a
    session. *)
Lemma session_rings st h up down tr out :
  session st h -> session (mkWorld (with_rings (w_lib st) up down) (w_self st) tr out) h.
Proof. by intros (?&?&?). Qed.

Lemma map_mod_is_byte l : Forall Utf8.is_byte (map (fun b => b mod 256)%Z l).
Proof. apply Forall_map, Forall_forall. intros b _. unfold Utf8.is_byte. zlia. Qed.

Lemma probe_wf_up p i r : probe_wf p -> p_up p !! i = Some r -> ring_wf r.
Proof. intros [Hu _] Hr. by eapply Forall_lookup_1. Qed.

Lemma probe_wf_down p i r : probe_wf p -> p_down p !! i = Some r -> ring_wf r.
Proof. intros [_ Hd] Hr. by eapply Forall_lookup_1. Qed.

Lemma probe_wf_rings p up down :
  Forall ring_wf up -> Forall ring_wf down -> probe_wf (with_rings p up down).
Proof. by split. Qed.

(** On a session, a read of an existing channel succeeds with bytes, and
    the world is again a session with well-formed channels. *)
Lemma read_rtt_happy st h i :
  session st h -> probe_wf (w_lib st) -> i < length (p_up (w_lib st)) ->
  exists st' bs, read_rtt (Z.of_nat i) st = (st', inr bs) /\ session st' h /\
    probe_wf (w_lib st') /\ Forall Utf8.is_byte bs.
Proof.
  intros Hs Hwf Hi. destruct (lookup_lt_is_Some_2 _ _ Hi) as [u Hu].
  pose proof (probe_wf_up _ _ _ Hwf Hu) as Hwu. destruct (contents_total u Hwu) as [q Hq].
  destruct (ring_read_spec (Z.to_nat MAX_BUF_SIZE) u q Hwu Hq) as (u' & Hrd & Hwu' & _).
  rewrite (read_rtt_sim st h i u _ u' Hs Hu Hrd). eexists _, _. split; [reflexivity|].
  destruct Hs as (?&?&?), Hwf as [Hwup Hwdn]. split_and!; try done.
  - apply probe_wf_rings; [by apply Forall_insert | done].
  - apply map_mod_is_byte.
Qed.

(** On a session, a write to an existing channel returns normally, and
    the world is again a session with well-formed channels. *)
Lemma write_rtt_happy st h i d :
  session st h -> probe_wf (w_lib st) -> i < length (p_down (w_lib st)) ->
  exists st', write_rtt d (Z.of_nat i) st = (st', inr tt) /\ session st' h /\
    probe_wf (w_lib st').
Proof.
  intros Hs Hwf Hi. destruct (lookup_lt_is_Some_2 _ _ Hi) as [r Hr].
  pose proof (probe_wf_down _ _ _ Hwf Hr) as Hwr.
  destruct (ring_write_total (map (fun b => b mod 256)%Z d) r Hwr) as (k & r' & Hw & Hwr').
  rewrite (write_rtt_sim st h i d r k r' Hs Hr Hw). eexists. split; [reflexivity|].
  destruct Hs as (?&?&?), Hwf as [Hwup Hwdn]. split_and!; try done.
  apply probe_wf_rings; [done | by apply Forall_insert].
Qed.

(** Close the three goals of [call_method_happy]: a session, well-formed
    channels, and the error raised, if any, comes from the codec. *)
Ltac happy_close := split_and!; [by eexists | done | intros ? [=]; subst; exact I].

(** One valid call from a session with well-formed channels leads to such a
    session again and raises at most a codec error. *)
Lemma call_method_happy m (st : world probe) h :
  session st h -> probe_wf (w_lib st) -> valid_call m (w_lib st) ->
  (exists h', session (fst (call_method m st)) h') /\ probe_wf (w_lib (fst (call_method m st))) /\
  (forall e, snd (call_method m st) = Some e -> codec_error e).
Proof.
  intros Hs Hwf Hv. destruct m as [|n|d n|n|d n|]; cbn [valid_call] in Hv;
    cbn [call_method outcome fst snd].
  - done.
  - destruct Hv as (i & -> & Hi).
    destruct (read_rtt_happy st h i Hs Hwf Hi) as (st' & bs & -> & ? & ? & _). cbn. happy_close.
  - destruct Hv as (i & -> & Hi).
    destruct (write_rtt_happy st h i d Hs Hwf Hi) as (st' & -> & ? & ?). cbn. happy_close.
  - destruct Hv as (i & -> & Hi).
    destruct (read_rtt_happy st h i Hs Hwf Hi) as (st' & bs & Hr & ? & ? & Hb).
    unfold read_rtt_string, pym_bind. rewrite Hr.
    destruct bs as [|b bs]; [cbn; happy_close|].
    rewrite (Utf8Thms.bytes_of_list_ok _ Hb).
    destruct (Utf8.decode (b :: bs)); cbn; happy_close.
  - destruct Hv as (i & -> & Hi). unfold write_rtt_sring.
    destruct (Utf8.encode d) as [e|bs]; [cbn; happy_close|].
    destruct (write_rtt_happy st h i bs Hs Hwf Hi) as (st' & -> & ? & ?). cbn. happy_close.
  - destruct Hs as (Hh & Ho & _).
    destruct (reconnect_sim st h Hh Ho) as (p' & tr' & out' & -> & Ho' & Hr' & Hu & Hd).
    cbn. destruct Hwf as [Hwu Hwd]. split_and!.
    + exists (p_next (w_lib st)). by split_and!.
    + split; [by rewrite Hu | by rewrite Hd].
    + done.
Qed.

(** A read of a channel holding the bytes [q] returns its first
    [MAX_BUF_SIZE] bytes and leaves the rest pending, in a session. *)
Lemma read_rtt_pending st h i u q :
  session st h -> p_up (w_lib st) !! i = Some u -> ring_wf u -> contents u = Some q ->
  Forall Utf8.is_byte q ->
  exists st1 u1, read_rtt (Z.of_nat i) st = (st1, inr (take (Z.to_nat MAX_BUF_SIZE) q)) /\
    session st1 h /\ p_up (w_lib st1) !! i = Some u1 /\ ring_wf u1 /\
    contents u1 = Some (drop (Z.to_nat MAX_BUF_SIZE) q) /\ r_policy u1 = r_policy u.
Proof.
  intros Hs Hu Hwf Hq Hb.
  destruct (ring_read_spec (Z.to_nat MAX_BUF_SIZE) u q Hwf Hq) as (u1 & Hrd & Hwf1 & Hq1 & _ & Hpol1).
  pose proof (lookup_lt_Some _ _ _ Hu).
  rewrite (read_rtt_sim st h i u _ u1 Hs Hu Hrd), map_mod_bytes by (by apply Forall_take).
  eexists _, u1. split_and!; [reflexivity | by apply session_rings | | done..].
  cbn. by rewrite list_lookup_insert_eq.
Qed.

(** A target write in a schedule stores into channel [i] what the ring
    accepts and records the accepted prefix. *)
Lemma run_sched_send i d evs st u k u1 :
  p_up (w_lib st) !! i = Some u -> ring_write d u = Some (k, u1) ->
  run_sched i (TSend d :: evs) st =
    '(st', got, acc) ← run_sched i evs
       (with_lib st (with_rings (w_lib st) (<[i := u1]> (p_up (w_lib st))) (p_down (w_lib st))));
    Some (st', got, take k d :: acc).
Proof. intros Hu Hw. cbn [run_sched]. rewrite Hu. cbn -[run_sched with_rings]. by rewrite Hw. Qed.

(** The world after a target write is a session where channel [i] is the
    written ring. *)
Lemma send_session st h i u u1 :
  session st h -> p_up (w_lib st) !! i = Some u ->
  let st1 := with_lib st (with_rings (w_lib st) (<[i := u1]> (p_up (w_lib st))) (p_down (w_lib st))) in
  session st1 h /\ p_up (w_lib st1) !! i = Some u1.
Proof.
  intros Hs Hu. pose proof (lookup_lt_Some _ _ _ Hu).
  split; [by apply session_rings | cbn; by rewrite list_lookup_insert_eq].
Qed.

(** [k] polls of [read_rtt(i)] take the pending bytes of channel [i] in
    chunks of at most [MAX_BUF_SIZE], when [k] chunks suffice. *)
Lemma poll_chunks k (st : world probe) h i u q :
  session st h -> p_up (w_lib st) !! i = Some u -> ring_wf u -> contents u = Some q ->
  Forall Utf8.is_byte q -> length q <= k * 336 ->
  exists cs st', poll k (Z.of_nat i) st = (st', inr cs) /\ concat cs = q /\
    Forall (fun c => length c <= 336) cs /\ session st' h /\
    exists u', p_up (w_lib st') !! i = Some u' /\ contents u' = Some [].
Proof.
  revert st u q. induction k as [|k IH]; intros st u q Hs Hu Hwf Hq Hb Hlen.
  - destruct q; [|cbn in Hlen; lia]. exists [], st. cbn. by eauto 10.
  - destruct (ring_read_spec (Z.to_nat MAX_BUF_SIZE) u q Hwf Hq) as (u1 & Hrd & Hwf1 & Hq1 & _).
    pose proof (lookup_lt_Some _ _ _ Hu).
    destruct (IH (mkWorld (with_rings (w_lib st) (<[i := u1]> (p_up (w_lib st)))
                             (p_down (w_lib st))) (w_self st)
                          (w_trace st ++ [EvCall h (CRttRead (Z.of_nat i) MAX_BUF_SIZE)])
                          (w_out st)) u1 (drop 336 q))
      as (cs & st' & Hp & Hc & Hf & Hs' & Hu');
      [by destruct Hs as (?&?&?) | cbn; by rewrite list_lookup_insert_eq | done | done
      | by apply Forall_drop | rewrite length_drop; lia |].
    cbn [poll]. unfold pym_bind at 1. rewrite (read_rtt_sim st h i u _ u1 Hs Hu Hrd).
    rewrite map_mod_bytes by (by apply Forall_take). unfold pym_bind. rewrite Hp.
    exists (take 336 q :: cs), st'. cbn [concat]. rewrite Hc, take_drop.
    split_and!; try done. constructor; [rewrite length_take; lia | done].
Qed.


End ScenarioFacts.

Module ScenarioThms.
Import Harness ScenarioFacts.

(** C23: loopback through the string helpers (spec section 8): on a
    running session whose channel [i] is empty, [write_rtt_sring(s, i)]
    followed by the target echoing channel [i] and [read_rtt_string(i)]
    returns [s], when the UTF-8 encoding of [s] fits in both buffers and in
    one [rtt_read] of [MAX_BUF_SIZE] bytes. *)
Theorem loopback_string (st : world probe) h i u d s bs :
  session st h ->
  p_up (w_lib st) !! i = Some u -> p_down (w_lib st) !! i = Some d ->
  ring_wf u -> ring_wf d -> contents u = Some [] -> contents d = Some [] ->
  Forall Utf8.py_char s -> Utf8.encode s = inr bs ->
  length bs < r_size u -> length bs < r_size d -> (Z.of_nat (length bs) <= MAX_BUF_SIZE)%Z ->
  exists p2, target_echo i (w_lib (fst (write_rtt_sring s (Z.of_nat i) st))) = Some p2 /\
    snd (read_rtt_string (Z.of_nat i) (with_lib (fst (write_rtt_sring s (Z.of_nat i) st)) p2))
      = inr s.
Proof.
  intros Hs Hu Hd Hwu Hwd Hqu Hqd Hpy He Hlu Hld Hmax.
  destruct (Utf8Thms.encode_from_bounds s 0 bs Hpy He) as [Hb _].
  destruct (ring_write_fits bs d [] Hwd Hqd ltac:(cbn; lia)) as (d1 & Hw1 & Hwd1 & Hqd1 & Hsd1).
  destruct (ring_read_spec (r_size d1) d1 bs Hwd1 Hqd1) as (d2 & Hrd2 & _).
  destruct (ring_write_fits bs u [] Hwu Hqu ltac:(cbn; lia)) as (u1 & Hwu1 & Hwu1' & Hqu1 & _).
  destruct (ring_read_spec (Z.to_nat MAX_BUF_SIZE) u1 bs Hwu1' Hqu1) as (u2 & Hrd3 & _).
  rewrite take_ge in Hrd2, Hrd3 by (unfold MAX_BUF_SIZE in *; lia).
  pose proof (lookup_lt_Some _ _ _ Hu). pose proof (lookup_lt_Some _ _ _ Hd).
  unfold write_rtt_sring. rewrite He.
  rewrite (write_rtt_sim st h i bs d (length bs) d1 Hs Hd) by (by rewrite map_mod_bytes).
  cbn [fst w_lib]. set (p1 := with_rings _ _ _).
  exists (with_rings p1 (<[i := u1]> (p_up p1)) (<[i := d2]> (p_down p1))). split.
  - unfold target_echo. cbn [p1 with_rings p_down p_up].
    rewrite list_lookup_insert_eq, Hu by done. cbn. rewrite Hrd2. cbn. by rewrite Hwu1.
  - destruct Hs as (Hh & Ho & Hrtt).
    unfold read_rtt_string, pym_bind.
    rewrite (read_rtt_sim _ h i u1 bs u2); cbn; try done.
    2: { cbn [p1 with_rings p_up]. by rewrite list_lookup_insert_eq by done. }
    rewrite map_mod_bytes by done.
    pose proof (Utf8Thms.encode_from_decode s 0 0 bs Hpy He) as Hdec.
    destruct bs as [|b bs]; [by injection Hdec as <-|].
    rewrite (Utf8Thms.bytes_of_list_ok _ Hb). unfold Utf8.decode. by rewrite Hdec.
Qed.

(** C24: a short write is reported as success, where the spec (section 8)
    asks for a short count and [BufferFull]: on a running session whose
    down channel [i] is blocking and has fewer free bytes than [data],
    [write_rtt(data, i)] returns normally, the channel receives only the
    bytes that fit, and the others are lost. *)
Theorem short_write_unreported (st : world probe) h i d q data :
  session st h -> p_down (w_lib st) !! i = Some d ->
  ring_wf d -> r_policy d = Blocking -> contents d = Some q ->
  Forall Utf8.is_byte data -> r_size d - 1 - length q < length data ->
  snd (write_rtt data (Z.of_nat i) st) = inr tt /\
  exists d', p_down (w_lib (fst (write_rtt data (Z.of_nat i) st))) !! i = Some d' /\
    contents d' = Some (q ++ take (r_size d - 1 - length q) data) /\
    drop (r_size d - 1 - length q) data <> [].
Proof.
  intros Hs Hd Hwf Hp Hq Hb Hlt.
  destruct (ring_write_blocking_spec data d q Hwf Hp Hq) as (d' & Hw & _ & Hq' & _).
  rewrite <- (map_mod_bytes data) in Hw at 1 by done.
  rewrite (write_rtt_sim st h i data d _ d' Hs Hd Hw). split; [done|].
  exists d'. cbn. split_and!; [| done |].
  - apply list_lookup_insert_eq. eapply lookup_lt_Some, Hd.
  - intros Hnil. apply (f_equal length) in Hnil. rewrite length_drop in Hnil. cbn in Hnil. lia.
Qed.

(** C25: [reconnect] does not discard what the target had already sent:
    when up channel [i] holds the bytes [q] before [reconnect], the first
    [read_rtt(i)] after it, on the new [JLink] object, returns [q] (the
    spec, section 8, requires that a read after [reconnect] never return
    data buffered before it). *)
Theorem reconnect_keeps_pending (st : world probe) h i u q :
  jlink (w_self st) = Some h -> p_owner (w_lib st) = Some h -> h < p_next (w_lib st) ->
  p_up (w_lib st) !! i = Some u -> ring_wf u -> contents u = Some q ->
  Forall Utf8.is_byte q -> length q <= 336 ->
  snd (reconnect st) = inr tt /\
  exists h', jlink (w_self (fst (reconnect st))) = Some h' /\ h' <> h /\
    snd (read_rtt (Z.of_nat i) (fst (reconnect st))) = inr q.
Proof.
  intros Hh Ho Hlt Hu Hwf Hq Hb Hlen.
  destruct (reconnect_sim st h Hh Ho) as (p' & tr' & out' & -> & Ho' & Hr' & Hup & _).
  split; [done|]. exists (p_next (w_lib st)). split_and!; [done | lia |].
  destruct (ring_read_spec (Z.to_nat MAX_BUF_SIZE) u q Hwf Hq) as (u' & Hrd & _).
  rewrite take_ge in Hrd by (unfold MAX_BUF_SIZE; lia).
  rewrite (read_rtt_sim _ (p_next (w_lib st)) i u q u'); cbn.
  - by rewrite map_mod_bytes.
  - done.
  - by rewrite Hup.
  - done.
Qed.

(** C27: polling drains a channel: on a running session whose up channel
    [i] holds the bytes [q], [k] successive [read_rtt(i)] calls with
    [k * MAX_BUF_SIZE >= length q] all succeed, return chunks of at most
    [MAX_BUF_SIZE] bytes whose concatenation is [q], and leave the channel
    empty. *)
Theorem poll_drains k (st : world probe) h i u q :
  session st h -> p_up (w_lib st) !! i = Some u -> ring_wf u -> contents u = Some q ->
  Forall Utf8.is_byte q -> length q <= k * 336 ->
  exists cs st', poll k (Z.of_nat i) st = (st', inr cs) /\ concat cs = q /\
    Forall (fun c => length c <= 336) cs /\ session st' h /\
    exists u', p_up (w_lib st') !! i = Some u' /\ contents u' = Some [].
Proof. apply poll_chunks. Qed.

(** C28: an overwrite up channel keeps the latest bytes, at most
    [size - 1] of them (spec sections 3 and 8).  On a running session
    whose overwrite up channel [i] of [N] slots holds [q], after the
    target writes [d], [k] polls of [read_rtt(i)] with [N - 1 <= k * 336]
    succeed and return, in order, exactly the last [N - 1] bytes of
    [q ++ d] (all of them when they fit): for the spec's example, 1023
    of 1100 bytes from a 1024-byte channel, not 1024. *)
Theorem overwrite_poll_latest k (st : world probe) h i u q d :
  session st h -> p_up (w_lib st) !! i = Some u -> ring_wf u -> r_policy u = Overwrite ->
  contents u = Some q -> Forall Utf8.is_byte (q ++ d) -> r_size u - 1 <= k * 336 ->
  exists p cs st', target_send i d (w_lib st) = Some p /\
    poll k (Z.of_nat i) (with_lib st p) = (st', inr cs) /\
    concat cs = lastn (r_size u - 1) (q ++ d).
Proof.
  intros Hs Hu Hwf Hp Hq Hb Hk.
  destruct (ring_write_overwrite_spec d u q Hwf Hp Hq) as (u' & Hw & Hwf' & Hq' & Hsz & _).
  unfold target_send. rewrite Hu. cbn. rewrite Hw. cbn.
  pose proof (lookup_lt_Some _ _ _ Hu).
  set (st1 := with_lib st (with_rings (w_lib st) (<[i := u']> (p_up (w_lib st))) (p_down (w_lib st)))).
  assert (Hs1 : session st1 h) by (destruct Hs as (? & ? & ?); split_and!; done).
  assert (Hu1 : p_up (w_lib st1) !! i = Some u') by (cbn; by rewrite list_lookup_insert_eq).
  assert (Hb1 : Forall Utf8.is_byte (lastn (r_size u - 1) (q ++ d))) by (unfold lastn; by apply Forall_drop).
  assert (Hl1 : length (lastn (r_size u - 1) (q ++ d)) <= k * 336) by (unfold lastn; rewrite length_drop; lia).
  destruct (poll_chunks k st1 h i u' _ Hs1 Hu1 Hwf' Hq' Hb1 Hl1) as (cs & st' & Hpoll & Hc & _).
  by exists (with_rings (w_lib st) (<[i := u']> (p_up (w_lib st))) (p_down (w_lib st))), cs, st'.
Qed.

(** C29: what [connect] prints (lines 46-50): on a free probe it succeeds
    after the whole call protocol and appends exactly five lines to the
    console, an empty line, the chip name, the interface speed in kHz, the
    endianness decoded from [EndianMode] with the core name, and the CPU
    clock in MHz with three decimals. *)
Theorem connect_output (st : world probe) :
  p_owner (w_lib st) = None ->
  snd (connect st) = inr tt /\
  w_trace (fst (connect st)) =
    w_trace st ++ connect_events (p_next (w_lib st)) (chip_name (w_self st)) (speed (w_self st)) /\
  w_out (fst (connect st)) = w_out st ++
    [""; "Connected to: " +:+ chip_name (w_self st);
     "RTT RX buffers at " +:+ pretty (p_khz (w_lib st)) +:+ " kHz";
     "connected to " +:+ PyFormat.endian_name (PyFormat.int_from_bytes_big (p_endian (w_lib st)))
       +:+ "-Endian " +:+ p_core (w_lib st);
     "running at " +:+ PyFormat.format_mhz (p_hz (w_lib st)) +:+ " MHz"].
Proof.
  destruct st as [[n o rtt up down en core khz hz] self tr out].
  cbn [w_lib w_self w_trace w_out p_owner p_next p_khz p_endian p_core p_hz]. intros ->.
  unfold connect. sim_run. cbn [fst snd w_trace w_out].
  by rewrite <- !app_assoc.
Qed.

(** C32: on the happy path (one [connect] on a free probe with well-formed
    channels, then any calls of the other methods naming existing channels)
    the dongle stays connected: [self.jlink] holds the probe with RTT
    running, and every further valid call either returns or raises a codec
    error ([UnicodeDecodeError], [UnicodeEncodeError]), never a probe
    error. *)
Theorem happy_path_connected (st : world probe) :
  happy st ->
  (exists h, session st h) /\
  forall m e, valid_call m (w_lib st) -> snd (call_method m st) = Some e -> codec_error e.
Proof.
  intros Hst.
  assert (Hinv : (exists h, session st h) /\ probe_wf (w_lib st)).
  { induction Hst as [st Ho [Hwu Hwd] | m st _ [[h Hs] Hwf] Hv].
    - destruct (connect_sim st Ho) as (p' & tr' & out' & -> & Ho' & Hr' & Hu & Hd & _).
      cbn. split; [exists (p_next (w_lib st)); by split_and! | split; congruence].
    - by destruct (call_method_happy m st h Hs Hwf Hv) as (? & ? & _). }
  destruct Hinv as [[h Hs] Hwf]. split; [by exists h|].
  intros m e Hv. by apply (call_method_happy m st h Hs Hwf Hv).
Qed.

(** C34: the caller's read loop terminates: on a running session whose up
    channel [i] holds [q], the loop [while data := read_rtt(i)] run with
    [fuel] iterations, [length q + 336 <= fuel * 336] (one read per
    [MAX_BUF_SIZE] bytes, plus the final empty read), returns exactly [q]
    and leaves the channel empty. *)
Theorem drain_terminates fuel (st : world probe) h i u q :
  session st h -> p_up (w_lib st) !! i = Some u -> ring_wf u -> contents u = Some q ->
  Forall Utf8.is_byte q -> length q + 336 <= fuel * 336 ->
  exists st', drain fuel (Z.of_nat i) st = (st', inr (Some q)) /\ session st' h /\
    exists u', p_up (w_lib st') !! i = Some u' /\ contents u' = Some [].
Proof.
  revert st u q. induction fuel as [|f IH]; intros st u q Hs Hu Hwf Hq Hb Hlen; [lia|].
  destruct (read_rtt_pending st h i u q Hs Hu Hwf Hq Hb) as (st1 & u1 & Hr & Hs1 & Hu1 & Hwf1 & Hq1 & _).
  replace (Z.to_nat MAX_BUF_SIZE) with 336 in Hr, Hq1 by reflexivity.
  cbn [drain]. unfold pym_bind at 1. rewrite Hr.
  destruct q as [|b q']; [eexists; split_and!; [reflexivity | done | by exists u1]|].
  destruct (IH st1 u1 _ Hs1 Hu1 Hwf1 Hq1 ltac:(by apply Forall_drop)
              ltac:(rewrite length_drop; cbn in Hlen |- *; lia)) as (st' & Hd & Hs' & Hu').
  destruct (take 336 (b :: q')) as [|c cs] eqn:Ht; [by cbn in Ht|].
  unfold pym_bind. rewrite Hd. eexists. split_and!; [| done | done].
  cbn. unfold pym_ret. do 3 f_equal. rewrite <- (take_drop 336 (b :: q')), Ht. reflexivity.
Qed.

(** C35: the caller's polls and the target's writes may interleave in any
    order on a blocking up channel [i] of a running session: every poll
    returns normally, and the bytes the caller read, followed by what is
    still pending, are the bytes that were pending at the start followed by
    every byte the channel accepted from the target, in order. No byte is
    lost, duplicated or reordered on the way from the channel to the
    caller. *)
Theorem interleaving_in_order i evs (st : world probe) h u q :
  session st h -> p_up (w_lib st) !! i = Some u -> ring_wf u -> r_policy u = Blocking ->
  contents u = Some q -> Forall Utf8.is_byte q -> Forall (Forall Utf8.is_byte) (sent evs) ->
  exists st' got acc u' q', run_sched i evs st = Some (st', got, acc) /\ session st' h /\
    p_up (w_lib st') !! i = Some u' /\ contents u' = Some q' /\
    concat got ++ q' = q ++ concat acc.
Proof.
  revert st u q. induction evs as [|[d|] evs IH]; intros st u q Hs Hu Hwf Hpol Hq Hb Hsent.
  - exists st, [], [], u, q. by rewrite app_nil_r.
  - apply Forall_cons in Hsent as [Hd Hsent].
    destruct (ring_write_blocking_spec d u q Hwf Hpol Hq) as (u1 & Hw & Hwf1 & Hq1 & _ & Hpol1).
    destruct (send_session st h i u u1 Hs Hu) as [Hs1 Hu1].
    destruct (IH _ u1 _ Hs1 Hu1 Hwf1 Hpol1 Hq1 ltac:(apply Forall_app; auto using Forall_take) Hsent)
      as (st' & got & acc & u' & q' & Hrun & Hs' & Hu' & Hq' & Heq).
    rewrite (run_sched_send i d evs st u _ u1 Hu Hw), Hrun.
    eexists _, _, _, u', q'. split_and!; [reflexivity | done.. |].
    cbn [concat foldr]. by rewrite take_min_length, Heq, app_assoc.
  - destruct (read_rtt_pending st h i u q Hs Hu Hwf Hq Hb)
      as (st1 & u1 & Hr & Hs1 & Hu1 & Hwf1 & Hq1 & Hpol1).
    destruct (IH st1 u1 _ Hs1 Hu1 Hwf1 ltac:(by rewrite Hpol1) Hq1 ltac:(by apply Forall_drop) Hsent)
      as (st' & got & acc & u' & q' & Hrun & Hs' & Hu' & Hq' & Heq).
    cbn [run_sched]. rewrite Hr, Hrun.
    eexists _, _, _, u', q'. split_and!; [reflexivity | done.. |].
    cbn [concat foldr]. by rewrite <- app_assoc, Heq, app_assoc, take_drop.
Qed.

(** C36: whatever the policy of up channel [i], in any interleaving of the
    target's writes and the caller's polls [read_rtt(i)] on a running
    session, every poll returns normally and the bytes the caller read,
    followed by what is still pending, form a subsequence of the bytes
    pending at the start followed by everything the target sent: bytes may
    be refused (blocking) or overwritten (overwrite), but the caller never
    receives a byte twice, out of order, or one the target did not send. *)
Theorem interleaving_subsequence i evs (st : world probe) h u q :
  session st h -> p_up (w_lib st) !! i = Some u -> ring_wf u ->
  contents u = Some q -> Forall Utf8.is_byte q -> Forall (Forall Utf8.is_byte) (sent evs) ->
  exists st' got acc u' q', run_sched i evs st = Some (st', got, acc) /\ session st' h /\
    p_up (w_lib st') !! i = Some u' /\ contents u' = Some q' /\
    (concat got ++ q') `sublist_of` (q ++ concat (sent evs)).
Proof.
  revert st u q. induction evs as [|[d|] evs IH]; intros st u q Hs Hu Hwf Hq Hb Hsent.
  - exists st, [], [], u, q. cbn. by rewrite app_nil_r.
  - apply Forall_cons in Hsent as [Hd Hsent].
    destruct (ring_write_sublist d u q Hwf Hq) as (k & u1 & q1 & Hw & Hwf1 & Hq1 & Hsub & _).
    destruct (send_session st h i u u1 Hs Hu) as [Hs1 Hu1].
    destruct (IH _ u1 q1 Hs1 Hu1 Hwf1 Hq1 (Forall_sublist_of _ _ _ Hsub (Forall_app_2 _ _ _ Hb Hd))
                Hsent) as (st' & got & acc & u' & q' & Hrun & Hs' & Hu' & Hq' & Hs2).
    rewrite (run_sched_send i d evs st u _ u1 Hu Hw), Hrun.
    eexists _, _, _, u', q'. split_and!; [reflexivity | done.. |].
    cbn [sent concat foldr]. etrans; [exact Hs2|]. rewrite app_assoc. by apply sublist_app.
  - destruct (read_rtt_pending st h i u q Hs Hu Hwf Hq Hb)
      as (st1 & u1 & Hr & Hs1 & Hu1 & Hwf1 & Hq1 & _).
    destruct (IH st1 u1 _ Hs1 Hu1 Hwf1 Hq1 ltac:(by apply Forall_drop) Hsent)
      as (st' & got & acc & u' & q' & Hrun & Hs' & Hu' & Hq' & Hs2).
    cbn [run_sched]. rewrite Hr, Hrun.
    eexists _, _, _, u', q'. split_and!; [reflexivity | done.. |].
    cbn [sent concat foldr]. rewrite <- app_assoc.
    etrans; [apply (sublist_app _ _ _ _ (reflexivity _) Hs2)|]. by rewrite app_assoc, take_drop.
Qed.

End ScenarioThms.

(** ** Witnesses: the scenarios on concrete probes *)
Module ScenarioWitness.
Import Harness ScenarioFacts ScenarioThms RingThms.

(** "éA" travels down and back up channel 0. *)
Lemma loopback_string_witness :
  exists p2, target_echo 0
      (w_lib (fst (write_rtt_sring [0xE9; 0x41]%Z (Z.of_nat 0)
                     (session_world [empty_ring 16 Blocking] [empty_ring 16 Blocking])))) =
      Some p2 /\
    snd (read_rtt_string (Z.of_nat 0)
           (with_lib (fst (write_rtt_sring [0xE9; 0x41]%Z (Z.of_nat 0)
                             (session_world [empty_ring 16 Blocking] [empty_ring 16 Blocking])))
                     p2)) = inr [0xE9; 0x41]%Z.
Proof.
  pose proof (loopback_string (session_world [empty_ring 16 Blocking] [empty_ring 16 Blocking])
                7 0 (empty_ring 16 Blocking) (empty_ring 16 Blocking)
                [0xE9; 0x41]%Z [0xC3; 0xA9; 0x41]%Z
                ltac:(repeat split) eq_refl eq_refl
                ltac:(auto with rtt) ltac:(auto with rtt)
                eq_refl eq_refl
                ltac:(auto 20 with rtt) eq_refl
                ltac:(cbn; lia) ltac:(cbn; lia) ltac:(unfold MAX_BUF_SIZE; cbn; lia)) as H.
  exact H.
Defined.

(** Five bytes offered to a four-byte blocking channel: three are kept. *)
Lemma short_write_unreported_witness :
  snd (write_rtt [1; 2; 3; 4; 5]%Z (Z.of_nat 0)
         (session_world [] [empty_ring 4 Blocking])) = inr tt /\
  exists d', p_down (w_lib (fst (write_rtt [1; 2; 3; 4; 5]%Z (Z.of_nat 0)
                                  (session_world [] [empty_ring 4 Blocking])))) !! 0 = Some d' /\
    contents d' = Some ([] ++ take (r_size (empty_ring 4 Blocking) - 1 - length (@nil Z))
                                    [1; 2; 3; 4; 5]%Z) /\
    drop (r_size (empty_ring 4 Blocking) - 1 - length (@nil Z)) [1; 2; 3; 4; 5]%Z <> [].
Proof.
  pose proof (short_write_unreported (session_world [] [empty_ring 4 Blocking]) 7 0
                (empty_ring 4 Blocking) [] [1; 2; 3; 4; 5]%Z
                ltac:(repeat split) eq_refl ltac:(auto with rtt) eq_refl eq_refl
                ltac:(auto 20 with rtt) ltac:(cbn; lia)) as H.
  exact H.
Defined.

(** Two bytes pending on a wrapped channel survive [reconnect]. *)
Lemma reconnect_keeps_pending_witness :
  snd (reconnect (session_world [sample_ring Blocking] [])) = inr tt /\
  exists h', jlink (w_self (fst (reconnect (session_world [sample_ring Blocking] [])))) = Some h' /\
    h' <> 7 /\
    snd (read_rtt (Z.of_nat 0) (fst (reconnect (session_world [sample_ring Blocking] []))))
      = inr [13; 10]%Z.
Proof.
  pose proof (reconnect_keeps_pending (session_world [sample_ring Blocking] []) 7 0
                (sample_ring Blocking) [13; 10]%Z eq_refl eq_refl ltac:(cbn; lia) eq_refl
                (sample_ring_wf Blocking) eq_refl
                ltac:(auto 20 with rtt) ltac:(cbn; lia)) as H.
  exact H.
Defined.

(** One poll drains the two bytes of a wrapped channel. *)
Lemma poll_drains_witness :
  exists cs st', poll 1 (Z.of_nat 0) (session_world [sample_ring Blocking] []) = (st', inr cs) /\ concat cs = [13; 10]%Z /\
    Forall (fun c => length c <= 336) cs /\ session st' 7 /\
    exists u', p_up (w_lib st') !! 0 = Some u' /\ contents u' = Some [].
Proof.
  pose proof (poll_drains 1 (session_world [sample_ring Blocking] []) 7 0 (sample_ring Blocking) [13; 10]%Z
                ltac:(repeat split) eq_refl (sample_ring_wf Blocking) eq_refl
                ltac:(auto 20 with rtt) ltac:(cbn; lia)) as H.
  exact H.
Defined.

(** The example of spec section 8: 1100 bytes written by the target into
    an empty 1024-byte overwrite up channel, then four polls. *)
Definition spec_example_data : list Z := map (fun i => Z.of_nat i mod 256)%Z (seq 0 1100).

Lemma overwrite_poll_latest_witness :
  session (session_world [empty_ring 1024 Overwrite] []) 7 /\
  p_up (w_lib (session_world [empty_ring 1024 Overwrite] [])) !! 0 = Some (empty_ring 1024 Overwrite) /\
  ring_wf (empty_ring 1024 Overwrite) /\ r_policy (empty_ring 1024 Overwrite) = Overwrite /\
  contents (empty_ring 1024 Overwrite) = Some [] /\ Forall Utf8.is_byte ([] ++ spec_example_data) /\
  r_size (empty_ring 1024 Overwrite) - 1 <= 4 * 336 /\
  exists p cs st', target_send 0 spec_example_data (w_lib (session_world [empty_ring 1024 Overwrite] [])) = Some p /\
    poll 4 (Z.of_nat 0) (with_lib (session_world [empty_ring 1024 Overwrite] []) p) = (st', inr cs) /\
    concat cs = lastn (r_size (empty_ring 1024 Overwrite) - 1) ([] ++ spec_example_data).
Proof.
  assert (Hs : session (session_world [empty_ring 1024 Overwrite] []) 7) by (split_and!; reflexivity).
  assert (Hwf : ring_wf (empty_ring 1024 Overwrite))
    by (unfold ring_wf, empty_ring; cbn [r_size r_buf r_rd r_wr]; rewrite length_replicate; lia).
  assert (Hq : contents (empty_ring 1024 Overwrite) = Some []) by (apply contents_empty; reflexivity).
  assert (Hb : Forall Utf8.is_byte ([] ++ spec_example_data)).
  { apply Forall_app; split; [constructor|]. unfold spec_example_data.
    apply Forall_map, Forall_forall. intros n _. unfold Utf8.is_byte. zlia. }
  assert (Hk : r_size (empty_ring 1024 Overwrite) - 1 <= 4 * 336) by (cbn; lia).
  pose proof (overwrite_poll_latest 4 (session_world [empty_ring 1024 Overwrite] []) 7 0
                (empty_ring 1024 Overwrite) [] spec_example_data Hs eq_refl Hwf eq_refl Hq Hb Hk) as H.
  split_and!; [exact Hs | reflexivity | exact Hwf | reflexivity | exact Hq | exact Hb | exact Hk | exact H].
Defined.

(** Evaluated: the polls return the last 1023 bytes, the first 77 are
    lost. *)
Example spec_example_through_dongle :
  (target_send 0 spec_example_data (held_probe [empty_ring 1024 Overwrite] []) ≫= fun p =>
     match snd (poll 4 (Z.of_nat 0) (mkWorld p (set_jlink_field JLinkDongle_init 7) [] [])) with
     | inr cs => Some (concat cs)
     | inl _ => None
     end) = Some (drop 77 spec_example_data).
Proof. vm_compute. reflexivity. Qed.

(** The console of a fresh dongle on the free probe. *)
Lemma connect_output_witness :
  snd (connect (mkWorld free_probe JLinkDongle_init [] [])) = inr tt /\
  w_trace (fst (connect (mkWorld free_probe JLinkDongle_init [] []))) =
    [] ++ connect_events (p_next free_probe) (chip_name JLinkDongle_init)
                         (speed JLinkDongle_init) /\
  w_out (fst (connect (mkWorld free_probe JLinkDongle_init [] []))) = [] ++
    [""; "Connected to: " +:+ chip_name JLinkDongle_init;
     "RTT RX buffers at " +:+ pretty (p_khz free_probe) +:+ " kHz";
     "connected to " +:+ PyFormat.endian_name (PyFormat.int_from_bytes_big (p_endian free_probe))
       +:+ "-Endian " +:+ p_core free_probe;
     "running at " +:+ PyFormat.format_mhz (p_hz free_probe) +:+ " MHz"].
Proof.
  pose proof (connect_output (mkWorld free_probe JLinkDongle_init [] []) eq_refl) as H.
  exact H.
Defined.

(** The five lines, evaluated. *)
Example connect_output_free_probe :
  w_out (fst (connect (mkWorld free_probe JLinkDongle_init [] []))) =
    [""; "Connected to: STM32F407VE"; "RTT RX buffers at 4000 kHz";
     "connected to Little-Endian Cortex-M4"; "running at 168.000 MHz"].
Proof. vm_compute. reflexivity. Qed.

(** After [connect] on the free probe the dongle is on the happy path. *)
Lemma happy_path_connected_witness :
  (exists h, session (fst (connect (mkWorld free_probe JLinkDongle_init [] []))) h) /\
  forall m e, valid_call m (w_lib (fst (connect (mkWorld free_probe JLinkDongle_init [] [])))) -> snd (call_method m (fst (connect (mkWorld free_probe JLinkDongle_init [] [])))) = Some e -> codec_error e.
Proof.
  pose proof (happy_path_connected _
                (happy_connect (mkWorld free_probe JLinkDongle_init [] []) eq_refl
                   ltac:(split; cbn; auto with rtt))) as H.
  exact H.
Defined.

(** Two pending bytes: two iterations, one read and the final empty one. *)
Lemma drain_terminates_witness :
  exists st', drain 2 (Z.of_nat 0) (session_world [sample_ring Blocking] []) = (st', inr (Some [13; 10]%Z)) /\ session st' 7 /\
    exists u', p_up (w_lib st') !! 0 = Some u' /\ contents u' = Some [].
Proof.
  pose proof (drain_terminates 2 (session_world [sample_ring Blocking] []) 7 0 (sample_ring Blocking) [13; 10]%Z
                ltac:(repeat split) eq_refl (sample_ring_wf Blocking) eq_refl
                ltac:(auto 20 with rtt) ltac:(cbn; lia)) as H.
  exact H.
Defined.

(** The target sends "A" while "\r\n" is pending, the caller polls, the
    target sends "BC" and the caller polls again. *)
Lemma interleaving_in_order_witness :
  exists st' got acc u' q',
    run_sched 0 [TSend [65]; HPoll; TSend [66; 67]; HPoll]%Z
      (session_world [sample_ring Blocking] []) = Some (st', got, acc) /\ session st' 7 /\
    p_up (w_lib st') !! 0 = Some u' /\ contents u' = Some q' /\
    concat got ++ q' = [13; 10]%Z ++ concat acc.
Proof.
  pose proof (interleaving_in_order 0 [TSend [65]; HPoll; TSend [66; 67]; HPoll]%Z
                (session_world [sample_ring Blocking] []) 7 (sample_ring Blocking) [13; 10]%Z
                ltac:(repeat split) eq_refl (sample_ring_wf Blocking) eq_refl eq_refl
                ltac:(auto 20 with rtt) ltac:(cbn; auto 20 with rtt)) as H.
  exact H.
Defined.

(** On that schedule the caller reads "\r\nA" and then "BC". *)
Example interleaving_in_order_reads :
  option_map (fun r => snd (fst r))
    (run_sched 0 [TSend [65]; HPoll; TSend [66; 67]; HPoll]%Z
       (session_world [sample_ring Blocking] [])) = Some [[13; 10; 65]; [66; 67]]%Z.
Proof. vm_compute. reflexivity. Qed.

(** On an overwrite channel holding "\r\n" the target sends "ABC", which
    overwrites the older bytes; the caller then polls. *)
Lemma interleaving_subsequence_witness :
  exists st' got acc u' q',
    run_sched 0 [TSend [65; 66; 67]; HPoll]%Z (session_world [sample_ring Overwrite] []) =
      Some (st', got, acc) /\ session st' 7 /\
    p_up (w_lib st') !! 0 = Some u' /\ contents u' = Some q' /\
    (concat got ++ q') `sublist_of` ([13; 10]%Z ++ concat (sent [TSend [65; 66; 67]; HPoll]%Z)).
Proof.
  pose proof (interleaving_subsequence 0 [TSend [65; 66; 67]; HPoll]%Z
                (session_world [sample_ring Overwrite] []) 7 (sample_ring Overwrite) [13; 10]%Z
                ltac:(repeat split) eq_refl (sample_ring_wf Overwrite) eq_refl
                ltac:(auto 20 with rtt) ltac:(cbn; auto 20 with rtt)) as H.
  exact H.
Defined.

(** On that schedule the caller reads "ABC" only: the pending "\r\n" was
    overwritten. *)
Example interleaving_subsequence_reads :
  option_map (fun r => snd (fst r))
    (run_sched 0 [TSend [65; 66; 67]; HPoll]%Z (session_world [sample_ring Overwrite] [])) =
    Some [[65; 66; 67]]%Z.
Proof. vm_compute. reflexivity. Qed.

End ScenarioWitness.
