(* ===== verification/LibInvariant.v ===== *)
(** * Invariants of the probe kept across the dongle

    [JLinkDongle] reaches the probe only through pylink: every state change
    its methods make to the library state is made by one library call.  So
    any property of the library state that every pylink operation keeps is
    kept by every public method, whatever it returns or raises.  Section
    [Keeps] proves this once against the [JLinkLib] interface: the class
    [LibKeeps I] is what the library promises, [call_method_keeps] is what
    the dongle gets from it.  Module [SimKeeps] discharges the promise for
    the simulated probe with [I] the well-formedness of every RTT channel,
    and [BoundsThms] concludes that in every run of the system (method
    calls of the dongle interleaved with the target firmware) the read and
    write offsets of every channel stay inside its buffer.  Section
    [Simulation] proves the same way that two libraries whose operations
    agree from related states ([LibSim R]) give every program of public
    methods the same results ([run_methods_sim]). *)

From S2P Require Import Prelude Utf8 JLinkApi RttSim Dongle Scenarios.

Import JLinkApi Dongle DongleFacts Ring RingFacts Probe Harness ScenarioFacts.

Open Scope nat_scope.

Module LibInvariant.

Section Keeps.
Context {W : Type} `{!JLinkLib W}.
Variable I : W -> Prop.

(** A library operation keeps [I], whatever it returns or raises. *)
Definition op_keeps {A} (op : PyM W pyexc A) : Prop := forall w, I w -> I (fst (op w)).

(** What the library promises: every pylink operation keeps [I]. *)
Class LibKeeps := {
  keeps_new : op_keeps jl_new;
  keeps_disable_dialog_boxes h : op_keeps (jl_disable_dialog_boxes h);
  keeps_open h : op_keeps (jl_open h);
  keeps_rtt_stop h : op_keeps (jl_rtt_stop h);
  keeps_set_tif h i : op_keeps (jl_set_tif h i);
  keeps_connect h c s v : op_keeps (jl_connect h c s v);
  keeps_rtt_start h : op_keeps (jl_rtt_start h);
  keeps_endian_mode h : op_keeps (jl_endian_mode h);
  keeps_speed h : op_keeps (jl_speed h);
  keeps_core_name h : op_keeps (jl_core_name h);
  keeps_cpu_speed h : op_keeps (jl_cpu_speed h);
  keeps_rtt_read h i n : op_keeps (jl_rtt_read h i n);
  keeps_rtt_write h i d : op_keeps (jl_rtt_write h i d);
  keeps_close h : op_keeps (jl_close h)
}.

(** A step of the dongle keeps [I] of the library state. *)
Definition keeps {A} (m : PyM (world W) pyexc A) : Prop :=
  forall st, I (w_lib st) -> I (w_lib (fst (m st))).

Lemma keeps_bind {A B} (m : PyM (world W) pyexc A) (k : A -> PyM (world W) pyexc B) :
  keeps m -> (forall a, keeps (k a)) -> keeps (pym_bind m k).
Proof.
  intros Hm Hk st Hst. unfold pym_bind. specialize (Hm st Hst).
  destruct (m st) as [s [e|a]]; [exact Hm | exact (Hk a s Hm)].
Qed.

Lemma keeps_local {A} (m : PyM (world W) pyexc A) :
  (forall st, w_lib (fst (m st)) = w_lib st) -> keeps m.
Proof. intros Hm st. by rewrite Hm. Qed.

Lemma keeps_check_exception {A} f (m : PyM (world W) pyexc A) :
  keeps m -> keeps (check_exception f m).
Proof.
  intros Hm st Hst. specialize (Hm st Hst). unfold check_exception.
  destruct (m st) as [s [[]|]]; try case_bool_decide; exact Hm.
Qed.

Lemma keeps_jcall {A} c (op : handle -> PyM W pyexc A) :
  (forall h, op_keeps (op h)) -> keeps (jcall c op).
Proof.
  intros Hop st Hst. destruct (jlink (w_self st)) as [h|] eqn:Hh.
  - rewrite (jcall_some _ _ _ h Hh). specialize (Hop h _ Hst).
    by destruct (op h (w_lib st)).
  - by rewrite jcall_none.
Qed.

Context `{!LibKeeps}.

Lemma keeps_new_set {A} (k : PyM (world W) pyexc A) :
  keeps k -> keeps (h <- lib_new;; set_jlink h;;; k)%pym.
Proof.
  intros Hk st Hst. pose proof (keeps_new _ Hst) as Hn. unfold pym_bind, lib_new.
  destruct (jl_new (w_lib st)) as [w' [e|h]]; [exact Hn | by apply Hk].
Qed.

(** Decompose a method into the steps above. *)
Ltac keep :=
  repeat first
    [ progress cbv zeta
    | apply keeps_new_set
    | apply keeps_check_exception
    | apply keeps_jcall; intros ?; first [apply keeps_disable_dialog_boxes | apply keeps_open
        | apply keeps_rtt_stop | apply keeps_set_tif | apply keeps_connect
        | apply keeps_rtt_start | apply keeps_endian_mode | apply keeps_speed
        | apply keeps_core_name | apply keeps_cpu_speed | apply keeps_rtt_read
        | apply keeps_rtt_write | apply keeps_close]
    | apply keeps_bind; [|intros ?]
    | apply keeps_local; reflexivity
    | progress case_match ].

(** Every public method keeps [I], whether it returns or raises. *)
Lemma call_method_keeps m (st : world W) :
  I (w_lib st) -> I (w_lib (fst (call_method m st))).
Proof.
  destruct m; cbn [call_method outcome fst]; revert st.
  - unfold connect, connect_body. keep.
  - unfold read_rtt. keep.
  - unfold write_rtt. keep.
  - unfold read_rtt_string, read_rtt. keep.
  - unfold write_rtt_sring, write_rtt. keep.
  - unfold reconnect, connect, connect_body. keep.
Qed.

End Keeps.
(** A caller's program: the public methods [ms] called in order, each
    one's exception (if any) collected. *)
Fixpoint run_methods {W} `{!JLinkLib W} (ms : list method) (st : world W)
    : world W * list (option pyexc) :=
  match ms with
  | [] => (st, [])
  | m :: ms' =>
      let '(st1, e) := call_method m st in
      let '(st2, es) := run_methods ms' st1 in (st2, e :: es)
  end.

(** ** Two libraries the dongle cannot tell apart

    A relation [R] between the states of two pylink implementations such
    that every pylink operation, from related states, returns the same
    value or raises the same exception and ends in related states: then
    every public method of the dongle does the same on both. *)
Section Simulation.
Context {W1 W2 : Type} `{!JLinkLib W1} `{!JLinkLib W2}.
Variable R : W1 -> W2 -> Prop.

Definition op_sim {A} (o1 : PyM W1 pyexc A) (o2 : PyM W2 pyexc A) : Prop :=
  forall w1 w2, R w1 w2 -> R (fst (o1 w1)) (fst (o2 w2)) /\ snd (o1 w1) = snd (o2 w2).

(** What the second library promises about the first. *)
Class LibSim := {
  lsim_new : op_sim jl_new jl_new;
  lsim_disable_dialog_boxes h : op_sim (jl_disable_dialog_boxes h) (jl_disable_dialog_boxes h);
  lsim_open h : op_sim (jl_open h) (jl_open h);
  lsim_rtt_stop h : op_sim (jl_rtt_stop h) (jl_rtt_stop h);
  lsim_set_tif h i : op_sim (jl_set_tif h i) (jl_set_tif h i);
  lsim_connect h c s v : op_sim (jl_connect h c s v) (jl_connect h c s v);
  lsim_rtt_start h : op_sim (jl_rtt_start h) (jl_rtt_start h);
  lsim_endian_mode h : op_sim (jl_endian_mode h) (jl_endian_mode h);
  lsim_speed h : op_sim (jl_speed h) (jl_speed h);
  lsim_core_name h : op_sim (jl_core_name h) (jl_core_name h);
  lsim_cpu_speed h : op_sim (jl_cpu_speed h) (jl_cpu_speed h);
  lsim_rtt_read h i n : op_sim (jl_rtt_read h i n) (jl_rtt_read h i n);
  lsim_rtt_write h i d : op_sim (jl_rtt_write h i d) (jl_rtt_write h i d);
  lsim_close h : op_sim (jl_close h) (jl_close h)
}.

(** Worlds that differ only in the library state, related by [R]. *)
Definition wrel (st1 : world W1) (st2 : world W2) : Prop :=
  R (w_lib st1) (w_lib st2) /\ w_self st1 = w_self st2 /\ w_trace st1 = w_trace st2 /\
  w_out st1 = w_out st2.

Definition msim {A} (m1 : PyM (world W1) pyexc A) (m2 : PyM (world W2) pyexc A) : Prop :=
  forall st1 st2, wrel st1 st2 -> wrel (fst (m1 st1)) (fst (m2 st2)) /\ snd (m1 st1) = snd (m2 st2).

Lemma msim_bind {A B} (m1 : PyM (world W1) pyexc A) m2 (k1 : A -> PyM (world W1) pyexc B) k2 :
  msim m1 m2 -> (forall a, msim (k1 a) (k2 a)) -> msim (pym_bind m1 k1) (pym_bind m2 k2).
Proof.
  intros Hm Hk st1 st2 Hr. unfold pym_bind. destruct (Hm _ _ Hr) as [Hr' He].
  destruct (m1 st1) as [s1 [e|a]], (m2 st2) as [s2 [e'|a']]; cbn in *; simplify_eq;
    [done | exact (Hk _ _ _ Hr')].
Qed.

(** A step that only reads or writes the dongle's own fields. *)
Lemma msim_local {A} (m1 : PyM (world W1) pyexc A) m2 :
  (forall st1 st2, wrel st1 st2 -> wrel (fst (m1 st1)) (fst (m2 st2)) /\ snd (m1 st1) = snd (m2 st2)) ->
  msim m1 m2.
Proof. done. Qed.

Lemma msim_check_exception {A} f (m1 : PyM (world W1) pyexc A) m2 :
  msim m1 m2 -> msim (check_exception f m1) (check_exception f m2).
Proof.
  intros Hm st1 st2 Hr. destruct (Hm _ _ Hr) as [Hr' He]. unfold check_exception.
  destruct (m1 st1) as [s1 r1], (m2 st2) as [s2 r2]; cbn in *; subst r2.
  destruct r1 as [[]|]; try case_bool_decide; auto.
Qed.

Lemma msim_jcall {A} c (op1 : handle -> PyM W1 pyexc A) op2 :
  (forall h, op_sim (op1 h) (op2 h)) -> msim (jcall c op1) (jcall c op2).
Proof.
  intros Hop st1 st2 (Hr & Hs & Ht & Ho). destruct (jlink (w_self st1)) as [h|] eqn:Hh.
  - rewrite (jcall_some _ _ _ h Hh), (jcall_some _ _ _ h) by congruence.
    destruct (Hop h _ _ Hr) as [Hr' He].
    destruct (op1 h (w_lib st1)), (op2 h (w_lib st2)); cbn in *. unfold wrel; cbn.
    split_and!; congruence.
  - rewrite !jcall_none by congruence. split; [by split_and! | done].
Qed.

Context `{!LibSim}.

Lemma msim_new_set {A} (k1 : PyM (world W1) pyexc A) k2 :
  msim k1 k2 -> msim (h <- lib_new;; set_jlink h;;; k1)%pym (h <- lib_new;; set_jlink h;;; k2)%pym.
Proof.
  intros Hk st1 st2 (Hr & Hs & Ht & Ho). unfold pym_bind, lib_new.
  destruct (lsim_new _ _ Hr) as [Hr' He].
  destruct (jl_new (w_lib st1)) as [w1 r1], (jl_new (w_lib st2)) as [w2 r2]; cbn in *. subst r2.
  destruct r1 as [e|h].
  - unfold wrel; cbn. by rewrite Hs, Ht, Ho.
  - apply Hk. unfold wrel; cbn. by rewrite Hs, Ht, Ho.
Qed.

Ltac simul :=
  repeat first
    [ progress cbv zeta
    | apply msim_new_set
    | apply msim_check_exception
    | apply msim_jcall; intros ?; first [apply lsim_disable_dialog_boxes | apply lsim_open
        | apply lsim_rtt_stop | apply lsim_set_tif | apply lsim_connect
        | apply lsim_rtt_start | apply lsim_endian_mode | apply lsim_speed
        | apply lsim_core_name | apply lsim_cpu_speed | apply lsim_rtt_read
        | apply lsim_rtt_write | apply lsim_close]
    | apply msim_bind; [|intros ?]
    | apply msim_local; intros ?? (?&?&?&?); unfold wrel; cbn; split_and!; congruence
    | progress case_match ].

(** Every public method behaves the same on both libraries. *)
Lemma call_method_sim m (st1 : world W1) (st2 : world W2) :
  wrel st1 st2 ->
  wrel (fst (call_method m st1)) (fst (call_method m st2)) /\
  snd (call_method m st1) = snd (call_method m st2).
Proof.
  intros Hr.
  assert (Hs : forall A (m1 : PyM (world W1) pyexc A) m2, msim m1 m2 ->
    wrel (fst (outcome (m1 st1))) (fst (outcome (m2 st2))) /\
    snd (outcome (m1 st1)) = snd (outcome (m2 st2))).
  { intros A m1 m2 Hm. destruct (Hm _ _ Hr) as [Hr' He]. unfold outcome. cbn. by rewrite He. }
  destruct m; cbn [call_method]; apply Hs.
  - unfold connect, connect_body. simul.
  - unfold read_rtt. simul.
  - unfold write_rtt. simul.
  - unfold read_rtt_string, read_rtt. simul.
  - unfold write_rtt_sring, write_rtt. simul.
  - unfold reconnect, connect, connect_body. simul.
Qed.

(** ... and so does every program of public methods. *)
Lemma run_methods_sim ms (st1 : world W1) (st2 : world W2) :
  wrel st1 st2 -> wrel (fst (run_methods ms st1)) (fst (run_methods ms st2)) /\
  snd (run_methods ms st1) = snd (run_methods ms st2).
Proof.
  revert st1 st2. induction ms as [|m ms IH]; intros st1 st2 Hr; [done|]. cbn [run_methods].
  destruct (call_method_sim m st1 st2 Hr) as [Hr' He].
  destruct (call_method m st1) as [s1 e1], (call_method m st2) as [s2 e2]; cbn in *. subst e2.
  destruct (IH _ _ Hr') as [Hr'' Hes].
  destruct (run_methods ms s1), (run_methods ms s2); cbn in *. by subst.
Qed.

End Simulation.
End LibInvariant.

(** ** The simulated probe keeps its channels well formed *)
Module SimKeeps.
Import LibInvariant.

Lemma lookup_wf rs i r : Forall ring_wf rs -> rs !! i = Some r -> ring_wf r.
Proof. apply Forall_lookup_1. Qed.

Lemma channel_wf rs i r : Forall ring_wf rs -> channel rs i = Some r -> ring_wf r.
Proof. unfold channel. case_match; [|done]. apply lookup_wf. Qed.

(** Every operation of the simulated J-Link keeps every channel well
    formed: only [rtt_read] and [rtt_write] change a channel, through a
    read or a write of the ring. *)
#[export] Instance sim_keeps : LibKeeps probe_wf.
Proof.
  split; intros; intros p [Hu Hd];
    cbv [jl_new jl_disable_dialog_boxes jl_open jl_rtt_stop jl_set_tif jl_connect jl_rtt_start
         jl_endian_mode jl_speed jl_core_name jl_cpu_speed jl_rtt_read jl_rtt_write jl_close
         sim_lib query set_rtt open_required sim_open sim_close sim_rtt_read sim_rtt_write];
    repeat case_match; cbn; try by split.
  - split; [|done]. apply Forall_insert; [done|]. eauto using ring_read_wf, channel_wf.
  - split; [done|]. apply Forall_insert; [done|]. eauto using ring_write_wf, channel_wf.
Qed.

End SimKeeps.

(** ** Every run of the system keeps the offsets inside the buffers *)
Module System.

(** The worlds of the whole system: a dongle on a probe whose channels are
    well formed, then any sequence of public method calls (returning or
    raising) and of target firmware steps (a print on an up channel, or the
    echo of a down channel to the up channel). *)
Inductive sys_reach : world probe -> Prop :=
| sys_init st : probe_wf (w_lib st) -> sys_reach st
| sys_call m st : sys_reach st -> sys_reach (fst (call_method m st))
| sys_send i d st p : sys_reach st -> target_send i d (w_lib st) = Some p -> sys_reach (with_lib st p)
| sys_echo i st p : sys_reach st -> target_echo i (w_lib st) = Some p -> sys_reach (with_lib st p).

End System.

Module SystemFacts.
Import LibInvariant SimKeeps.

Lemma target_send_wf i d p p' : probe_wf p -> target_send i d p = Some p' -> probe_wf p'.
Proof.
  intros [Hu Hd] Hs. unfold target_send in Hs.
  destruct (p_up p !! i) as [u|] eqn:Hi; [|done]. cbn in Hs.
  destruct (ring_write d u) as [[k u']|] eqn:Hw; [|done]. injection Hs as <-.
  apply probe_wf_rings; [|done]. apply Forall_insert; [done|].
  eauto using ring_write_wf, lookup_wf.
Qed.

Lemma target_echo_wf i p p' : probe_wf p -> target_echo i p = Some p' -> probe_wf p'.
Proof.
  intros [Hu Hd] Hs. unfold target_echo in Hs.
  destruct (p_down p !! i) as [d|] eqn:Hi; [|done]. cbn in Hs.
  destruct (p_up p !! i) as [u|] eqn:Hj; [|done]. cbn in Hs.
  destruct (ring_read (r_size d) d) as [[bs d']|] eqn:Hr; [|done]. cbn in Hs.
  destruct (ring_write bs u) as [[k u']|] eqn:Hw; [|done]. injection Hs as <-.
  apply probe_wf_rings; apply Forall_insert; try done;
    eauto using ring_write_wf, ring_read_wf, lookup_wf.
Qed.

End SystemFacts.

Module BoundsThms.
Import LibInvariant SimKeeps System SystemFacts.

(** C37: in every run of the system, whatever methods the caller invokes
    (including failing ones, [connect] and [reconnect]) and whatever the
    target firmware does in between, every RTT channel keeps a buffer of
    its declared size with its read and write offsets inside it: the
    wraparound never reads or writes outside [[base, base+size)]
    (spec section 8). *)
Theorem channels_in_bounds st r :
  sys_reach st -> r ∈ p_up (w_lib st) ++ p_down (w_lib st) ->
  r_rd r < r_size r /\ r_wr r < r_size r /\ length (r_buf r) = r_size r.
Proof.
  intros Hst Hr.
  assert (Hwf : probe_wf (w_lib st)).
  { clear Hr. induction Hst as [st Hwf | m st _ IH | i d st p _ IH Hs | i st p _ IH Hs].
    - exact Hwf.
    - exact (call_method_keeps probe_wf m st IH).
    - exact (target_send_wf i d _ p IH Hs).
    - exact (target_echo_wf i _ p IH Hs). }
  destruct Hwf as [Hu Hd].
  assert (Hall : Forall ring_wf (p_up (w_lib st) ++ p_down (w_lib st))) by (by apply Forall_app).
  rewrite Forall_forall in Hall. by destruct (Hall r Hr) as (_ & ? & ? & ?).
Qed.

End BoundsThms.

Module BoundsWitness.
Import System BoundsThms RingThms.

(** The caller writes [1; 2] on down channel 0, the target prints "A" on up
    channel 0, the caller reads up channel 0. *)
Definition w_written : world probe :=
  fst (call_method (MWriteRtt [1; 2]%Z 0%Z)
         (session_world [sample_ring Blocking] [empty_ring 8 Blocking])).

Definition w_sent : world probe :=
  with_lib w_written (default free_probe (target_send 0 [65]%Z (w_lib w_written))).

Definition w_read : world probe := fst (call_method (MReadRtt 0%Z) w_sent).

Lemma w_read_reach : sys_reach w_read.
Proof.
  apply (sys_call (MReadRtt 0%Z) w_sent).
  apply (sys_send 0 [65]%Z w_written (default free_probe (target_send 0 [65]%Z (w_lib w_written)))).
  - apply (sys_call (MWriteRtt [1; 2]%Z 0%Z)), sys_init. split; cbn; auto with rtt.
  - vm_compute. reflexivity.
Qed.

(** The down channel then holds the two bytes with its offsets inside its
    8-byte buffer. *)
Lemma channels_in_bounds_witness :
  r_rd (mkRing 8 [1; 2; 0; 0; 0; 0; 0; 0]%Z 0 2 Blocking) < 8 /\
  r_wr (mkRing 8 [1; 2; 0; 0; 0; 0; 0; 0]%Z 0 2 Blocking) < 8 /\
  length (r_buf (mkRing 8 [1; 2; 0; 0; 0; 0; 0; 0]%Z 0 2 Blocking)) = 8.
Proof.
  pose proof (channels_in_bounds w_read (mkRing 8 [1; 2; 0; 0; 0; 0; 0; 0]%Z 0 2 Blocking)
                w_read_reach ltac:(vm_compute; repeat constructor)) as H.
  exact H.
Defined.

End BoundsWitness.
