(* ===== verification/Threads.v ===== *)
(** * Two threads sharing one [JLinkDongle]

    The dongle keeps its pylink handle in the plain attribute
    [self.jlink] and takes no lock (spec sections 5 and 9), so two caller
    threads may run its methods at the same time.  CPython switches
    threads between bytecodes and pylink releases the interpreter lock
    inside every DLL call, so a method can be interrupted between any two
    of its accesses to shared state.  This file makes those accesses
    explicit:

    - [prog A] is a method body as a tree of atomic actions, each a
      primitive [M] step of Dongle.v (a read of [self.jlink], an
      assignment to it, a pylink call, a [print]) with the rest of the
      body as a continuation on its outcome, in the manner of an
      interaction tree whose events are interpreted at once;
    - [read_rtt_prog], ..., [reconnect_prog] are lines 22-73 again at that
      granularity, and [prun] runs a program alone; [method_prog_equiv]
      shows that running one gives exactly [call_method] of Dongle.v;
    - a thread is the list of the bodies of the calls it makes, in
      order; [sched] interleaves the steps of two threads under a
      schedule (a list of booleans, [true] for the first thread), after
      which the first and then the second thread run to their end
      ([threads_run]); [serial] is a serial execution of the same calls,
      whole calls one at a time in an order that keeps each thread's.

    [ThreadFacts] characterises the bodies that cannot break
    serializability ([one_shot]: reads of [self.jlink], then at most one
    step that leaves [self] alone) and shows that any interleaving of two
    threads of such calls is some serial execution ([sched_run_ser]).
    [ThreadThms] concludes that the read and write methods are
    serializable, and that [reconnect] is not: a [read_rtt] overlapping
    it can fail where both sequential orders succeed. *)

From S2P Require Import Prelude Utf8 PyFormat JLinkApi RttSim Dongle Scenarios LibInvariant.
From stdpp Require Import pretty.

Import JLinkApi PyFormat Dongle Ring Probe.

Module Prog.

Section Core.
Context {W : Type} `{!JLinkLib W}.

Abbreviation M := (PyM (world W) pyexc).

(** A program: a result, an exception, or an atomic action followed by
    the rest of the program, which sees the action's outcome. *)
Inductive prog (A : Type) : Type :=
| PRet (a : A)
| PRaise (e : pyexc)
| PAct {X : Type} (m : M X) (k : pyexc + X -> prog A).

Arguments PRet {A}.
Arguments PRaise {A}.
Arguments PAct {A X}.

(** Running a program alone; it always ends, by structural recursion. *)
Fixpoint prun {A} (p : prog A) : M A :=
  match p with
  | PRet a => pym_ret a
  | PRaise e => pym_raise e
  | PAct m k => fun st => let '(st', r) := m st in prun (k r) st'
  end.

Fixpoint pbind {A B} (p : prog A) (g : A -> prog B) : prog B :=
  match p with
  | PRet a => g a
  | PRaise e => PRaise e
  | PAct m k => PAct m (fun r => pbind (k r) g)
  end.

(** One primitive step as a program. *)
Definition act {X} (m : M X) : prog X :=
  PAct m (fun r => match r with inl e => PRaise e | inr x => PRet x end).

End Core.

Arguments PRet {W A}.
Arguments PRaise {W A}.
Arguments PAct {W A X}.

Declare Scope prog_scope.
Delimit Scope prog_scope with prog.
Notation "x <- m ;; k" := (pbind m (fun x => k))
  (at level 100, m at next level, right associativity) : prog_scope.
Notation "m ;;; k" := (pbind m (fun _ => k))
  (at level 100, right associativity) : prog_scope.

Section Methods.
Context {W : Type} `{!JLinkLib W}.
Local Open Scope prog_scope.

Abbreviation P := (@prog W).

(** [except JLinkException as e:], lines 28-32, around every step of
    the decorated body. *)
Definition relabel {A} (fname : string) (e : pyexc) : P A :=
  match e with
  | JLinkException msg =>
      if bool_decide (fname ∈ rw_names)
      then PRaise (JLinkDongleException rw_message)
      else PRaise (JLinkDongleException (error_message fname msg))
  | e => PRaise e
  end.

Fixpoint pcheck_exception {A} (fname : string) (p : P A) : P A :=
  match p with
  | PRet a => PRet a
  | PRaise e => relabel fname e
  | PAct m k => PAct m (fun r => pcheck_exception fname (k r))
  end.

(** [self.jlink.m(...)]: the attribute read, then the call.  Line 54
    reads [self.jlink] a second time for the class constant
    [MAX_BUF_SIZE]; once set the slot is never unset, so that read can
    neither fail nor change the value. *)
Definition pjcall {A} (c : call) (op : handle -> PyM W pyexc A) : P A :=
  h <- act get_jlink;; act (lib_call (EvCall h c) (op h)).

Definition connect_body_prog : P unit :=
  h <- act lib_new;; act (set_jlink h);;;
  pjcall CDisableDialogBoxes jl_disable_dialog_boxes;;;
  pjcall COpen jl_open;;;
  pjcall CRttStop jl_rtt_stop;;;
  pjcall (CSetTif SWD) (fun h => jl_set_tif h SWD);;;
  self <- act get_self;;
  pjcall (CConnect (chip_name self) (speed self) true)
         (fun h => jl_connect h (chip_name self) (speed self) true);;;
  pjcall CRttStart jl_rtt_start;;;
  mode <- pjcall CEndianMode jl_endian_mode;;
  let endian := endian_name (int_from_bytes_big mode) in
  act (print "");;;
  self <- act get_self;;
  act (print ("Connected to: " +:+ chip_name self));;;
  khz <- pjcall CSpeed jl_speed;;
  act (print ("RTT RX buffers at " +:+ pretty khz +:+ " kHz"));;;
  core <- pjcall CCoreName jl_core_name;;
  act (print ("connected to " +:+ endian +:+ "-Endian " +:+ core));;;
  hz <- pjcall CCpuSpeed jl_cpu_speed;;
  act (print ("running at " +:+ format_mhz hz +:+ " MHz")).

Definition connect_prog : P unit := pcheck_exception "connect" connect_body_prog.

Definition read_rtt_prog (terminal_number : Z) : P (list Z) :=
  pcheck_exception "read_rtt"
    (pjcall (CRttRead terminal_number MAX_BUF_SIZE)
            (fun h => jl_rtt_read h terminal_number MAX_BUF_SIZE)).

Definition write_rtt_prog (data : list Z) (terminal_number : Z) : P unit :=
  pcheck_exception "write_rtt"
    (_ <- pjcall (CRttWrite terminal_number data)
                 (fun h => jl_rtt_write h terminal_number data);;
     PRet tt).

Definition read_rtt_string_prog (terminal_number : Z) : P (list Z) :=
  data <- read_rtt_prog terminal_number;;
  match data with
  | [] => PRet []
  | _ :: _ =>
      match Utf8.bytes_of_list data with
      | None => PRaise (ValueError "bytes must be in range(0, 256)")
      | Some bs =>
          match Utf8.decode bs with
          | inl e => PRaise (UnicodeDecodeError e)
          | inr s => PRet s
          end
      end
  end.

Definition write_rtt_sring_prog (data : list Z) (terminal_number : Z) : P unit :=
  match Utf8.encode data with
  | inl e => PRaise (UnicodeEncodeError e)
  | inr bs => write_rtt_prog bs terminal_number
  end.

Definition reconnect_prog : P unit :=
  pcheck_exception "reconnect" (pjcall CClose jl_close;;; connect_prog).

(** A call of a public method, its value dropped as [call_method] does. *)
Definition method_prog (m : method) : P unit :=
  match m with
  | MConnect => connect_prog
  | MReadRtt n => _ <- read_rtt_prog n;; PRet tt
  | MWriteRtt d n => write_rtt_prog d n
  | MReadRttString n => _ <- read_rtt_string_prog n;; PRet tt
  | MWriteRttSring d n => write_rtt_sring_prog d n
  | MReconnect => reconnect_prog
  end.

End Methods.

(** ** Two threads *)

Section Sched.
Context {W : Type} `{!JLinkLib W}.

Abbreviation P := (@prog W).

(** The exception of a finished run, as [call_method] reports it. *)
Definition exc_of {A} (r : pyexc + A) : option pyexc :=
  match r with inl e => Some e | inr _ => None end.

(** A thread: the bodies of the calls it still has to make (the first
    one possibly under way) and the exceptions of the calls it has made.
    One step runs the next action of the current call, or records the
    end of that call. *)
Definition jstep (J : list (P unit)) (o : list (option pyexc)) (st : world W)
    : list (P unit) * list (option pyexc) * world W :=
  match J with
  | [] => (J, o, st)
  | PRet _ :: js => (js, o ++ [None], st)
  | PRaise e :: js => (js, o ++ [Some e], st)
  | PAct m k :: js => let '(st', r) := m st in (k r :: js, o, st')
  end.

(** The steps the schedule gives to each thread, [true] for the first. *)
Fixpoint sched (s : list bool) (J1 J2 : list (P unit)) (o1 o2 : list (option pyexc))
    (st : world W) : list (P unit) * list (P unit) * list (option pyexc) * list (option pyexc) * world W :=
  match s with
  | [] => (J1, J2, o1, o2, st)
  | true :: s => let '(J1', o1', st') := jstep J1 o1 st in sched s J1' J2 o1' o2 st'
  | false :: s => let '(J2', o2', st') := jstep J2 o2 st in sched s J1 J2' o1 o2' st'
  end.

(** A thread alone to its end. *)
Fixpoint runall (J : list (P unit)) (o : list (option pyexc)) (st : world W)
    : world W * list (option pyexc) :=
  match J with
  | [] => (st, o)
  | p :: js => let '(st', r) := prun p st in runall js (o ++ [exc_of r]) st'
  end.

(** After the schedule the first thread runs to its end, then the
    second. *)
Definition finish (J1 J2 : list (P unit)) (o1 o2 : list (option pyexc)) (st : world W)
    : world W * list (option pyexc) * list (option pyexc) :=
  let '(st1, o1') := runall J1 o1 st in let '(st2, o2') := runall J2 o2 st1 in (st2, o1', o2').

Definition sched_run (s : list bool) (J1 J2 : list (P unit)) (o1 o2 : list (option pyexc))
    (st : world W) : world W * list (option pyexc) * list (option pyexc) :=
  let '(J1', J2', o1', o2', st') := sched s J1 J2 o1 o2 st in finish J1' J2' o1' o2' st'.

(** A serial execution of the same calls: whole calls one at a time,
    [t] choosing the thread ([true] for the first; an entry for a thread
    with nothing left is skipped, and the calls left when [t] ends are
    made first thread first). *)
Fixpoint ser (t : list bool) (J1 J2 : list (P unit)) (o1 o2 : list (option pyexc)) (st : world W)
    : world W * list (option pyexc) * list (option pyexc) :=
  match t with
  | [] => finish J1 J2 o1 o2 st
  | true :: t =>
      match J1 with
      | [] => ser t J1 J2 o1 o2 st
      | p :: js => let '(st', r) := prun p st in ser t js J2 (o1 ++ [exc_of r]) o2 st'
      end
  | false :: t =>
      match J2 with
      | [] => ser t J1 J2 o1 o2 st
      | p :: js => let '(st', r) := prun p st in ser t J1 js o1 (o2 ++ [exc_of r]) st'
      end
  end.

(** Thread 1 calls the methods [ms1] in order while thread 2 calls
    [ms2], on the same object. *)
Definition threads_run (s : list bool) (ms1 ms2 : list method) (st : world W)
    : world W * list (option pyexc) * list (option pyexc) :=
  sched_run s (map method_prog ms1) (map method_prog ms2) [] [] st.

(** The same methods called one at a time by a single caller. *)
Fixpoint serial (t : list bool) (ms1 ms2 : list method) (o1 o2 : list (option pyexc)) (st : world W)
    : world W * list (option pyexc) * list (option pyexc) :=
  match t with
  | [] =>
      let '(st1, e1) := LibInvariant.run_methods ms1 st in
      let '(st2, e2) := LibInvariant.run_methods ms2 st1 in (st2, o1 ++ e1, o2 ++ e2)
  | true :: t =>
      match ms1 with
      | [] => serial t ms1 ms2 o1 o2 st
      | m :: ms => let '(st', e) := call_method m st in serial t ms ms2 (o1 ++ [e]) o2 st'
      end
  | false :: t =>
      match ms2 with
      | [] => serial t ms1 ms2 o1 o2 st
      | m :: ms => let '(st', e) := call_method m st in serial t ms1 ms (o1) (o2 ++ [e]) st'
      end
  end.

End Sched.

(** The methods that only read [self.jlink]: all but [connect] and
    [reconnect]. *)
Definition rw_method (m : method) : bool :=
  match m with MConnect | MReconnect => false | _ => true end.

End Prog.

Module ProgFacts.
Import Prog.

Section Equiv.
Context {W : Type} `{!JLinkLib W}.
Local Open Scope prog_scope.

Abbreviation P := (@prog W).

(** [p] does what the computation [m] of Dongle.v does, from every
    world. *)
Definition peq {A} (p : P A) (m : PyM (world W) pyexc A) : Prop :=
  forall st, prun p st = m st.

Lemma peq_ret {A} (a : A) : peq (PRet a) (pym_ret a).
Proof. done. Qed.

Lemma peq_raise {A} e : peq (PRaise (A := A) e) (pym_raise e).
Proof. done. Qed.

Lemma peq_act {X} (m : PyM (world W) pyexc X) : peq (act m) m.
Proof. intros st. cbn. by destruct (m st) as [st' [e|x]]. Qed.

Lemma prun_bind {A B} (p : P A) (g : A -> P B) st :
  prun (pbind p g) st = pym_bind (prun p) (fun a => prun (g a)) st.
Proof.
  revert st. induction p as [a|e|X m k IH]; intros st; [done..|].
  cbn [prun pbind]. unfold pym_bind at 1. cbv beta. destruct (m st) as [st' r].
  rewrite IH. reflexivity.
Qed.

Lemma peq_bind {A B} (p : P A) m (g : A -> P B) k :
  peq p m -> (forall a, peq (g a) (k a)) -> peq (pbind p g) (pym_bind m k).
Proof.
  intros Hp Hg st. rewrite prun_bind. unfold pym_bind. rewrite Hp.
  destruct (m st) as [st' [e|a]]; [done | apply Hg].
Qed.

Lemma peq_check {A} f (p : P A) m :
  peq p m -> peq (pcheck_exception f p) (check_exception f m).
Proof.
  intros Hp st. unfold check_exception. rewrite <- Hp. clear Hp m. revert st.
  induction p as [a|e|X m k IH]; intros st; [done | destruct e; cbn; by try destruct (bool_decide _) |].
  cbn. destruct (m st) as [st' r]. apply IH.
Qed.

Lemma peq_jcall {A} c (op : handle -> PyM W pyexc A) : peq (pjcall c op) (jcall c op).
Proof. apply peq_bind; [apply peq_act | intros h; apply peq_act]. Qed.

Ltac peq_solve :=
  repeat first
    [ progress cbv zeta
    | apply peq_check | apply peq_jcall | apply peq_act | apply peq_ret | apply peq_raise
    | apply peq_bind; [|intros ?] ].

Lemma peq_connect : peq connect_prog connect.
Proof. unfold connect_prog, connect, connect_body_prog, connect_body. peq_solve. Qed.

Lemma peq_read_rtt n : peq (read_rtt_prog n) (read_rtt n).
Proof. unfold read_rtt_prog, read_rtt. peq_solve. Qed.

Lemma peq_write_rtt d n : peq (write_rtt_prog d n) (write_rtt d n).
Proof. unfold write_rtt_prog, write_rtt. peq_solve. Qed.

Lemma peq_read_rtt_string n : peq (read_rtt_string_prog n) (read_rtt_string n).
Proof.
  unfold read_rtt_string_prog, read_rtt_string. apply peq_bind; [apply peq_read_rtt|].
  intros [|b bs]; [done|]. repeat case_match; done.
Qed.

Lemma peq_write_rtt_sring d n : peq (write_rtt_sring_prog d n) (write_rtt_sring d n).
Proof. unfold write_rtt_sring_prog, write_rtt_sring. case_match; [done | apply peq_write_rtt]. Qed.

Lemma peq_reconnect : peq reconnect_prog reconnect.
Proof. unfold reconnect_prog, reconnect. peq_solve. Qed.

(** Run alone, the step-by-step body of every public method is the
    method of Dongle.v. *)
Lemma method_prog_equiv m st :
  let '(st', r) := prun (method_prog m) st in (st', exc_of r) = call_method m st.
Proof.
  assert (Hv : forall A (p : P A) mm, peq p mm ->
            let '(st', r) := prun (_ <- p;; PRet tt) st in (st', exc_of r) = outcome (mm st)).
  { intros A p mm Hp. rewrite prun_bind. unfold pym_bind, outcome. rewrite Hp.
    by destruct (mm st) as [st' [e|a]]. }
  assert (Hu : forall (p : P unit) mm, peq p mm ->
            let '(st', r) := prun p st in (st', exc_of r) = outcome (mm st)).
  { intros p mm Hp. rewrite Hp. unfold outcome. by destruct (mm st) as [st' [e|a]]. }
  destruct m; cbn [method_prog call_method].
  - apply Hu, peq_connect.
  - apply Hv, peq_read_rtt.
  - apply Hu, peq_write_rtt.
  - apply Hv, peq_read_rtt_string.
  - apply Hu, peq_write_rtt_sring.
  - apply Hu, peq_reconnect.
Qed.

End Equiv.
End ProgFacts.

Module ThreadFacts.
Import Prog ProgFacts.

Section Serial.
Context {W : Type} `{!JLinkLib W}.

Abbreviation P := (@prog W).

Definition terminal {A} (p : P A) : Prop :=
  match p with PAct _ _ => False | _ => True end.

(** The shape of a body that cannot break serializability: reads of the
    object that change nothing, then at most one step that may change
    the library but not the object, then the end. *)
Inductive one_shot {A} : P A -> Prop :=
| os_ret a : one_shot (PRet a)
| os_raise e : one_shot (PRaise e)
| os_read {X} (m : PyM (world W) pyexc X) (f : JLinkDongle -> pyexc + X) k :
    (forall st, m st = (st, f (w_self st))) -> (forall r, one_shot (k r)) -> one_shot (PAct m k)
| os_write {X} (m : PyM (world W) pyexc X) k :
    (forall st, w_self (fst (m st)) = w_self st) -> (forall r, terminal (k r)) ->
    one_shot (PAct m k).

Lemma one_shot_terminal {A} (p : P A) : terminal p -> one_shot p.
Proof. destruct p; [constructor.. | done]. Qed.

Lemma prun_terminal {A} (p : P A) st : terminal p -> fst (prun p st) = st.
Proof. by destruct p. Qed.

(** A one-shot body leaves [self] as it found it. *)
Lemma prun_self {A} (p : P A) st : one_shot p -> w_self (fst (prun p st)) = w_self st.
Proof.
  intros Hp. revert st. induction Hp as [a|e|X m f k Hm Hk IH|X m k Hs Hk]; intros st; [done..| |].
  - cbn. rewrite Hm. apply IH.
  - cbn. specialize (Hs st). destruct (m st) as [st' r]. cbn in Hs.
    by rewrite prun_terminal.
Qed.

Lemma terminal_run {A} (q : P A) : terminal q -> exists r, forall st, prun q st = (st, r).
Proof. destruct q; [by eexists.. | done]. Qed.

Lemma runall_self J o st : Forall one_shot J -> w_self (fst (runall J o st)) = w_self st.
Proof.
  revert o st. induction J as [|p J IH]; intros o st HJ; [done|]. inversion HJ as [|? ? Hp HJ']; subst.
  cbn [runall]. pose proof (prun_self p st Hp) as Hs. destruct (prun p st) as [st' r]. cbn in Hs.
  rewrite IH; done.
Qed.

(** A call under way whose remaining steps behave, on every world with
    the object [self] has now, as another body can be replaced by it in
    any serial execution: the other calls keep [self]. *)
Lemma ser_read1 t (p p' : P unit) js J2 o1 o2 st :
  Forall one_shot J2 -> (forall w, w_self w = w_self st -> prun p w = prun p' w) ->
  ser t (p :: js) J2 o1 o2 st = ser t (p' :: js) J2 o1 o2 st.
Proof.
  revert J2 o2 st. induction t as [|[] t IH]; intros J2 o2 st HJ Hp; cbn [ser].
  - unfold finish. cbn [runall]. by rewrite Hp.
  - by rewrite Hp.
  - destruct J2 as [|q J2]; [by apply IH|]. inversion HJ as [|? ? Hq HJ']; subst.
    pose proof (prun_self q st Hq) as Hs. destruct (prun q st) as [st' r]. cbn in Hs.
    apply IH; [done|]. intros w Hw. apply Hp. congruence.
Qed.

Lemma ser_read2 t (p p' : P unit) J1 js o1 o2 st :
  Forall one_shot J1 -> (forall w, w_self w = w_self st -> prun p w = prun p' w) ->
  ser t J1 (p :: js) o1 o2 st = ser t J1 (p' :: js) o1 o2 st.
Proof.
  revert J1 o1 st. induction t as [|[] t IH]; intros J1 o1 st HJ Hp; cbn [ser].
  - unfold finish. pose proof (runall_self J1 o1 st HJ) as Hs.
    destruct (runall J1 o1 st) as [st1 o1']. cbn in Hs. cbn [runall]. by rewrite Hp.
  - destruct J1 as [|q J1]; [by apply IH|]. inversion HJ as [|? ? Hq HJ']; subst.
    pose proof (prun_self q st Hq) as Hs. destruct (prun q st) as [st' r]. cbn in Hs.
    apply IH; [done|]. intros w Hw. apply Hp. congruence.
  - by rewrite Hp.
Qed.

(** A call that has made its last step can be taken as coming first in
    a serial execution. *)
Lemma ser_front1 t (q : P unit) js J2 o1 o2 st :
  terminal q -> exists t', ser t (q :: js) J2 o1 o2 st = ser (true :: t') (q :: js) J2 o1 o2 st.
Proof.
  intros Hq. destruct (terminal_run q Hq) as [rq Hrq].
  revert J2 o2 st. induction t as [|[] t IH]; intros J2 o2 st.
  - exists []. cbn [ser]. unfold finish. cbn [runall]. by rewrite !Hrq.
  - by exists t.
  - destruct J2 as [|p J2].
    + destruct (IH [] o2 st) as [t' E]. by exists t'.
    + cbn [ser]. destruct (prun p st) as [st' r] eqn:Ep.
      destruct (IH J2 (o2 ++ [exc_of r]) st') as [t' E]. exists (false :: t'). rewrite E.
      cbn [ser]. rewrite !Hrq. cbn [ser]. by rewrite Ep.
Qed.

Lemma ser_front2 t (q : P unit) J1 js o1 o2 st :
  terminal q -> exists t', ser t J1 (q :: js) o1 o2 st = ser (false :: t') J1 (q :: js) o1 o2 st.
Proof.
  intros Hq. destruct (terminal_run q Hq) as [rq Hrq].
  revert J1 o1 st. induction t as [|[] t IH]; intros J1 o1 st.
  - exists []. cbn [ser]. rewrite Hrq. cbn [ser]. unfold finish.
    destruct (runall J1 o1 st) as [st1 o1']. cbn [runall]. by rewrite Hrq.
  - destruct J1 as [|p J1].
    + destruct (IH [] o1 st) as [t' E]. by exists t'.
    + cbn [ser]. destruct (prun p st) as [st' r] eqn:Ep.
      destruct (IH J1 (o1 ++ [exc_of r]) st') as [t' E]. exists (true :: t'). rewrite E.
      cbn [ser]. rewrite !Hrq. cbn [ser]. by rewrite Ep.
  - by exists t.
Qed.

Lemma sched_run_true s (J1 J2 : list (P unit)) (o1 o2 : list (option pyexc)) (st : world W) :
  sched_run (true :: s) J1 J2 o1 o2 st =
  let '(J1', o1', st') := jstep J1 o1 st in sched_run s J1' J2 o1' o2 st'.
Proof. unfold sched_run. cbn [sched]. by destruct (jstep J1 o1 st) as [[? ?] ?]. Qed.

Lemma sched_run_false s (J1 J2 : list (P unit)) (o1 o2 : list (option pyexc)) (st : world W) :
  sched_run (false :: s) J1 J2 o1 o2 st =
  let '(J2', o2', st') := jstep J2 o2 st in sched_run s J1 J2' o1 o2' st'.
Proof. unfold sched_run. cbn [sched]. by destruct (jstep J2 o2 st) as [[? ?] ?]. Qed.

(** Two threads of one-shot calls, interleaved by any schedule, end as
    some serial execution of their calls. *)
Lemma sched_run_ser s (J1 J2 : list (P unit)) (o1 o2 : list (option pyexc)) (st : world W) :
  Forall one_shot J1 -> Forall one_shot J2 -> exists t, sched_run s J1 J2 o1 o2 st = ser t J1 J2 o1 o2 st.
Proof.
  revert J1 J2 o1 o2 st. induction s as [|[] s IH]; intros J1 J2 o1 o2 st H1 H2; [by exists []| |].
  - rewrite sched_run_true. destruct J1 as [|p js]; [by apply IH|].
    inversion H1 as [|? ? Hp Hjs]; subst.
    destruct Hp as [a|e|X m f k Hm Hk|X m k Hs Hk]; cbn [jstep].
    + destruct (IH js J2 (o1 ++ [None]) o2 st Hjs H2) as [t E]. by exists (true :: t).
    + destruct (IH js J2 (o1 ++ [Some e]) o2 st Hjs H2) as [t E]. by exists (true :: t).
    + rewrite Hm. destruct (IH (k (f (w_self st)) :: js) J2 o1 o2 st) as [t E]; [by constructor | done |].
      exists t. rewrite E. symmetry. apply ser_read1; [done|].
      intros w Hw. cbn [prun]. by rewrite Hm, Hw.
    + destruct (m st) as [st' r] eqn:Em.
      destruct (IH (k r :: js) J2 o1 o2 st') as [t E]; [by constructor; [apply one_shot_terminal|] | done |].
      destruct (ser_front1 t (k r) js J2 o1 o2 st' (Hk r)) as [t' E'].
      exists (true :: t'). rewrite E, E'. cbn [ser prun]. by rewrite Em.
  - rewrite sched_run_false. destruct J2 as [|p js]; [by apply IH|].
    inversion H2 as [|? ? Hp Hjs]; subst.
    destruct Hp as [a|e|X m f k Hm Hk|X m k Hs Hk]; cbn [jstep].
    + destruct (IH J1 js o1 (o2 ++ [None]) st H1 Hjs) as [t E]. by exists (false :: t).
    + destruct (IH J1 js o1 (o2 ++ [Some e]) st H1 Hjs) as [t E]. by exists (false :: t).
    + rewrite Hm. destruct (IH J1 (k (f (w_self st)) :: js) o1 o2 st) as [t E]; [done | by constructor |].
      exists t. rewrite E. symmetry. apply ser_read2; [done|].
      intros w Hw. cbn [prun]. by rewrite Hm, Hw.
    + destruct (m st) as [st' r] eqn:Em.
      destruct (IH J1 (k r :: js) o1 o2 st') as [t E]; [done | by constructor; [apply one_shot_terminal|] |].
      destruct (ser_front2 t (k r) J1 js o1 o2 st' (Hk r)) as [t' E'].
      exists (false :: t'). rewrite E, E'. cbn [ser prun]. by rewrite Em.
Qed.

(** Reading [self.jlink] depends on the object only. *)
Lemma get_jlink_reads (st : world W) :
  get_jlink st = (st, (fun d => match jlink d with Some h => inr h | None => inl attr_error end) (w_self st)).
Proof. unfold get_jlink. by destruct (jlink (w_self st)). Qed.

Lemma lib_call_self {A} ev (op : PyM W pyexc A) (st : world W) :
  w_self (fst (lib_call ev op st)) = w_self st.
Proof. unfold lib_call. by destruct (op (w_lib st)). Qed.

Lemma relabel_terminal {A} fname e : terminal (relabel (A := A) fname e).
Proof. destruct e; cbn; repeat case_match; done. Qed.

(** A decorated pylink call, alone or followed by pure work, is
    one-shot. *)
Ltac os_call :=
  apply (os_read _ (fun d => match jlink d with Some h => inr h | None => inl attr_error end));
    [apply get_jlink_reads|]; intros [e|h]; cbn;
    [ apply one_shot_terminal, relabel_terminal
    | apply os_write; [apply lib_call_self|]; intros [e|a]; cbn; [apply relabel_terminal|] ].

Lemma one_shot_jcall {A} fname c (op : handle -> PyM W pyexc A) :
  one_shot (pcheck_exception fname (pjcall c op)).
Proof. os_call. done. Qed.

Lemma one_shot_call {A B} fname c (op : handle -> PyM W pyexc A) (g : A -> P B) :
  (forall a, terminal (g a)) -> one_shot (pcheck_exception fname (pbind (pjcall c op) g)).
Proof.
  intros Hg. os_call.
  specialize (Hg a). destruct (g a); [done | apply relabel_terminal | contradiction].
Qed.

Lemma pbind_one_shot {A B} (p : P A) (g : A -> P B) :
  one_shot p -> (forall a, terminal (g a)) -> one_shot (pbind p g).
Proof.
  intros Hp Hg. induction Hp as [a|e|X m f k Hm Hk IH|X m k Hs Hk]; cbn.
  - by apply one_shot_terminal.
  - constructor.
  - by eapply os_read.
  - apply os_write; [done|]. intros r. specialize (Hk r). destruct (k r); cbn; [apply Hg | done | done].
Qed.

Lemma method_one_shot m : rw_method m = true -> one_shot (method_prog m).
Proof.
  destruct m as [| n | d n | n | d n |]; cbn [rw_method]; intros H; try discriminate H;
    cbn [method_prog].
  - apply pbind_one_shot; [apply one_shot_jcall | done].
  - apply (one_shot_call _ _ _ (fun _ => PRet tt)). done.
  - apply pbind_one_shot; [|done]. apply pbind_one_shot; [apply one_shot_jcall|].
    + intros [|b bs]; cbn; [done|]. repeat case_match; done.
  - unfold write_rtt_sring_prog. case_match; [constructor|].
    apply (one_shot_call _ _ _ (fun _ => PRet tt)). done.
Qed.

(** Run alone, a thread's bodies are its calls made in order. *)
Lemma runall_methods ms o (st : world W) :
  runall (map method_prog ms) o st =
  let '(st', es) := LibInvariant.run_methods ms st in (st', o ++ es).
Proof.
  revert o st. induction ms as [|m ms IH]; intros o st; cbn [map runall LibInvariant.run_methods].
  - by rewrite app_nil_r.
  - pose proof (method_prog_equiv m st) as E. destruct (prun (method_prog m) st) as [st1 r1].
    rewrite <- E, IH. destruct (LibInvariant.run_methods ms st1). by rewrite <- app_assoc.
Qed.

Lemma ser_methods t ms1 ms2 o1 o2 (st : world W) :
  ser t (map method_prog ms1) (map method_prog ms2) o1 o2 st = serial t ms1 ms2 o1 o2 st.
Proof.
  revert ms1 ms2 o1 o2 st. induction t as [|[] t IH]; intros ms1 ms2 o1 o2 st; cbn [ser serial].
  - unfold finish. rewrite runall_methods. destruct (LibInvariant.run_methods ms1 st) as [st1 e1].
    rewrite runall_methods. by destruct (LibInvariant.run_methods ms2 st1).
  - destruct ms1 as [|m ms1]; [apply IH|]. cbn [map].
    pose proof (method_prog_equiv m st) as E. destruct (prun (method_prog m) st) as [st1 r1].
    rewrite <- E. apply IH.
  - destruct ms2 as [|m ms2]; [apply IH|]. cbn [map].
    pose proof (method_prog_equiv m st) as E. destruct (prun (method_prog m) st) as [st1 r1].
    rewrite <- E. apply IH.
Qed.

End Serial.

(** ** [reconnect] and [read_rtt] on the simulated probe *)
Section SimRace.
Import Ring Probe Harness ScenarioFacts.

(** The schedule "reconnect reads [self.jlink] and closes it, the reader
    reads [self.jlink] and calls [rtt_read]": the read reaches the closed
    object and fails, then [reconnect] completes. *)
Lemma reconnect_read_interleaved (st : world probe) h i :
  session st h ->
  exists st', threads_run [true; true; false; false] [MReconnect] [MReadRtt (Z.of_nat i)] st =
    (st', [None], [Some (JLinkDongleException rw_message)]).
Proof.
  intros (Hh & Ho & Hr).
  unfold threads_run, sched_run. cbn -[connect_prog lib_call get_jlink].
  rewrite get_jlink_reads, Hh. cbn -[connect_prog lib_call get_jlink].
  unfold lib_call at 1. cbn -[connect_prog lib_call get_jlink]. unfold sim_close.
  rewrite owns_self by done. cbn -[connect_prog lib_call get_jlink].
  rewrite get_jlink_reads. cbn -[connect_prog lib_call get_jlink]. rewrite Hh.
  cbn -[connect_prog lib_call get_jlink]. unfold lib_call at 1. cbn -[connect_prog lib_call get_jlink].
  change (bool_decide ("read_rtt" ∈ rw_names)) with true. unfold finish. cbn [runall].
  rewrite (peq_check _ _ _ peq_connect). unfold check_exception at 1.
  match goal with |- context [connect ?st2] =>
    destruct (connect_sim st2 eq_refl) as (p' & tr' & out' & E & _) end.
  rewrite E. cbn. by eexists.
Qed.

(** One after the other, in either order, both calls succeed. *)
Lemma reconnect_read_serial (st : world probe) h i :
  session st h -> probe_wf (w_lib st) -> (i < length (p_up (w_lib st)))%nat ->
  (exists st1, LibInvariant.run_methods [MReconnect; MReadRtt (Z.of_nat i)] st = (st1, [None; None])) /\
  (exists st2, LibInvariant.run_methods [MReadRtt (Z.of_nat i); MReconnect] st = (st2, [None; None])).
Proof.
  intros Hs Hwf Hi. pose proof Hs as (Hh & Ho & _). split; cbn [LibInvariant.run_methods call_method].
  - destruct (reconnect_sim st h Hh Ho) as (p' & tr' & out' & E & Ho' & Hr' & Hu' & Hd').
    rewrite E. cbn [outcome fst snd].
    destruct (read_rtt_happy (mkWorld p' (set_jlink_field (w_self st) (p_next (w_lib st))) tr' out')
                (p_next (w_lib st)) i) as (st'' & bs & E2 & _); [done | | |].
    + destruct Hwf. split; cbn; by rewrite ?Hu', ?Hd'.
    + cbn. by rewrite Hu'.
    + rewrite E2. by eexists.
  - destruct (read_rtt_happy st h i Hs Hwf Hi) as (st'' & bs & E2 & (Hh'' & Ho'' & _) & _).
    rewrite E2. cbn [outcome fst snd].
    destruct (reconnect_sim st'' h Hh'' Ho'') as (p' & tr' & out' & E & _).
    rewrite E. by eexists.
Qed.

End SimRace.

End ThreadFacts.

Module ThreadThms.
Import Prog ProgFacts ThreadFacts.

(** C21: the read and write methods are serializable.  Two threads, each
    calling a sequence of [read_rtt], [write_rtt], [read_rtt_string] and
    [write_rtt_sring] on the same object, over any pylink library and
    whatever the thread switches between their reads of [self.jlink] and
    their library calls, end in the world, and with the exceptions, of a
    serial execution: the same calls made one at a time, each thread's
    in its order. *)
Theorem rw_methods_serializable {W} `{!JLinkLib W} s ms1 ms2 (st : world W) :
  Forall (fun m => rw_method m = true) ms1 -> Forall (fun m => rw_method m = true) ms2 ->
  exists t, threads_run s ms1 ms2 st = serial t ms1 ms2 [] [] st.
Proof.
  intros H1 H2. unfold threads_run.
  destruct (sched_run_ser s (map method_prog ms1) (map method_prog ms2) [] [] st) as [t E];
    [apply Forall_map; eapply Forall_impl; [exact H1 | apply method_one_shot]
    |apply Forall_map; eapply Forall_impl; [exact H2 | apply method_one_shot]|].
  exists t. rewrite E. apply ser_methods.
Qed.

(** A running session on the simulated probe, handle 7 holding it, with
    an empty up and down channel. *)
Definition race_world : world probe :=
  Harness.session_world [empty_ring 16 Blocking] [empty_ring 16 Blocking].

(** C22: [reconnect] is not atomic for the other methods.  On every
    running session of the simulated probe, while one thread runs
    [reconnect] and another [read_rtt(i)] on an existing channel, the
    schedule "reconnect reads [self.jlink] and closes it; the reader
    reads [self.jlink] and calls [rtt_read]" makes the read go to the
    closed JLink object and raise "Do not read/write from RTT Terminal",
    and the reconnect succeed, although both sequential orders of the two
    calls succeed. *)
Theorem reconnect_read_race (st : world probe) h i :
  Harness.session st h -> Harness.probe_wf (w_lib st) -> (i < length (p_up (w_lib st)))%nat ->
  exists st' st1 st2,
    threads_run [true; true; false; false] [MReconnect] [MReadRtt (Z.of_nat i)] st =
      (st', [None], [Some (JLinkDongleException rw_message)]) /\
    LibInvariant.run_methods [MReconnect; MReadRtt (Z.of_nat i)] st = (st1, [None; None]) /\
    LibInvariant.run_methods [MReadRtt (Z.of_nat i); MReconnect] st = (st2, [None; None]).
Proof.
  intros Hs Hwf Hi. destruct (reconnect_read_interleaved st h i Hs) as [st' E].
  destruct (reconnect_read_serial st h i Hs Hwf Hi) as [[st1 E1] [st2 E2]].
  by exists st', st1, st2.
Qed.

End ThreadThms.

Module ThreadWitness.
Import Prog ThreadThms.

(** A reader polling channel 0 twice while a writer sends "hi" then "!"
    to it, on [race_world]. *)
Lemma rw_methods_serializable_witness :
  Forall (fun m => rw_method m = true) [MReadRtt 0; MReadRtt 0] /\
  Forall (fun m => rw_method m = true) [MWriteRtt [104; 105]%Z 0; MWriteRtt [33]%Z 0] /\
  exists t, threads_run [true; false; false; true; true; false; true; true]
              [MReadRtt 0; MReadRtt 0] [MWriteRtt [104; 105]%Z 0; MWriteRtt [33]%Z 0] race_world =
            serial t [MReadRtt 0; MReadRtt 0] [MWriteRtt [104; 105]%Z 0; MWriteRtt [33]%Z 0] [] [] race_world.
Proof.
  assert (H1 : Forall (fun m => rw_method m = true) [MReadRtt 0; MReadRtt 0]) by repeat constructor.
  assert (H2 : Forall (fun m => rw_method m = true) [MWriteRtt [104; 105]%Z 0; MWriteRtt [33]%Z 0])
    by repeat constructor.
  pose proof (rw_methods_serializable [true; false; false; true; true; false; true; true]
                [MReadRtt 0; MReadRtt 0] [MWriteRtt [104; 105]%Z 0; MWriteRtt [33]%Z 0] race_world H1 H2) as H.
  split_and!; [exact H1 | exact H2 | exact H].
Defined.

(** Under that schedule the writer's first [rtt_write] comes before the
    reader's first [rtt_read], and its second write after the reader is
    done: the run is write "hi", read, read, write "!". *)
Example rw_interleaving_serial :
  threads_run [true; false; false; true; true; false; true; true]
    [MReadRtt 0; MReadRtt 0] [MWriteRtt [104; 105]%Z 0; MWriteRtt [33]%Z 0] race_world =
  serial [false; true; true; false]
    [MReadRtt 0; MReadRtt 0] [MWriteRtt [104; 105]%Z 0; MWriteRtt [33]%Z 0] [] [] race_world.
Proof. vm_compute. reflexivity. Qed.

Lemma reconnect_read_race_witness :
  Harness.session race_world 7 /\ Harness.probe_wf (w_lib race_world) /\
  (0 < length (p_up (w_lib race_world)))%nat /\
  exists st' st1 st2,
    threads_run [true; true; false; false] [MReconnect] [MReadRtt (Z.of_nat 0)] race_world =
      (st', [None], [Some (JLinkDongleException rw_message)]) /\
    LibInvariant.run_methods [MReconnect; MReadRtt (Z.of_nat 0)] race_world = (st1, [None; None]) /\
    LibInvariant.run_methods [MReadRtt (Z.of_nat 0); MReconnect] race_world = (st2, [None; None]).
Proof.
  assert (Hs : Harness.session race_world 7) by (split_and!; reflexivity).
  assert (Hwf : Harness.probe_wf (w_lib race_world))
    by (split; repeat constructor; unfold ring_wf; cbn; lia).
  assert (Hi : (0 < length (p_up (w_lib race_world)))%nat) by (cbn; lia).
  pose proof (reconnect_read_race race_world 7 0 Hs Hwf Hi) as H.
  split_and!; [exact Hs | exact Hwf | exact Hi | exact H].
Defined.

End ThreadWitness.
