(* ===== verification/ConcurrentProbe.v ===== *)
(** * The dongle over a target that runs while the host reads

    The simulated probe of RttSim.v performs each [rtt_read] atomically.
    Here the J-Link reads an up channel with the single memory accesses of
    SharedRing.v while the target firmware keeps writing to it: the probe
    state [cprobe] adds to the simulated probe the firmware's progress on
    every up channel ([c_fw]), the schedules that decide how the next reads
    interleave with the firmware ([c_sched], one schedule consumed per
    read, so any interleaving is some initial state), and which read
    pattern the J-Link software uses ([c_torn]: copy first, or the
    barrier-safe order of the spec).  Every other pylink operation is the
    simulated probe's.

    [ConcThms] shows that [JLinkDongle.read_rtt] over the barrier-safe
    reader returns an untorn chunk of the target's byte stream under every
    interleaving, and that a caller's loop of [read_rtt] calls ([cpoll])
    gets the stream without loss, repetition or reordering across calls.
    The copy-first reader is kept only as the contrast the spec names
    (section 5); no theorem relies on it. *)

From S2P Require Import Prelude Utf8 JLinkApi RttSim SharedRing Dongle Scenarios.

Import JLinkApi Dongle DongleFacts Ring RingFacts Probe Shm ShmFacts Harness ScenarioFacts.

Open Scope nat_scope.

Module CProbe.

Record cprobe := mkCProbe {
  c_probe : probe;
  c_fw : list fwst;
  c_sched : list (list bool);
  c_torn : bool
}.

Definition with_probe (c : cprobe) (p : probe) : cprobe :=
  mkCProbe p (c_fw c) (c_sched c) (c_torn c).

(** An operation of the simulated probe, leaving the target alone. *)
Definition lift {A} (op : PyM probe pyexc A) : PyM cprobe pyexc A :=
  fun c => let '(p', r) := op (c_probe c) in (with_probe c p', r).

(** The J-Link software's read of an up channel. *)
Definition dll_read (torn : bool) (n : nat) (s : list bool) (r : ring) (f : fwst)
    : option (list Z * ring * fwst) :=
  if torn then shm_read_torn n s r f else shm_read n s r f.

(** The firmware state of channel [i], for a Python int index. *)
Definition channel_fw (fs : list fwst) (i : Z) : option fwst :=
  if (0 <=? i)%Z then fs !! Z.to_nat i else None.

(** [rtt_read(index, num_bytes)]: pylink's [@open_required] guard, RTT
    started and the channel existing, as in [sim_rtt_read]; the read itself
    runs under the next schedule. *)
Definition conc_rtt_read (h : handle) (i n : Z) : PyM cprobe pyexc (list Z) :=
  fun c =>
    let p := c_probe c in
    if negb (owns h p) then (c, inl not_open) else
    if negb (p_rtt p) then (c, inl rtt_stopped) else
    match channel (p_up p) i, channel_fw (c_fw c) i with
    | Some r, Some f =>
        match dll_read (c_torn c) (Z.to_nat n) (default [] (head (c_sched c))) r f with
        | None => (c, inl memory_fault)
        | Some (bs, r', f') =>
            (mkCProbe (with_rings p (<[Z.to_nat i := r']> (p_up p)) (p_down p))
                      (<[Z.to_nat i := f']> (c_fw c)) (tail (c_sched c)) (c_torn c),
             inr (map (fun b => b mod 256)%Z bs))
        end
    | _, _ => (c, inl invalid_channel)
    end.

#[export] Instance conc_lib : JLinkLib cprobe := {
  jl_new := lift jl_new;
  jl_disable_dialog_boxes := fun h => lift (jl_disable_dialog_boxes h);
  jl_open := fun h => lift (jl_open h);
  jl_rtt_stop := fun h => lift (jl_rtt_stop h);
  jl_set_tif := fun h i => lift (jl_set_tif h i);
  jl_connect := fun h c s v => lift (jl_connect h c s v);
  jl_rtt_start := fun h => lift (jl_rtt_start h);
  jl_endian_mode := fun h => lift (jl_endian_mode h);
  jl_speed := fun h => lift (jl_speed h);
  jl_core_name := fun h => lift (jl_core_name h);
  jl_cpu_speed := fun h => lift (jl_cpu_speed h);
  jl_rtt_read := conc_rtt_read;
  jl_rtt_write := fun h i d => lift (jl_rtt_write h i d);
  jl_close := fun h => lift (jl_close h)
}.

(** A connected dongle on the concurrent probe. *)
Definition csession (st : world cprobe) (h : handle) : Prop :=
  jlink (w_self st) = Some h /\ p_owner (c_probe (w_lib st)) = Some h /\
  p_rtt (c_probe (w_lib st)) = true.

(** A caller's terminal loop: [k] calls of [read_rtt(i)], the results in
    order. *)
Fixpoint cpoll (k : nat) (i : Z) : PyM (world cprobe) pyexc (list (list Z)) :=
  match k with
  | 0 => pym_ret []
  | S k => pym_bind (read_rtt i) (fun c => pym_bind (cpoll k i) (fun cs => pym_ret (c :: cs)))
  end.

End CProbe.

Module ConcFacts.
Import CProbe.

(** On a session, the read goes to the J-Link's reader on the channel and
    the firmware state of [i], under the next schedule. *)
Lemma read_rtt_conc (st : world cprobe) h i u f acc u' f' :
  csession st h -> p_up (c_probe (w_lib st)) !! i = Some u -> c_fw (w_lib st) !! i = Some f ->
  dll_read (c_torn (w_lib st)) (Z.to_nat MAX_BUF_SIZE) (default [] (head (c_sched (w_lib st)))) u f =
    Some (acc, u', f') ->
  read_rtt (Z.of_nat i) st =
    (mkWorld (mkCProbe (with_rings (c_probe (w_lib st)) (<[i := u']> (p_up (c_probe (w_lib st))))
                                   (p_down (c_probe (w_lib st))))
                       (<[i := f']> (c_fw (w_lib st))) (tail (c_sched (w_lib st))) (c_torn (w_lib st)))
             (w_self st) (w_trace st ++ [EvCall h (CRttRead (Z.of_nat i) MAX_BUF_SIZE)]) (w_out st),
     inr (map (fun b => b mod 256)%Z acc)).
Proof.
  intros (Hh & Ho & Hrtt) Hu Hf Hr. unfold read_rtt, check_exception.
  rewrite (jcall_some _ _ _ h Hh). cbn [jl_rtt_read conc_lib]. unfold conc_rtt_read.
  rewrite owns_self, Hrtt, channel_nat, Hu by done. unfold channel_fw.
  destruct (Z.leb_spec 0 (Z.of_nat i)); [|lia]. rewrite Nat2Z.id, Hf. cbn. by rewrite Hr.
Qed.

(** A firmware with nothing left to write never moves. *)
Lemma interleave_idle {Hs} (hstep : ring -> Hs -> option (ring * Hs)) s r f h r1 f1 h1 :
  f_todo f = [] -> interleave hstep s r f h = Some (r1, f1, h1) -> f1 = f.
Proof.
  intros Ht. revert r h. induction s as [|[|] s IH]; intros r h; cbn.
  - by intros [= _ <- _].
  - unfold fw_step. rewrite Ht. cbn. apply IH.
  - destruct (hstep r h) as [[r' h']|]; cbn; [apply IH | done].
Qed.

(** One [read_rtt(i)] on a running session over the barrier-safe reader:
    it returns at most [MAX_BUF_SIZE] bytes that continue the channel's
    stream, at least the first [MAX_BUF_SIZE] pending ones, and leaves
    the session, the reader and the channel's consistency in place; a
    firmware with nothing to write is left as it was. *)
Lemma read_rtt_step (st : world cprobe) h i u f q :
  csession st h -> c_torn (w_lib st) = false ->
  p_up (c_probe (w_lib st)) !! i = Some u -> c_fw (w_lib st) !! i = Some f ->
  shm_ok u f q -> Forall Utf8.is_byte (q ++ f_todo f) ->
  exists acc st' u' f' q', read_rtt (Z.of_nat i) st = (st', inr acc) /\ csession st' h /\
    c_torn (w_lib st') = false /\
    p_up (c_probe (w_lib st')) !! i = Some u' /\ c_fw (w_lib st') !! i = Some f' /\
    shm_ok u' f' q' /\ acc ++ q' ++ f_todo f' = q ++ f_todo f /\ take 336 q `prefix_of` acc /\
    length acc <= 336 /\ (f_todo f = [] -> f' = f).
Proof.
  intros Hs Ht Hu Hf Hok Hb.
  destruct (shm_read_spec (Z.to_nat MAX_BUF_SIZE) (default [] (head (c_sched (w_lib st)))) u f q Hok)
    as (acc & u' & f' & q' & Hr & Hok' & Hall & Hpre & Hlen).
  assert (Hacc : Forall Utf8.is_byte acc).
  { rewrite <- Hall in Hb. by apply Forall_app in Hb as [? _]. }
  assert (Hidle : f_todo f = [] -> f' = f).
  { intros Hn. unfold shm_read in Hr.
    destruct (interleave _ _ u f HIdle) as [[[r1 f1] h1]|] eqn:Hi; cbn in Hr; [|done].
    destruct (finish _ _ r1 h1) as [[r2 h2]|]; cbn in Hr; [|done].
    destruct h2; try done. injection Hr as _ _ <-. by eapply interleave_idle. }
  rewrite (read_rtt_conc st h i u f acc u' f' Hs Hu Hf) by (by rewrite Ht).
  rewrite map_mod_bytes by done.
  pose proof (lookup_lt_Some _ _ _ Hu). pose proof (lookup_lt_Some _ _ _ Hf).
  eexists _, _, u', f', q'. split_and!; [reflexivity | by destruct Hs as (?&?&?) | done | | | done..].
  - cbn. by rewrite list_lookup_insert_eq.
  - cbn. by rewrite list_lookup_insert_eq.
Qed.

End ConcFacts.

Module ConcThms.
Import CProbe ConcFacts.

(** C38: whatever the interleaving of the target firmware with the
    J-Link's memory accesses, [read_rtt(i)] on a running session over the
    barrier-safe reader (read [WrOff], copy, write [RdOff]) returns
    normally with bytes [acc] such that [acc], followed by what is then
    published in the channel and what the firmware has still to write, is
    the byte stream the channel and the firmware held before the call: the
    caller never sees a torn, stale or reordered byte.  It also gets at
    least the first [MAX_BUF_SIZE] bytes pending at the call, and the
    channel stays consistent for the next read. *)
Theorem read_rtt_untorn (st : world cprobe) h i u f q :
  csession st h -> c_torn (w_lib st) = false ->
  p_up (c_probe (w_lib st)) !! i = Some u -> c_fw (w_lib st) !! i = Some f ->
  shm_ok u f q -> Forall Utf8.is_byte (q ++ f_todo f) ->
  exists acc st' u' f' q', read_rtt (Z.of_nat i) st = (st', inr acc) /\ csession st' h /\
    p_up (c_probe (w_lib st')) !! i = Some u' /\ c_fw (w_lib st') !! i = Some f' /\
    shm_ok u' f' q' /\ acc ++ q' ++ f_todo f' = q ++ f_todo f /\ take 336 q `prefix_of` acc.
Proof.
  intros Hs Ht Hu Hf Hok Hb.
  destruct (read_rtt_step st h i u f q Hs Ht Hu Hf Hok Hb)
    as (acc & st' & u' & f' & q' & Hr & Hs' & _ & Hu' & Hf' & Hok' & Hall & Hpre & _).
  by exists acc, st', u', f', q'.
Qed.

(** C39: a caller's terminal loop over a running target: [k]
    consecutive [read_rtt(i)] calls over the barrier-safe reader, under
    any interleaving with the firmware, all return normally; their
    chunks, followed by what is then published in the channel and what
    the firmware has still to write, are the byte stream the channel and
    the firmware held before the loop (no byte lost, repeated, torn or
    reordered across calls), and the session and the channel stay
    consistent.  When the firmware has nothing left to write, [k] calls
    with [k * MAX_BUF_SIZE] at least the pending length return exactly
    the pending bytes. *)
Theorem poll_untorn k (st : world cprobe) h i u f q :
  csession st h -> c_torn (w_lib st) = false ->
  p_up (c_probe (w_lib st)) !! i = Some u -> c_fw (w_lib st) !! i = Some f ->
  shm_ok u f q -> Forall Utf8.is_byte (q ++ f_todo f) ->
  exists cs st' u' f' q', cpoll k (Z.of_nat i) st = (st', inr cs) /\ csession st' h /\
    p_up (c_probe (w_lib st')) !! i = Some u' /\ c_fw (w_lib st') !! i = Some f' /\
    shm_ok u' f' q' /\ concat cs ++ q' ++ f_todo f' = q ++ f_todo f /\
    (f_todo f = [] -> length q <= k * 336 -> concat cs = q).
Proof.
  revert st u f q. induction k as [|k IH]; intros st u f q Hs Ht Hu Hf Hok Hb.
  - exists [], st, u, f, q. split_and!; try done. intros _ Hl. destruct q; [done | cbn in Hl; lia].
  - destruct (read_rtt_step st h i u f q Hs Ht Hu Hf Hok Hb)
      as (acc & st1 & u1 & f1 & q1 & Hr & Hs1 & Ht1 & Hu1 & Hf1 & Hok1 & Hall & Hpre & _ & Hidle).
    assert (Hb1 : Forall Utf8.is_byte (q1 ++ f_todo f1)).
    { rewrite <- Hall in Hb. by apply Forall_app in Hb as [_ ?]. }
    destruct (IH st1 u1 f1 q1 Hs1 Ht1 Hu1 Hf1 Hok1 Hb1)
      as (cs & st' & u' & f' & q' & Hp & Hs' & Hu' & Hf' & Hok' & Hall' & Hdone).
    cbn [cpoll]. unfold pym_bind at 1. rewrite Hr. unfold pym_bind. rewrite Hp.
    exists (acc :: cs), st', u', f', q'. cbn [concat]. split_and!; try done.
    + by rewrite <- app_assoc, Hall'.
    + intros Hn Hl. pose proof (Hidle Hn) as ->. rewrite Hn, !app_nil_r in Hall.
      pose proof (prefix_length _ _ Hpre) as Hpl. rewrite length_take in Hpl.
      assert (length q = length acc + length q1) by (by rewrite <- Hall, length_app).
      rewrite Hdone by (done || lia). done.
Qed.

End ConcThms.

Module ConcWitness.
Import CProbe ConcThms.

(** The firmware writes "AB" into an empty channel while the barrier-safe
    J-Link reads it twice: first under the schedule "firmware writes A,
    host reads the offsets, firmware publishes A, host copies, host
    commits", then under "firmware writes B, firmware publishes B, host
    reads the offsets". *)
Definition safe_world : world cprobe :=
  mkWorld (mkCProbe (held_probe [empty_ring 4 Blocking] []) [FwSt [65; 66]%Z false]
                    [[true; false; true; false; false]; [true; true; false]] false)
          (set_jlink_field JLinkDongle_init 7) [] [].

Lemma read_rtt_untorn_witness :
  exists acc st' u' f' q', read_rtt (Z.of_nat 0) safe_world = (st', inr acc) /\ csession st' 7 /\
    p_up (c_probe (w_lib st')) !! 0 = Some u' /\ c_fw (w_lib st')  !! 0 = Some f' /\
    shm_ok u' f' q' /\ acc ++ q' ++ f_todo f' = [] ++ f_todo (FwSt [65; 66]%Z false) /\
    take 336 [] `prefix_of` acc.
Proof.
  pose proof (read_rtt_untorn safe_world 7 0 (empty_ring 4 Blocking) (FwSt [65; 66]%Z false) []
                ltac:(by split_and!) eq_refl eq_refl eq_refl
                ltac:(split_and!; [unfold ring_wf; cbn; lia | done | done | done])
                ltac:(cbn; auto 20 with rtt)) as H.
  exact H.
Defined.

(** The first read returns nothing: the host read the offsets before "A"
    was published, and "A" stays pending; the second read returns "AB". *)
Example read_rtt_untorn_reads :
  snd (read_rtt (Z.of_nat 0) safe_world) = inr [] /\
  snd (read_rtt (Z.of_nat 0) (fst (read_rtt (Z.of_nat 0) safe_world))) = inr [65; 66]%Z.
Proof. split; vm_compute; reflexivity. Qed.

(** Two polls of channel 0 in [safe_world]: the firmware's "AB" comes
    through whole. *)
Lemma poll_untorn_witness :
  exists cs st' u' f' q', cpoll 2 (Z.of_nat 0) safe_world = (st', inr cs) /\ csession st' 7 /\
    p_up (c_probe (w_lib st')) !! 0 = Some u' /\ c_fw (w_lib st') !! 0 = Some f' /\
    shm_ok u' f' q' /\ concat cs ++ q' ++ f_todo f' = [] ++ f_todo (FwSt [65; 66]%Z false) /\
    (f_todo (FwSt [65; 66]%Z false) = [] -> length (@nil Z) <= 2 * 336 -> concat cs = []).
Proof.
  pose proof (poll_untorn 2 safe_world 7 0 (empty_ring 4 Blocking) (FwSt [65; 66]%Z false) []
                ltac:(by split_and!) eq_refl eq_refl eq_refl
                ltac:(split_and!; [unfold ring_wf; cbn; lia | done | done | done])
                ltac:(cbn; auto 20 with rtt)) as H.
  exact H.
Defined.

End ConcWitness.
