(* ===== verification/MemProbe.v ===== *)
(** * The J-Link working on target memory

    RttSim.v's probe keeps the RTT channels as rings.  A real J-Link sees
    only the target's RAM: [rtt_start] scans it for the control block
    (ControlBlock.v), and every [rtt_read] and [rtt_write] reads the
    channel's descriptor and buffer from memory and writes the updated
    offsets (and, for a write, the buffer bytes) back.  [MProbe] models
    that J-Link: the memory region at address [m_base], the control block
    offset found by the last [rtt_start] ([m_cb]), and the simulated probe
    for everything else (ownership, RTT flag, identification).

    [MemThms] proves that the dongle cannot tell the two apart: on a region
    holding a laid-out control block, every sequence of the dongle's public
    methods returns the same results and prints the same lines as on the
    channel-level probe whose channels the control block describes, and
    the memory keeps describing the channels of that probe.  The proof is
    the generic simulation of LibInvariant.v, discharged operation by
    operation. *)

From S2P Require Import Prelude Utf8 JLinkApi RttSim ControlBlock Dongle Scenarios LibInvariant.

Import JLinkApi Dongle DongleFacts Ring RingFacts Probe CB CBFacts Harness ScenarioFacts.

Open Scope nat_scope.

Module MProbe.

Record mprobe := mkMProbe {
  m_probe : probe;
  m_base : Z;
  m_mem : list Z;
  m_cb : option nat
}.

Definition with_mprobe (m : mprobe) (p : probe) : mprobe :=
  mkMProbe p (m_base m) (m_mem m) (m_cb m).

Definition with_mem (m : mprobe) (mem : list Z) : mprobe :=
  mkMProbe (m_probe m) (m_base m) mem (m_cb m).

(** An operation of the probe that does not touch target memory. *)
Definition mlift {A} (op : PyM probe pyexc A) : PyM mprobe pyexc A :=
  fun m => let '(p', r) := op (m_probe m) in (with_mprobe m p', r).

Definition cb_not_found : pyexc := JLinkException "RTT control block not found.".

(** [rtt_start()]: scan for the control block and validate its channel
    table; the offset found is kept for the following accesses. *)
Definition mem_rtt_start (h : handle) : PyM mprobe pyexc unit :=
  fun m =>
    let p := m_probe m in
    if negb (owns h p) then (m, inl not_open) else
    match find_marker (m_mem m) with
    | None => (m, inl cb_not_found)
    | Some k =>
        match decode_cb (m_base m) (m_mem m) k with
        | None => (m, inl cb_not_found)
        | Some _ => (mkMProbe (with_owner p (p_owner p) true) (m_base m) (m_mem m) (Some k), inr tt)
        end
    end.

(** [rtt_stop()]: RTT off, the control block forgotten. *)
Definition mem_rtt_stop (h : handle) : PyM mprobe pyexc unit :=
  fun m =>
    let p := m_probe m in
    if negb (owns h p) then (m, inl not_open) else
    (mkMProbe (with_owner p (p_owner p) false) (m_base m) (m_mem m) None, inr tt).

(** [rtt_read(index, num_bytes)] on up channel [index]: read its
    descriptor, copy the unread bytes, write [RdOff] back. *)
Definition mem_rtt_read (h : handle) (i n : Z) : PyM mprobe pyexc (list Z) :=
  fun m =>
    let p := m_probe m in
    if negb (owns h p) then (m, inl not_open) else
    if negb (p_rtt p) then (m, inl rtt_stopped) else
    match m_cb m with
    | None => (m, inl rtt_stopped)
    | Some k =>
        match read_word (m_mem m) (k + 16) with
        | None => (m, inl memory_fault)
        | Some nup =>
            if (0 <=? i)%Z && (i <? nup)%Z then
              let off := k + hdr_size + desc_size * Z.to_nat i in
              match decode_desc (m_base m) (m_mem m) off with
              | None => (m, inl memory_fault)
              | Some r =>
                  match ring_read (Z.to_nat n) r with
                  | None => (m, inl memory_fault)
                  | Some (bs, r') =>
                      (with_mem m (poke (m_mem m) (off + 16) (word (Z.of_nat (r_rd r')))),
                       inr (map (fun b => b mod 256)%Z bs))
                  end
              end
            else (m, inl invalid_channel)
        end
    end.

(** [rtt_write(index, data)] on down channel [index]: read its descriptor,
    store the bytes, write the buffer and [WrOff] (and [RdOff], which an
    overwriting write moves) back. *)
Definition mem_rtt_write (h : handle) (i : Z) (data : list Z) : PyM mprobe pyexc Z :=
  fun m =>
    let p := m_probe m in
    if negb (owns h p) then (m, inl not_open) else
    if negb (p_rtt p) then (m, inl rtt_stopped) else
    match m_cb m with
    | None => (m, inl rtt_stopped)
    | Some k =>
        match read_word (m_mem m) (k + 16), read_word (m_mem m) (k + 20) with
        | Some nup, Some ndown =>
            if (0 <=? i)%Z && (i <? ndown)%Z then
              let off := k + hdr_size + desc_size * (Z.to_nat nup + Z.to_nat i) in
              match decode_desc (m_base m) (m_mem m) off, read_word (m_mem m) (off + 4) with
              | Some r, Some addr =>
                  match ring_write (map (fun b => b mod 256)%Z data) r with
                  | None => (m, inl memory_fault)
                  | Some (cnt, r') =>
                      let mem1 := poke (m_mem m) (Z.to_nat (addr - m_base m)) (r_buf r') in
                      (with_mem m (poke mem1 (off + 12)
                                     (word (Z.of_nat (r_wr r')) ++ word (Z.of_nat (r_rd r')))),
                       inr (Z.of_nat cnt))
                  end
              | _, _ => (m, inl memory_fault)
              end
            else (m, inl invalid_channel)
        | _, _ => (m, inl memory_fault)
        end
    end.

#[export] Instance mem_lib : JLinkLib mprobe := {
  jl_new := mlift jl_new;
  jl_disable_dialog_boxes := fun h => mlift (jl_disable_dialog_boxes h);
  jl_open := fun h => mlift (jl_open h);
  jl_rtt_stop := mem_rtt_stop;
  jl_set_tif := fun h i => mlift (jl_set_tif h i);
  jl_connect := fun h c s v => mlift (jl_connect h c s v);
  jl_rtt_start := mem_rtt_start;
  jl_endian_mode := fun h => mlift (jl_endian_mode h);
  jl_speed := fun h => mlift (jl_speed h);
  jl_core_name := fun h => mlift (jl_core_name h);
  jl_cpu_speed := fun h => mlift (jl_cpu_speed h);
  jl_rtt_read := mem_rtt_read;
  jl_rtt_write := mem_rtt_write;
  jl_close := fun h => mlift (jl_close h)
}.

(** The channels the memory describes, and the channel-level probe they
    make. *)
Definition mem_chans (m : mprobe) : list ring * list ring :=
  default ([], []) (discover (m_base m) (m_mem m)).

Definition mabs (m : mprobe) : probe :=
  with_rings (m_probe m) (fst (mem_chans m)) (snd (mem_chans m)).

(** The memory holds a control block laid out after [pre] describing the
    channels [up] and [down], with no marker before it; the cached offset,
    when RTT runs, is that block's. *)
Definition cb_at (m : mprobe) (pre : list Z) (up down : list ring) (post : list Z) : Prop :=
  m_mem m = pre ++ layout (m_base m + Z.of_nat (length pre)) up down ++ post /\
  Forall ring_wf (up ++ down) /\ (0 <= m_base m)%Z /\
  (m_base m + Z.of_nat (length pre + length (layout 0 up down)) < 2 ^ 32)%Z /\
  (forall j, j < length pre -> take 16 (drop j (m_mem m)) <> marker) /\
  (m_cb m = None \/ m_cb m = Some (length pre)) /\
  (p_rtt (m_probe m) = true -> m_cb m = Some (length pre)).

Definition minv (m : mprobe) : Prop := exists pre up down post, cb_at m pre up down post.

(** The memory-level probe [m] and the channel-level probe [p] agree. *)
Definition mrel (m : mprobe) (p : probe) : Prop := minv m /\ p = mabs m.

End MProbe.

Module MemFacts.
Import MProbe LibInvariant.

Lemma cb_at_chans m pre up down post :
  cb_at m pre up down post -> mem_chans m = (up, down).
Proof.
  intros (Hm & Hwf & Hb & Hfit & Hno & _). unfold mem_chans. rewrite Hm.
  rewrite discover_layout; [done..|]. intros j Hj. rewrite <- Hm. by apply Hno.
Qed.

Lemma cb_at_abs m pre up down post :
  cb_at m pre up down post -> mabs m = with_rings (m_probe m) up down.
Proof. intros Hc. unfold mabs. by rewrite (cb_at_chans _ _ _ _ _ Hc). Qed.

(** Replacing the probe part keeps the memory's invariant when it does not
    start RTT. *)
Lemma cb_at_probe m p pre up down post :
  cb_at m pre up down post -> (p_rtt p = true -> p_rtt (m_probe m) = true) ->
  cb_at (with_mprobe m p) pre up down post.
Proof. intros (? & ? & ? & ? & ? & ? & Hr) Hp. split_and!; auto. Qed.

(** A probe operation that never touches the channels and never starts RTT
    is simulated by its lifting. *)
Lemma mlift_sim {A} (op : PyM probe pyexc A) :
  (forall p up down, op (with_rings p up down) = (with_rings (fst (op p)) up down, snd (op p))) ->
  (forall p, p_rtt (fst (op p)) = true -> p_rtt p = true) ->
  op_sim mrel (mlift op) op.
Proof.
  intros Hc Hr m p [[pre [up [down [post Hm]]]] ->]. unfold mlift.
  rewrite (cb_at_abs _ _ _ _ _ Hm), Hc. destruct (op (m_probe m)) as [p' x] eqn:E. cbn.
  split; [|done]. pose proof (cb_at_probe m p' _ _ _ _ Hm) as Hm'.
  specialize (Hr (m_probe m)). rewrite E in Hr. specialize (Hm' Hr).
  split; [by exists pre, up, down, post|]. by rewrite (cb_at_abs _ _ _ _ _ Hm').
Qed.

Ltac probe_op :=
  intros; cbv [jl_new jl_disable_dialog_boxes jl_open jl_set_tif jl_connect jl_endian_mode
               jl_speed jl_core_name jl_cpu_speed jl_close sim_lib query open_required sim_open
               sim_close owns with_owner with_next with_rings] in *;
  cbn; repeat case_match; cbn in *; try done; try congruence.

(** [rtt_start] finds the control block the memory holds. *)
Lemma rtt_start_sim h : op_sim mrel (mem_rtt_start h) (set_rtt h true).
Proof.
  intros m p [[pre [up [down [post Hm]]]] ->]. pose proof Hm as (Hmem & Hwf & Hb & Hfit & Hno & Hcb & Hr).
  rewrite (cb_at_abs _ _ _ _ _ Hm). unfold mem_rtt_start, set_rtt, open_required.
  change (owns h (with_rings (m_probe m) up down)) with (owns h (m_probe m)).
  destruct (owns h (m_probe m)) eqn:Ho; cbn [negb].
  - assert (Hf : find_marker (m_mem m) = Some (length pre)).
    { unfold find_marker. apply find_from_first; [| | intros j' ?; apply Hno; lia].
      - rewrite Hmem, !length_app. unfold layout. rewrite length_app. cbn. lia.
      - rewrite Hmem, drop_app_length. unfold layout. rewrite <- app_assoc. by apply take_app_length'. }
    assert (Hd : decode_cb (m_base m) (m_mem m) (length pre) = Some (up, down))
      by (rewrite Hmem; by apply decode_cb_layout).
    rewrite Hf, Hd. cbn. split; [|done].
    assert (Hm' : cb_at (mkMProbe (with_owner (m_probe m) (p_owner (m_probe m)) true) (m_base m)
                                  (m_mem m) (Some (length pre))) pre up down post).
    { split_and!; auto. }
    split; [by exists pre, up, down, post|]. by rewrite (cb_at_abs _ _ _ _ _ Hm').
  - cbn. split; [|done]. split; [by exists pre, up, down, post|]. by rewrite (cb_at_abs _ _ _ _ _ Hm).
Qed.

Lemma rtt_stop_sim h : op_sim mrel (mem_rtt_stop h) (set_rtt h false).
Proof.
  intros m p [[pre [up [down [post Hm]]]] ->]. pose proof Hm as (Hmem & Hwf & Hb & Hfit & Hno & Hcb & Hr).
  rewrite (cb_at_abs _ _ _ _ _ Hm). unfold mem_rtt_stop, set_rtt, open_required.
  change (owns h (with_rings (m_probe m) up down)) with (owns h (m_probe m)).
  destruct (owns h (m_probe m)) eqn:Ho; cbn [negb].
  - assert (Hm' : cb_at (mkMProbe (with_owner (m_probe m) (p_owner (m_probe m)) false) (m_base m)
                                  (m_mem m) None) pre up down post).
    { split_and!; auto. cbn. done. }
    cbn. split; [|done]. split; [by exists pre, up, down, post|]. by rewrite (cb_at_abs _ _ _ _ _ Hm').
  - cbn. split; [|done]. split; [by exists pre, up, down, post|]. by rewrite (cb_at_abs _ _ _ _ _ Hm).
Qed.

(** A related pair of probes: the memory's channels are the probe's. *)
Lemma mrel_at m p pre up down post :
  cb_at m pre up down post -> p = with_rings (m_probe m) up down -> mrel m p.
Proof. intros Hm ->. split; [by exists pre, up, down, post | by rewrite (cb_at_abs _ _ _ _ _ Hm)]. Qed.

(** The bytes a scan looks at before the control block do not depend on
    what follows its marker. *)
Lemma scan_head (pre R R' : list Z) j :
  j < length pre -> take 16 (drop j (pre ++ marker ++ R)) = take 16 (drop j (pre ++ marker ++ R')).
Proof.
  intros Hj. rewrite !app_assoc.
  rewrite (drop_app_le (pre ++ marker) R), (drop_app_le (pre ++ marker) R')
    by (rewrite length_app; lia).
  rewrite (take_app_le (drop j (pre ++ marker)) R), (take_app_le (drop j (pre ++ marker)) R')
    by (rewrite length_drop, length_app; cbn; lia).
  done.
Qed.

(** Writing back channels of the same sizes keeps the memory related to the
    probe with the new channels. *)
Lemma mrel_update m pre up down post up' down' :
  cb_at m pre up down post -> Forall ring_wf (up' ++ down') ->
  length (layout 0 up' down') = length (layout 0 up down) ->
  mrel (with_mem m (pre ++ layout (m_base m + Z.of_nat (length pre)) up' down' ++ post))
       (with_rings (m_probe m) up' down').
Proof.
  intros (Hmem & Hwf & Hb & Hfit & Hno & Hcb & Hr) Hwf' Hl.
  apply (mrel_at _ _ pre up' down' post); [|reflexivity].
  split_and!; cbn [m_mem m_base m_cb m_probe with_mem]; try done.
  - by rewrite Hl.
  - intros j Hj Heq. apply (Hno j Hj). rewrite Hmem, <- Heq. unfold layout.
    rewrite <- !app_assoc. by apply scan_head.
Qed.

Lemma ring_read_shape n r bs r' : ring_read n r = Some (bs, r') -> r' = with_rd r (r_rd r').
Proof.
  revert r bs. induction n as [|n IH]; intros r bs; cbn [ring_read].
  - intros [= _ <-]. by destruct r.
  - case_match; [intros [= _ <-]; by destruct r|].
    destruct (r_buf r !! r_rd r); [|done]. cbn.
    destruct (ring_read n _) as [[bs' r1]|] eqn:E; [|done]. intros [= _ <-].
    by rewrite (IH _ _ E).
Qed.

Lemma ring_write_shape d r k r' :
  ring_wf r -> ring_write d r = Some (k, r') ->
  r_size r' = r_size r /\ r_policy r' = r_policy r /\ ring_wf r'.
Proof.
  intros Hwf Hw. destruct (contents_total r Hwf) as [q Hq]. destruct (r_policy r) eqn:Hp.
  - destruct (ring_write_blocking_spec d r q Hwf Hp Hq) as (r1 & Hw1 & ? & _ & ? & ?).
    rewrite Hw1 in Hw. injection Hw as _ <-. by split_and!.
  - destruct (ring_write_overwrite_spec d r q Hwf Hp Hq) as (r1 & Hw1 & ? & _ & ? & ?).
    rewrite Hw1 in Hw. injection Hw as _ <-. by split_and!.
Qed.

(** Replacing channel [j] by a ring of the same size keeps the length of
    the layout. *)
Lemma length_layout_insert up down jj r r' :
  Forall ring_wf (up ++ down) -> Forall ring_wf (<[jj := r']> (up ++ down)) ->
  (up ++ down) !! jj = Some r -> r_size r' = r_size r ->
  forall up' down', up' ++ down' = <[jj := r']> (up ++ down) -> length up' = length up ->
  length (layout 0 up' down') = length (layout 0 up down).
Proof.
  intros Hwf Hwf' Hj Hs up' down' Heq Hl.
  assert (length down' = length down).
  { apply (f_equal length) in Heq. rewrite length_insert, !length_app in Heq. lia. }
  rewrite !length_layout, Heq, (total_insert _ _ r) by (rewrite ?Heq; done). lia.
Qed.

(** [rtt_read] on the memory does what it does on the channels. *)
Lemma rtt_read_sim h i n : op_sim mrel (mem_rtt_read h i n) (sim_rtt_read h i n).
Proof.
  intros m p [[pre [up [down [post Hm]]]] ->]. pose proof Hm as (Hmem & Hwf & Hb & Hfit & Hno & Hcb & Hr).
  pose proof (mrel_at _ _ _ _ _ _ Hm eq_refl) as Hrel.
  rewrite (cb_at_abs _ _ _ _ _ Hm). unfold mem_rtt_read, sim_rtt_read, open_required.
  change (owns h (with_rings (m_probe m) up down)) with (owns h (m_probe m)).
  change (p_rtt (with_rings (m_probe m) up down)) with (p_rtt (m_probe m)).
  change (p_up (with_rings (m_probe m) up down)) with up.
  destruct (owns h (m_probe m)); cbn [negb]; [|done].
  destruct (p_rtt (m_probe m)) eqn:Hrtt; cbn [negb]; [|done].
  rewrite (Hr eq_refl).
  destruct (layout_table (m_base m) pre up down post Hwf Hb Hfit) as (Hnu & _ & Htab).
  rewrite <- Hmem in Hnu, Htab. rewrite Hnu. cbv beta iota zeta.
  unfold channel. destruct (Z.leb_spec 0 i) as [Hi0|Hi0]; cbn [andb]; [|done].
  destruct (Z.ltb_spec i (Z.of_nat (length up))) as [Hi1|Hi1].
  2:{ rewrite lookup_ge_None_2 by lia. done. }
  destruct (lookup_lt_is_Some_2 up (Z.to_nat i) ltac:(lia)) as [r Hj]. rewrite Hj.
  rewrite (decode_descs_nth _ _ _ _ _ _ Htab) by (rewrite length_app; lia).
  rewrite lookup_app_l, Hj by lia.
  destruct (ring_read (Z.to_nat n) r) as [[bs r']|] eqn:Hrd; [|done].
  split; [|done]. pose proof (ring_read_shape _ _ _ _ Hrd) as Hsh.
  pose proof (lookup_lt_Some _ _ _ Hj).
  assert (Hwf' : Forall ring_wf (<[Z.to_nat i := r']> up ++ down)).
  { rewrite <- insert_app_l by done. apply Forall_insert; [done|].
    eapply ring_read_wf; [|exact Hrd]. exact (Forall_lookup_1 _ _ _ _ Hwf (lookup_app_l_Some _ _ _ _ Hj)). }
  rewrite Hmem, layout_set_rd with (r := r) by done. rewrite <- Hsh.
  apply (mrel_update m pre up down post); [done | done |].
  apply (length_layout_insert up down (Z.to_nat i) r r'); try done.
  - by rewrite insert_app_l.
  - by rewrite lookup_app_l.
  - by rewrite Hsh.
  - by rewrite insert_app_l.
  - by rewrite length_insert.
Qed.

(** [rtt_write] on the memory does what it does on the channels. *)
Lemma rtt_write_sim h i d : op_sim mrel (mem_rtt_write h i d) (sim_rtt_write h i d).
Proof.
  intros m p [[pre [up [down [post Hm]]]] ->]. pose proof Hm as (Hmem & Hwf & Hb & Hfit & Hno & Hcb & Hr).
  pose proof (mrel_at _ _ _ _ _ _ Hm eq_refl) as Hrel.
  rewrite (cb_at_abs _ _ _ _ _ Hm). unfold mem_rtt_write, sim_rtt_write, open_required.
  change (owns h (with_rings (m_probe m) up down)) with (owns h (m_probe m)).
  change (p_rtt (with_rings (m_probe m) up down)) with (p_rtt (m_probe m)).
  change (p_down (with_rings (m_probe m) up down)) with down.
  change (p_up (with_rings (m_probe m) up down)) with up.
  destruct (owns h (m_probe m)); cbn [negb]; [|done].
  destruct (p_rtt (m_probe m)) eqn:Hrtt; cbn [negb]; [|done].
  rewrite (Hr eq_refl).
  destruct (layout_table (m_base m) pre up down post Hwf Hb Hfit) as (Hnu & Hnd & Htab).
  rewrite <- Hmem in Hnu, Hnd, Htab. rewrite Hnu, Hnd. cbv beta iota zeta.
  unfold channel. destruct (Z.leb_spec 0 i) as [Hi0|Hi0]; cbn [andb]; [|done].
  destruct (Z.ltb_spec i (Z.of_nat (length down))) as [Hi1|Hi1].
  2:{ rewrite lookup_ge_None_2 by lia. done. }
  destruct (lookup_lt_is_Some_2 down (Z.to_nat i) ltac:(lia)) as [r Hj]. rewrite Hj, Nat2Z.id.
  rewrite (decode_descs_nth _ _ _ _ _ (length up + Z.to_nat i) Htab) by (rewrite length_app; lia).
  assert (Hjj : (up ++ down) !! (length up + Z.to_nat i) = Some r)
    by (by rewrite lookup_app_r, Nat.add_sub' by lia).
  rewrite Hjj, Hmem, layout_buffer_addr with (r := r) by (rewrite ?Nat2Z.inj_add in Hfit; done || lia).
  destruct (ring_write _ r) as [[cnt r']|] eqn:Hw; [|done].
  split; [|done]. pose proof (Forall_lookup_1 _ _ _ _ Hwf Hjj) as Hwr.
  destruct (ring_write_shape _ _ _ _ Hwr Hw) as (Hs & Hp & Hwf1).
  match goal with |- context [poke _ (Z.to_nat ?e) _] =>
    replace (Z.to_nat e) with (length pre + hdr_size + desc_size * (length up + length down) +
                               total (take (length up + Z.to_nat i) (up ++ down))) by lia
  end.
  rewrite layout_set_write with (r := r) by (try done; destruct Hwf1 as (_ & -> & _); done).
  assert (Hwf' : Forall ring_wf (up ++ <[Z.to_nat i := r']> down)).
  { rewrite <- insert_app_r. by apply Forall_insert. }
  apply (mrel_update m pre up down post); [done | done |].
  apply (length_layout_insert up down (length up + Z.to_nat i) r r'); try done.
  all: by rewrite insert_app_r.
Qed.

(** The memory-level J-Link discharges the simulation interface: every
    pylink operation behaves as on the channel-level probe. *)
#[export] Instance mem_sim : LibSim mrel.
Proof.
  split; intros;
    first [ apply rtt_start_sim | apply rtt_stop_sim | apply rtt_read_sim | apply rtt_write_sim
          | apply mlift_sim; probe_op ].
Qed.

End MemFacts.

Module MemThms.
Import MProbe MemFacts LibInvariant.

(** The dongle's world over the channel-level probe the memory describes. *)
Definition abs_world (st : world mprobe) : world probe :=
  mkWorld (mabs (w_lib st)) (w_self st) (w_trace st) (w_out st).

(** C40: the dongle over a J-Link that works on target memory (control
    block scanned for by [rtt_start], descriptors and buffers read and
    written back by [rtt_read] and [rtt_write]) refines the dongle over
    the channel-level probe: on memory holding a laid-out control block,
    any program of public methods raises the same exceptions, prints the
    same lines and makes the same pylink calls as over the probe whose
    channels that block describes, and at the end the memory still holds
    a control block describing the channels the probe then has. *)
Theorem mem_probe_refines ms (st : world mprobe) :
  minv (w_lib st) ->
  let '(st1, es1) := run_methods ms st in
  let '(st2, es2) := run_methods ms (abs_world st) in
  es1 = es2 /\ w_out st1 = w_out st2 /\ w_trace st1 = w_trace st2 /\ w_self st1 = w_self st2 /\
  minv (w_lib st1) /\ w_lib st2 = mabs (w_lib st1).
Proof.
  intros Hm. destruct (run_methods_sim mrel ms st (abs_world st)) as [(Hr & Hs & Ht & Ho) He].
  { split_and!; [split | ..]; done. }
  destruct (run_methods ms st) as [s1 e1], (run_methods ms (abs_world st)) as [s2 e2]; cbn in *.
  destruct Hr as [Hr Heq]. by split_and!.
Qed.

End MemThms.

Module MemWitness.
Import MProbe MemFacts LibInvariant MemThms.

(** Target RAM at 0x20000000: three bytes of other data, a control block
    with one 4-byte up channel holding "Hi" and one empty 8-byte down
    channel, two more bytes; RTT not started. *)
Definition hi_ring : ring := mkRing 4 [72; 105; 0; 0]%Z 0 2 Blocking.

Definition mem_world : world mprobe :=
  mkWorld (mkMProbe (mkProbe 7 None false [] [] [0%Z] "Cortex-M4" 4000 168000000) 536870912
                    ([1; 2; 3]%Z ++ layout (536870912 + Z.of_nat 3) [hi_ring] [empty_ring 8 Blocking] ++ [0; 0]%Z)
                    None)
          JLinkDongle_init [] [].

Lemma mem_world_minv : minv (w_lib mem_world).
Proof.
  exists [1; 2; 3]%Z, [hi_ring], [empty_ring 8 Blocking], [0; 0]%Z.
  split_and!; [reflexivity | repeat constructor; cbn; lia | cbn; lia | vm_compute; reflexivity | | by left | done].
  intros j Hj Heq. destruct j as [|[|[|j]]]; [vm_compute in Heq; discriminate Heq.. | cbn in Hj; lia].
Qed.

Definition mem_prog : list method := [MConnect; MWriteRtt [104; 105]%Z 0; MReadRtt 0].

Lemma mem_probe_refines_witness :
  minv (w_lib mem_world) /\
  let '(st1, es1) := run_methods mem_prog mem_world in
  let '(st2, es2) := run_methods mem_prog (abs_world mem_world) in
  es1 = es2 /\ w_out st1 = w_out st2 /\ w_trace st1 = w_trace st2 /\ w_self st1 = w_self st2 /\
  minv (w_lib st1) /\ w_lib st2 = mabs (w_lib st1).
Proof. split; [exact mem_world_minv | exact (mem_probe_refines mem_prog mem_world mem_world_minv)]. Defined.

(** On that memory, [connect()] finds the control block, [write_rtt]
    stores "hi" in the down channel's buffer in RAM, and [read_rtt(0)]
    returns the "Hi" the up channel held. *)
Example mem_world_run :
  snd (run_methods mem_prog mem_world) = [None; None; None] /\
  mem_chans (w_lib (fst (run_methods (take 2 mem_prog) mem_world))) =
    ([hi_ring], [mkRing 8 [104; 105; 0; 0; 0; 0; 0; 0]%Z 0 2 Blocking]) /\
  snd (read_rtt 0 (fst (run_methods (take 2 mem_prog) mem_world))) = inr [72; 105]%Z.
Proof. split_and!; vm_compute; reflexivity. Qed.

End MemWitness.
