(* ===== verification/Refinement.v ===== *)
(** * The dongle's byte-level methods refine the spec's channel manager

    The spec (sections 4.2 and 4.3) describes a client that is either
    [Disconnected] or [Connected] to a target exposing up and down channels,
    each a bounded FIFO queue with a policy, and whose caller-facing
    operations are [read(channel, max_bytes)], [write(channel, data)] and
    [reconnect()].  [ChannelSpec] writes that contract as a state machine
    [astep] on an abstract state.

    It follows the spec where it is specific: a write to a blocking
    channel without room writes what fits and signals [BufferFull]
    (sections 4.3 and 8), and [reconnect()] rediscovers the channels, so
    no read after it returns data buffered before it (section 8).

    [ByteCalls] runs the repository's methods [read_rtt], [write_rtt] and
    [reconnect] (Dongle.v) on the simulated probe of RttSim.v, and relates
    the two sides by the abstraction function [abs] (the dongle is
    [Connected] when [self.jlink] holds the probe with RTT running; each
    channel is seen as its queue of unread bytes) and by [code_result],
    which says how each of the spec's results shows in the code: the byte
    count of a write is dropped, [NotConnected] is the [AttributeError] of
    the unset slot, [InvalidChannel] and [BufferFull] are the generic "Do
    not read/write from RTT Terminal".  [read_rtt] is the spec's [read]
    with [max_bytes = 336]; [write_rtt(data)] is the spec's [write] of
    [bytes(data)].

    The code departs from this manager in two cases, which [diverges]
    names: a blocking write that does not fit (the code returns normally,
    Scenarios C24) and a [reconnect] while an up channel holds data (the
    code keeps the data, which lives in the target's memory, Scenarios
    C25).  The theorem C33: from any world where [self.jlink] is unset or
    holds the probe, every sequence of calls that avoids both cases
    returns what the manager returns and ends in the state it reaches, and
    each call in one of the two cases is observably different from the
    manager. *)

From S2P Require Import Prelude Utf8 PyFormat JLinkApi RttSim Dongle Scenarios.

Import JLinkApi Dongle DongleFacts Ring RingFacts Probe Harness ScenarioFacts.

Open Scope nat_scope.

(** ** The abstract specification *)
Module ChannelSpec.

(** A channel: the queue of unread bytes, the capacity and the policy. *)
Record achan := AChan { a_queue : list Z; a_cap : nat; a_policy : policy }.

Inductive astate :=
| ADisconnected
| AConnected (up down : list achan).

Inductive aop :=
| ARead (i n : nat)
| AWrite (i : nat) (data : list Z)
| AReconnect.

Inductive aresult :=
| RBytes (bs : list Z)
| RCount (k : nat)
| RBufferFull (k : nat)
| RDone
| RNotConnected
| RInvalidChannel.

(** One queue operation on a channel. *)
Definition achan_step (c : achan) (o : ring_op) : achan * ring_out :=
  let '(q', out) := fifo_step (a_cap c) (a_policy c) (a_queue c) o in
  (AChan q' (a_cap c) (a_policy c), out).

Definition out_result (o : ring_out) : aresult :=
  match o with inl bs => RBytes bs | inr k => RCount k end.

(** A write to a blocking channel without room for all the data: the
    bytes that fit are written and [BufferFull] is signalled for the rest
    (spec sections 4.3 and 8).  An overwrite channel takes everything. *)
Definition overflows (c : achan) (d : list Z) : bool :=
  match a_policy c with
  | Blocking => a_cap c - length (a_queue c) <? length d
  | Overwrite => false
  end.

(** After [reconnect] a read never returns data buffered before it
    (spec section 8): the channels are rediscovered empty. *)
Definition flush (c : achan) : achan := AChan [] (a_cap c) (a_policy c).

(** The channel manager: operations fail with [NotConnected] when
    disconnected and with [InvalidChannel] beyond the channel count; a
    blocking write that does not fit reports [BufferFull]; [reconnect]
    rediscovers the channels and drops what the up channels held. *)
Definition astep (s : astate) (o : aop) : astate * aresult :=
  match s with
  | ADisconnected => (s, RNotConnected)
  | AConnected up down =>
      match o with
      | ARead i n =>
          match up !! i with
          | None => (s, RInvalidChannel)
          | Some c =>
              let '(c', out) := achan_step c (ORead n) in
              (AConnected (<[i := c']> up) down, out_result out)
          end
      | AWrite i d =>
          match down !! i with
          | None => (s, RInvalidChannel)
          | Some c =>
              let '(c', out) := achan_step c (OWrite d) in
              (AConnected up (<[i := c']> down),
               if overflows c d then RBufferFull (a_cap c - length (a_queue c)) else out_result out)
          end
      | AReconnect => (AConnected (flush <$> up) down, RDone)
      end
  end.

Fixpoint spec_run (s : astate) (os : list aop) : astate * list aresult :=
  match os with
  | [] => (s, [])
  | o :: os =>
      let '(s1, r) := astep s o in
      let '(s2, rs) := spec_run s1 os in
      (s2, r :: rs)
  end.

End ChannelSpec.

(** ** The dongle's methods seen through the specification *)
Module ByteCalls.
Import ChannelSpec.

(** The calls a caller makes on the dongle's byte-level methods. *)
Inductive byte_call :=
| BRead (i : nat)
| BWrite (i : nat) (data : list Z)
| BReconnect.

(** Run the method; a returned value is shown as a spec result. *)
Definition exec (c : byte_call) (st : world probe) : world probe * (pyexc + aresult) :=
  match c with
  | BRead i =>
      let '(st', r) := read_rtt (Z.of_nat i) st in
      (st', match r with inl e => inl e | inr bs => inr (RBytes bs) end)
  | BWrite i d =>
      let '(st', r) := write_rtt d (Z.of_nat i) st in
      (st', match r with inl e => inl e | inr _ => inr RDone end)
  | BReconnect =>
      let '(st', r) := reconnect st in
      (st', match r with inl e => inl e | inr _ => inr RDone end)
  end.

Fixpoint exec_run (cs : list byte_call) (st : world probe)
    : world probe * list (pyexc + aresult) :=
  match cs with
  | [] => (st, [])
  | c :: cs =>
      let '(st1, r) := exec c st in
      let '(st2, rs) := exec_run cs st1 in
      (st2, r :: rs)
  end.

(** The spec operation a call performs: [read_rtt] reads [MAX_BUF_SIZE]
    bytes; [write_rtt] writes the bytes pylink's [c_ubyte] buffer holds. *)
Definition to_aop (c : byte_call) : aop :=
  match c with
  | BRead i => ARead i (Z.to_nat MAX_BUF_SIZE)
  | BWrite i d => AWrite i (map (fun b => b mod 256)%Z d)
  | BReconnect => AReconnect
  end.

(** How the spec's results show in the code: a failed read or write is
    the decorator's read/write error, a count is dropped. *)
Definition code_result (a : aresult) : pyexc + aresult :=
  match a with
  | RNotConnected => inl attr_error
  | RInvalidChannel | RBufferFull _ => inl (JLinkDongleException rw_message)
  | RCount _ => inr RDone
  | a => inr a
  end.

(** Where the code and the spec part: a blocking write that does not fit
    (the code reports nothing, C24) and a [reconnect] while an up channel
    holds data (the code keeps it, C25). *)
Definition diverges (s : astate) (o : aop) : bool :=
  match s, o with
  | AConnected _ down, AWrite i d =>
      match down !! i with Some c => overflows c d | None => false end
  | AConnected up _, AReconnect => existsb (fun c => negb (bool_decide (a_queue c = []))) up
  | _, _ => false
  end.

Fixpoint no_divergence (s : astate) (os : list aop) : bool :=
  match os with
  | [] => true
  | o :: os => negb (diverges s o) && no_divergence (fst (astep s o)) os
  end.

(** A channel seen as its queue. *)
Definition achan_of (r : ring) : achan :=
  AChan (default [] (contents r)) (r_size r - 1) (r_policy r).

(** The abstraction function: [Connected] when [self.jlink] holds the probe
    with RTT running. *)
Definition abs (st : world probe) : astate :=
  match jlink (w_self st), p_owner (w_lib st) with
  | Some h, Some h' =>
      if (h =? h') && p_rtt (w_lib st)
      then AConnected (achan_of <$> p_up (w_lib st)) (achan_of <$> p_down (w_lib st))
      else ADisconnected
  | _, _ => ADisconnected
  end.

(** The buffers of the channels hold bytes. *)
Definition chan_bytes (p : probe) : Prop :=
  Forall (fun r => Forall Utf8.is_byte (r_buf r)) (p_up p) /\
  Forall (fun r => Forall Utf8.is_byte (r_buf r)) (p_down p).

(** The worlds the refinement speaks of: [self.jlink] unset, or holding the
    probe with RTT running; well-formed channels of bytes. *)
Definition refinable (st : world probe) : Prop :=
  (jlink (w_self st) = None \/ exists h, session st h) /\
  probe_wf (w_lib st) /\ chan_bytes (w_lib st).

End ByteCalls.

Module RefinementFacts.
Import ChannelSpec ByteCalls.

Lemma abs_unset st : jlink (w_self st) = None -> abs st = ADisconnected.
Proof. unfold abs. by intros ->. Qed.

Lemma abs_session st h :
  session st h ->
  abs st = AConnected (achan_of <$> p_up (w_lib st)) (achan_of <$> p_down (w_lib st)).
Proof. unfold abs. intros (-> & -> & ->). by rewrite Nat.eqb_refl. Qed.

Lemma achan_of_contents r q :
  contents r = Some q -> achan_of r = AChan q (r_size r - 1) (r_policy r).
Proof. unfold achan_of. by intros ->. Qed.

(** A read or write naming a channel the target does not have: pylink
    raises, and the decorator relabels it with the read/write message. *)
Lemma read_rtt_invalid st h i :
  session st h -> p_up (w_lib st) !! i = None ->
  read_rtt (Z.of_nat i) st =
    (mkWorld (w_lib st) (w_self st) (w_trace st ++ [EvCall h (CRttRead (Z.of_nat i) MAX_BUF_SIZE)])
             (w_out st), inl (JLinkDongleException rw_message)).
Proof.
  intros (Hh & Ho & Hrtt) Hi. unfold read_rtt, check_exception.
  rewrite (jcall_some _ _ _ h Hh). cbn [jl_rtt_read sim_lib].
  unfold sim_rtt_read, open_required. by rewrite owns_self, Hrtt, channel_nat, Hi.
Qed.

Lemma write_rtt_invalid st h i d :
  session st h -> p_down (w_lib st) !! i = None ->
  write_rtt d (Z.of_nat i) st =
    (mkWorld (w_lib st) (w_self st) (w_trace st ++ [EvCall h (CRttWrite (Z.of_nat i) d)])
             (w_out st), inl (JLinkDongleException rw_message)).
Proof.
  intros (Hh & Ho & Hrtt) Hi. unfold write_rtt, check_exception, pym_bind.
  rewrite (jcall_some _ _ _ h Hh). cbn [jl_rtt_write sim_lib].
  unfold sim_rtt_write, open_required. by rewrite owns_self, Hrtt, channel_nat, Hi.
Qed.

(** Before the first [connect] every call raises [AttributeError] and
    changes nothing: the spec's [NotConnected]. *)
Lemma exec_unset c st :
  jlink (w_self st) = None -> exec c st = (st, inl attr_error).
Proof.
  intros Hn. destruct c; cbn [exec].
  - unfold read_rtt, check_exception. by rewrite jcall_none.
  - unfold write_rtt, check_exception, pym_bind. by rewrite jcall_none.
  - unfold reconnect, check_exception, pym_bind. by rewrite jcall_none.
Qed.

(** The world after a call that only changed the channels. *)
Lemma abs_rings st h up down tr out :
  session st h ->
  abs (mkWorld (with_rings (w_lib st) up down) (w_self st) tr out) =
    AConnected (achan_of <$> up) (achan_of <$> down).
Proof. intros Hs. erewrite (abs_session _ h); [reflexivity|]. by destruct Hs as (?&?&?). Qed.

Lemma refinable_rings st h up down tr out :
  session st h -> Forall ring_wf up -> Forall ring_wf down ->
  Forall (fun r => Forall Utf8.is_byte (r_buf r)) up ->
  Forall (fun r => Forall Utf8.is_byte (r_buf r)) down ->
  refinable (mkWorld (with_rings (w_lib st) up down) (w_self st) tr out).
Proof. intros (?&?&?) ????. split_and!; [right; exists h; by split_and! | by split | by split]. Qed.

(** The facts about channel [i] of a list of well-formed channels of
    bytes. *)
Lemma channel_facts rs i r :
  Forall ring_wf rs -> Forall (fun r => Forall Utf8.is_byte (r_buf r)) rs -> rs !! i = Some r ->
  exists q, ring_wf r /\ contents r = Some q /\ Forall Utf8.is_byte (r_buf r) /\
    Forall Utf8.is_byte q /\ i < length rs.
Proof.
  intros Hwf Hb Hr. pose proof (Forall_lookup_1 _ _ _ _ Hwf Hr) as Hwr.
  pose proof (Forall_lookup_1 _ _ _ _ Hb Hr) as Hbr. cbn beta in Hbr.
  destruct (contents_total r Hwr) as [q Hq]. exists q. split_and!; try done.
  - exact (contents_forall _ _ _ Hbr Hq).
  - exact (lookup_lt_Some _ _ _ Hr).
Qed.

(** [read_rtt(i)] on a session is the spec's [read(i, 336)]. *)
Lemma exec_read_refines st h i :
  session st h -> probe_wf (w_lib st) -> chan_bytes (w_lib st) ->
  exists st', exec (BRead i) st = (st', code_result (snd (astep (abs st) (to_aop (BRead i))))) /\
    abs st' = fst (astep (abs st) (to_aop (BRead i))) /\ refinable st'.
Proof.
  intros Hs [Hwu Hwd] [Hbu Hbd]. rewrite (abs_session st h Hs). cbn [to_aop astep].
  rewrite list_lookup_fmap. cbn [exec].
  destruct (p_up (w_lib st) !! i) as [u|] eqn:Hu; cbn [fmap option_fmap option_map].
  - destruct (channel_facts _ _ _ Hwu Hbu Hu) as (q & Hw & Hq & Hbuf & Hbq & Hi).
    destruct (ring_read_spec (Z.to_nat MAX_BUF_SIZE) u q Hw Hq) as (u' & Hrd & Hw' & Hq' & Hsz & Hp).
    rewrite (achan_of_contents u q Hq), (read_rtt_sim st h i u _ u' Hs Hu Hrd).
    rewrite map_mod_bytes by (by apply Forall_take).
    eexists; split_and!; [reflexivity | |].
    + rewrite (abs_rings _ h) by done. cbn.
      by rewrite list_fmap_insert, (achan_of_contents u' _ Hq'), Hsz, Hp.
    + apply (refinable_rings _ h); try done; apply Forall_insert; try done.
      by rewrite (ring_read_buf _ _ _ _ Hrd).
  - rewrite (read_rtt_invalid st h i Hs Hu). eexists; split_and!; [reflexivity | |].
    + erewrite (abs_session _ h); [reflexivity|]. by destruct Hs as (?&?&?).
    + split_and!; [right; exists h; by destruct Hs as (?&?&?) | by split | by split].
Qed.

(** [write_rtt(data, i)] on a session is the spec's [write(i, bytes(data))]
    with the count dropped, when the data fit or the channel overwrites. *)
Lemma exec_write_refines st h i d :
  session st h -> probe_wf (w_lib st) -> chan_bytes (w_lib st) ->
  diverges (abs st) (to_aop (BWrite i d)) = false ->
  exists st', exec (BWrite i d) st = (st', code_result (snd (astep (abs st) (to_aop (BWrite i d))))) /\
    abs st' = fst (astep (abs st) (to_aop (BWrite i d))) /\ refinable st'.
Proof.
  intros Hs [Hwu Hwd] [Hbu Hbd] Hnd. rewrite (abs_session st h Hs) in Hnd |- *.
  cbn [to_aop astep diverges] in Hnd |- *. rewrite list_lookup_fmap in Hnd |- *. cbn [exec].
  destruct (p_down (w_lib st) !! i) as [r|] eqn:Hr; cbn [fmap option_fmap option_map] in Hnd |- *.
  - rewrite Hnd.
    destruct (channel_facts _ _ _ Hwd Hbd Hr) as (q & Hw & Hq & Hbuf & _ & Hi).
    set (d' := map (fun b => b mod 256)%Z d).
    destruct (ring_step_spec r q (OWrite d') Hw Hq) as (r1 & Hst & Hw1 & Hq1 & Hsz & Hp).
    rewrite (achan_of_contents r q Hq). unfold achan_step. cbn [a_cap a_policy a_queue].
    destruct (fifo_step (r_size r - 1) (r_policy r) q (OWrite d')) as [q' out].
    cbn [fst snd ring_step] in Hst, Hq1 |- *.
    destruct (ring_write d' r) as [[k r1']|] eqn:Hwr; cbn in Hst; [|done].
    injection Hst as -> <-.
    rewrite (write_rtt_sim st h i d r k r1 Hs Hr Hwr).
    eexists; split_and!; [reflexivity | |].
    + rewrite (abs_rings _ h) by done. cbn.
      by rewrite list_fmap_insert, (achan_of_contents r1 _ Hq1), Hsz, Hp.
    + apply (refinable_rings _ h); try done; apply Forall_insert; try done.
      apply (ring_write_buf _ d' r k); [done | apply map_mod_is_byte | done].
  - rewrite (write_rtt_invalid st h i d Hs Hr). eexists; split_and!; [reflexivity | |].
    + erewrite (abs_session _ h); [reflexivity|]. by destruct Hs as (?&?&?).
    + split_and!; [right; exists h; by destruct Hs as (?&?&?) | by split | by split].
Qed.

(** Emptying every channel changes nothing exactly when every channel is
    empty. *)
Lemma flush_id l : flush <$> l = l <-> existsb (fun c => negb (bool_decide (a_queue c = []))) l = false.
Proof.
  induction l as [|[q cap pol] l IH]; [done|]. cbn [fmap list_fmap existsb a_queue]. unfold flush at 1.
  cbn [a_cap a_policy]. case_bool_decide as Hq; cbn [negb orb].
  - subst q. rewrite <- IH. split; [intros H; by injection H | by intros ->].
  - split; [intros H; injection H as <-; done | done].
Qed.

(** [reconnect()] on a session whose up channels hold nothing keeps the
    abstract state: the new object holds the probe, and the channels it
    rediscovers are empty as the spec wants. *)
Lemma exec_reconnect_refines st h :
  session st h -> probe_wf (w_lib st) -> chan_bytes (w_lib st) ->
  diverges (abs st) (to_aop BReconnect) = false ->
  exists st', exec BReconnect st = (st', code_result (snd (astep (abs st) (to_aop BReconnect)))) /\
    abs st' = fst (astep (abs st) (to_aop BReconnect)) /\ refinable st'.
Proof.
  intros Hs [Hwu Hwd] [Hbu Hbd] Hnd. rewrite (abs_session st h Hs) in Hnd |- *.
  cbn [to_aop astep exec diverges] in Hnd |- *. apply flush_id in Hnd. rewrite Hnd.
  destruct Hs as (Hh & Ho & _).
  destruct (reconnect_sim st h Hh Ho) as (p' & tr' & out' & -> & Ho' & Hr' & Hu & Hd).
  eexists; split_and!; [reflexivity | |].
  - rewrite (abs_session _ (p_next (w_lib st))) by (cbn; by split_and!). cbn. by rewrite Hu, Hd.
  - split_and!; [right; exists (p_next (w_lib st)); cbn; by split_and! | |];
      split; cbn; by rewrite ?Hu, ?Hd.
Qed.

(** One call outside the two divergences: the code does what the spec
    does. *)
Lemma exec_refines c st :
  refinable st -> diverges (abs st) (to_aop c) = false ->
  exists st', exec c st = (st', code_result (snd (astep (abs st) (to_aop c)))) /\
    abs st' = fst (astep (abs st) (to_aop c)) /\ refinable st'.
Proof.
  intros (Hst & Hwf & Hb) Hnd. destruct Hst as [Hn | [h Hs]].
  - exists st. rewrite exec_unset, abs_unset by done.
    split_and!; [by destruct c | by destruct c | by split_and!; [left | |]].
  - destruct c as [i|i d|].
    + exact (exec_read_refines st h i Hs Hwf Hb).
    + exact (exec_write_refines st h i d Hs Hwf Hb Hnd).
    + exact (exec_reconnect_refines st h Hs Hwf Hb Hnd).
Qed.

(** One call in a divergence: the code's result or its state is not the
    spec's. *)
Lemma exec_diverges c st :
  refinable st -> diverges (abs st) (to_aop c) = true ->
  snd (exec c st) <> code_result (snd (astep (abs st) (to_aop c))) \/
  abs (fst (exec c st)) <> fst (astep (abs st) (to_aop c)).
Proof.
  intros (Hst & Hwf & Hb) Hd. destruct Hst as [Hn | [h Hs]].
  { rewrite abs_unset in Hd by done. by destruct c. }
  rewrite (abs_session st h Hs) in Hd |- *. destruct c as [i|i d|]; cbn [to_aop diverges] in Hd.
  - discriminate.
  - left. rewrite list_lookup_fmap in Hd. cbn [to_aop astep]. rewrite list_lookup_fmap.
    destruct (p_down (w_lib st) !! i) as [r|] eqn:Hr; cbn [fmap option_fmap option_map] in Hd |- *;
      [|discriminate].
    rewrite Hd. destruct (achan_step _ _) as [c' out]. cbn [snd code_result].
    destruct (write_rtt_happy st h i d Hs Hwf) as (st' & Hw & _); [exact (lookup_lt_Some _ _ _ Hr)|].
    cbn [exec]. rewrite Hw. discriminate.
  - right. cbn [exec astep]. destruct Hs as (Hh & Ho & _).
    destruct (reconnect_sim st h Hh Ho) as (p' & tr' & out' & -> & Ho' & Hr' & Hu & Hdn).
    rewrite (abs_session _ (p_next (w_lib st))) by (cbn; by split_and!). cbn [fst w_lib].
    rewrite Hu, Hdn. intros [= Heq]. symmetry in Heq. apply flush_id in Heq. congruence.
Qed.

End RefinementFacts.

Module RefinementThms.
Import ChannelSpec ByteCalls RefinementFacts RingThms.

(** C33: refinement of the spec's channel manager, and where it stops.
    The abstract manager follows the spec: a blocking write that does
    not fit signals [BufferFull], and [reconnect] drops what the up
    channels held.  From a world where [self.jlink] is unset or holds the
    probe with RTT running, every sequence of [read_rtt], [write_rtt] and
    [reconnect] calls that avoids those two cases returns, call by call,
    what the manager returns (through [code_result]: counts dropped,
    [NotConnected] as [AttributeError], [InvalidChannel] and
    [BufferFull] as the read/write error) and reaches the manager's
    state; and a call in one of those two cases gets a different result
    or leaves a different state. *)
Theorem dongle_refines_channel_spec cs st :
  refinable st ->
  (no_divergence (abs st) (to_aop <$> cs) = true ->
   snd (exec_run cs st) = code_result <$> snd (spec_run (abs st) (to_aop <$> cs)) /\
   abs (fst (exec_run cs st)) = fst (spec_run (abs st) (to_aop <$> cs))) /\
  (forall c, diverges (abs st) (to_aop c) = true ->
   snd (exec c st) <> code_result (snd (astep (abs st) (to_aop c))) \/
   abs (fst (exec c st)) <> fst (astep (abs st) (to_aop c))).
Proof.
  intros Hr. split; [|intros c; by apply exec_diverges]. revert st Hr.
  induction cs as [|c cs IH]; intros st Hr Hnd; [done|].
  cbn [fmap list_fmap no_divergence] in Hnd. apply andb_prop in Hnd as [Hd Hnd].
  apply negb_true_iff in Hd.
  destruct (exec_refines c st Hr Hd) as (st1 & Hex & Habs & Hr1).
  cbn [exec_run spec_run fmap list_fmap]. rewrite Hex.
  destruct (astep (abs st) (to_aop c)) as [s1 a]. cbn [fst snd] in Habs, Hnd |- *.
  rewrite <- Habs in Hnd. destruct (IH st1 Hr1 Hnd) as [Hout Hfin]. rewrite Habs in Hout, Hfin.
  destruct (exec_run cs st1) as [st2 rs], (spec_run s1 _) as [s2 as'].
  cbn in *. by subst.
Qed.

(** Write three bytes to the target, read what the target had sent (the
    two bytes pending on a wrapped up channel), reconnect with the up
    channel drained, read a channel the target does not have: no call
    diverges, and the code follows the spec.  A [reconnect] while the two
    bytes are still pending diverges, and the code differs there. *)
Lemma dongle_refines_channel_spec_witness :
  no_divergence (abs (session_world [sample_ring Blocking] [empty_ring 8 Blocking]))
    (to_aop <$> [BWrite 0 [1; 2; 3]%Z; BRead 0; BReconnect; BRead 3]) = true /\
  snd (exec_run [BWrite 0 [1; 2; 3]%Z; BRead 0; BReconnect; BRead 3]
         (session_world [sample_ring Blocking] [empty_ring 8 Blocking])) =
    code_result <$> snd (spec_run (abs (session_world [sample_ring Blocking] [empty_ring 8 Blocking]))
                                  (to_aop <$> [BWrite 0 [1; 2; 3]%Z; BRead 0; BReconnect; BRead 3])) /\
  abs (fst (exec_run [BWrite 0 [1; 2; 3]%Z; BRead 0; BReconnect; BRead 3]
              (session_world [sample_ring Blocking] [empty_ring 8 Blocking]))) =
    fst (spec_run (abs (session_world [sample_ring Blocking] [empty_ring 8 Blocking]))
                  (to_aop <$> [BWrite 0 [1; 2; 3]%Z; BRead 0; BReconnect; BRead 3])) /\
  diverges (abs (session_world [sample_ring Blocking] [empty_ring 8 Blocking])) (to_aop BReconnect) = true /\
  (snd (exec BReconnect (session_world [sample_ring Blocking] [empty_ring 8 Blocking])) <>
     code_result (snd (astep (abs (session_world [sample_ring Blocking] [empty_ring 8 Blocking]))
                             (to_aop BReconnect))) \/
   abs (fst (exec BReconnect (session_world [sample_ring Blocking] [empty_ring 8 Blocking]))) <>
     fst (astep (abs (session_world [sample_ring Blocking] [empty_ring 8 Blocking])) (to_aop BReconnect))).
Proof.
  pose proof (dongle_refines_channel_spec [BWrite 0 [1; 2; 3]%Z; BRead 0; BReconnect; BRead 3]
                (session_world [sample_ring Blocking] [empty_ring 8 Blocking])
                ltac:(split_and!; [right; exists 7; by split_and! | split; cbn; auto with rtt
                                  | split; repeat (apply Forall_cons_2 || apply Forall_nil_2);
                                    auto with rtt])) as [H Hd].
  assert (Hn : no_divergence (abs (session_world [sample_ring Blocking] [empty_ring 8 Blocking]))
                 (to_aop <$> [BWrite 0 [1; 2; 3]%Z; BRead 0; BReconnect; BRead 3]) = true)
    by (vm_compute; reflexivity).
  assert (Hr : diverges (abs (session_world [sample_ring Blocking] [empty_ring 8 Blocking]))
                 (to_aop BReconnect) = true) by (vm_compute; reflexivity).
  split_and!; [exact Hn | exact (proj1 (H Hn)) | exact (proj2 (H Hn)) | exact Hr | exact (Hd _ Hr)].
Defined.

(** The four results, evaluated: the write returns [None], the read the
    two pending bytes, [reconnect] [None], and the read of channel 3 the
    read/write message. *)
Example dongle_refines_channel_spec_outputs :
  snd (exec_run [BWrite 0 [1; 2; 3]%Z; BRead 0; BReconnect; BRead 3]
         (session_world [sample_ring Blocking] [empty_ring 8 Blocking])) =
  [inr RDone; inr (RBytes [13; 10]%Z); inr RDone; inl (JLinkDongleException rw_message)].
Proof. vm_compute. reflexivity. Qed.

End RefinementThms.
